(** * Memory and transcript core of the assistant: a shallow embedding

    The development follows the TypeScript sources:
    - [BM25Index]      the ranking index (class BM25Index),
    - [MemorySystem]   retrieval pipeline and context compaction,
    - [JSON]           the fragment of JSON.stringify / JSON.parse the
                       transcript store relies on,
    - [SessionManager] the append-only transcript store,
    - [JsPath]         the functions of node:path that the workspace
                       calls, in their POSIX form,
    - [Workspace]      the directory of the assistant (class Workspace),
    - [MemoryIndexing] the parts of MemorySystem that read its files.

    Modelling conventions.
    - A JavaScript string is a [string]: a sequence of 8-bit code units
      (the ISO-8859-1 range of UTF-16), so [String.length] is [.length].
    - A JavaScript [number] that holds a score, a similarity or a document
      timestamp is a real number ([R]): IEEE rounding is idealised away,
      [Math.log] is [ln] and [Math.pow] is [Rpower].  Numbers that the
      code only uses as integers (token counts, budgets, limits,
      transcript timestamps) are [nat] or [Z].
    - A JavaScript [Map] that is iterated in insertion order is an
      association list with the [Map] operations; a [Map] that is only
      read through [get]/[set]/[delete]/[keys] is a [gmap].
    - [Date.now()] and [randomUUID()] are inputs of the operations that
      call them, and so are [process.cwd()], [homedir()] and what the
      file system answers. *)

From Stdlib Require Import String Ascii List ZArith Lia Reals Lra Bool.
From Stdlib Require Import Sorted Permutation.
From stdpp Require Import gmap strings list fin_maps.

Local Open Scope string_scope.
Local Open Scope list_scope.

(* ===================================================================== *)
(** * JavaScript string primitives *)
(* ===================================================================== *)

Module JsString.

Definition code (c : ascii) : nat := nat_of_ascii c.

Definition in_range (lo hi : nat) (c : ascii) : bool :=
  (lo <=? code c)%nat && (code c <=? hi)%nat.

(** [String.prototype.toLowerCase] on one code unit of the 8-bit range:
    A-Z, and the Latin-1 capitals U+00C0..U+00DE except U+00D7. *)
Definition lower_char (c : ascii) : ascii :=
  if in_range 65 90 c then ascii_of_nat (code c + 32)
  else if in_range 192 222 c && negb (code c =? 215)%nat
       then ascii_of_nat (code c + 32)
       else c.

Fixpoint toLowerCase (s : string) : string :=
  match s with
  | EmptyString => EmptyString
  | String c s' => String (lower_char c) (toLowerCase s')
  end.

(** The class [a-z0-9]. *)
Definition is_lower_alnum (c : ascii) : bool :=
  in_range 97 122 c || in_range 48 57 c.

(** The class [\w] = [A-Za-z0-9_]. *)
Definition is_word_char (c : ascii) : bool :=
  in_range 97 122 c || in_range 65 90 c || in_range 48 57 c
  || (code c =? 95)%nat.

(** The class [\s], which is also the set [trim] strips: TAB, LF, VT, FF,
    CR, SPACE and NBSP are its members below U+0100. *)
Definition is_space (c : ascii) : bool :=
  in_range 9 13 c || (code c =? 32)%nat || (code c =? 160)%nat.

(** [s.split(/[class]+/)]: the pieces between the maximal runs of
    separator characters; a run at either end leaves an empty piece, and
    the empty string splits into one empty piece.  [in_run] tells that
    the previous character was a separator. *)
Fixpoint split_runs_from (sep : ascii -> bool) (in_run : bool) (s : string)
  : list string :=
  match s with
  | EmptyString => [EmptyString]
  | String c s' =>
      if sep c then
        if in_run then split_runs_from sep true s'
        else EmptyString :: split_runs_from sep true s'
      else
        match split_runs_from sep false s' with
        | p :: ps => String c p :: ps
        | [] => [String c EmptyString]
        end
  end.

Definition split_runs (sep : ascii -> bool) (s : string) : list string :=
  split_runs_from sep false s.

(** [s.split(c)] for a one-character separator: every occurrence ends a
    piece. *)
Fixpoint split_char (c0 : ascii) (s : string) : list string :=
  match s with
  | EmptyString => [EmptyString]
  | String c s' =>
      if Ascii.eqb c c0 then EmptyString :: split_char c0 s'
      else
        match split_char c0 s' with
        | p :: ps => String c p :: ps
        | [] => [String c EmptyString]
        end
  end.

(** [lines.join(sep)]. *)
Fixpoint join (sep : string) (l : list string) : string :=
  match l with
  | [] => EmptyString
  | [x] => x
  | x :: l' => x +:+ sep +:+ join sep l'
  end.

Fixpoint trimStart (s : string) : string :=
  match s with
  | EmptyString => EmptyString
  | String c s' => if is_space c then trimStart s' else s
  end.

(** [trimEnd] keeps a character when it is not a space or when something
    is kept after it. *)
Fixpoint trimEnd (s : string) : string :=
  match s with
  | EmptyString => EmptyString
  | String c s' =>
      match trimEnd s' with
      | EmptyString => if is_space c then EmptyString else String c EmptyString
      | t => String c t
      end
  end.

Definition trim (s : string) : string := trimEnd (trimStart s).

Definition startsWith (s : string) (p : string) : bool := String.prefix p s.

(** [s.slice(n)] for [0 <= n]. *)
Fixpoint slice_from (n : nat) (s : string) : string :=
  match n, s with
  | O, _ => s
  | S n', String _ s' => slice_from n' s'
  | S _, EmptyString => EmptyString
  end.

(** [s.slice(0, n)] for [0 <= n]. *)
Fixpoint slice_to (n : nat) (s : string) : string :=
  match n, s with
  | S n', String c s' => String c (slice_to n' s')
  | _, _ => EmptyString
  end.

End JsString.

(* ===================================================================== *)
(** * JavaScript array and Map primitives *)
(* ===================================================================== *)

Module JsArray.

(** [arr.slice(0, limit)] for an integer [limit]: a negative [limit]
    counts from the end, so the last [-limit] elements are dropped. *)
Definition slice0 {A : Type} (l : list A) (limit : Z) : list A :=
  if (limit <? 0)%Z
  then firstn (Z.to_nat (Z.of_nat (length l) + limit)) l
  else firstn (Z.to_nat limit) l.

(** [arr.splice(i, 1)]: the array without its element at index [i]. *)
Fixpoint remove_at {A : Type} (i : nat) (l : list A) : list A :=
  match l, i with
  | [], _ => []
  | _ :: l', O => l'
  | x :: l', S i' => x :: remove_at i' l'
  end.

(** Insertion of [x], which came first in the array, into the sorted
    rest: [x] passes only the elements that have to come before it, so
    elements that compare equal keep their order. *)
Fixpoint insert_by {A : Type} (before : A -> A -> bool) (x : A) (l : list A)
  : list A :=
  match l with
  | [] => [x]
  | y :: l' => if before y x then y :: insert_by before x l' else x :: l
  end.

(** [arr.sort(cmp)] for a comparator that is a strict weak order:
    [before x y] says [cmp(x, y) < 0].  Array.prototype.sort is stable, so
    the result is the one of a stable insertion sort. *)
Definition sort_by {A : Type} (before : A -> A -> bool) (l : list A) : list A :=
  fold_right (insert_by before) [] l.

End JsArray.

(** A [Map<string, V>] in insertion order. *)
Module JsMap.

Section Ops.
Context {V : Type}.

Fixpoint get (k : string) (m : list (string * V)) : option V :=
  match m with
  | [] => None
  | (k', v) :: m' => if String.eqb k k' then Some v else get k m'
  end.

(** [set] keeps the position of a key that is present and appends a new
    key. *)
Fixpoint set (k : string) (v : V) (m : list (string * V)) : list (string * V) :=
  match m with
  | [] => [(k, v)]
  | (k', v') :: m' =>
      if String.eqb k k' then (k, v) :: m' else (k', v') :: set k v m'
  end.

Fixpoint delete (k : string) (m : list (string * V)) : list (string * V) :=
  match m with
  | [] => []
  | (k', v') :: m' =>
      if String.eqb k k' then m' else (k', v') :: delete k m'
  end.

Definition keys (m : list (string * V)) : list string := map fst m.
Definition values (m : list (string * V)) : list V := map snd m.
Definition size (m : list (string * V)) : nat := length m.

End Ops.

End JsMap.

(* ===================================================================== *)
(** * BM25Index *)
(* ===================================================================== *)

Module BM25Index.

Record IndexedDocument := {
  doc_id : string;
  doc_path : string;
  doc_content : string;
  doc_timestamp : R;
  doc_terms : gmap string nat;   (* term -> frequency *)
  doc_length : nat               (* number of terms *)
}.

Record BM25Config := { k1 : R; b : R }.

Definition DEFAULT_BM25_CONFIG : BM25Config :=
  {| k1 := 12 / 10; b := 75 / 100 |}.

Record t := {
  documents : list (string * IndexedDocument);
  documentFrequency : gmap string nat;
  avgDocLength : R;
  config : BM25Config
}.

(** [new BM25Index(config)]. *)
Definition create (cfg : BM25Config) : t :=
  {| documents := []; documentFrequency := ∅; avgDocLength := 0;
     config := cfg |}.

Definition empty : t := create DEFAULT_BM25_CONFIG.

(** [tokenize]: lowercase, split on non-alphanumeric runs, keep the terms
    longer than one character. *)
Definition tokenize (text : string) : list string :=
  List.filter (fun term => (1 <? String.length term)%nat)
    (JsString.split_runs (fun c => negb (JsString.is_lower_alnum c))
       (JsString.toLowerCase text)).

(** [m.get(term) ?? 0]. *)
Definition get0 (m : gmap string nat) (term : string) : nat :=
  default 0%nat (m !! term).

(** The keys of a term map; the loops over them only perform updates
    that commute, so their order is immaterial. *)
Definition term_keys (m : gmap string nat) : list string :=
  (map_to_list m).*1.

(** The loop that counts term frequencies. *)
Definition count_terms (terms : list string) : gmap string nat :=
  fold_left (fun tf term => <[term := (get0 tf term + 1)%nat]> tf) terms ∅.

(** One step of removing a document's contribution. *)
Definition df_decrement (df : gmap string nat) (term : string)
  : gmap string nat :=
  let n := get0 df term in
  if (1 <? n)%nat then <[term := (n - 1)%nat]> df else delete term df.

(** One step of adding a document's contribution. *)
Definition df_increment (df : gmap string nat) (term : string)
  : gmap string nat :=
  <[term := (get0 df term + 1)%nat]> df.

Definition total_length (docs : list (string * IndexedDocument)) : nat :=
  fold_left (fun acc d => (acc + doc_length d)%nat) (JsMap.values docs) 0%nat.

(** [updateAvgDocLength]. *)
Definition updateAvgDocLength (docs : list (string * IndexedDocument)) : R :=
  if (JsMap.size docs =? 0)%nat then 0%R
  else (INR (total_length docs) / INR (JsMap.size docs))%R.

Definition addDocument (id path content : string) (timestamp : R) (idx : t)
  : t :=
  let terms := tokenize content in
  let termFrequency := count_terms terms in
  let df1 :=
    match JsMap.get id (documents idx) with
    | Some existingDoc =>
        fold_left df_decrement (term_keys (doc_terms existingDoc))
          (documentFrequency idx)
    | None => documentFrequency idx
    end in
  let df2 := fold_left df_increment (term_keys termFrequency) df1 in
  let docs :=
    JsMap.set id
      {| doc_id := id; doc_path := path; doc_content := content;
         doc_timestamp := timestamp; doc_terms := termFrequency;
         doc_length := length terms |}
      (documents idx) in
  {| documents := docs; documentFrequency := df2;
     avgDocLength := updateAvgDocLength docs; config := config idx |}.

Definition removeDocument (id : string) (idx : t) : bool * t :=
  match JsMap.get id (documents idx) with
  | None => (false, idx)
  | Some doc =>
      let df := fold_left df_decrement (term_keys (doc_terms doc))
                  (documentFrequency idx) in
      let docs := JsMap.delete id (documents idx) in
      (true,
       {| documents := docs; documentFrequency := df;
          avgDocLength := updateAvgDocLength docs; config := config idx |})
  end.

(** [idf]. *)
Definition idf (idx : t) (term : string) : R :=
  let N := JsMap.size (documents idx) in
  let df := get0 (documentFrequency idx) term in
  if ((df =? 0)%nat || (N =? 0)%nat)%bool then 0%R
  else ln ((INR N - INR df + 5 / 10) / (INR df + 5 / 10) + 1).

(** [x || 1] on a number. *)
Definition or_one (x : R) : R := if Req_dec_T x 0 then 1%R else x.

(** [score]: the loop over the query terms, with its [continue]. *)
Definition score (idx : t) (doc : IndexedDocument) (queryTerms : list string)
  : R :=
  fold_left
    (fun score term =>
       let tf := get0 (doc_terms doc) term in
       if (tf =? 0)%nat then score
       else
         let idf := idf idx term in
         let lengthNorm :=
           (1 - b (config idx)
            + b (config idx)
              * (INR (doc_length doc) / or_one (avgDocLength idx)))%R in
         let tfNorm :=
           (INR tf * (k1 (config idx) + 1)
            / (INR tf + k1 (config idx) * lengthNorm))%R in
         (score + idf * tfNorm)%R)
    queryTerms 0%R.

Definition Rgtb (x y : R) : bool := if Rlt_dec y x then true else false.

(** [search]: the documents with a positive score, sorted by
    [(a, b) => b.score - a.score], cut by [slice(0, limit)]. *)
Definition search (idx : t) (query : string) (limit : Z)
  : list (IndexedDocument * R) :=
  let queryTerms := tokenize query in
  if (length queryTerms =? 0)%nat then []
  else
    let results :=
      List.filter (fun r => Rgtb (snd r) 0)
        (map (fun doc => (doc, score idx doc queryTerms))
           (JsMap.values (documents idx))) in
    JsArray.slice0
      (JsArray.sort_by (fun a b => Rgtb (snd a) (snd b)) results) limit.

(** The operations that mutate an index. *)
Inductive op :=
| Add (id path content : string) (timestamp : R)
| Remove (id : string).

Definition apply_op (idx : t) (o : op) : t :=
  match o with
  | Add id path content timestamp => addDocument id path content timestamp idx
  | Remove id => snd (removeDocument id idx)
  end.

Definition run (ops : list op) (idx : t) : t := fold_left apply_op ops idx.

(** The number of stored documents whose term map contains [term]. *)
Definition containing (term : string) (docs : list (string * IndexedDocument))
  : nat :=
  length (List.filter
            (fun d => bool_decide (is_Some (doc_terms d !! term)))
            (JsMap.values docs)).

(** [get size()]. *)
Definition size (idx : t) : nat := JsMap.size (documents idx).

(** [getAllDocuments()]: the documents in the order of the [Map]. *)
Definition getAllDocuments (idx : t) : list IndexedDocument :=
  JsMap.values (documents idx).

(** [clear()]. *)
Definition clear (idx : t) : t :=
  {| documents := []; documentFrequency := ∅; avgDocLength := 0;
     config := config idx |}.

(** The states of an index: a new index, and what [addDocument],
    [removeDocument] and [clear] make of a state. *)
Inductive reachable : t -> Prop :=
| reach_create cfg : reachable (create cfg)
| reach_add idx id path content timestamp :
    reachable idx -> reachable (addDocument id path content timestamp idx)
| reach_remove idx id :
    reachable idx -> reachable (snd (removeDocument id idx))
| reach_clear idx : reachable idx -> reachable (clear idx).

End BM25Index.


(** The ranking formula in the words of the specification, to be
    compared with [BM25Index.score]. *)
Module BM25Formula.
Import BM25Index.

Section Formula.
Variable idx : BM25Index.t.

(** N: the number of indexed documents. *)
Definition N : R := INR (length (documents idx)).

(** df(t): the number of documents that contain [t]. *)
Definition df (term : string) : R := INR (containing term (documents idx)).

(** avgDocLen: the mean number of terms of a document. *)
Definition avgDocLen : R :=
  (INR (total_length (documents idx)) / INR (length (documents idx)))%R.

(** tf(t,d): the occurrences of [t] in [d]. *)
Definition tf (term : string) (doc : IndexedDocument) : R :=
  INR (get0 (doc_terms doc) term).

Definition idf (term : string) : R :=
  ln ((N - df term + 5 / 10) / (df term + 5 / 10) + 1).

Definition lengthNorm (doc : IndexedDocument) : R :=
  (1 - b (config idx)
   + b (config idx) * (INR (doc_length doc) / avgDocLen))%R.

Definition tfNorm (term : string) (doc : IndexedDocument) : R :=
  (tf term doc * (k1 (config idx) + 1)
   / (tf term doc + k1 (config idx) * lengthNorm doc))%R.

(** score(d): the sum over the query terms. *)
Definition score (doc : IndexedDocument) (queryTerms : list string) : R :=
  fold_right Rplus 0%R
    (map (fun term => (idf term * tfNorm term doc)%R) queryTerms).

End Formula.

(** The document contains at least one of the terms. *)
Definition mentions (queryTerms : list string) (doc : IndexedDocument) : bool :=
  existsb (fun term => negb (get0 (doc_terms doc) term =? 0)%nat) queryTerms.


End BM25Formula.

(* ===================================================================== *)
(** * Transcript entries *)
(* ===================================================================== *)

Module Transcript.

Inductive Role := user | assistant | tool.

Record ToolCall := {
  tc_id : string; tc_name : string; tc_arguments : string
}.

Record ToolResult := {
  tr_callId : string; tr_success : bool; tr_output : string
}.

Record TranscriptEntry := {
  id : string;
  role : Role;
  content : string;
  timestamp : Z;
  toolCall : option ToolCall;
  toolResult : option ToolResult
}.

Definition is_tool (r : Role) : bool :=
  match r with tool => true | _ => false end.

End Transcript.

(* ===================================================================== *)
(** * Numbers as text, and the one product the compactor rounds *)
(* ===================================================================== *)

Module JsNumber.

Definition digit_char (d : N) : ascii := ascii_of_N (48 + d).

(** The decimal digits of [n], most significant first; [fuel] bounds the
    number of digits. *)
Fixpoint digits_from (fuel : nat) (n : N) (acc : string) : string :=
  match fuel with
  | O => acc
  | S fuel' =>
      let acc' := String (digit_char (n mod 10)) acc in
      if (n / 10 =? 0)%N then acc' else digits_from fuel' (n / 10)%N acc'
  end.

Definition N_toString (n : N) : string :=
  digits_from (S (N.to_nat (N.log2 n))) n EmptyString.

(** [String(z)] for an integer below 1e21 in magnitude. *)
Definition toString (z : Z) : string :=
  match z with
  | Z0 => "0"
  | Zpos p => N_toString (Npos p)
  | Zneg p => String "-" (N_toString (Npos p))
  end.

(** The significand of the double nearest to 0.7, which is
    [mantissa_0_7 / 2^53]. *)
Definition mantissa_0_7 : Z := 6305039478318694.

(** Round-to-nearest-even of a natural number [n] to 53 significant
    bits. *)
Definition round53 (n : Z) : Z :=
  let s := (Z.log2 n - 52)%Z in
  if (s <=? 0)%Z then n
  else
    let q := Z.shiftr n s in
    let r := Z.land n (Z.ones s) in
    let half := Z.shiftl 1 (s - 1) in
    let q' :=
      if (half <? r)%Z || ((r =? half)%Z && Z.odd q) then (q + 1)%Z else q in
    Z.shiftl q' s.

(** [Math.floor(limit * 0.7)] in binary64 arithmetic, for an integer
    [limit] that a double holds exactly: the exact product
    [limit * mantissa_0_7 / 2^53] is rounded to the nearest double, then
    to the integer below. *)
Definition floor_mul_0_7 (limit : Z) : Z :=
  let n := (Z.abs limit * mantissa_0_7)%Z in
  let rounded := round53 n in
  if (limit <? 0)%Z then (- rounded / 2 ^ 53)%Z else (rounded / 2 ^ 53)%Z.

End JsNumber.

(* ===================================================================== *)
(** * MemorySystem *)
(* ===================================================================== *)

Module MemorySystem.
Import Transcript.

Record MemoryConfig := {
  maxContextTokens : Z;
  temporalDecayHalfLife : R   (* days *)
}.

Definition DEFAULT_MEMORY_CONFIG : MemoryConfig :=
  {| maxContextTokens := 100000; temporalDecayHalfLife := 7 |}.

Record SearchResult := {
  sr_path : string;
  sr_content : string;
  sr_score : R;
  sr_timestamp : R
}.

(** The state a [MemorySystem] owns: its index and the note files it has
    written under the memory directory (path -> content). *)
Record t := {
  config : MemoryConfig;
  bm25Index : BM25Index.t;
  notes : gmap string string
}.

Definition halfLifeMs (cfg : MemoryConfig) : R :=
  (temporalDecayHalfLife cfg * 24 * 60 * 60 * 1000)%R.

(** [Math.pow(0.5, ageMs / halfLifeMs)]. *)
Definition decayFactor (cfg : MemoryConfig) (now timestamp : R) : R :=
  Rpower (5 / 10) ((now - timestamp) / halfLifeMs cfg).

(** [applyTemporalDecay]. *)
Definition applyTemporalDecay (cfg : MemoryConfig) (now : R)
  (score timestamp : R) : R :=
  (score * decayFactor cfg now timestamp)%R.

(** [new Set(text.toLowerCase().split(/\s+/))]. *)
Definition token_set (text : string) : gset string :=
  list_to_set (JsString.split_runs JsString.is_space (JsString.toLowerCase text)).

(** The sizes of the intersection and of the union of the token sets. *)
Definition jaccard_sizes (text1 text2 : string) : nat * nat :=
  let tokens1 := token_set text1 in
  let tokens2 := token_set text2 in
  (size (tokens1 ∩ tokens2), size (tokens1 ∪ tokens2)).

(** [jaccardSimilarity]. *)
Definition jaccardSimilarity (text1 text2 : string) : R :=
  let '(inter, union) := jaccard_sizes text1 text2 in
  if (union =? 0)%nat then 0%R else (INR inter / INR union)%R.

(** The inner loop over [selected]: the largest similarity, from 0. *)
Definition maxSimilarity (candidate : SearchResult)
  (selected : list SearchResult) : R :=
  fold_left
    (fun maxSim sel =>
       Rmax maxSim (jaccardSimilarity (sr_content candidate) (sr_content sel)))
    selected 0%R.

Definition mmrScore (lambda : R) (selected : list SearchResult)
  (candidate : SearchResult) : R :=
  (lambda * sr_score candidate
   - (1 - lambda) * maxSimilarity candidate selected)%R.

(** [mmrScore > bestMmrScore], where [None] is the initial [-Infinity]. *)
Definition better (x : R) (best : option R) : bool :=
  match best with
  | None => true
  | Some y => BM25Index.Rgtb x y
  end.

(** The scan for [bestIdx]: state (bestIdx, bestMmrScore, i). *)
Definition best_index (f : SearchResult -> R) (remaining : list SearchResult)
  : nat :=
  fst (fst
    (fold_left
       (fun '(bestIdx, best, i) candidate =>
          if better (f candidate) best
          then (i, Some (f candidate), S i)
          else (bestIdx, best, S i))
       remaining (0%nat, None, 0%nat))).

(** The [while] loop of [mmrRerank]; every round removes one element of
    [remaining], so [length remaining] rounds are all it can run. *)
Fixpoint mmr_loop (rounds : nat) (limit : Z) (lambda : R)
  (selected remaining : list SearchResult) : list SearchResult :=
  match rounds with
  | O => selected
  | S rounds' =>
      if (Z.of_nat (length selected) <? limit)%Z
         && (0 <? length remaining)%nat
      then
        let bestIdx := best_index (mmrScore lambda selected) remaining in
        let selected' :=
          match nth_error remaining bestIdx with
          | Some best => selected ++ [best]
          | None => selected
          end in
        mmr_loop rounds' limit lambda selected'
          (JsArray.remove_at bestIdx remaining)
      else selected
  end.

(** [mmrRerank]. *)
Definition mmrRerank (results : list SearchResult) (limit : Z) (lambda : R)
  : list SearchResult :=
  if (length results <=? 1)%nat then JsArray.slice0 results limit
  else
    match results with
    | [] => []
    | first :: remaining =>
        mmr_loop (length remaining) limit lambda [first] remaining
    end.

Definition DEFAULT_LAMBDA : R := 7 / 10.

Definition decayedResults (cfg : MemoryConfig) (now : R)
  (bm25Results : list (BM25Index.IndexedDocument * R)) : list SearchResult :=
  map (fun '(doc, score) =>
         {| sr_path := BM25Index.doc_path doc;
            sr_content := BM25Index.doc_content doc;
            sr_score := score * decayFactor cfg now (BM25Index.doc_timestamp doc);
            sr_timestamp := BM25Index.doc_timestamp doc |})
      bm25Results.

(** [search(query, limit)]; [now] is the value of [Date.now()]. *)
Definition search (m : t) (now : R) (query : string) (limit : Z)
  : list SearchResult :=
  let bm25Results := BM25Index.search (bm25Index m) query (limit * 2) in
  if (length bm25Results =? 0)%nat then []
  else
    let decayed := decayedResults (config m) now bm25Results in
    let sorted :=
      JsArray.sort_by
        (fun a b => BM25Index.Rgtb (sr_score a) (sr_score b)) decayed in
    mmrRerank sorted limit DEFAULT_LAMBDA.

(** [estimateTokens]: [Math.ceil(text.length / 4)]. *)
Definition estimateTokens (text : string) : Z :=
  ((Z.of_nat (String.length text) + 3) / 4)%Z.

Definition total_tokens (history : list TranscriptEntry) : Z :=
  fold_left (fun total entry => (total + estimateTokens (content entry))%Z)
    history 0%Z.

(** ** Fact extraction *)

(** Canonical form of a code unit under the [i] flag: only A-Z change. *)
Definition fold_case (c : ascii) : ascii :=
  if JsString.in_range 65 90 c then ascii_of_nat (JsString.code c + 32) else c.

Definition is_word (c : option ascii) : bool :=
  match c with Some c => JsString.is_word_char c | None => false end.

Definition head (s : string) : option ascii :=
  match s with EmptyString => None | String c _ => Some c end.

(** [\b] between [prev] and [next]. *)
Definition word_boundary (prev next : option ascii) : bool :=
  xorb (is_word prev) (is_word next).

(** The literal [w] read at the start of [s] under the [i] flag, followed
    by [\b]; [prev] is the character before [s]. *)
Fixpoint literal_then_boundary (w : string) (prev : option ascii) (s : string)
  : bool :=
  match w with
  | EmptyString => word_boundary prev (head s)
  | String a w' =>
      match s with
      | String c s' =>
          Ascii.eqb (fold_case c) a && literal_then_boundary w' (Some c) s'
      | EmptyString => false
      end
  end.

(** [/\b(w1|...|wn)\b/i.test(s)] from the position after [prev]. *)
Fixpoint test_words_from (words : list string) (prev : option ascii)
  (s : string) : bool :=
  (word_boundary prev (head s)
   && existsb (fun w => literal_then_boundary w prev s) words)
  || match s with
     | EmptyString => false
     | String c s' => test_words_from words (Some c) s'
     end.

Definition test_words (words : list string) (s : string) : bool :=
  test_words_from words None s.

Definition isDefinition : string -> bool :=
  test_words ["is"; "are"; "was"; "were"; "means"; "refers to"].
Definition isPreference : string -> bool :=
  test_words ["prefer"; "like"; "want"; "need"; "should"; "must"].
Definition isStatement : string -> bool :=
  test_words ["always"; "never"; "usually"; "typically"; "important"].

Definition is_fact_like (trimmed : string) : bool :=
  isDefinition trimmed || isPreference trimmed || isStatement trimmed.

Definition is_sentence_end (c : ascii) : bool :=
  (JsString.code c =? 46)%nat || (JsString.code c =? 33)%nat
  || (JsString.code c =? 63)%nat.

(** [entry.content.split(/[.!?]+/).filter(s => s.trim().length > 10)]. *)
Definition sentences (text : string) : list string :=
  List.filter (fun s => (10 <? String.length (JsString.trim s))%nat)
    (JsString.split_runs is_sentence_end text).

Definition limit_fact (trimmed : string) : string :=
  if (100 <? String.length trimmed)%nat
  then JsString.slice_to 100 trimmed +:+ "..."
  else trimmed.

(** The loop over the sentences of one entry, with its [break]. *)
Fixpoint scan_sentences (ss : list string) (facts : list string)
  : list string :=
  match ss with
  | [] => facts
  | sentence :: rest =>
      let trimmed := JsString.trim sentence in
      if is_fact_like trimmed then
        let facts' := facts ++ [limit_fact trimmed] in
        if (10 <=? length facts')%nat then facts'
        else scan_sentences rest facts'
      else scan_sentences rest facts
  end.

(** The loop over the entries, with its [continue] and [break]. *)
Fixpoint scan_entries (entries : list TranscriptEntry) (facts : list string)
  : list string :=
  match entries with
  | [] => facts
  | entry :: rest =>
      if is_tool (role entry) then scan_entries rest facts
      else
        let facts' := scan_sentences (sentences (content entry)) facts in
        if (10 <=? length facts')%nat then facts'
        else scan_entries rest facts'
  end.

(** [extractFacts]. *)
Definition extractFacts (entries : list TranscriptEntry) : list string :=
  scan_entries entries [].

(** ** Compaction *)

Section Compaction.

(** [new Date(ms).toISOString()], a built-in whose text only enters the
    note that is written. *)
Variable toISOString : Z -> string.

Definition note_path (timestamp : Z) : string :=
  "workspace/memory/" +:+ "facts-" +:+ JsNumber.toString timestamp +:+ ".md".

Definition note_content (timestamp : Z) (facts : list string) : string :=
  JsString.join (String "010" EmptyString)
    (["# Extracted Facts"; ""; "Extracted at: " +:+ toISOString timestamp; ""]
     ++ map (fun f => "- " +:+ f) facts).

(** [flushFactsToDisk]; [now] is its reading of the clock.  The write is
    taken to succeed. *)
Definition flushFactsToDisk (m : t) (now : Z) (facts : list string) : t :=
  if (length facts =? 0)%nat then m
  else
    let content := note_content now facts in
    {| config := config m;
       bm25Index :=
         BM25Index.addDocument (note_path now) (note_path now) content
           (IZR now) (bm25Index m);
       notes := <[note_path now := content]> (notes m) |}.

(** The backward walk that collects the recent messages: [rev_history]
    is the history from the newest entry; it stops at the first entry
    that does not fit. *)
Fixpoint collect_recent (recentLimit : Z) (rev_history : list TranscriptEntry)
  (recentTokens : Z) (recentMessages : list TranscriptEntry)
  : list TranscriptEntry :=
  match rev_history with
  | [] => recentMessages
  | entry :: older =>
      let entryTokens := estimateTokens (content entry) in
      if (recentTokens + entryTokens <=? recentLimit)%Z
      then collect_recent recentLimit older (recentTokens + entryTokens)%Z
             (entry :: recentMessages)
      else recentMessages
  end.

Definition summaryContent (facts : list string) : string :=
  "[Context Summary: " +:+ JsString.join "; " facts +:+ "]".

(** [compact(history, maxTokens)]; [now] and [now'] are the readings of
    the clock for the summary entry and for the note. *)
Definition compact (m : t) (now now' : Z) (history : list TranscriptEntry)
  (maxTokens : option Z) : (list TranscriptEntry * list string) * t :=
  let limit := default (maxContextTokens (config m)) maxTokens in
  let totalTokens := total_tokens history in
  if (totalTokens <=? limit)%Z then ((history, []), m)
  else
    let recentLimit := JsNumber.floor_mul_0_7 limit in
    let recentMessages := collect_recent recentLimit (rev history) 0%Z [] in
    let olderMessages :=
      firstn (length history - length recentMessages) history in
    let facts := extractFacts olderMessages in
    let summary :=
      if (0 <? length olderMessages)%nat && (0 <? length facts)%nat
      then
        [ {| id := "summary-" +:+ JsNumber.toString now;
             role := assistant;
             content := summaryContent facts;
             timestamp :=
               match olderMessages with
               | e :: _ => timestamp e
               | [] => now
               end;
             toolCall := None;
             toolResult := None |} ]
      else [] in
    let flushedFacts :=
      if (0 <? length olderMessages)%nat && (0 <? length facts)%nat
      then facts else [] in
    let compactedHistory := summary ++ recentMessages in
    ((compactedHistory, flushedFacts), flushFactsToDisk m now' flushedFacts).

End Compaction.

(** ** Bootstrap files *)

(** [loadBootstrap()]: [soul] and [user] are the contents of SOUL.md and
    USER.md, [None] for a file that is missing or cannot be read.  It
    returns the prompt text and what it stores in [bootstrapCache]. *)
Definition loadBootstrap (soul user : option string)
  : string * (string * string) :=
  let soulContent := default "" soul in
  let userContent := default "" user in
  let parts :=
    (if (String.length (JsString.trim soulContent) =? 0)%nat then []
     else [JsString.trim soulContent])
    ++ (if (String.length (JsString.trim userContent) =? 0)%nat then []
        else [JsString.trim userContent]) in
  (JsString.join (String "010" (String "010" "")) parts,
   (soulContent, userContent)).

End MemorySystem.

(** The diversity bound in the words of the specification. *)
Module DiversityBound.
Import MemorySystem.

Definition similarity (x y : SearchResult) : R :=
  jaccardSimilarity (sr_content x) (sr_content y).

(** At least two of the candidates are sufficiently dissimilar. *)
Definition dissimilar_pair_exists (threshold : R)
  (candidates : list SearchResult) : Prop :=
  exists i j x y,
    i <> j /\ nth_error candidates i = Some x
    /\ nth_error candidates j = Some y
    /\ (similarity x y <= threshold)%R.

(** No two adjacent results are more similar than the threshold. *)
Definition adjacent_within (threshold : R) (out : list SearchResult) : Prop :=
  forall i x y,
    nth_error out i = Some x -> nth_error out (S i) = Some y ->
    (similarity x y <= threshold)%R.

Definition holds (threshold : R) (candidates : list SearchResult)
  (limit : Z) (lambda : R) : Prop :=
  let out := mmrRerank candidates limit lambda in
  (1 < length out)%nat ->
  dissimilar_pair_exists threshold candidates ->
  adjacent_within threshold out.

End DiversityBound.

(** How a call ends: with a value, or rejected by a validation error.
    No statement of [MemorySystem.search], [mmrRerank] or
    [BM25Index.search] throws, so a call of [search] always returns. *)
Module SearchCall.

Inductive outcome (A : Type) :=
| Returned (value : A)
| ValidationError.
Arguments Returned {A} value.
Arguments ValidationError {A}.

Definition search (m : MemorySystem.t) (now : R) (query : string) (limit : Z)
  : outcome (list MemorySystem.SearchResult) :=
  Returned (MemorySystem.search m now query limit).


End SearchCall.

(* ===================================================================== *)
(** * JSON *)
(* ===================================================================== *)

(** [JSON.parse] on a text, and [JSON.stringify] on the objects the
    transcript store writes.  A parsed string is a list of UTF-16 code
    units, since an escape [\uXXXX] can denote any of them.  A parsed
    number is kept as the decimal its literal denotes,
    [mantissa * 10^exponent].  An object is the list of its members as
    written; reading a property takes the last member of that name. *)
Module JSON.

Definition dquote : ascii := "034".
Definition backslash : ascii := "092".

#[local] Set Warnings "-register-all".
Inductive value :=
| Null
| Bool (b : bool)
| Number (mantissa exponent : Z)
| Str (units : list N)
| Array (elements : list value)
| Object (members : list (list N * value)).
#[local] Set Warnings "register-all".

(** The code units of a string of the 8-bit range. *)
Fixpoint units (s : string) : list N :=
  match s with
  | EmptyString => []
  | String c s' => N_of_ascii c :: units s'
  end.

(** ** Reading *)

Definition is_ws (c : ascii) : bool :=
  let n := N_of_ascii c in
  ((n =? 32) || (n =? 9) || (n =? 10) || (n =? 13))%N.

Fixpoint skip_ws (s : string) : string :=
  match s with
  | EmptyString => EmptyString
  | String c s' => if is_ws c then skip_ws s' else s
  end.

Definition is_digit (c : ascii) : bool :=
  let n := N_of_ascii c in ((48 <=? n) && (n <=? 57))%N.

Definition digit_value (c : ascii) : Z := Z.of_N (N_of_ascii c) - 48.

(** The longest run of digits at the start of [s], read onto [acc];
    [count] counts them. *)
Fixpoint read_digits (s : string) (acc : Z) (count : nat)
  : Z * nat * string :=
  match s with
  | EmptyString => (acc, count, EmptyString)
  | String c s' =>
      if is_digit c
      then read_digits s' (10 * acc + digit_value c)%Z (S count)
      else (acc, count, s)
  end.

(** [int]: a single 0, or a run of digits that starts with 1-9. *)
Definition read_int (s : string) : option (Z * string) :=
  match s with
  | String c r =>
      if is_digit c then
        if (N_of_ascii c =? 48)%N then Some (0%Z, r)
        else let '(int, _, rest) := read_digits s 0%Z 0%nat in Some (int, rest)
      else None
  | EmptyString => None
  end.

(** [frac]: nothing, or a point and at least one digit, read onto the
    mantissa. *)
Definition read_frac (mantissa : Z) (s : string) : option (Z * nat * string) :=
  match s with
  | String c r =>
      if (N_of_ascii c =? 46)%N then
        let '(m, count, rest) := read_digits r mantissa 0%nat in
        if (count =? 0)%nat then None else Some (m, count, rest)
      else Some (mantissa, 0%nat, s)
  | EmptyString => Some (mantissa, 0%nat, s)
  end.

(** [exp]: nothing, or e/E, an optional sign and at least one digit. *)
Definition read_exp (s : string) : option (Z * string) :=
  match s with
  | String c r =>
      if ((N_of_ascii c =? 101) || (N_of_ascii c =? 69))%N then
        let '(sign, r') :=
          match r with
          | String c' r' =>
              if (N_of_ascii c' =? 43)%N then (1%Z, r')
              else if (N_of_ascii c' =? 45)%N then ((-1)%Z, r')
              else (1%Z, r)
          | EmptyString => (1%Z, r)
          end in
        let '(e, count, rest) := read_digits r' 0%Z 0%nat in
        if (count =? 0)%nat then None else Some ((sign * e)%Z, rest)
      else Some (0%Z, s)
  | EmptyString => Some (0%Z, s)
  end.

Definition read_number (s : string) : option (value * string) :=
  let '(negative, s1) :=
    match s with
    | String c r => if (N_of_ascii c =? 45)%N then (true, r) else (false, s)
    | EmptyString => (false, s)
    end in
  match read_int s1 with
  | None => None
  | Some (int, s2) =>
      match read_frac int s2 with
      | None => None
      | Some (m, count, s3) =>
          match read_exp s3 with
          | None => None
          | Some (e, s4) =>
              Some (Number (if negative then - m else m)%Z
                      (e - Z.of_nat count)%Z, s4)
          end
      end
  end.

Definition hex_value (c : ascii) : option N :=
  let n := N_of_ascii c in
  if ((48 <=? n) && (n <=? 57))%N then Some (n - 48)%N
  else if ((97 <=? n) && (n <=? 102))%N then Some (n - 87)%N
  else if ((65 <=? n) && (n <=? 70))%N then Some (n - 55)%N
  else None.

(** The code unit of a one-letter escape. *)
Definition escape_unit (c : ascii) : option N :=
  let n := N_of_ascii c in
  if (n =? 34)%N then Some 34%N          (* the quote *)
  else if (n =? 92)%N then Some 92%N     (* \\ *)
  else if (n =? 47)%N then Some 47%N     (* \/ *)
  else if (n =? 98)%N then Some 8%N      (* \b *)
  else if (n =? 102)%N then Some 12%N    (* \f *)
  else if (n =? 110)%N then Some 10%N    (* \n *)
  else if (n =? 114)%N then Some 13%N    (* \r *)
  else if (n =? 116)%N then Some 9%N     (* \t *)
  else None.

(** The characters of a string after its opening quote, up to the
    closing quote. *)
Fixpoint read_string (s : string) : option (list N * string) :=
  match s with
  | EmptyString => None
  | String c s' =>
      if Ascii.eqb c dquote then Some ([], s')
      else if Ascii.eqb c backslash then
        match s' with
        | String e s'' =>
            if (N_of_ascii e =? 117)%N then   (* \uXXXX *)
              match s'' with
              | String h1 (String h2 (String h3 (String h4 rest))) =>
                  match hex_value h1, hex_value h2, hex_value h3,
                        hex_value h4 with
                  | Some a, Some b, Some c, Some d =>
                      match read_string rest with
                      | Some (us, r) =>
                          Some ((((a * 16 + b) * 16 + c) * 16 + d)%N :: us, r)
                      | None => None
                      end
                  | _, _, _, _ => None
                  end
              | _ => None
              end
            else
              match escape_unit e with
              | Some u =>
                  match read_string s'' with
                  | Some (us, r) => Some (u :: us, r)
                  | None => None
                  end
              | None => None
              end
        | EmptyString => None
        end
      else if (N_of_ascii c <? 32)%N then None
      else
        match read_string s' with
        | Some (us, r) => Some (N_of_ascii c :: us, r)
        | None => None
        end
  end.

(** [s] without the prefix [p]. *)
Fixpoint strip_prefix (p s : string) : option string :=
  match p with
  | EmptyString => Some s
  | String a p' =>
      match s with
      | String c s' => if Ascii.eqb a c then strip_prefix p' s' else None
      | EmptyString => None
      end
  end.

Definition read_literal (name : string) (v : value) (s : string)
  : option (value * string) :=
  match strip_prefix name s with
  | Some rest => Some (v, rest)
  | None => None
  end.

(** One value at the start of [s], after white space.  Every recursive
    call follows a character that was read, so [fuel] above the length
    of the text never runs out. *)
Fixpoint read_value (fuel : nat) (s : string) : option (value * string) :=
  match fuel with
  | O => None
  | S fuel' =>
      match skip_ws s with
      | EmptyString => None
      | String c r =>
          let n := N_of_ascii c in
          if (n =? 123)%N then                       (* { *)
            match skip_ws r with
            | String "}" r' => Some (Object [], r')
            | _ =>
                match read_members fuel' r with
                | Some (ms, r') => Some (Object ms, r')
                | None => None
                end
            end
          else if (n =? 91)%N then                   (* [ *)
            match skip_ws r with
            | String "]" r' => Some (Array [], r')
            | _ =>
                match read_elements fuel' r with
                | Some (vs, r') => Some (Array vs, r')
                | None => None
                end
            end
          else if (n =? 34)%N then
            match read_string r with
            | Some (us, r') => Some (Str us, r')
            | None => None
            end
          else if (n =? 116)%N then read_literal "true" (Bool true) (String c r)
          else if (n =? 102)%N then read_literal "false" (Bool false) (String c r)
          else if (n =? 110)%N then read_literal "null" Null (String c r)
          else read_number (String c r)
      end
  end

(** The members of an object after its brace, up to the closing brace. *)
with read_members (fuel : nat) (s : string)
  : option (list (list N * value) * string) :=
  match fuel with
  | O => None
  | S fuel' =>
      match skip_ws s with
      | String c r =>
          if Ascii.eqb c dquote then
            match read_string r with
            | Some (key, r1) =>
                match skip_ws r1 with
                | String ":" r2 =>
                    match read_value fuel' r2 with
                    | Some (v, r3) =>
                        match skip_ws r3 with
                        | String "," r4 =>
                            match read_members fuel' r4 with
                            | Some (ms, r5) => Some ((key, v) :: ms, r5)
                            | None => None
                            end
                        | String "}" r4 => Some ([(key, v)], r4)
                        | _ => None
                        end
                    | None => None
                    end
                | _ => None
                end
            | None => None
            end
          else None
      | EmptyString => None
      end
  end

(** The elements of an array after its bracket, up to the closing
    bracket. *)
with read_elements (fuel : nat) (s : string) : option (list value * string) :=
  match fuel with
  | O => None
  | S fuel' =>
      match read_value fuel' s with
      | Some (v, r1) =>
          match skip_ws r1 with
          | String "," r2 =>
              match read_elements fuel' r2 with
              | Some (vs, r3) => Some (v :: vs, r3)
              | None => None
              end
          | String "]" r2 => Some ([v], r2)
          | _ => None
          end
      | None => None
      end
  end.

(** [JSON.parse(text)]: [None] stands for the SyntaxError. *)
Definition parse (text : string) : option value :=
  match read_value (S (String.length text)) text with
  | Some (v, rest) =>
      match skip_ws rest with
      | EmptyString => Some v
      | _ => None
      end
  | None => None
  end.

(** The decimal [m * 10^e] is so small that the nearest double is 0. *)
Definition rounds_to_zero (m e : Z) : bool :=
  (m =? 0)%Z || ((e <? 0)%Z && (Z.abs m * 2 ^ 1075 <=? 10 ^ (- e))%Z).

(** [!v] is false. *)
Definition truthy (v : value) : bool :=
  match v with
  | Null => false
  | Bool b => b
  | Number m e => negb (rounds_to_zero m e)
  | Str [] => false
  | Str (_ :: _) => true
  | Array _ => true
  | Object _ => true
  end.

(** [obj[name]]. *)
Fixpoint member (name : list N) (members : list (list N * value))
  : option value :=
  match members with
  | [] => None
  | (k, v) :: rest =>
      match member name rest with
      | Some v' => Some v'
      | None => if decide (k = name) then Some v else None
      end
  end.

(** ** Writing: each function writes its text in front of [k] *)

Definition hex_char (n : N) : ascii :=
  if (n <? 10)%N then ascii_of_N (48 + n) else ascii_of_N (87 + n).

(** QuoteJSONString on one code unit. *)
Definition write_char (c : ascii) (k : string) : string :=
  let n := N_of_ascii c in
  if (n =? 34)%N then String backslash (String dquote k)
  else if (n =? 92)%N then String backslash (String backslash k)
  else if (n =? 8)%N then String backslash (String "b" k)
  else if (n =? 9)%N then String backslash (String "t" k)
  else if (n =? 10)%N then String backslash (String "n" k)
  else if (n =? 12)%N then String backslash (String "f" k)
  else if (n =? 13)%N then String backslash (String "r" k)
  else if (n <? 32)%N then
    String backslash
      (String "u" (String "0" (String "0"
         (String (hex_char (n / 16)) (String (hex_char (n mod 16)) k)))))
  else String c k.

Fixpoint write_chars (s : string) (k : string) : string :=
  match s with
  | EmptyString => k
  | String c s' => write_char c (write_chars s' k)
  end.

Definition write_string (s : string) (k : string) : string :=
  String dquote (write_chars s (String dquote k)).

(** An integer below 1e21 in magnitude. *)
Definition write_number (z : Z) (k : string) : string :=
  JsNumber.toString z +:+ k.

Definition write_bool (b : bool) (k : string) : string :=
  (if b then "true" else "false") +:+ k.

(** A property: its name, a colon and its value. *)
Definition write_member (name : string) (write_value : string -> string)
  (k : string) : string :=
  write_string name (String ":" (write_value k)).

(** Properties, separated by commas. *)
Fixpoint write_members (members : list (string -> string)) (k : string)
  : string :=
  match members with
  | [] => k
  | [m] => m k
  | m :: rest => m (String "," (write_members rest k))
  end.

Definition write_object (members : list (string -> string)) (k : string)
  : string :=
  String "{" (write_members members (String "}" k)).

End JSON.

(* ===================================================================== *)
(** * SessionManager *)
(* ===================================================================== *)

Module SessionManager.
Import Transcript.

Record Session := {
  session_id : string;
  createdAt : Z;
  updatedAt : Z;
  messageCount : nat;
  transcriptPath : string
}.

(** [Omit<TranscriptEntry, 'id' | 'timestamp'>]. *)
Record Message := {
  msg_role : Role;
  msg_content : string;
  msg_toolCall : option ToolCall;
  msg_toolResult : option ToolResult
}.

(** A transcript file: its text and its creation time. *)
Record file := { data : string; birthtimeMs : Z }.

(** The sessions directory: session id -> [<id>.jsonl]. *)
Definition fs := gmap string file.

Inductive error :=
| InvalidSessionId (sessionId : string)
| SessionNotFound (sessionId : string).

Inductive result (A : Type) :=
| Ok (a : A)
| Err (e : error).
Arguments Ok {A} a.
Arguments Err {A} e.

(** [s.includes(p)]. *)
Fixpoint includes (p s : string) : bool :=
  String.prefix p s
  || match s with
     | EmptyString => false
     | String _ s' => includes p s'
     end.

(** [workspace.sessionPath]: the check against path traversal. *)
Definition valid_session_id (sessionId : string) : bool :=
  negb (includes "/" sessionId || includes (String JSON.backslash "") sessionId
        || includes ".." sessionId).

Definition sessionPath (sessionId : string) : result string :=
  if valid_session_id sessionId
  then Ok ("sessions/" +:+ sessionId +:+ ".jsonl")
  else Err (InvalidSessionId sessionId).

(** ** Serialized forms *)

Definition role_name (r : Role) : string :=
  match r with user => "user" | assistant => "assistant" | tool => "tool" end.

Definition write_toolCall (tc : ToolCall) : string -> string :=
  JSON.write_object
    [JSON.write_member "id" (JSON.write_string (tc_id tc));
     JSON.write_member "name" (JSON.write_string (tc_name tc));
     JSON.write_member "arguments" (JSON.write_string (tc_arguments tc))].

Definition write_toolResult (tr : ToolResult) : string -> string :=
  JSON.write_object
    [JSON.write_member "callId" (JSON.write_string (tr_callId tr));
     JSON.write_member "success" (JSON.write_bool (tr_success tr));
     JSON.write_member "output" (JSON.write_string (tr_output tr))].

(** The properties of [{ id, timestamp, ...message }] in their order;
    an optional property that is absent is left out. *)
Definition write_entry (e : TranscriptEntry) : string -> string :=
  JSON.write_object
    ([JSON.write_member "id" (JSON.write_string (id e));
      JSON.write_member "timestamp" (JSON.write_number (timestamp e));
      JSON.write_member "role" (JSON.write_string (role_name (role e)));
      JSON.write_member "content" (JSON.write_string (content e))]
     ++ match toolCall e with
        | Some tc => [JSON.write_member "toolCall" (write_toolCall tc)]
        | None => []
        end
     ++ match toolResult e with
        | Some tr => [JSON.write_member "toolResult" (write_toolResult tr)]
        | None => []
        end).

(** [JSON.stringify(entry)]. *)
Definition stringify_entry (e : TranscriptEntry) : string :=
  write_entry e EmptyString.

(** [JSON.stringify(metadata)] for [{ id, createdAt, version: 1 }]. *)
Definition stringify_metadata (sessionId : string) (createdAt : Z) : string :=
  JSON.write_object
    [JSON.write_member "id" (JSON.write_string sessionId);
     JSON.write_member "createdAt" (JSON.write_number createdAt);
     JSON.write_member "version" (JSON.write_number 1)]
    EmptyString.

(** The object an entry is, as [JSON.parse] builds it. *)
Definition toolCall_value (tc : ToolCall) : JSON.value :=
  JSON.Object
    [(JSON.units "id", JSON.Str (JSON.units (tc_id tc)));
     (JSON.units "name", JSON.Str (JSON.units (tc_name tc)));
     (JSON.units "arguments", JSON.Str (JSON.units (tc_arguments tc)))].

Definition toolResult_value (tr : ToolResult) : JSON.value :=
  JSON.Object
    [(JSON.units "callId", JSON.Str (JSON.units (tr_callId tr)));
     (JSON.units "success", JSON.Bool (tr_success tr));
     (JSON.units "output", JSON.Str (JSON.units (tr_output tr)))].

Definition entry_value (e : TranscriptEntry) : JSON.value :=
  JSON.Object
    ([(JSON.units "id", JSON.Str (JSON.units (id e)));
      (JSON.units "timestamp", JSON.Number (timestamp e) 0);
      (JSON.units "role", JSON.Str (JSON.units (role_name (role e))));
      (JSON.units "content", JSON.Str (JSON.units (content e)))]
     ++ match toolCall e with
        | Some tc => [(JSON.units "toolCall", toolCall_value tc)]
        | None => []
        end
     ++ match toolResult e with
        | Some tr => [(JSON.units "toolResult", toolResult_value tr)]
        | None => []
        end).

(** ** Operations *)

Definition newline : string := String "010" EmptyString.

(** [create()]; [id] is the value of [randomUUID()], [now] of
    [Date.now()].  A file that is new is born now. *)
Definition create (id : string) (now : Z) (files : fs)
  : result (Session * fs) :=
  match sessionPath id with
  | Err e => Err e
  | Ok transcriptPath =>
      let text := String "#" (stringify_metadata id now) +:+ newline in
      let born :=
        match files !! id with
        | Some f => birthtimeMs f
        | None => now
        end in
      Ok ({| session_id := id; createdAt := now; updatedAt := now;
             messageCount := 0; transcriptPath := transcriptPath |},
          <[id := {| data := text; birthtimeMs := born |}]> files)
  end.

(** [{ id: randomUUID(), timestamp: Date.now(), ...message }]. *)
Definition new_entry (message : Message) (uuid : string) (now : Z)
  : TranscriptEntry :=
  {| id := uuid; timestamp := now;
     role := msg_role message; content := msg_content message;
     toolCall := msg_toolCall message;
     toolResult := msg_toolResult message |}.

(** [appendMessage(sessionId, message)]; [uuid] and [now] are the values
    of [randomUUID()] and [Date.now()]. *)
Definition appendMessage (sessionId : string) (message : Message)
  (uuid : string) (now : Z) (files : fs) : result (TranscriptEntry * fs) :=
  match sessionPath sessionId with
  | Err e => Err e
  | Ok _ =>
      match files !! sessionId with
      | None => Err (SessionNotFound sessionId)
      | Some f =>
          let entry := new_entry message uuid now in
          let line := stringify_entry entry +:+ newline in
          Ok (entry,
              <[sessionId := {| data := data f +:+ line;
                                birthtimeMs := birthtimeMs f |}]> files)
      end
  end.

(** [content.split('\n').filter(line => line.trim().length > 0)]. *)
Definition nonblank_lines (text : string) : list string :=
  List.filter (fun line => (0 <? String.length (JsString.trim line))%nat)
    (JsString.split_char "010" text).

(** The loop of [getHistory]: metadata lines and lines that do not parse
    are skipped. *)
Fixpoint history_of (lines : list string) : list JSON.value :=
  match lines with
  | [] => []
  | line :: rest =>
      if JsString.startsWith line "#" then history_of rest
      else
        match JSON.parse line with
        | Some entry => entry :: history_of rest
        | None => history_of rest
        end
  end.

(** [getHistory(sessionId)]. *)
Definition getHistory (sessionId : string) (files : fs)
  : result (list JSON.value) :=
  match sessionPath sessionId with
  | Err e => Err e
  | Ok _ =>
      match files !! sessionId with
      | None => Err (SessionNotFound sessionId)
      | Some f => Ok (history_of (nonblank_lines (data f)))
      end
  end.

Record RepairReport := {
  repaired : bool;
  entriesRecovered : nat;
  entriesLost : nat
}.

(** The state of the loop of [repair]. *)
Record scan := {
  validLines : list string;
  metadata : option JSON.value;   (* [None] is [null] *)
  recovered : nat;
  lost : nat
}.

Definition scan_line (st : scan) (line : string) : scan :=
  let trimmed := JsString.trim line in
  if (String.length trimmed =? 0)%nat then st
  else if JsString.startsWith trimmed "#" then
    match JSON.parse (JsString.slice_from 1 trimmed) with
    | Some v =>
        {| validLines := validLines st ++ [trimmed]; metadata := Some v;
           recovered := recovered st; lost := lost st |}
    | None => st
    end
  else
    match JSON.parse trimmed with
    | Some _ =>
        {| validLines := validLines st ++ [trimmed]; metadata := metadata st;
           recovered := S (recovered st); lost := lost st |}
    | None =>
        {| validLines := validLines st; metadata := metadata st;
           recovered := recovered st; lost := S (lost st) |}
    end.

(** [!metadata]. *)
Definition no_metadata (metadata : option JSON.value) : bool :=
  match metadata with
  | None => true
  | Some v => negb (JSON.truthy v)
  end.

(** [repair(sessionId)]. *)
Definition repair (sessionId : string) (files : fs)
  : result (RepairReport * fs) :=
  match sessionPath sessionId with
  | Err e => Err e
  | Ok _ =>
      match files !! sessionId with
      | None => Err (SessionNotFound sessionId)
      | Some f =>
          let lines := JsString.split_char "010" (data f) in
          let st :=
            fold_left scan_line lines
              {| validLines := []; metadata := None;
                 recovered := 0; lost := 0 |} in
          let validLines :=
            if no_metadata (metadata st)
            then String "#" (stringify_metadata sessionId (birthtimeMs f))
                 :: validLines st
            else validLines st in
          let repairedContent := JsString.join newline validLines +:+ newline in
          Ok ({| repaired := (0 <? lost st)%nat;
                 entriesRecovered := recovered st;
                 entriesLost := lost st |},
              <[sessionId := {| data := repairedContent;
                                birthtimeMs := birthtimeMs f |}]> files)
      end
  end.

(** A sequence of appends, each with its message, [randomUUID()] and
    [Date.now()]. *)
Fixpoint append_all (sessionId : string)
  (appends : list (Message * string * Z)) (files : fs)
  : result (list TranscriptEntry * fs) :=
  match appends with
  | [] => Ok ([], files)
  | (message, uuid, now) :: rest =>
      match appendMessage sessionId message uuid now files with
      | Err e => Err e
      | Ok (entry, files') =>
          match append_all sessionId rest files' with
          | Err e => Err e
          | Ok (entries, files'') => Ok (entry :: entries, files'')
          end
      end
  end.

(** [delete(sessionId)]. *)
Definition delete (sessionId : string) (files : fs) : result fs :=
  match sessionPath sessionId with
  | Err e => Err e
  | Ok _ =>
      match files !! sessionId with
      | None => Err (SessionNotFound sessionId)
      | Some _ => Ok (base.delete sessionId files)
      end
  end.

(** ** [load] *)

(** A value at run time: a parsed JSON value, or [undefined] ([None]). *)
Definition jsvalue : Type := option JSON.value.

(** [v.name] on a parsed value, for a name that no prototype defines
    (the code reads [createdAt] and [timestamp]): a [TypeError] ([None])
    on [null], the member of an object, and [undefined] on everything
    else. *)
Definition property (v : JSON.value) (name : string) : option jsvalue :=
  match v with
  | JSON.Null => None
  | JSON.Object members => Some (JSON.member (JSON.units name) members)
  | _ => Some None
  end.

(** [v === 0]. *)
Definition is_zero (v : jsvalue) : bool :=
  match v with
  | Some (JSON.Number m e) => JSON.rounds_to_zero m e
  | _ => false
  end.

(** What [load] returns: [createdAt] and [updatedAt] hold what the log
    gave them. *)
Record Loaded := {
  loaded_id : string;
  loaded_createdAt : jsvalue;
  loaded_updatedAt : jsvalue;
  loaded_messageCount : nat;
  loaded_transcriptPath : string
}.

(** The variables of the loop of [load]. *)
Record load_state := {
  ls_createdAt : jsvalue;
  ls_updatedAt : jsvalue;
  ls_messageCount : nat
}.

Section Load.

(** [a > b] on two values at run time, with the conversions of the
    language. *)
Variable greater : jsvalue -> jsvalue -> bool.

(** One turn of the loop: an exception inside a [try] leaves the
    assignments made before it. *)
Definition load_line (st : load_state) (line : string) : load_state :=
  if JsString.startsWith line "#" then
    match JSON.parse (JsString.slice_from 1 line) with
    | None => st
    | Some metadata =>
        match property metadata "createdAt" with
        | None => st
        | Some createdAt =>
            {| ls_createdAt := createdAt;
               ls_updatedAt :=
                 if is_zero (ls_updatedAt st) then createdAt
                 else ls_updatedAt st;
               ls_messageCount := ls_messageCount st |}
        end
    end
  else
    match JSON.parse line with
    | None => st
    | Some entry =>
        let counted := S (ls_messageCount st) in
        match property entry "timestamp" with
        | None =>
            {| ls_createdAt := ls_createdAt st;
               ls_updatedAt := ls_updatedAt st;
               ls_messageCount := counted |}
        | Some timestamp =>
            {| ls_createdAt := ls_createdAt st;
               ls_updatedAt :=
                 if greater timestamp (ls_updatedAt st) then timestamp
                 else ls_updatedAt st;
               ls_messageCount := counted |}
        end
    end.

(** [load(sessionId)]; [now] is the value of [Date.now()] of the
    fallback. *)
Definition load (sessionId : string) (now : Z) (files : fs) : result Loaded :=
  match sessionPath sessionId with
  | Err e => Err e
  | Ok transcriptPath =>
      match files !! sessionId with
      | None => Err (SessionNotFound sessionId)
      | Some f =>
          let zero : jsvalue := Some (JSON.Number 0 0) in
          let st :=
            fold_left load_line (nonblank_lines (data f))
              {| ls_createdAt := zero; ls_updatedAt := zero;
                 ls_messageCount := 0 |} in
          let fallback := is_zero (ls_createdAt st) in
          let createdAt : jsvalue :=
            if fallback then Some (JSON.Number now 0) else ls_createdAt st in
          Ok {| loaded_id := sessionId;
                loaded_createdAt := createdAt;
                loaded_updatedAt :=
                  if fallback then createdAt else ls_updatedAt st;
                loaded_messageCount := ls_messageCount st;
                loaded_transcriptPath := transcriptPath |}
      end
  end.

End Load.

End SessionManager.

(* ===================================================================== *)
(** * Repair, in the words of the specification *)
(* ===================================================================== *)

(** The lines of a log sorted into classes, line by line: a line is
    blank, a metadata line (its text starts with the mark [#]) or an entry
    line; a metadata line is valid when the text after the mark is JSON,
    an entry line when its text is. *)
Module RepairSpec.

(** The text of a line: the line without the white space around it. *)
Definition text_of (line : string) : string := JsString.trim line.

Definition is_blank (line : string) : bool :=
  (String.length (text_of line) =? 0)%nat.

Definition is_metadata_line (line : string) : bool :=
  negb (is_blank line) && JsString.startsWith (text_of line) "#".

Definition is_entry_line (line : string) : bool :=
  negb (is_blank line) && negb (JsString.startsWith (text_of line) "#").

Definition is_json (text : string) : bool :=
  match JSON.parse text with Some _ => true | None => false end.

Definition valid_entry (line : string) : bool :=
  is_entry_line line && is_json (text_of line).

Definition invalid_entry (line : string) : bool :=
  is_entry_line line && negb (is_json (text_of line)).

Definition valid_metadata (line : string) : bool :=
  is_metadata_line line && is_json (JsString.slice_from 1 (text_of line)).

(** [k]: the number of valid entry lines. *)
Definition k (lines : list string) : nat :=
  length (List.filter valid_entry lines).

(** [m]: the number of invalid entry lines. *)
Definition m (lines : list string) : nat :=
  length (List.filter invalid_entry lines).

(** The valid entries, in their order. *)
Definition entries (lines : list string) : list JSON.value :=
  omap (fun line => JSON.parse (text_of line)) (List.filter valid_entry lines).

(** The texts of the valid lines, metadata and entries, in their order. *)
Definition kept_lines (lines : list string) : list string :=
  map text_of
    (List.filter (fun line => valid_entry line || valid_metadata line) lines).

(** The value of the last valid metadata line. *)
Fixpoint last_metadata (lines : list string) : option JSON.value :=
  match lines with
  | [] => None
  | line :: rest =>
      match last_metadata rest with
      | Some v => Some v
      | None =>
          if is_metadata_line line
          then JSON.parse (JsString.slice_from 1 (text_of line))
          else None
      end
  end.

(** A header is put in front when no metadata line is valid, and also
    when the last valid one holds a value that is falsy. *)
Definition header (sessionId : string) (birthtimeMs : Z)
  (lines : list string) : list string :=
  if SessionManager.no_metadata (last_metadata lines)
  then [String "#" (SessionManager.stringify_metadata sessionId birthtimeMs)]
  else [].

(** The log after repair. *)
Definition repaired_text (sessionId : string) (birthtimeMs : Z)
  (lines : list string) : string :=
  JsString.join SessionManager.newline
    (header sessionId birthtimeMs lines ++ kept_lines lines)
  +:+ SessionManager.newline.

End RepairSpec.

(* ===================================================================== *)
(** * Paths: [node:path] on POSIX, and the workspace *)
(* ===================================================================== *)

(** The functions of [node:path] that the workspace calls, in their
    POSIX form.  A path is cut at its slashes into segments, and the
    normal form is computed on the segments. *)
Module JsPath.

(** [path.isAbsolute]. *)
Definition isAbsolute (path : string) : bool := JsString.startsWith path "/".

(** [s.endsWith(suffix)]. *)
Fixpoint endsWith (s suffix : string) : bool :=
  String.eqb s suffix
  || match s with
     | EmptyString => false
     | String _ s' => endsWith s' suffix
     end.

(** One segment in [normalizeString]: an empty segment and [.] are
    dropped; [..] removes the segment before it, or is kept, when the
    path may rise above its start, if there is none to remove; [stack]
    holds the segments kept so far, the last one first. *)
Definition normalize_step (allowAboveRoot : bool) (stack : list string)
  (segment : string) : list string :=
  if String.eqb segment "" || String.eqb segment "." then stack
  else if String.eqb segment ".." then
    match stack with
    | top :: rest =>
        if String.eqb top ".."
        then (if allowAboveRoot then ".." :: stack else stack)
        else rest
    | [] => if allowAboveRoot then [".."] else []
    end
  else segment :: stack.

(** The segments of the normal form of [path]. *)
Definition segments (allowAboveRoot : bool) (path : string) : list string :=
  rev (fold_left (normalize_step allowAboveRoot)
         (JsString.split_char "/" path) []).

(** [normalizeString(path, allowAboveRoot, '/', isPosixPathSeparator)]. *)
Definition normalizeString (path : string) (allowAboveRoot : bool) : string :=
  JsString.join "/" (segments allowAboveRoot path).

(** [path.normalize]. *)
Definition normalize (path : string) : string :=
  if (String.length path =? 0)%nat then "."
  else
    let absolute := isAbsolute path in
    let trailingSeparator := endsWith path "/" in
    let normalized := normalizeString path (negb absolute) in
    if (String.length normalized =? 0)%nat then
      if absolute then "/" else if trailingSeparator then "./" else "."
    else
      (if absolute then "/" else "")
      +:+ normalized +:+ (if trailingSeparator then "/" else "").

(** [path.join(...args)]. *)
Definition join (args : list string) : string :=
  match List.filter (fun arg => (0 <? String.length arg)%nat) args with
  | [] => "."
  | parts => normalize (JsString.join "/" parts)
  end.

(** The loop of [path.resolve] over the arguments from the last one:
    it stops at the first absolute one. *)
Fixpoint resolve_loop (rev_args : list string) (resolvedPath : string)
  : string * bool :=
  match rev_args with
  | [] => (resolvedPath, false)
  | path :: rest =>
      if (String.length path =? 0)%nat then resolve_loop rest resolvedPath
      else
        let resolvedPath' := path +:+ "/" +:+ resolvedPath in
        if isAbsolute path then (resolvedPath', true)
        else resolve_loop rest resolvedPath'
  end.

(** [path.resolve(...args)]; [cwd] is [process.cwd()], which the loop
    reaches after the arguments. *)
Definition resolve (cwd : string) (args : list string) : string :=
  let '(resolvedPath, resolvedAbsolute) :=
    resolve_loop (rev args ++ [cwd]) "" in
  let normalized := normalizeString resolvedPath (negb resolvedAbsolute) in
  if resolvedAbsolute then "/" +:+ normalized
  else if (0 <? String.length normalized)%nat then normalized else ".".

(** [s.charCodeAt(i) === 47]; past the end [charCodeAt] is NaN. *)
Definition is_sep_at (s : string) (i : nat) : bool :=
  match String.get i s with
  | Some c => Ascii.eqb c "/"
  | None => false
  end.

(** The first loop of [path.relative], over the characters after the
    leading slash of both paths: it stops at the first difference or at
    the end of the shorter path, and remembers the last slash seen. *)
Fixpoint relative_scan (from to : string) (i : nat) (lastCommonSep : Z)
  : nat * Z :=
  match from, to with
  | String fromCode from', String toCode to' =>
      if negb (Ascii.eqb fromCode toCode) then (i, lastCommonSep)
      else relative_scan from' to' (S i)
             (if Ascii.eqb fromCode "/" then Z.of_nat i else lastCommonSep)
  | _, _ => (i, lastCommonSep)
  end.

(** The second loop: one [..] for every slash of the rest of [from] and
    one for its end. *)
Fixpoint relative_ups (from out : string) : string :=
  let up := out +:+ (if (String.length out =? 0)%nat then ".." else "/..") in
  match from with
  | EmptyString => up
  | String c from' =>
      relative_ups from' (if Ascii.eqb c "/" then up else out)
  end.

(** [path.relative(from, to)]. *)
Definition relative (cwd from to : string) : string :=
  if String.eqb from to then ""
  else
    let from := resolve cwd [from] in
    let to := resolve cwd [to] in
    if String.eqb from to then ""
    else
      let fromStart := 1%nat in
      let fromEnd := String.length from in
      let fromLen := (fromEnd - fromStart)%nat in
      let toStart := 1%nat in
      let toLen := (String.length to - toStart)%nat in
      let length := Nat.min fromLen toLen in
      let '(i, lastCommonSep) :=
        relative_scan (JsString.slice_from fromStart from)
          (JsString.slice_from toStart to) 0 (-1)%Z in
      if (i =? length)%nat && (length <? toLen)%nat
         && is_sep_at to (toStart + i)
      then JsString.slice_from (toStart + i + 1) to
      else if (i =? length)%nat && (length <? toLen)%nat && (i =? 0)%nat
      then JsString.slice_from (toStart + i) to
      else
        let lastCommonSep :=
          if (i =? length)%nat && negb (length <? toLen)%nat
             && (length <? fromLen)%nat
          then
            if is_sep_at from (fromStart + i) then Z.of_nat i
            else if (i =? 0)%nat then 0%Z else lastCommonSep
          else lastCommonSep in
        let start := Z.to_nat (Z.of_nat fromStart + lastCommonSep + 1) in
        let out :=
          if (start <=? fromEnd)%nat
          then relative_ups (JsString.slice_from start from) ""
          else "" in
        out +:+ JsString.slice_from
                  (Z.to_nat (Z.of_nat toStart + lastCommonSep)) to.

End JsPath.

(** The workspace directory (class Workspace); [cwd] is the working
    directory of the process where a call consults it. *)
Module Workspace.

Record t := { rootPath : string }.

Definition DEFAULT_WORKSPACE_ROOT : string := ".openclaw".

(** [new Workspace(rootPath)]; [home] is [homedir()].  An empty root
    path is falsy and gives the default. *)
Definition create (cwd home : string) (root : option string) : t :=
  match root with
  | Some path =>
      if (0 <? String.length path)%nat
      then {| rootPath :=
                if JsPath.isAbsolute path then path
                else JsPath.resolve cwd [path] |}
      else {| rootPath := JsPath.join [home; DEFAULT_WORKSPACE_ROOT] |}
  | None => {| rootPath := JsPath.join [home; DEFAULT_WORKSPACE_ROOT] |}
  end.

Inductive error :=
| OutsideWorkspace (path : string)
| InvalidSessionId (sessionId : string)
| InvalidLogFilename (filename : string).

(** [contains(absolutePath)]. *)
Definition contains (cwd : string) (w : t) (absolutePath : string) : bool :=
  let normalizedRoot := JsPath.resolve cwd [rootPath w] in
  let normalizedPath := JsPath.resolve cwd [absolutePath] in
  if negb (JsString.startsWith normalizedPath normalizedRoot) then false
  else
    let remainder :=
      JsString.slice_from (String.length normalizedRoot) normalizedPath in
    (String.length remainder =? 0)%nat || JsString.startsWith remainder "/".

(** [resolve(relativePath)]. *)
Definition resolve (cwd : string) (w : t) (relativePath : string)
  : error + string :=
  let absolutePath := JsPath.resolve cwd [rootPath w; relativePath] in
  if negb (contains cwd w absolutePath)
  then inl (OutsideWorkspace relativePath)
  else inr absolutePath.

(** [relative(absolutePath)]. *)
Definition relative (cwd : string) (w : t) (absolutePath : string)
  : error + string :=
  if negb (contains cwd w absolutePath)
  then inl (OutsideWorkspace absolutePath)
  else inr (JsPath.relative cwd (rootPath w) absolutePath).

Definition configPath (w : t) : string := JsPath.join [rootPath w; "config.json"].
Definition authPath (w : t) : string := JsPath.join [rootPath w; "auth.json"].
Definition sessionsDir (w : t) : string := JsPath.join [rootPath w; "sessions"].
Definition workspaceDir (w : t) : string := JsPath.join [rootPath w; "workspace"].
Definition memoryDir (w : t) : string :=
  JsPath.join [rootPath w; "workspace"; "memory"].
Definition logsDir (w : t) : string := JsPath.join [rootPath w; "logs"].
Definition soulPath (w : t) : string :=
  JsPath.join [rootPath w; "workspace"; "SOUL.md"].
Definition userPath (w : t) : string :=
  JsPath.join [rootPath w; "workspace"; "USER.md"].

(** The check of [sessionPath] and [logPath] against path traversal. *)
Definition traverses (name : string) : bool :=
  SessionManager.includes "/" name
  || SessionManager.includes (String JSON.backslash "") name
  || SessionManager.includes ".." name.

(** [sessionPath(sessionId)]. *)
Definition sessionPath (w : t) (sessionId : string) : error + string :=
  if traverses sessionId then inl (InvalidSessionId sessionId)
  else inr (JsPath.join [sessionsDir w; sessionId +:+ ".jsonl"]).

(** [logPath(filename)]. *)
Definition logPath (w : t) (filename : string) : error + string :=
  if traverses filename then inl (InvalidLogFilename filename)
  else inr (JsPath.join [logsDir w; filename]).

End Workspace.

(** The parts of [MemorySystem] that read the files of the workspace. *)
Module MemoryIndexing.
Import MemorySystem.

(** What the file system holds under a name: a file with what
    [readFile] and [stat] give ([None] when one of them fails), a
    directory with what [readdir] gives ([None] when it fails), or
    something that is neither. *)
#[local] Set Warnings "-register-all".
Inductive node :=
| File (read : option (string * R))
| Directory (entries : option (list (string * node)))
| Other.
#[local] Set Warnings "register-all".

(** [walkDirectory(dir, extension)], where [d] is what [dir] holds: the
    paths of the files with the extension, each with the file it leads
    to. *)
Fixpoint walkDirectory (dir : string) (d : node) (extension : string)
  : list (string * node) :=
  match d with
  | Directory (Some entries) =>
      (fix walk_entries (entries : list (string * node))
         : list (string * node) :=
         match entries with
         | [] => []
         | (name, child) :: rest =>
             let fullPath := JsPath.join [dir; name] in
             match child with
             | Directory _ => walkDirectory fullPath child extension
             | File _ =>
                 if JsPath.endsWith name extension then [(fullPath, child)]
                 else []
             | Other => []
             end ++ walk_entries rest
         end) entries
  | _ => []
  end.

(** One turn of the loop of [indexWorkspace]: a file that cannot be
    read is left out and not counted. *)
Definition index_file (cwd : string) (w : Workspace.t)
  (st : nat * BM25Index.t) (found : string * node) : nat * BM25Index.t :=
  match found.2 with
  | File (Some (content, mtimeMs)) =>
      let relativePath := JsPath.relative cwd (Workspace.rootPath w) found.1 in
      (S st.1,
       BM25Index.addDocument relativePath relativePath content mtimeMs st.2)
  | _ => st
  end.

(** [indexWorkspace()]; [memory] is what the memory directory holds,
    [None] when [access] fails. *)
Definition indexWorkspace (cwd : string) (w : Workspace.t)
  (memory : option node) (m : MemorySystem.t) : nat * MemorySystem.t :=
  match memory with
  | None => (0%nat, m)
  | Some d =>
      let files := walkDirectory (Workspace.memoryDir w) d ".md" in
      let '(indexedCount, idx) :=
        fold_left (index_file cwd w) files (0%nat, bm25Index m) in
      (indexedCount,
       {| config := config m; bm25Index := idx; notes := notes m |})
  end.

(** [addDocument(path, content)]; [mtimeMs] is what [stat] gives for a
    path, and [now] the value of [Date.now()] of the fallback. *)
Definition addDocument (cwd : string) (w : Workspace.t)
  (mtimeMs : string -> option R) (now : R) (path content : string)
  (m : MemorySystem.t) : Workspace.error + MemorySystem.t :=
  match Workspace.resolve cwd w path with
  | inl e => inl e
  | inr fullPath =>
      inr {| config := config m;
             bm25Index :=
               BM25Index.addDocument path path content
                 (default now (mtimeMs fullPath)) (bm25Index m);
             notes := notes m |}
  end.

End MemoryIndexing.

(* ===================================================================== *)
(** * Facts: JavaScript primitives *)
(* ===================================================================== *)

Module JsMapFacts.

Section Facts.
Context {V : Type}.
Implicit Types (m : list (string * V)) (k : string) (v : V).

Lemma get_set_eq m k v : JsMap.get k (JsMap.set k v m) = Some v.
Proof.
  induction m as [|[k' v'] m IH]; simpl.
  - by rewrite String.eqb_refl.
  - destruct (String.eqb k k') eqn:E; simpl; rewrite ?String.eqb_refl, ?E; done.
Qed.

Lemma get_set_ne m k k' v :
  k <> k' -> JsMap.get k' (JsMap.set k v m) = JsMap.get k' m.
Proof.
  intros Hne. induction m as [|[k0 v0] m IH]; simpl.
  - apply String.eqb_neq in Hne. rewrite String.eqb_sym in Hne. by rewrite Hne.
  - destruct (String.eqb k k0) eqn:E; simpl.
    + apply String.eqb_eq in E. subst k0.
      assert (String.eqb k' k = false) as ->; [|done].
      apply String.eqb_neq. congruence.
    + by rewrite IH.
Qed.

Lemma keys_set_present m k v :
  is_Some (JsMap.get k m) -> JsMap.keys (JsMap.set k v m) = JsMap.keys m.
Proof.
  induction m as [|[k' v'] m IH]; simpl; intros [x Hx]; [done|].
  destruct (String.eqb k k') eqn:E; simpl.
  - apply String.eqb_eq in E. by subst.
  - f_equal. apply IH. eauto.
Qed.

Lemma keys_set_absent m k v :
  JsMap.get k m = None -> JsMap.keys (JsMap.set k v m) = JsMap.keys m ++ [k].
Proof.
  induction m as [|[k' v'] m IH]; simpl; [done|].
  destruct (String.eqb k k') eqn:E; [done|]. simpl. intros H. f_equal. by apply IH.
Qed.

Lemma get_None_not_in m k : JsMap.get k m = None -> ~ In k (JsMap.keys m).
Proof.
  induction m as [|[k' v'] m IH]; simpl; [tauto|].
  destruct (String.eqb k k') eqn:E; [done|].
  apply String.eqb_neq in E. intros H [Hk|Hk]; [congruence|]. by apply IH.
Qed.

Lemma keys_delete_incl m k x :
  In x (JsMap.keys (JsMap.delete k m)) -> In x (JsMap.keys m).
Proof.
  induction m as [|[k' v'] m IH]; simpl; [done|].
  destruct (String.eqb k k'); simpl; tauto.
Qed.

Lemma NoDup_keys_set m k v :
  List.NoDup (JsMap.keys m) -> List.NoDup (JsMap.keys (JsMap.set k v m)).
Proof.
  intros Hnd. destruct (JsMap.get k m) eqn:E.
  - rewrite keys_set_present; eauto.
  - rewrite keys_set_absent by done.
    apply NoDup_ListNoDup, NoDup_app. apply NoDup_ListNoDup in Hnd.
    split_and!; [done| |apply NoDup_singleton].
    intros x Hx Hx'. apply list_elem_of_singleton in Hx'. subst x.
    apply list_elem_of_In in Hx. by apply get_None_not_in in E.
Qed.

Lemma NoDup_keys_delete m k :
  List.NoDup (JsMap.keys m) -> List.NoDup (JsMap.keys (JsMap.delete k m)).
Proof.
  induction m as [|[k' v'] m IH]; simpl; [done|].
  intros Hnd. inversion Hnd as [|? ? Hnotin Hnd']; subst.
  destruct (String.eqb k k'); [done|]. simpl. constructor; [|by apply IH].
  intros Hin. by apply Hnotin, (keys_delete_incl m k).
Qed.

End Facts.

End JsMapFacts.

Module JsArrayFacts.




Lemma firstn_In {A} (l : list A) n x : In x (firstn n l) -> In x l.
Proof.
  intros H. rewrite <- (firstn_skipn n l). apply in_or_app. by left.
Qed.

Lemma slice0_In {A} (l : list A) (limit : Z) x :
  In x (JsArray.slice0 l limit) -> In x l.
Proof.
  unfold JsArray.slice0. destruct (limit <? 0)%Z; apply firstn_In.
Qed.


Lemma length_remove_at {A} (l : list A) i :
  (i < length l)%nat -> length l = S (length (JsArray.remove_at i l)).
Proof.
  revert i. induction l as [|x l IH]; intros [|i] H; simpl in *; try lia.
  rewrite <- IH by lia. done.
Qed.

Lemma remove_at_perm {A} (l : list A) i x :
  nth_error l i = Some x -> Permutation l (x :: JsArray.remove_at i l).
Proof.
  revert i. induction l as [|y l IH]; intros [|i] H; simpl in *; try done.
  - by injection H as ->.
  - rewrite (IH _ H) at 1. apply perm_swap.
Qed.

Section Sort.
Context {A : Type} (key : A -> R).

Definition desc (x y : A) : bool := BM25Index.Rgtb (key x) (key y).



Lemma insert_by_perm x l : Permutation (JsArray.insert_by desc x l) (x :: l).
Proof.
  induction l as [|y l IH]; simpl; [done|].
  destruct (desc y x); [|done].
  rewrite IH. apply perm_swap.
Qed.

Lemma sort_by_perm l : Permutation (JsArray.sort_by desc l) l.
Proof.
  induction l as [|x l IH]; simpl; [done|].
  unfold JsArray.sort_by in *. rewrite insert_by_perm. by constructor.
Qed.

Lemma sort_by_In l x : In x (JsArray.sort_by desc l) <-> In x l.
Proof.
  split; apply Permutation_in; [|symmetry]; apply sort_by_perm.
Qed.










End Sort.

End JsArrayFacts.

(* ===================================================================== *)
(** * Facts: the BM25 index *)
(* ===================================================================== *)

Module BM25IndexFacts.
Import BM25Index.

(** A counter of value [n] as the frequency map stores it: no entry for
    zero. *)
Definition stored (n : nat) : option nat :=
  match n with O => None | S _ => Some n end.

Lemma get0_stored df term n : df !! term = stored n -> get0 df term = n.
Proof. unfold get0. intros ->. by destruct n. Qed.

Lemma elem_of_term_keys (m : gmap string nat) term :
  term ∈ term_keys m <-> is_Some (m !! term).
Proof.
  unfold term_keys. rewrite list_elem_of_fmap. split.
  - intros [[k v] [-> H]]. apply elem_of_map_to_list in H. simpl. eauto.
  - intros [v H]. exists (term, v). split; [done|]. by apply elem_of_map_to_list.
Qed.

Lemma NoDup_term_keys (m : gmap string nat) : NoDup (term_keys m).
Proof. apply NoDup_fst_map_to_list. Qed.

Lemma fold_df_increment (l : list string) (df : gmap string nat) term :
  NoDup l ->
  fold_left df_increment l df !! term
  = if decide (term ∈ l) then Some (get0 df term + 1)%nat else df !! term.
Proof.
  revert df. induction l as [|x l IH]; intros df Hnd; simpl.
  - done.
  - apply NoDup_cons in Hnd as [Hx Hnd]. rewrite IH by done.
    unfold df_increment, get0.
    destruct (decide (term = x)) as [->|Hne].
    + rewrite (decide_False (P := x ∈ l)) by done.
      rewrite decide_True by apply list_elem_of_here.
      by rewrite lookup_insert_eq.
    + rewrite !lookup_insert_ne by done.
      destruct (decide (term ∈ l)) as [Hin|Hnin].
      * rewrite decide_True; [done|]. by apply list_elem_of_further.
      * rewrite decide_False; [done|].
        intros [?|?]%elem_of_cons; done.
Qed.

Lemma fold_df_decrement (l : list string) (df : gmap string nat) term :
  NoDup l ->
  fold_left df_decrement l df !! term
  = if decide (term ∈ l) then stored (get0 df term - 1) else df !! term.
Proof.
  revert df. induction l as [|x l IH]; intros df Hnd; simpl.
  - done.
  - apply NoDup_cons in Hnd as [Hx Hnd]. rewrite IH by done.
    destruct (decide (term = x)) as [->|Hne].
    + rewrite (decide_False (P := x ∈ l)) by done.
      rewrite decide_True by apply list_elem_of_here.
      unfold df_decrement. destruct (1 <? get0 df x)%nat eqn:E.
      * rewrite lookup_insert_eq. apply Nat.ltb_lt in E.
        destruct (get0 df x - 1)%nat eqn:E'; [lia|done].
      * rewrite lookup_delete_eq. apply Nat.ltb_ge in E.
        by replace (get0 df x - 1)%nat with 0%nat by lia.
    + assert (df_decrement df x !! term = df !! term) as Hsame.
      { unfold df_decrement. destruct (1 <? get0 df x)%nat.
        - by rewrite lookup_insert_ne.
        - by rewrite lookup_delete_ne. }
      unfold get0 at 1. rewrite Hsame. fold (get0 df term).
      destruct (decide (term ∈ l)) as [Hin|Hnin].
      * rewrite decide_True; [done|]. by apply list_elem_of_further.
      * rewrite decide_False; [done|].
        intros [?|?]%elem_of_cons; done.
Qed.

(** 1 when the document contains the term. *)
Definition has_term (term : string) (d : IndexedDocument) : nat :=
  if bool_decide (is_Some (doc_terms d !! term)) then 1%nat else 0%nat.

Lemma containing_cons term k d docs :
  containing term ((k, d) :: docs) = (has_term term d + containing term docs)%nat.
Proof.
  unfold containing, has_term. simpl.
  by destruct (bool_decide (is_Some (doc_terms d !! term))).
Qed.

Lemma containing_set_present term id d old docs :
  JsMap.get id docs = Some old ->
  (containing term (JsMap.set id d docs) + has_term term old
   = containing term docs + has_term term d)%nat.
Proof.
  induction docs as [|[k' v'] docs IH]; simpl; [done|].
  destruct (String.eqb id k') eqn:E.
  - intros [= ->]. rewrite !containing_cons. lia.
  - intros H. rewrite !containing_cons. specialize (IH H). lia.
Qed.

Lemma containing_set_absent term id d docs :
  JsMap.get id docs = None ->
  containing term (JsMap.set id d docs)
  = (containing term docs + has_term term d)%nat.
Proof.
  induction docs as [|[k' v'] docs IH]; simpl.
  - intros _. rewrite containing_cons. unfold containing. simpl. lia.
  - destruct (String.eqb id k') eqn:E; [done|].
    intros H. rewrite !containing_cons, IH by done. lia.
Qed.

Lemma containing_delete term id old docs :
  JsMap.get id docs = Some old ->
  (containing term (JsMap.delete id docs) + has_term term old
   = containing term docs)%nat.
Proof.
  induction docs as [|[k' v'] docs IH]; simpl; [done|].
  destruct (String.eqb id k') eqn:E.
  - intros [= ->]. rewrite containing_cons. lia.
  - intros H. rewrite !containing_cons. specialize (IH H). lia.
Qed.

(** The invariant of the index: document ids are distinct, and every
    counter is stored exactly when it is positive, with the number of
    documents that contain the term. *)
Definition consistent (idx : t) : Prop :=
  List.NoDup (JsMap.keys (documents idx))
  /\ forall term,
       documentFrequency idx !! term
       = stored (containing term (documents idx)).

Lemma has_term_keys term d :
  has_term term d = if decide (term ∈ term_keys (doc_terms d)) then 1%nat else 0%nat.
Proof.
  unfold has_term. destruct (decide _) as [H|H].
  - apply elem_of_term_keys in H. by rewrite bool_decide_eq_true_2.
  - rewrite bool_decide_eq_false_2; [done|]. by rewrite <- elem_of_term_keys.
Qed.

Lemma consistent_create cfg : consistent (create cfg).
Proof. split; [constructor|]. intros term. done. Qed.

Lemma consistent_addDocument id path content timestamp idx :
  consistent idx -> consistent (addDocument id path content timestamp idx).
Proof.
  intros [Hnd Hdf]. split; simpl.
  - by apply JsMapFacts.NoDup_keys_set.
  - intros term.
    set (d := {| doc_id := id; doc_terms := count_terms (tokenize content) |}).
    rewrite fold_df_increment by apply NoDup_term_keys.
    destruct (JsMap.get id (documents idx)) as [old|] eqn:Hget.
    + pose proof (containing_set_present term id d old _ Hget) as Hc.
      pose proof (containing_delete term id old _ Hget) as Hc'.
      rewrite (has_term_keys term d), (has_term_keys term old) in Hc.
      rewrite (has_term_keys term old) in Hc'.
      simpl in Hc.
      unfold get0 at 1. rewrite !fold_df_decrement by apply NoDup_term_keys.
      rewrite (get0_stored _ _ _ (Hdf term)).
      specialize (Hdf term).
      destruct (decide (term ∈ term_keys (count_terms (tokenize content))));
        destruct (decide (term ∈ term_keys (doc_terms old)));
        rewrite ?Hdf;
        destruct (containing term (documents idx)) as [|c];
        destruct (containing term (JsMap.set id d (documents idx))) as [|c'];
        simpl in *; try lia; try done;
        try (destruct c; simpl; f_equal; lia);
        try (f_equal; lia).
    + pose proof (containing_set_absent term id d _ Hget) as Hc.
      rewrite (has_term_keys term d) in Hc. simpl in Hc.
      rewrite (get0_stored _ _ _ (Hdf term)), Hdf, Hc.
      destruct (decide (term ∈ term_keys (count_terms (tokenize content)))).
      * simpl. destruct (containing term (documents idx) + 1)%nat eqn:E; [lia|].
        f_equal; lia.
      * by rewrite Nat.add_0_r.
Qed.

Lemma consistent_removeDocument id idx :
  consistent idx -> consistent (snd (removeDocument id idx)).
Proof.
  intros [Hnd Hdf]. unfold removeDocument.
  destruct (JsMap.get id (documents idx)) as [old|] eqn:Hget; [|done].
  split; simpl.
  - by apply JsMapFacts.NoDup_keys_delete.
  - intros term.
    pose proof (containing_delete term id old _ Hget) as Hc.
    rewrite (has_term_keys term old) in Hc.
    rewrite fold_df_decrement by apply NoDup_term_keys.
    rewrite (get0_stored _ _ _ (Hdf term)), Hdf.
    destruct (decide (term ∈ term_keys (doc_terms old))).
    + f_equal. lia.
    + f_equal. lia.
Qed.

Lemma consistent_run ops idx : consistent idx -> consistent (run ops idx).
Proof.
  revert idx. induction ops as [|o ops IH]; intros idx H; [done|].
  simpl. apply IH. destruct o; simpl.
  - by apply consistent_addDocument.
  - by apply consistent_removeDocument.
Qed.

(** C1. Document-frequency invariant: after every sequence of
    [addDocument] and [removeDocument] calls on a new index (re-adding
    a present id included), the counter of every term, read as
    [documentFrequency.get(term) ?? 0], is the number of stored documents
    whose term-frequency map contains the term; a counter is stored only
    while it is positive, and the stored ids stay distinct. *)
Theorem document_frequency_invariant (cfg : BM25Config) (ops : list op)
  (term : string) :
  let idx := run ops (create cfg) in
  get0 (documentFrequency idx) term = containing term (documents idx)
  /\ (documentFrequency idx !! term = None
      <-> containing term (documents idx) = 0%nat)
  /\ List.NoDup (JsMap.keys (documents idx)).
Proof.
  intros idx.
  destruct (consistent_run ops (create cfg) (consistent_create cfg))
    as [Hnd Hdf].
  fold idx in Hnd, Hdf. split_and!; [|split|done].
  - by apply get0_stored.
  - rewrite Hdf. by destruct (containing term (documents idx)).
  - intros H. by rewrite Hdf, H.
Qed.

(** ** Well-formed indexes *)

Definition occurrences (term : string) (l : list string) : nat :=
  length (List.filter (String.eqb term) l).

Lemma get0_count_terms_from (l : list string) (tf : gmap string nat) term :
  get0
    (fold_left (fun tf term => <[term := (get0 tf term + 1)%nat]> tf) l tf)
    term
  = (get0 tf term + occurrences term l)%nat.
Proof.
  revert tf. induction l as [|x l IH]; intros tf; simpl.
  - unfold occurrences. simpl. lia.
  - rewrite IH. unfold occurrences. simpl.
    destruct (String.eqb_spec term x) as [->|Hne]; unfold get0; simpl.
    + rewrite lookup_insert_eq. simpl. lia.
    + rewrite lookup_insert_ne by done. lia.
Qed.

Lemma get0_count_terms (l : list string) term :
  get0 (count_terms l) term = occurrences term l.
Proof. unfold count_terms. by rewrite get0_count_terms_from. Qed.

Lemma occurrences_le_length term l : (occurrences term l <= length l)%nat.
Proof. unfold occurrences. apply List.filter_length_le. Qed.

(** A stored document carries the term data of its content. *)
Definition doc_ok (entry : string * IndexedDocument) : Prop :=
  doc_id entry.2 = entry.1
  /\ doc_terms entry.2 = count_terms (tokenize (doc_content entry.2))
  /\ doc_length entry.2 = length (tokenize (doc_content entry.2)).

Definition wf (idx : t) : Prop :=
  consistent idx
  /\ avgDocLength idx = updateAvgDocLength (documents idx)
  /\ List.Forall doc_ok (documents idx).

Lemma Forall_set {V} (P : string * V -> Prop) k v (m : list (string * V)) :
  List.Forall P m -> P (k, v) -> List.Forall P (JsMap.set k v m).
Proof.
  induction 1 as [|[k' v'] m Hx Hm IH]; intros Hv; simpl.
  - by repeat constructor.
  - destruct (String.eqb k k'); constructor; auto.
Qed.

Lemma Forall_delete {V} (P : string * V -> Prop) k (m : list (string * V)) :
  List.Forall P m -> List.Forall P (JsMap.delete k m).
Proof.
  induction 1 as [|[k' v'] m Hx Hm IH]; simpl; [constructor|].
  destruct (String.eqb k k'); [done|]. by constructor.
Qed.

Lemma wf_create cfg : wf (create cfg).
Proof. split_and!; [apply consistent_create|done|constructor]. Qed.

Lemma wf_addDocument id path content timestamp idx :
  wf idx -> wf (addDocument id path content timestamp idx).
Proof.
  intros (Hc & Havg & Hdocs). split_and!.
  - by apply consistent_addDocument.
  - done.
  - apply Forall_set; [done|]. by split_and!.
Qed.

Lemma wf_removeDocument id idx : wf idx -> wf (snd (removeDocument id idx)).
Proof.
  intros (Hc & Havg & Hdocs). split_and!.
  - by apply consistent_removeDocument.
  - unfold removeDocument. by destruct (JsMap.get id (documents idx)).
  - unfold removeDocument. destruct (JsMap.get id (documents idx)); [|done].
    by apply Forall_delete.
Qed.


Lemma fold_left_add_from (l : list IndexedDocument) acc :
  fold_left (fun acc d => (acc + doc_length d)%nat) l acc
  = (acc + fold_left (fun acc d => (acc + doc_length d)%nat) l 0)%nat.
Proof.
  revert acc. induction l as [|d l IH]; intros acc; simpl; [lia|].
  rewrite IH, (IH (doc_length d)). lia.
Qed.

Lemma total_length_ge docs d :
  In d (JsMap.values docs) -> (doc_length d <= total_length docs)%nat.
Proof.
  unfold total_length. induction (JsMap.values docs) as [|x l IH]; [done|].
  simpl. rewrite fold_left_add_from. intros [->|H]; [lia|].
  specialize (IH H). lia.
Qed.

Lemma containing_le docs term : (containing term docs <= length docs)%nat.
Proof.
  unfold containing. etransitivity; [apply List.filter_length_le|].
  unfold JsMap.values. by rewrite length_map.
Qed.

Lemma containing_pos docs term d :
  In d (JsMap.values docs) -> get0 (doc_terms d) term <> 0%nat ->
  (0 < containing term docs)%nat.
Proof.
  intros Hin Htf. unfold containing.
  assert (In d (List.filter
            (fun d => bool_decide (is_Some (doc_terms d !! term)))
            (JsMap.values docs))) as H.
  { apply filter_In. split; [done|]. apply bool_decide_eq_true_2.
    unfold get0 in Htf. destruct (doc_terms d !! term); [eauto|done]. }
  destruct (List.filter _ _); [done|simpl; lia].
Qed.

(** ** The score *)

(** What one query term adds to the score. *)
Definition contribution (idx : t) (doc : IndexedDocument) (term : string) : R :=
  let tf := get0 (doc_terms doc) term in
  if (tf =? 0)%nat then 0%R
  else
    (idf idx term
     * (INR tf * (k1 (config idx) + 1)
        / (INR tf
           + k1 (config idx)
             * (1 - b (config idx)
                + b (config idx)
                  * (INR (doc_length doc) / or_one (avgDocLength idx))))))%R.

Lemma score_from idx doc terms acc :
  fold_left
    (fun score term =>
       let tf := get0 (doc_terms doc) term in
       if (tf =? 0)%nat then score
       else
         let idf := idf idx term in
         let lengthNorm :=
           (1 - b (config idx)
            + b (config idx)
              * (INR (doc_length doc) / or_one (avgDocLength idx)))%R in
         let tfNorm :=
           (INR tf * (k1 (config idx) + 1)
            / (INR tf + k1 (config idx) * lengthNorm))%R in
         (score + idf * tfNorm)%R)
    terms acc
  = (acc + fold_right Rplus 0 (map (contribution idx doc) terms))%R.
Proof.
  revert acc. induction terms as [|term terms IH]; intros acc; simpl.
  - lra.
  - rewrite IH. unfold contribution at 2.
    destruct (get0 (doc_terms doc) term =? 0)%nat; lra.
Qed.

Lemma score_sum idx doc terms :
  score idx doc terms = fold_right Rplus 0%R (map (contribution idx doc) terms).
Proof. unfold score. rewrite score_from. lra. Qed.

Section Scores.
Variable idx : t.
Hypothesis Hwf : wf idx.


Lemma doc_in_index doc :
  In doc (JsMap.values (documents idx)) ->
  forall term, get0 (doc_terms doc) term <> 0%nat ->
    (1 <= doc_length doc)%nat
    /\ (1 <= total_length (documents idx))%nat
    /\ (1 <= containing term (documents idx) <= length (documents idx))%nat
    /\ get0 (documentFrequency idx) term = containing term (documents idx).
Proof.
  intros Hin term Htf. destruct Hwf as ((_ & Hdf) & _ & Hdocs).
  assert (1 <= doc_length doc)%nat as Hlen.
  { unfold JsMap.values in Hin. apply in_map_iff in Hin as (e & <- & He).
    rewrite List.Forall_forall in Hdocs. destruct (Hdocs e He) as (_ & Ht & Hl).
    rewrite Hl. rewrite Ht, get0_count_terms in Htf.
    pose proof (occurrences_le_length term (tokenize (doc_content e.2))). lia. }
  split_and!; try done.
  - pose proof (total_length_ge _ _ Hin). lia.
  - by eapply containing_pos.
  - apply containing_le.
  - by apply get0_stored.
Qed.



Hypothesis Hk1 : (0 <= k1 (config idx))%R.
Hypothesis Hb : (0 <= b (config idx) <= 1)%R.

Lemma contribution_nonneg doc term :
  In doc (JsMap.values (documents idx)) ->
  (0 <= contribution idx doc term)%R
  /\ (get0 (doc_terms doc) term <> 0%nat -> 0 < contribution idx doc term)%R.
Proof.
  intros Hin. unfold contribution.
  destruct (Nat.eqb_spec (get0 (doc_terms doc) term) 0) as [->|Htf].
  - split; [lra|done].
  - destruct (doc_in_index doc Hin term Htf) as (Hlen & Htot & [Hc1 Hc2] & Hdf).
    enough (0 < idf idx term
              * (INR (get0 (doc_terms doc) term) * (k1 (config idx) + 1)
                 / (INR (get0 (doc_terms doc) term)
                    + k1 (config idx)
                      * (1 - b (config idx)
                         + b (config idx)
                           * (INR (doc_length doc)
                              / or_one (avgDocLength idx))))))%R
      by (split; [lra|done]).
    assert (1 <= INR (get0 (doc_terms doc) term))%R as Htf1.
    { apply (le_INR 1). lia. }
    assert (0 < or_one (avgDocLength idx))%R as Havg.
    { destruct Hwf as (_ & -> & _).
      unfold updateAvgDocLength, JsMap.size.
      destruct (Nat.eqb_spec (length (documents idx)) 0); [lia|].
      assert (0 < INR (total_length (documents idx))
                  / INR (length (documents idx)))%R as H.
      { apply Rdiv_lt_0_compat; apply (lt_INR 0); lia. }
      unfold or_one. destruct (Req_dec_T _ 0); lra. }
    assert (0 <= INR (doc_length doc) / or_one (avgDocLength idx))%R as Hq.
    { apply Rmult_le_pos; [apply pos_INR|]. left. by apply Rinv_0_lt_compat. }
    apply Rmult_lt_0_compat.
    + unfold idf, JsMap.size. rewrite Hdf.
      destruct (Nat.eqb_spec (containing term (documents idx)) 0); [lia|].
      destruct (Nat.eqb_spec (length (documents idx)) 0); [lia|]. simpl.
      rewrite <- ln_1. apply ln_increasing; [lra|].
      assert (INR (containing term (documents idx))
              <= INR (length (documents idx)))%R by (apply le_INR; lia).
      assert (0 <= INR (containing term (documents idx)))%R by apply pos_INR.
      assert (0 < (INR (length (documents idx))
                   - INR (containing term (documents idx)) + 5 / 10)
                  / (INR (containing term (documents idx)) + 5 / 10))%R.
      { apply Rdiv_lt_0_compat; lra. }
      lra.
    + apply Rdiv_lt_0_compat; [nra|].
      assert (0 <= k1 (config idx)
                   * (1 - b (config idx)
                      + b (config idx)
                        * (INR (doc_length doc) / or_one (avgDocLength idx))))%R.
      { apply Rmult_le_pos; [done|]. nra. }
      lra.
Qed.

Lemma sum_contributions doc terms :
  In doc (JsMap.values (documents idx)) ->
  (0 <= fold_right Rplus 0 (map (contribution idx doc) terms))%R
  /\ (BM25Formula.mentions terms doc = true <->
      0 < fold_right Rplus 0 (map (contribution idx doc) terms))%R.
Proof.
  intros Hin. induction terms as [|term terms [IH0 IH]]; simpl.
  - split; [lra|]. split; [done|lra].
  - destruct (contribution_nonneg doc term Hin) as [H0 Hpos].
    split; [lra|].
    destruct (Nat.eqb_spec (get0 (doc_terms doc) term) 0) as [Hz|Hnz]; simpl.
    + assert (contribution idx doc term = 0%R) as ->.
      { unfold contribution. by rewrite Hz. }
      rewrite IH. split; intros; lra.
    + specialize (Hpos Hnz). split; [intros _; lra|done].
Qed.

(** The filter [docScore > 0] keeps the documents that contain a query
    term. *)
Lemma positive_iff_mentions doc terms :
  In doc (JsMap.values (documents idx)) ->
  Rgtb (score idx doc terms) 0 = BM25Formula.mentions terms doc.
Proof.
  intros Hin. rewrite score_sum.
  destruct (sum_contributions doc terms Hin) as [H0 Hiff].
  unfold Rgtb. destruct (Rlt_dec 0 _) as [Hlt|Hge].
  - symmetry. by apply Hiff.
  - destruct (BM25Formula.mentions terms doc); [|done].
    exfalso. apply Hge. by apply Hiff.
Qed.

End Scores.

(** ** The tokenizer *)



(** ** Search *)

(** The documents that contain a query term, in insertion order, with
    their scores. *)
Definition candidates (idx : t) (terms : list string)
  : list (IndexedDocument * R) :=
  map (fun doc => (doc, score idx doc terms))
    (List.filter (BM25Formula.mentions terms) (JsMap.values (documents idx))).

Local Abbreviation by_score :=
  (JsArrayFacts.desc (A := IndexedDocument * R) snd).

Lemma filter_map_scored (f : IndexedDocument -> R) (p : IndexedDocument -> bool)
  (l : list IndexedDocument) :
  (forall d, In d l -> Rgtb (f d) 0 = p d) ->
  List.filter (fun r : IndexedDocument * R => Rgtb (snd r) 0)
    (map (fun d => (d, f d)) l)
  = map (fun d => (d, f d)) (List.filter p l).
Proof.
  induction l as [|d l IH]; intros H; simpl; [done|].
  rewrite (H d) by (by left). rewrite IH by (intros; apply H; by right).
  by destruct (p d).
Qed.

Lemma filter_mentions_nil (l : list IndexedDocument) :
  List.filter (BM25Formula.mentions []) l = [].
Proof. by induction l. Qed.


Lemma search_ranking idx query limit :
  wf idx -> (0 <= k1 (config idx))%R -> (0 <= b (config idx) <= 1)%R ->
  search idx query limit
  = JsArray.slice0
      (JsArray.sort_by by_score (candidates idx (tokenize query))) limit.
Proof.
  intros Hwf Hk1 Hb. unfold search, candidates.
  destruct (tokenize query) as [|term terms] eqn:E; simpl length.
  - rewrite filter_mentions_nil. simpl.
    unfold JsArray.slice0. by destruct (limit <? 0)%Z; rewrite firstn_nil.
  - cbn [Nat.eqb]. rewrite filter_map_scored with (p := BM25Formula.mentions (term :: terms)).
    + done.
    + intros d Hd. by apply positive_iff_mentions.
Qed.











End BM25IndexFacts.

(* ===================================================================== *)
(** * Facts: retrieval *)
(* ===================================================================== *)

Module RetrievalFacts.
Import MemorySystem.

(** ** The scan for the best candidate *)

Definition scan_step (f : SearchResult -> R)
  (st : nat * option R * nat) (candidate : SearchResult)
  : nat * option R * nat :=
  let '(bestIdx, best, i) := st in
  if better (f candidate) best
  then (i, Some (f candidate), S i)
  else (bestIdx, best, S i).

(** What the scan knows after the candidates [seen]. *)
Definition scanned (f : SearchResult -> R) (seen : list SearchResult)
  (st : nat * option R * nat) : Prop :=
  let '(bestIdx, best, i) := st in
  i = length seen
  /\ match best with
     | None => seen = []
     | Some v =>
         exists b, nth_error seen bestIdx = Some b /\ f b = v
                   /\ forall x, In x seen -> (f x <= v)%R
     end.

Lemma scan_step_scanned f seen st candidate :
  scanned f seen st -> scanned f (seen ++ [candidate]) (scan_step f st candidate).
Proof.
  destruct st as [[bestIdx best] i]. intros [-> Hbest]. unfold scan_step.
  destruct best as [v|]; simpl.
  - destruct Hbest as (b & Hb & Hv & Hmax).
    unfold BM25Index.Rgtb. destruct (Rlt_dec v (f candidate)) as [Hlt|Hge].
    + split; [rewrite length_app; simpl; lia|].
      exists candidate. split_and!; [|done|].
      * rewrite nth_error_app2 by lia. by rewrite Nat.sub_diag.
      * intros x [Hx| [<-|[]]]%in_app_or; [|lra].
        specialize (Hmax x Hx). lra.
    + split; [rewrite length_app; simpl; lia|].
      exists b. split_and!; [|done|].
      * rewrite nth_error_app1; [done|]. apply nth_error_Some. congruence.
      * intros x [Hx| [<-|[]]]%in_app_or; [by apply Hmax|lra].
  - subst seen. split; [done|]. exists candidate. split_and!; [done|done|].
    intros x [<-|[]]. lra.
Qed.

Lemma scan_scanned f l seen st :
  scanned f seen st -> scanned f (seen ++ l) (fold_left (scan_step f) l st).
Proof.
  revert seen st. induction l as [|c l IH]; intros seen st H; simpl.
  - by rewrite app_nil_r.
  - replace (seen ++ c :: l) with ((seen ++ [c]) ++ l)
      by (by rewrite <- app_assoc).
    apply IH. by apply scan_step_scanned.
Qed.

Lemma best_index_fold f l :
  best_index f l = fst (fst (fold_left (scan_step f) l (0%nat, None, 0%nat))).
Proof.
  unfold best_index. do 2 f_equal.
  revert l. generalize (0%nat, @None R, 0%nat).
  intros st l. revert st. induction l as [|c l IH]; intros st; [done|].
  simpl. rewrite <- IH. f_equal. by destruct st as [[? ?] ?].
Qed.

(** The scan returns the index of a candidate of maximal value. *)
Lemma best_index_spec f l :
  l <> [] ->
  exists best,
    nth_error l (best_index f l) = Some best
    /\ forall x, In x l -> (f x <= f best)%R.
Proof.
  intros Hl. rewrite best_index_fold.
  pose proof (scan_scanned f l [] (0%nat, None, 0%nat)) as H.
  simpl in H. specialize (H (conj eq_refl eq_refl)).
  destruct (fold_left (scan_step f) l (0%nat, None, 0%nat))
    as [[bestIdx best] i].
  destruct H as [_ H]. destruct best as [v|]; [|done].
  destruct H as (bst & Hb & <- & Hmax). by exists bst.
Qed.

(** ** The selection loop *)

Section Loop.
Variables (limit : Z) (lambda : R).
Variable P : list SearchResult -> list SearchResult -> Prop.

(** One round of the loop preserves [P]. *)
Hypothesis round :
  forall selected remaining best,
    (Z.of_nat (length selected) < limit)%Z ->
    nth_error remaining (best_index (mmrScore lambda selected) remaining)
    = Some best ->
    (forall y, In y remaining ->
               (mmrScore lambda selected y <= mmrScore lambda selected best)%R) ->
    P selected remaining ->
    P (selected ++ [best])
      (JsArray.remove_at (best_index (mmrScore lambda selected) remaining)
         remaining).

(** The loop ends with [P], and it ends because [limit] results are
    selected or because no candidate remains. *)
Lemma mmr_loop_ind rounds selected remaining :
  P selected remaining ->
  (length remaining <= rounds)%nat ->
  exists remaining',
    P (mmr_loop rounds limit lambda selected remaining) remaining'
    /\ ((limit <= Z.of_nat
                    (length (mmr_loop rounds limit lambda selected remaining)))%Z
        \/ remaining' = []).
Proof.
  revert selected remaining.
  induction rounds as [|rounds IH]; intros selected remaining HP Hlen.
  - exists remaining. split; [done|]. right.
    destruct remaining; [done|simpl in Hlen; lia].
  - cbn [mmr_loop].
    destruct (Z.ltb_spec (Z.of_nat (length selected)) limit) as [Hlt|Hge];
      cbn [andb]; [|exists remaining; split; [done|left; lia]].
    destruct (Nat.ltb_spec 0 (length remaining)) as [Hpos|Hz];
      [|exists remaining; split; [done|right;
         destruct remaining; [done|simpl in Hz; lia]]].
    assert (remaining <> []) as Hne by (intros ->; simpl in Hpos; lia).
    destruct (best_index_spec (mmrScore lambda selected) remaining Hne)
      as (best & Hnth & Hmax).
    rewrite Hnth. apply IH.
    + by apply round.
    + assert (best_index (mmrScore lambda selected) remaining
              < length remaining)%nat as Hi.
      { apply nth_error_Some. congruence. }
      pose proof (JsArrayFacts.length_remove_at remaining _ Hi). lia.
Qed.

End Loop.

(** ** Greedy selection *)

(** Every result after the first was, when it was chosen after [pre], a
    candidate of maximal marginal relevance among those not yet chosen. *)
Definition chosen_greedily (lambda : R) (results selected : list SearchResult)
  : Prop :=
  forall pre x post,
    selected = pre ++ x :: post -> pre <> [] ->
    exists others,
      Permutation results (pre ++ x :: others)
      /\ forall y, In y others ->
                   (mmrScore lambda pre y <= mmrScore lambda pre x)%R.

Definition greedy_inv (limit : Z) (lambda : R) (results : list SearchResult)
  (selected remaining : list SearchResult) : Prop :=
  Permutation results (selected ++ remaining)
  /\ hd_error selected = hd_error results
  /\ (1 <= Z.of_nat (length selected) <= Z.max 1 limit)%Z
  /\ chosen_greedily lambda results selected.

Lemma greedy_round limit lambda results selected remaining best :
  (Z.of_nat (length selected) < limit)%Z ->
  nth_error remaining (best_index (mmrScore lambda selected) remaining)
  = Some best ->
  (forall y, In y remaining ->
             (mmrScore lambda selected y <= mmrScore lambda selected best)%R) ->
  greedy_inv limit lambda results selected remaining ->
  greedy_inv limit lambda results (selected ++ [best])
    (JsArray.remove_at (best_index (mmrScore lambda selected) remaining)
       remaining).
Proof.
  intros Hlt Hnth Hmax (Hperm & Hhd & Hlen & Hgreedy).
  pose proof (JsArrayFacts.remove_at_perm _ _ _ Hnth) as Hrem.
  set (remaining' := JsArray.remove_at _ remaining) in *.
  assert (Permutation results (selected ++ best :: remaining')) as Hperm'.
  { rewrite Hperm. by apply Permutation_app_head. }
  split_and!.
  - by rewrite <- app_assoc.
  - destruct selected; [simpl in Hlen; lia|done].
  - rewrite length_app. simpl. lia.
  - rewrite length_app. simpl. lia.
  - intros pre x post Hsplit Hpre.
    destruct (list_eq_nil_dec post) as [->|Hpost].
    + apply app_inj_tail in Hsplit as [-> ->].
      exists remaining'. split; [done|]. intros y Hy. apply Hmax.
      apply (Permutation_in _ (Permutation_sym Hrem)). by right.
    + destruct (exists_last Hpost) as (post' & z & ->).
      rewrite app_comm_cons, app_assoc in Hsplit.
      apply app_inj_tail in Hsplit as [-> ->]. by eapply Hgreedy.
Qed.

Lemma mmr_loop_greedy limit lambda results first rest :
  results = first :: rest ->
  exists remaining',
    greedy_inv limit lambda results
      (mmr_loop (length rest) limit lambda [first] rest) remaining'
    /\ ((limit <= Z.of_nat
                    (length (mmr_loop (length rest) limit lambda [first] rest)))%Z
        \/ remaining' = []).
Proof.
  intros ->.
  apply (mmr_loop_ind limit lambda (greedy_inv limit lambda (first :: rest))).
  - intros. by apply greedy_round.
  - split_and!; [done|done|simpl; lia|simpl; lia|].
    intros [|p pre] x post Hsplit Hpre; [done|].
    injection Hsplit as -> Hnil. by destruct pre.
  - done.
Qed.

(** C6 (amended). The re-ranking of more than one candidate enforces no
    similarity threshold; it is the greedy selection by marginal
    relevance: the first result is the first candidate, the number of
    results is [limit] (at least 1, at most the number of candidates),
    and every later result [x], chosen after the results [pre], has the
    largest [lambda * score - (1 - lambda) * maxSimilarity] against [pre]
    among the candidates not chosen before it.  Two adjacent results can
    so be more similar than any threshold, whenever the relevance of the
    similar candidate outweighs its penalty. *)
Theorem mmr_greedy_selection (results : list SearchResult) (limit : Z)
  (lambda : R) :
  (1 < length results)%nat ->
  let out := mmrRerank results limit lambda in
  hd_error out = hd_error results
  /\ Z.of_nat (length out)
     = Z.max 1 (Z.min limit (Z.of_nat (length results)))
  /\ forall pre x post,
       out = pre ++ x :: post -> pre <> [] ->
       exists others,
         Permutation results (pre ++ x :: others)
         /\ forall y, In y others ->
                      (mmrScore lambda pre y <= mmrScore lambda pre x)%R.
Proof.
  intros Hlen out. unfold mmrRerank in out.
  destruct (Nat.leb_spec (length results) 1) as [?|_]; [lia|].
  destruct results as [|first rest] eqn:E; [simpl in Hlen; lia|].
  destruct (mmr_loop_greedy limit lambda (first :: rest) first rest eq_refl)
    as (remaining' & (Hperm & Hhd & Hl & Hgreedy) & Hexit).
  fold out in Hperm, Hhd, Hl, Hgreedy, Hexit.
  split_and!; [done| |done].
  apply Permutation_length in Hperm. rewrite length_app in Hperm.
  destruct Hexit as [Hexit| ->]; simpl in *; lia.
Qed.

(** Three candidates: a near-duplicate pair of high relevance and a
    dissimilar candidate of low relevance. *)
Definition duplicate_a : SearchResult :=
  {| sr_path := "a.md"; sr_content := "typescript javascript programming";
     sr_score := 10; sr_timestamp := 0 |}.
Definition duplicate_b : SearchResult :=
  {| sr_path := "b.md"; sr_content := "typescript javascript programming";
     sr_score := 9; sr_timestamp := 0 |}.
Definition dissimilar_c : SearchResult :=
  {| sr_path := "c.md"; sr_content := "python machine learning";
     sr_score := 1 / 10; sr_timestamp := 0 |}.

Lemma jaccardSimilarity_sizes text1 text2 inter union :
  jaccard_sizes text1 text2 = (inter, S union) ->
  jaccardSimilarity text1 text2 = (INR inter / INR (S union))%R.
Proof. unfold jaccardSimilarity. by intros ->. Qed.

Lemma similarity_duplicates :
  jaccardSimilarity "typescript javascript programming"
    "typescript javascript programming" = 1%R.
Proof.
  rewrite (jaccardSimilarity_sizes _ _ 3 2) by by vm_compute.
  simpl. field.
Qed.

Lemma similarity_dissimilar :
  jaccardSimilarity "python machine learning"
    "typescript javascript programming" = 0%R
  /\ jaccardSimilarity "typescript javascript programming"
       "python machine learning" = 0%R.
Proof.
  split; (rewrite (jaccardSimilarity_sizes _ _ 0 5) by (by vm_compute));
    simpl; field.
Qed.

Lemma Rgtb_true x y : (y < x)%R -> BM25Index.Rgtb x y = true.
Proof. intros H. unfold BM25Index.Rgtb. by destruct (Rlt_dec y x). Qed.

Lemma Rgtb_false x y : (x <= y)%R -> BM25Index.Rgtb x y = false.
Proof. intros H. unfold BM25Index.Rgtb. destruct (Rlt_dec y x); [lra|done]. Qed.

Lemma mmrRerank_duplicates :
  mmrRerank [duplicate_a; duplicate_b; dissimilar_c] 2 DEFAULT_LAMBDA
  = [duplicate_a; duplicate_b].
Proof.
  unfold mmrRerank. cbn [length Nat.leb mmr_loop app Z.of_nat Z.ltb Nat.ltb
    Pos.of_succ_nat Z.compare Pos.compare Pos.compare_cont andb Pos.succ].
  assert (mmrScore DEFAULT_LAMBDA [duplicate_a] duplicate_b = 6%R) as Hb.
  { unfold mmrScore, maxSimilarity, DEFAULT_LAMBDA. simpl.
    rewrite similarity_duplicates. rewrite Rmax_right by lra. lra. }
  assert (mmrScore DEFAULT_LAMBDA [duplicate_a] dissimilar_c = (7 / 100)%R)
    as Hc.
  { unfold mmrScore, maxSimilarity, DEFAULT_LAMBDA. simpl.
    rewrite (proj1 similarity_dissimilar). rewrite Rmax_right by lra. lra. }
  assert (best_index (mmrScore DEFAULT_LAMBDA [duplicate_a])
            [duplicate_b; dissimilar_c] = 0%nat) as ->.
  { unfold best_index. cbn [fold_left better]. rewrite Hb, Hc.
    by rewrite Rgtb_false by lra. }
  done.
Qed.

(** C6, as stated, fails: [duplicate_a] and [dissimilar_c] are two
    sufficiently dissimilar candidates, yet the two results are the
    duplicates, adjacent with similarity 1 > 0.95. *)
Lemma diversity_bound_fails :
  ~ DiversityBound.holds (95 / 100)
      [duplicate_a; duplicate_b; dissimilar_c] 2 DEFAULT_LAMBDA.
Proof.
  unfold DiversityBound.holds. rewrite mmrRerank_duplicates. intros H.
  assert (DiversityBound.similarity duplicate_a duplicate_b <= 95 / 100)%R
    as Hsim.
  { apply H with (i := 0%nat); [simpl; lia| |done|done].
    exists 0%nat, 2%nat, duplicate_a, dissimilar_c.
    split_and!; [done|done|done|].
    unfold DiversityBound.similarity. simpl.
    rewrite (proj2 similarity_dissimilar). lra. }
  unfold DiversityBound.similarity in Hsim. simpl in Hsim.
  rewrite similarity_duplicates in Hsim. lra.
Qed.

(** The greedy selection on the three candidates. *)
Lemma mmr_greedy_selection_witness :
  (1 < length [duplicate_a; duplicate_b; dissimilar_c])%nat
  /\ Z.of_nat
       (length (mmrRerank [duplicate_a; duplicate_b; dissimilar_c] 2
                  DEFAULT_LAMBDA))
     = 2%Z.
Proof.
  assert (1 < length [duplicate_a; duplicate_b; dissimilar_c])%nat as H
    by (simpl; lia).
  split; [exact H|].
  destruct (mmr_greedy_selection [duplicate_a; duplicate_b; dissimilar_c] 2
              DEFAULT_LAMBDA H) as (_ & Hlen & _).
  exact Hlen.
Defined.

(** ** Temporal decay *)

Lemma halfLifeMs_pos cfg :
  (0 < temporalDecayHalfLife cfg)%R -> (0 < halfLifeMs cfg)%R.
Proof. intros H. unfold halfLifeMs. nra. Qed.

(** The decay factor is larger for the later timestamp. *)
Lemma decayFactor_increasing cfg now t1 t2 :
  (0 < temporalDecayHalfLife cfg)%R -> (t1 < t2)%R ->
  (decayFactor cfg now t1 < decayFactor cfg now t2)%R.
Proof.
  intros Hh Ht. apply halfLifeMs_pos in Hh.
  unfold decayFactor, Rpower. apply exp_increasing.
  assert (ln (5 / 10) < 0)%R as Hln.
  { rewrite <- ln_1. apply ln_increasing; lra. }
  assert ((now - t2) / halfLifeMs cfg < (now - t1) / halfLifeMs cfg)%R.
  { apply Rmult_lt_compat_r; [by apply Rinv_0_lt_compat|lra]. }
  nra.
Qed.








Section Order.
Variables (limit : Z) (lambda : R) (hi lo : SearchResult).
Hypothesis Hlambda : (0 < lambda)%R.
Hypothesis Hcontent : sr_content hi = sr_content lo.
Hypothesis Hscore : (sr_score lo < sr_score hi)%R.





End Order.








(** ** Negative limits *)





End RetrievalFacts.

(* ===================================================================== *)
(** * Facts: the rounded product *)
(* ===================================================================== *)

Module JsNumberFacts.
Import JsNumber.
Local Open Scope Z_scope.

(** Rounding to 53 bits moves a number by at most [e], which is at most
    the number divided by [2^53]. *)
Lemma round53_error n :
  0 <= n ->
  exists e, 0 <= e /\ e * 2 ^ 53 <= n /\ n - e <= round53 n <= n + e.
Proof.
  intros Hn. unfold round53.
  destruct (Z.leb_spec (Z.log2 n - 52) 0) as [Hs|Hs].
  { exists 0. lia. }
  assert (0 < n) as Hpos.
  { destruct (Z.eq_dec n 0) as [->|]; [simpl in Hs; lia|lia]. }
  set (s := Z.log2 n - 52) in *.
  rewrite Z.shiftr_div_pow2, Z.land_ones, !Z.shiftl_mul_pow2 by lia.
  rewrite Z.mul_1_l.
  assert (2 ^ s = 2 * 2 ^ (s - 1)) as Hpow.
  { rewrite <- Z.pow_succ_r by lia. f_equal. lia. }
  assert (2 ^ (s - 1) * 2 ^ 53 <= n) as Hhalf.
  { rewrite <- Z.pow_add_r by lia.
    replace (s - 1 + 53) with (Z.log2 n) by lia.
    by apply Z.log2_spec. }
  pose proof (Z.div_mod n (2 ^ s) ltac:(lia)) as Hdm.
  pose proof (Z.mod_pos_bound n (2 ^ s) ltac:(lia)) as Hmod.
  set (half := 2 ^ (s - 1)) in *.
  set (q := n / 2 ^ s) in *. set (r := n mod 2 ^ s) in *.
  exists half. rewrite Hpow in *.
  split_and!; [lia|lia| |];
    (destruct (Z.ltb_spec half r); simpl; [nia|]);
    (destruct (Z.eqb_spec r half); simpl; [|nia]);
    destruct (Z.odd q); nia.
Qed.

Lemma mantissa_0_7_value : 10 * mantissa_0_7 = 7 * 2 ^ 53 - 4.
Proof. reflexivity. Qed.

(** The limit of the recent messages never exceeds the budget. *)
Lemma floor_mul_0_7_le limit : 0 <= limit -> 0 <= floor_mul_0_7 limit <= limit.
Proof.
  intros H. unfold floor_mul_0_7.
  destruct (Z.ltb_spec limit 0); [lia|].
  rewrite Z.abs_eq by lia.
  destruct (round53_error (limit * mantissa_0_7)) as (e & He & Hle & Hr).
  { unfold mantissa_0_7. lia. }
  pose proof mantissa_0_7_value as HM.
  split.
  - apply Z.div_pos; lia.
  - apply Z.div_le_upper_bound; [lia|]. nia.
Qed.




End JsNumberFacts.

(* ===================================================================== *)
(** * Facts: context compaction *)
(* ===================================================================== *)

Module CompactionFacts.
Import Transcript MemorySystem.
Local Open Scope Z_scope.

Lemma length_append (s1 s2 : string) :
  String.length (s1 +:+ s2) = (String.length s1 + String.length s2)%nat.
Proof. induction s1 as [|c s1 IH]; simpl; [done|]. by rewrite IH. Qed.

Lemma estimateTokens_nonneg text : 0 <= estimateTokens text.
Proof. unfold estimateTokens. apply Z.div_pos; lia. Qed.

Lemma estimateTokens_mono s1 s2 :
  (String.length s1 <= String.length s2)%nat ->
  estimateTokens s1 <= estimateTokens s2.
Proof. intros H. unfold estimateTokens. apply Z.div_le_mono; lia. Qed.

(** ** Token totals *)

Lemma total_tokens_from history acc :
  fold_left (fun total entry => total + estimateTokens (content entry))
    history acc
  = acc + total_tokens history.
Proof.
  unfold total_tokens. revert acc.
  induction history as [|e history IH]; intros acc; simpl; [lia|].
  rewrite (IH (acc + _)), (IH (0 + _)). lia.
Qed.

Lemma total_tokens_cons e history :
  total_tokens (e :: history) = estimateTokens (content e) + total_tokens history.
Proof. unfold total_tokens at 1. simpl. by rewrite total_tokens_from. Qed.


Lemma total_tokens_nonneg history : 0 <= total_tokens history.
Proof.
  induction history as [|e history IH]; [done|].
  rewrite total_tokens_cons. pose proof (estimateTokens_nonneg (content e)). lia.
Qed.

(** ** The recent messages *)

Lemma collect_recent_tokens recentLimit rev_history recentTokens recentMessages :
  recentTokens = total_tokens recentMessages ->
  recentTokens <= recentLimit ->
  total_tokens
    (collect_recent recentLimit rev_history recentTokens recentMessages)
  <= recentLimit.
Proof.
  revert recentTokens recentMessages.
  induction rev_history as [|e older IH]; intros tokens messages Ht Hle; simpl.
  - lia.
  - destruct (Z.leb_spec (tokens + estimateTokens (content e)) recentLimit);
      [|lia].
    apply IH; [|done]. rewrite total_tokens_cons. lia.
Qed.

(** The walk keeps a suffix of the history. *)
Lemma collect_recent_suffix recentLimit rev_history recentTokens recentMessages :
  exists kept rest,
    rev_history = kept ++ rest
    /\ collect_recent recentLimit rev_history recentTokens recentMessages
       = rev kept ++ recentMessages.
Proof.
  revert recentTokens recentMessages.
  induction rev_history as [|e older IH]; intros tokens messages; simpl.
  - by exists [], [].
  - destruct (tokens + estimateTokens (content e) <=? recentLimit).
    + destruct (IH (tokens + estimateTokens (content e)) (e :: messages))
        as (kept & rest & -> & ->).
      exists (e :: kept), rest. split; [done|].
      simpl. by rewrite <- app_assoc.
    + by exists [], (e :: older).
Qed.


(** ** Extracted facts *)

(** A fact is at most 103 characters long. *)
Lemma length_slice_to n s : (String.length (JsString.slice_to n s) <= n)%nat.
Proof.
  revert s. induction n as [|n IH]; intros [|c s]; simpl; try lia.
  specialize (IH s). lia.
Qed.

Lemma length_limit_fact trimmed : (String.length (limit_fact trimmed) <= 103)%nat.
Proof.
  unfold limit_fact. destruct (Nat.ltb_spec 100 (String.length trimmed)).
  - rewrite length_append. pose proof (length_slice_to 100 trimmed).
    change (String.length "...") with 3%nat. lia.
  - lia.
Qed.

Definition facts_ok (facts : list string) : Prop :=
  (length facts <= 10)%nat
  /\ List.Forall (fun f => (String.length f <= 103)%nat) facts.

Lemma scan_sentences_ok ss facts :
  (length facts < 10)%nat ->
  List.Forall (fun f => (String.length f <= 103)%nat) facts ->
  facts_ok (scan_sentences ss facts).
Proof.
  revert facts. induction ss as [|s ss IH]; intros facts Hlen Hall;
    cbn [scan_sentences].
  - split; [lia|done].
  - destruct (is_fact_like (JsString.trim s)); [|by apply IH].
    assert (List.Forall (fun f => (String.length f <= 103)%nat)
              (facts ++ [limit_fact (JsString.trim s)])) as Hall'.
    { apply List.Forall_app. split; [done|].
      constructor; [apply length_limit_fact|constructor]. }
    destruct (Nat.leb_spec 10 (length (facts ++ [limit_fact (JsString.trim s)])))
      as [Hfull|Hroom].
    + split; [|done]. rewrite length_app in *. simpl in *. lia.
    + by apply IH.
Qed.

Lemma scan_entries_ok entries facts :
  (length facts < 10)%nat ->
  List.Forall (fun f => (String.length f <= 103)%nat) facts ->
  facts_ok (scan_entries entries facts).
Proof.
  revert facts. induction entries as [|e entries IH]; intros facts Hlen Hall;
    cbn [scan_entries].
  - split; [lia|done].
  - destruct (is_tool (role e)); [by apply IH|].
    destruct (scan_sentences_ok (sentences (content e)) facts Hlen Hall)
      as [Hl Hf].
    destruct (Nat.leb_spec 10 (length (scan_sentences (sentences (content e)) facts)));
      [done|]. by apply IH.
Qed.

Lemma extractFacts_ok entries : facts_ok (extractFacts entries).
Proof. apply scan_entries_ok; [simpl; lia|constructor]. Qed.





(** ** compact *)

Section Compact.
Variable toISOString : Z -> string.
Variables (m : t) (now now' : Z).





End Compact.

Definition empty_memory : t :=
  {| config := DEFAULT_MEMORY_CONFIG; bm25Index := BM25Index.empty;
     notes := ∅ |}.

(** An old message with two fact-like sentences and a short new one. *)
Definition long_history : list TranscriptEntry :=
  [ {| id := "1"; role := user;
       content := "The deployment target is always the staging cluster. The reviewer must approve every change.";
       timestamp := 1000; toolCall := None; toolResult := None |};
    {| id := "2"; role := assistant; content := "ok";
       timestamp := 2000; toolCall := None; toolResult := None |} ].





End CompactionFacts.

(* ===================================================================== *)
(** * Facts: lines of text *)
(* ===================================================================== *)

Module JsStringFacts.
Import JsString.
#[local] Arguments String.append !_ _ / : simpl nomatch.

Lemma append_assoc (s1 s2 s3 : string) :
  (s1 +:+ s2) +:+ s3 = s1 +:+ (s2 +:+ s3).
Proof. induction s1 as [|c s1 IH]; simpl; [done|]. by rewrite IH. Qed.

Lemma append_nil_r (s : string) : s +:+ "" = s.
Proof. induction s as [|c s IH]; simpl; [done|]. by rewrite IH. Qed.

(** [s.includes(c)] for one character. *)
Fixpoint has_char (c0 : ascii) (s : string) : bool :=
  match s with
  | EmptyString => false
  | String c s' => Ascii.eqb c c0 || has_char c0 s'
  end.

Lemma has_char_append c0 s1 s2 :
  has_char c0 (s1 +:+ s2) = has_char c0 s1 || has_char c0 s2.
Proof.
  induction s1 as [|c s1 IH]; simpl; [done|]. rewrite IH. by rewrite orb_assoc.
Qed.

(** ** split *)

Lemma split_char_nonempty c0 s : split_char c0 s <> [].
Proof.
  destruct s as [|c s]; simpl; [done|].
  destruct (Ascii.eqb c c0); [done|]. by destruct (split_char c0 s).
Qed.

(** The pieces do not contain the separator. *)
Lemma split_char_pieces c0 s :
  List.Forall (fun piece => has_char c0 piece = false) (split_char c0 s).
Proof.
  induction s as [|c s IH]; simpl.
  - by repeat constructor.
  - destruct (Ascii.eqb c c0) eqn:E.
    + by constructor.
    + destruct (split_char c0 s) as [|p ps].
      * constructor; [|constructor]. simpl. by rewrite E.
      * inversion IH; subst. constructor; [|done]. simpl. by rewrite E.
Qed.

(** A line without the separator, then the separator. *)
Lemma split_char_line c0 line rest :
  has_char c0 line = false ->
  split_char c0 (line +:+ String c0 rest) = line :: split_char c0 rest.
Proof.
  induction line as [|c line IH]; simpl.
  - intros _. by rewrite Ascii.eqb_refl.
  - intros [Hc Hl]%orb_false_iff. rewrite Hc, IH by done. done.
Qed.

(** Text that ends with the separator, then more text. *)
Lemma split_char_after c0 s1 lines s2 :
  split_char c0 s1 = lines ++ [""] ->
  split_char c0 (s1 +:+ s2) = lines ++ split_char c0 s2.
Proof.
  revert lines. induction s1 as [|c s1 IH]; intros lines; simpl.
  - destruct lines as [|l [|l' lines]]; simpl; intros H; try done.
  - destruct (Ascii.eqb c c0) eqn:E.
    + destruct lines as [|l lines]; simpl.
      * intros [= H]. by apply split_char_nonempty in H.
      * intros [= <- H]. by rewrite (IH lines).
    + pose proof (split_char_nonempty c0 s1) as Hne.
      destruct (split_char c0 s1) as [|p ps] eqn:Es; [done|].
      destruct lines as [|l lines]; simpl.
      * intros H. discriminate H.
      * intros [= <- H]. rewrite (IH (p :: lines)) by (by rewrite H). done.
Qed.

Lemma join_cons sep x y (l : list string) :
  join sep (x :: y :: l) = x +:+ sep +:+ join sep (y :: l).
Proof. reflexivity. Qed.

Lemma split_char_join c0 (lines : list string) :
  lines <> [] ->
  List.Forall (fun line => has_char c0 line = false) lines ->
  split_char c0 (join (String c0 "") lines +:+ String c0 "")
  = lines ++ [""].
Proof.
  intros Hne Hall. induction Hall as [|line lines Hline Hall IH]; [done|].
  destruct lines as [|line' lines].
  - simpl. by rewrite split_char_line.
  - rewrite join_cons, !append_assoc.
    change (String c0 "" +:+ ?x) with (String c0 x).
    rewrite split_char_line by done. by rewrite IH.
Qed.

(** ** trim *)

Lemma trimStart_head s :
  trimStart s = "" \/ exists c t, trimStart s = String c t /\ is_space c = false.
Proof.
  induction s as [|c s IH]; simpl; [by left|].
  destruct (is_space c) eqn:E; [done|]. right. by exists c, s.
Qed.

Lemma trimEnd_cons c s :
  trimEnd (String c s)
  = match trimEnd s with
    | EmptyString => if is_space c then EmptyString else String c EmptyString
    | t => String c t
    end.
Proof. reflexivity. Qed.

Lemma trimEnd_idempotent s : trimEnd (trimEnd s) = trimEnd s.
Proof.
  induction s as [|c s IH]; [done|]. rewrite trimEnd_cons.
  destruct (trimEnd s) as [|d t] eqn:E.
  - destruct (is_space c) eqn:Ec; [done|]. rewrite trimEnd_cons. simpl.
    by rewrite Ec.
  - rewrite trimEnd_cons. by rewrite IH.
Qed.

Lemma trimEnd_head c s :
  is_space c = false -> exists t, trimEnd (String c s) = String c t.
Proof.
  intros Hc. simpl. destruct (trimEnd s) as [|d t]; rewrite ?Hc; eauto.
Qed.

Lemma trim_idempotent s : trim (trim s) = trim s.
Proof.
  unfold trim. destruct (trimStart_head s) as [->|(c & t & -> & Hc)]; [done|].
  destruct (trimEnd_head c t Hc) as [w Hw]. rewrite Hw.
  simpl trimStart. rewrite Hc. rewrite <- Hw. apply trimEnd_idempotent.
Qed.

(** A string that starts and ends... starts with a character that is not
    a space is not blank. *)
Lemma trim_not_blank c s :
  is_space c = false -> (0 < String.length (trim (String c s)))%nat.
Proof.
  intros Hc. unfold trim. simpl trimStart. rewrite Hc.
  destruct (trimEnd_head c s Hc) as [w ->]. simpl. lia.
Qed.

Lemma has_char_trimStart c0 s :
  has_char c0 s = false -> has_char c0 (trimStart s) = false.
Proof.
  induction s as [|c s IH]; simpl; [done|].
  intros [Hc Hs]%orb_false_iff. destruct (is_space c); [by apply IH|].
  simpl. by rewrite Hc, Hs.
Qed.

Lemma has_char_trimEnd c0 s :
  has_char c0 s = false -> has_char c0 (trimEnd s) = false.
Proof.
  induction s as [|c s IH]; simpl; [done|].
  intros [Hc Hs]%orb_false_iff. specialize (IH Hs).
  destruct (trimEnd s) as [|d t].
  - destruct (is_space c); simpl; [done|]. by rewrite Hc.
  - simpl in *. by rewrite Hc, IH.
Qed.

Lemma has_char_trim c0 s : has_char c0 s = false -> has_char c0 (trim s) = false.
Proof. intros H. by apply has_char_trimEnd, has_char_trimStart. Qed.

End JsStringFacts.

(* ===================================================================== *)
(** * Facts: JSON texts read back *)
(* ===================================================================== *)

Module JSONFacts.
Import JSON.
#[local] Arguments String.append !_ _ / : simpl nomatch.

(** ** Strings *)

Lemma read_string_written s k :
  read_string (write_chars s (String dquote k)) = Some (units s, k).
Proof.
  induction s as [|c s IH]; [done|].
  destruct c as [[] [] [] [] [] [] [] []]; simpl; by rewrite IH.
Qed.

(** ** Numbers *)

Fixpoint all_digits (s : string) : bool :=
  match s with
  | EmptyString => true
  | String c s' => is_digit c && all_digits s'
  end.

(** The digits [s] read onto [acc]. *)
Fixpoint digits_value (s : string) (acc : Z) : Z :=
  match s with
  | EmptyString => acc
  | String c s' => digits_value s' (10 * acc + digit_value c)
  end.

(** The text after a number: the end, a comma or a closing brace. *)
Definition number_end (k : string) : bool :=
  match k with
  | EmptyString => true
  | String c _ => ((N_of_ascii c =? 44) || (N_of_ascii c =? 125))%N
  end.

Lemma read_digits_written s k acc count :
  all_digits s = true -> number_end k = true ->
  read_digits (s +:+ k) acc count
  = (digits_value s acc, (count + String.length s)%nat, k).
Proof.
  revert acc count. induction s as [|c s IH]; intros acc count Hs Hk; simpl.
  - rewrite Nat.add_0_r. destruct k as [|c k]; [done|]. simpl in *.
    unfold is_digit.
    destruct (N.eqb_spec (N_of_ascii c) 44) as [->|_]; [done|].
    destruct (N.eqb_spec (N_of_ascii c) 125) as [->|_]; done.
  - simpl in Hs. apply andb_true_iff in Hs as [Hc Hs]. rewrite Hc.
    rewrite IH by done. do 2 f_equal. lia.
Qed.

Lemma digit_char_spec d :
  (d < 10)%N ->
  is_digit (JsNumber.digit_char d) = true
  /\ digit_value (JsNumber.digit_char d) = Z.of_N d
  /\ N_of_ascii (JsNumber.digit_char d) = (48 + d)%N.
Proof.
  intros H. unfold is_digit, digit_value, JsNumber.digit_char.
  rewrite N_ascii_embedding by lia. split_and!; [|lia|done].
  apply andb_true_iff. split; apply N.leb_le; lia.
Qed.

Lemma digits_value_app s1 s2 acc :
  digits_value (s1 +:+ s2) acc = digits_value s2 (digits_value s1 acc).
Proof.
  revert acc. induction s1 as [|c s1 IH]; intros acc; simpl; [done|].
  by rewrite IH.
Qed.

Lemma all_digits_app s1 s2 :
  all_digits (s1 +:+ s2) = all_digits s1 && all_digits s2.
Proof.
  induction s1 as [|c s1 IH]; simpl; [done|]. by rewrite IH, andb_assoc.
Qed.

Lemma digits_from_S fuel n acc :
  JsNumber.digits_from (S fuel) n acc
  = if (n / 10 =? 0)%N then String (JsNumber.digit_char (n mod 10)) acc
    else JsNumber.digits_from fuel (n / 10)
           (String (JsNumber.digit_char (n mod 10)) acc).
Proof. reflexivity. Qed.

(** The digits that [digits_from] writes in front of [acc]. *)
Lemma digits_from_spec fuel n acc :
  (n < 10 ^ N.of_nat (S fuel))%N ->
  exists d s,
    JsNumber.digits_from (S fuel) n acc = String d s +:+ acc
    /\ all_digits (String d s) = true
    /\ digits_value (String d s) 0 = Z.of_N n
    /\ (n <> 0%N -> N_of_ascii d <> 48%N).
Proof.
  revert n acc. induction fuel as [|fuel IH]; intros n acc Hn.
  - assert (n < 10)%N as Hn' by (by vm_compute in Hn |- *).
    destruct (digit_char_spec n Hn') as (Hd & Hv & Hc).
    exists (JsNumber.digit_char n), "".
    assert (n mod 10 = n)%N as Hmod by (by apply N.mod_small).
    assert (n / 10 = 0)%N as Hdiv by (by apply N.div_small).
    rewrite digits_from_S, Hmod, Hdiv. simpl.
    rewrite Hd, Hv, Hc. split_and!; try done. lia.
  - rewrite digits_from_S.
    assert (n mod 10 < 10)%N as Hmod by (by apply N.mod_lt).
    destruct (digit_char_spec (n mod 10) Hmod) as (Hd & Hv & Hc).
    destruct (N.eqb_spec (n / 10) 0) as [Hz|Hnz].
    + exists (JsNumber.digit_char (n mod 10)), "". simpl.
      rewrite Hd, Hv, Hc.
      pose proof (N.div_mod n 10 ltac:(done)) as Hdm.
      split_and!; try done; lia.
    + destruct (IH (n / 10)%N
                  (String (JsNumber.digit_char (n mod 10)) acc))
        as (d & s & E & Hall & Hval & Hfirst).
      { apply N.Div0.div_lt_upper_bound.
        replace (N.of_nat (S (S fuel))) with (N.succ (N.of_nat (S fuel)))
          in Hn by lia.
        by rewrite N.pow_succ_r' in Hn. }
      exists d, (s +:+ String (JsNumber.digit_char (n mod 10)) "").
      rewrite E. split_and!.
      * change (String d s +:+ ?x) with (String d (s +:+ x)).
        change (String d (?a +:+ ?b) +:+ ?x) with (String d ((a +:+ b) +:+ x)).
        by rewrite JsStringFacts.append_assoc.
      * change (String d (s +:+ ?x)) with (String d s +:+ x).
        rewrite all_digits_app, Hall. simpl. by rewrite Hd.
      * change (String d (s +:+ ?x)) with (String d s +:+ x).
        rewrite digits_value_app, Hval. simpl. rewrite Hv.
        pose proof (N.div_mod n 10 ltac:(done)) as Hdm. lia.
      * intros _. by apply Hfirst.
Qed.

Lemma N_toString_spec n :
  exists d s,
    JsNumber.N_toString n = String d s
    /\ all_digits (String d s) = true
    /\ digits_value (String d s) 0 = Z.of_N n
    /\ (n <> 0%N -> N_of_ascii d <> 48%N).
Proof.
  unfold JsNumber.N_toString.
  destruct (digits_from_spec (N.to_nat (N.log2 n)) n "")
    as (d & s & E & H).
  - destruct (N.eq_dec n 0%N) as [->|Hn]; [done|].
    apply N.lt_le_trans with (2 ^ N.succ (N.log2 n))%N.
    + apply N.log2_spec. lia.
    + replace (N.of_nat (S (N.to_nat (N.log2 n)))) with (N.succ (N.log2 n))
        by lia.
      apply N.pow_le_mono_l. lia.
  - exists d, s. rewrite E. by rewrite JsStringFacts.append_nil_r.
Qed.

(** The digits of a natural number, read as [int]. *)
Lemma read_natural n k :
  number_end k = true ->
  exists d s,
    JsNumber.N_toString n = String d s
    /\ is_digit d = true
    /\ read_number (String d s +:+ k) = Some (Number (Z.of_N n) 0, k).
Proof.
  intros Hk. destruct (N_toString_spec n) as (d & s & E & Hall & Hval & Hfirst).
  exists d, s. split; [done|].
  assert (is_digit d = true) as Hd.
  { simpl in Hall. by apply andb_true_iff in Hall as [? _]. }
  split; [done|].
  assert ((N_of_ascii d =? 45)%N = false) as Hminus.
  { unfold is_digit in Hd. apply andb_true_iff in Hd as [H1 H2].
    apply N.leb_le in H1, H2. apply N.eqb_neq. lia. }
  assert (read_frac (Z.of_N n) k = Some (Z.of_N n, 0%nat, k)) as Hfrac.
  { destruct k as [|c k]; [done|]. simpl in *.
    destruct (N.eqb_spec (N_of_ascii c) 44) as [->|_]; [done|].
    destruct (N.eqb_spec (N_of_ascii c) 125) as [->|_]; done. }
  assert (read_exp k = Some (0%Z, k)) as Hexp.
  { destruct k as [|c k]; [done|]. simpl in *.
    destruct (N.eqb_spec (N_of_ascii c) 44) as [->|_]; [done|].
    destruct (N.eqb_spec (N_of_ascii c) 125) as [->|_]; done. }
  unfold read_number. cbn [append]. simpl append. rewrite Hminus.
  unfold read_int. rewrite Hd.
  destruct (N.eqb_spec (N_of_ascii d) 48) as [Hzero|Hnz].
  - (* the single digit 0 *)
    assert (n = 0%N) as ->
      by (destruct (N.eq_dec n 0%N); [done|by apply Hfirst in Hzero]).
    assert (s = "") as ->.
    { unfold JsNumber.N_toString in E. simpl in E. by injection E. }
    change (Z.of_N 0) with 0%Z in *. change ("" +:+ k) with k.
    rewrite Hfrac, Hexp. done.
  - change (String d (s +:+ k)) with (String d s +:+ k).
    rewrite read_digits_written by done. rewrite Hval, Hfrac, Hexp. done.
Qed.

Lemma read_number_negated d r m e k :
  (N_of_ascii d =? 45)%N = false ->
  read_number (String d r) = Some (Number m e, k) ->
  read_number (String "-" (String d r)) = Some (Number (- m) e, k).
Proof.
  intros Hd. unfold read_number.
  change (N_of_ascii "-" =? 45)%N with true. cbv iota beta. rewrite Hd.
  destruct (read_int (String d r)) as [[int s2]|]; [|done].
  destruct (read_frac int s2) as [[[m' count] s3]|]; [|done].
  destruct (read_exp s3) as [[e' s4]|]; [|done].
  by intros [= <- <- <-].
Qed.

Lemma read_number_written z k :
  number_end k = true ->
  read_number (write_number z k) = Some (Number z 0, k).
Proof.
  intros Hk. unfold write_number, JsNumber.toString. destruct z as [|p|p].
  - destruct (read_natural 0 k Hk) as (d & s & E & _ & H).
    change "0" with (JsNumber.N_toString 0). by rewrite E.
  - destruct (read_natural (Npos p) k Hk) as (d & s & E & _ & H).
    by rewrite E.
  - destruct (read_natural (Npos p) k Hk) as (d & s & E & Hd & H).
    rewrite E. simpl append.
    assert ((N_of_ascii d =? 45)%N = false) as Hminus.
    { unfold is_digit in Hd. apply andb_true_iff in Hd as [H1 H2].
      apply N.leb_le in H1, H2. apply N.eqb_neq. lia. }
    by apply (read_number_negated d (s +:+ k) (Z.pos p) 0 k).
Qed.

(** ** Values *)

(** [w] writes a text that reads back as [v], with fuel [f0] or more and
    before any text that can follow a value. *)
Definition reads (f0 : nat) (w : string -> string) (v : value) : Prop :=
  forall fuel k,
    (f0 <= fuel)%nat -> number_end k = true ->
    read_value fuel (w k) = Some (v, k).

Lemma reads_more f0 f1 w v : (f0 <= f1)%nat -> reads f0 w v -> reads f1 w v.
Proof. intros Hle H fuel k Hf Hk. apply H; [lia|done]. Qed.

Lemma reads_string s : reads 1 (write_string s) (Str (units s)).
Proof.
  intros [|fuel] k Hf _; [lia|]. unfold write_string. simpl.
  by rewrite read_string_written.
Qed.

Lemma reads_bool b : reads 1 (write_bool b) (Bool b).
Proof. intros [|fuel] k Hf _; [lia|]. by destruct b. Qed.

(** A value that starts with a digit or a minus sign is a number. *)
Lemma read_value_number fuel c r :
  (N_of_ascii c = 45 \/ 48 <= N_of_ascii c <= 57)%N ->
  read_value (S fuel) (String c r) = read_number (String c r).
Proof.
  intros Hc.
  assert (forall x, (x < 45 \/ 57 < x \/ 45 < x < 48)%N ->
                    (N_of_ascii c =? x)%N = false) as Hne.
  { intros x Hx. apply N.eqb_neq. lia. }
  cbn [read_value skip_ws]. unfold is_ws.
  rewrite !Hne by lia. cbn [orb]. by rewrite !Hne by lia.
Qed.

Lemma write_number_head z k :
  exists c r,
    write_number z k = String c r
    /\ (N_of_ascii c = 45 \/ 48 <= N_of_ascii c <= 57)%N.
Proof.
  assert (forall n, exists d s,
            JsNumber.N_toString n = String d s
            /\ (48 <= N_of_ascii d <= 57)%N) as Hdigits.
  { intros n. destruct (N_toString_spec n) as (d & s & E & Hall & _).
    exists d, s. split; [done|]. simpl in Hall.
    apply andb_true_iff in Hall as [Hd _]. unfold is_digit in Hd.
    apply andb_true_iff in Hd as [H1 H2]. by apply N.leb_le in H1, H2. }
  unfold write_number, JsNumber.toString. destruct z as [|p|p].
  - exists "0"%char, k. split; [done|]. right. by vm_compute.
  - destruct (Hdigits (Npos p)) as (d & s & -> & Hd).
    exists d, (s +:+ k). split; [done|by right].
  - exists "-"%char, (JsNumber.N_toString (Npos p) +:+ k).
    split; [done|by left].
Qed.

Lemma reads_number z : reads 1 (write_number z) (Number z 0).
Proof.
  intros [|fuel] k Hf Hk; [lia|].
  destruct (write_number_head z k) as (c & r & E & Hc).
  rewrite <- (read_number_written z k Hk), E. by apply read_value_number.
Qed.

(** A member of an object: its name, the writer of its value, and the
    value. *)
Definition member_text (m : string * (string -> string) * value)
  : string -> string :=
  write_member m.1.1 m.1.2.

Definition member_value (m : string * (string -> string) * value)
  : list N * value :=
  (units m.1.1, m.2).

Definition member_reads (f0 : nat) (m : string * (string -> string) * value)
  : Prop :=
  reads f0 m.1.2 m.2.

Lemma write_members_cons m1 m2 ms k :
  write_members (m1 :: m2 :: ms) k
  = m1 (String "," (write_members (m2 :: ms) k)).
Proof. reflexivity. Qed.

Lemma read_member fuel name w v k :
  reads fuel w v -> number_end k = true ->
  read_members (S fuel) (write_member name w k)
  = match skip_ws k with
    | String "," r4 =>
        match read_members fuel r4 with
        | Some (ms, r5) => Some ((units name, v) :: ms, r5)
        | None => None
        end
    | String "}" r4 => Some ([(units name, v)], r4)
    | _ => None
    end.
Proof.
  intros Hw Hk. unfold write_member, write_string. simpl.
  rewrite read_string_written. simpl. by rewrite Hw.
Qed.

Lemma read_member_last fuel name w v k :
  reads fuel w v ->
  read_members (S fuel) (write_member name w (String "}" k))
  = Some ([(units name, v)], k).
Proof. intros Hw. by rewrite (read_member fuel name w v). Qed.

Lemma read_member_more fuel name w v rest :
  reads fuel w v ->
  read_members (S fuel) (write_member name w (String "," rest))
  = match read_members fuel rest with
    | Some (ms, r5) => Some ((units name, v) :: ms, r5)
    | None => None
    end.
Proof. intros Hw. by rewrite (read_member fuel name w v). Qed.

Lemma read_members_written f0 ms :
  ms <> [] -> List.Forall (member_reads f0) ms ->
  forall fuel k,
    (f0 + length ms <= fuel)%nat ->
    read_members fuel (write_members (map member_text ms) (String "}" k))
    = Some (map member_value ms, k).
Proof.
  intros Hne Hall. induction Hall as [|m ms Hm Hall IH]; [done|].
  intros fuel k Hf. destruct fuel as [|fuel]; [simpl in Hf; lia|].
  destruct ms as [|m2 ms].
  - cbn [map write_members]. unfold member_text.
    rewrite (read_member_last fuel _ _ m.2); [done|].
    eapply reads_more; [|exact Hm]. simpl in Hf. lia.
  - cbn [map]. rewrite write_members_cons. unfold member_text at 1.
    rewrite (read_member_more fuel _ _ m.2).
    + change (member_text m2 :: map member_text ms)
        with (map member_text (m2 :: ms)).
      rewrite IH; [done|done|]. simpl in *. lia.
    + eapply reads_more; [|exact Hm]. simpl in Hf. lia.
Qed.

Lemma reads_object f0 ms :
  ms <> [] -> List.Forall (member_reads f0) ms ->
  reads (S (f0 + length ms)) (write_object (map member_text ms))
    (Object (map member_value ms)).
Proof.
  intros Hne Hall fuel k Hf _. destruct fuel as [|fuel]; [lia|].
  pose proof (read_members_written f0 ms Hne Hall fuel k ltac:(lia)) as H.
  unfold write_object. destruct ms as [|m ms]; [done|].
  assert (exists r, write_members (map member_text (m :: ms)) (String "}" k)
                    = String dquote r) as [r Hr].
  { destruct ms; cbn [map write_members]; unfold member_text, write_member,
      write_string; eauto. }
  rewrite Hr in *. simpl. by rewrite H.
Qed.

(** ** Written texts have no line break *)

Definition nl : ascii := "010".

Definition one_line (w : string -> string) : Prop :=
  forall k, JsStringFacts.has_char nl (w k) = JsStringFacts.has_char nl k.

Lemma one_line_chars s : one_line (write_chars s).
Proof.
  intros k. induction s as [|c s IH]; [done|].
  destruct c as [[] [] [] [] [] [] [] []]; simpl; by rewrite IH.
Qed.

Lemma one_line_string s : one_line (write_string s).
Proof. intros k. unfold write_string. simpl. by rewrite one_line_chars. Qed.

Lemma one_line_bool b : one_line (write_bool b).
Proof. intros k. by destruct b. Qed.

Lemma all_digits_one_line s :
  all_digits s = true -> JsStringFacts.has_char nl s = false.
Proof.
  induction s as [|c s IH]; simpl; [done|].
  intros [Hc Hs]%andb_true_iff. rewrite IH by done.
  destruct (Ascii.eqb_spec c nl) as [->|]; [by vm_compute in Hc|done].
Qed.

Lemma one_line_number z : one_line (write_number z).
Proof.
  intros k. unfold write_number. rewrite JsStringFacts.has_char_append.
  enough (JsStringFacts.has_char nl (JsNumber.toString z) = false) as -> by done.
  assert (forall n, JsStringFacts.has_char nl (JsNumber.N_toString n) = false)
    as Hn.
  { intros n. destruct (N_toString_spec n) as (d & s & -> & Hall & _).
    by apply all_digits_one_line. }
  destruct z as [|p|p]; [done|apply Hn|]. simpl. apply Hn.
Qed.

Lemma one_line_member name w : one_line w -> one_line (write_member name w).
Proof.
  intros Hw k. unfold write_member. rewrite one_line_string. simpl. apply Hw.
Qed.

Lemma one_line_members ms :
  List.Forall one_line ms -> one_line (write_members ms).
Proof.
  induction 1 as [|m ms Hm Hall IH]; intros k; [done|].
  destruct ms as [|m2 ms]; [apply Hm|].
  rewrite write_members_cons, Hm. simpl. apply IH.
Qed.

Lemma one_line_object ms : List.Forall one_line ms -> one_line (write_object ms).
Proof.
  intros H k. unfold write_object. simpl. by rewrite one_line_members.
Qed.

End JSONFacts.

(* ===================================================================== *)
(** * Facts: the transcript store *)
(* ===================================================================== *)

Module SessionFacts.
Import Transcript SessionManager.
#[local] Arguments String.append !_ _ / : simpl nomatch.

(** ** The lines the store writes read back *)

(** The members of the objects the store writes: name, writer and value. *)
Definition toolCall_members (tc : ToolCall)
  : list (string * (string -> string) * JSON.value) :=
  [("id", JSON.write_string (tc_id tc), JSON.Str (JSON.units (tc_id tc)));
   ("name", JSON.write_string (tc_name tc), JSON.Str (JSON.units (tc_name tc)));
   ("arguments", JSON.write_string (tc_arguments tc),
    JSON.Str (JSON.units (tc_arguments tc)))].

Definition toolResult_members (tr : ToolResult)
  : list (string * (string -> string) * JSON.value) :=
  [("callId", JSON.write_string (tr_callId tr),
    JSON.Str (JSON.units (tr_callId tr)));
   ("success", JSON.write_bool (tr_success tr), JSON.Bool (tr_success tr));
   ("output", JSON.write_string (tr_output tr),
    JSON.Str (JSON.units (tr_output tr)))].

Definition entry_members (e : TranscriptEntry)
  : list (string * (string -> string) * JSON.value) :=
  [("id", JSON.write_string (id e), JSON.Str (JSON.units (id e)));
   ("timestamp", JSON.write_number (timestamp e), JSON.Number (timestamp e) 0);
   ("role", JSON.write_string (role_name (role e)),
    JSON.Str (JSON.units (role_name (role e))));
   ("content", JSON.write_string (content e),
    JSON.Str (JSON.units (content e)))]
  ++ match toolCall e with
     | Some tc => [("toolCall", write_toolCall tc, toolCall_value tc)]
     | None => []
     end
  ++ match toolResult e with
     | Some tr => [("toolResult", write_toolResult tr, toolResult_value tr)]
     | None => []
     end.

Definition metadata_members (sessionId : string) (createdAt : Z)
  : list (string * (string -> string) * JSON.value) :=
  [("id", JSON.write_string sessionId, JSON.Str (JSON.units sessionId));
   ("createdAt", JSON.write_number createdAt, JSON.Number createdAt 0);
   ("version", JSON.write_number 1, JSON.Number 1 0)].

(** The object a metadata header is. *)
Definition metadata_value (sessionId : string) (createdAt : Z) : JSON.value :=
  JSON.Object (map JSONFacts.member_value (metadata_members sessionId createdAt)).

Lemma write_entry_members e :
  write_entry e = JSON.write_object (map JSONFacts.member_text (entry_members e)).
Proof.
  unfold write_entry, entry_members.
  by destruct (toolCall e), (toolResult e).
Qed.

Lemma entry_value_members e :
  entry_value e = JSON.Object (map JSONFacts.member_value (entry_members e)).
Proof.
  unfold entry_value, entry_members.
  by destruct (toolCall e), (toolResult e).
Qed.

Lemma reads_toolCall tc :
  JSONFacts.reads 5 (write_toolCall tc) (toolCall_value tc).
Proof.
  apply (JSONFacts.reads_object 1 (toolCall_members tc)); [done|].
  repeat (constructor; [apply JSONFacts.reads_string|]). constructor.
Qed.

Lemma reads_toolResult tr :
  JSONFacts.reads 5 (write_toolResult tr) (toolResult_value tr).
Proof.
  apply (JSONFacts.reads_object 1 (toolResult_members tr)); [done|].
  constructor; [apply JSONFacts.reads_string|].
  constructor; [apply JSONFacts.reads_bool|].
  constructor; [apply JSONFacts.reads_string|]. constructor.
Qed.

Lemma entry_members_read e :
  List.Forall (JSONFacts.member_reads 5) (entry_members e).
Proof.
  unfold entry_members.
  constructor;
    [apply (JSONFacts.reads_more 1); [lia|apply JSONFacts.reads_string]|].
  constructor;
    [apply (JSONFacts.reads_more 1); [lia|apply JSONFacts.reads_number]|].
  constructor;
    [apply (JSONFacts.reads_more 1); [lia|apply JSONFacts.reads_string]|].
  constructor;
    [apply (JSONFacts.reads_more 1); [lia|apply JSONFacts.reads_string]|].
  apply List.Forall_app. split.
  - destruct (toolCall e) as [tc|]; constructor; [|constructor].
    apply reads_toolCall.
  - destruct (toolResult e) as [tr|]; constructor; [|constructor].
    apply reads_toolResult.
Qed.

Lemma reads_entry e : JSONFacts.reads 12 (write_entry e) (entry_value e).
Proof.
  rewrite write_entry_members, entry_value_members.
  eapply JSONFacts.reads_more;
    [|apply (JSONFacts.reads_object 5 (entry_members e));
      [done|apply entry_members_read]].
  unfold entry_members. destruct (toolCall e), (toolResult e); simpl; lia.
Qed.

Lemma reads_metadata sessionId createdAt :
  JSONFacts.reads 5
    (JSON.write_object
       (map JSONFacts.member_text (metadata_members sessionId createdAt)))
    (metadata_value sessionId createdAt).
Proof.
  apply (JSONFacts.reads_object 1 (metadata_members sessionId createdAt));
    [done|].
  constructor; [apply JSONFacts.reads_string|].
  constructor; [apply JSONFacts.reads_number|].
  constructor; [apply JSONFacts.reads_number|]. constructor.
Qed.


(** ** The length of a written text *)

Lemma length_written_chars s k :
  (String.length s + String.length k
   <= String.length (JSON.write_chars s k))%nat.
Proof.
  induction s as [|c s IH]; simpl; [lia|].
  unfold JSON.write_char.
  repeat (destruct (_ =? _)%N; [simpl; lia|]).
  destruct (_ <? _)%N; simpl; lia.
Qed.

Lemma length_write_member name w k :
  (String.length name + 3 + String.length (w k)
   <= String.length (JSON.write_member name w k))%nat.
Proof.
  unfold JSON.write_member, JSON.write_string.
  pose proof (length_written_chars name
                (String JSON.dquote (String ":" (w k)))) as H.
  simpl in *. lia.
Qed.

Lemma length_write_string s k :
  (String.length s + 2 + String.length k
   <= String.length (JSON.write_string s k))%nat.
Proof.
  unfold JSON.write_string.
  pose proof (length_written_chars s (String JSON.dquote k)) as H.
  simpl in *. lia.
Qed.

(** An object whose first member is a string and that has a second
    member. *)
Lemma length_write_object name1 s name2 w2 ms k :
  (String.length name1 + String.length name2 + 10
   <= String.length
           (JSON.write_object
              (JSON.write_member name1 (JSON.write_string s)
               :: JSON.write_member name2 w2 :: ms) k))%nat.
Proof.
  unfold JSON.write_object. rewrite JSONFacts.write_members_cons.
  assert (exists k2, JSON.write_members (JSON.write_member name2 w2 :: ms)
                       (String "}" k)
                     = JSON.write_member name2 w2 k2) as [k2 ->]
    by (destruct ms; cbn [JSON.write_members]; eauto).
  pose proof (length_write_member name2 w2 k2) as H2.
  pose proof (length_write_string s
                (String "," (JSON.write_member name2 w2 k2))) as H1.
  pose proof (length_write_member name1 (JSON.write_string s)
                (String "," (JSON.write_member name2 w2 k2))) as H0.
  cbn [String.length] in *. lia.
Qed.

(** ** [JSON.parse] on the lines of the store *)

Lemma parse_written w v :
  JSONFacts.reads 12 w v -> (12 <= String.length (w ""))%nat ->
  JSON.parse (w "") = Some v.
Proof.
  intros Hw Hlen. unfold JSON.parse. by rewrite Hw by (done || lia).
Qed.

Lemma parse_entry e : JSON.parse (stringify_entry e) = Some (entry_value e).
Proof.
  apply parse_written; [apply reads_entry|].
  rewrite write_entry_members.
  etrans; [|apply length_write_object]. simpl. lia.
Qed.

Lemma parse_metadata sessionId createdAt :
  JSON.parse (stringify_metadata sessionId createdAt)
  = Some (metadata_value sessionId createdAt).
Proof.
  apply (parse_written
           (JSON.write_object
              (map JSONFacts.member_text
                 (metadata_members sessionId createdAt)))).
  - eapply JSONFacts.reads_more; [|apply reads_metadata]. lia.
  - etrans; [|apply length_write_object]. simpl. lia.
Qed.

(** ** The lines of the store are lines *)

Lemma one_line_toolCall tc : JSONFacts.one_line (write_toolCall tc).
Proof.
  apply JSONFacts.one_line_object.
  repeat (constructor;
          [apply JSONFacts.one_line_member, JSONFacts.one_line_string|]).
  constructor.
Qed.

Lemma one_line_toolResult tr : JSONFacts.one_line (write_toolResult tr).
Proof.
  apply JSONFacts.one_line_object.
  constructor; [apply JSONFacts.one_line_member, JSONFacts.one_line_string|].
  constructor; [apply JSONFacts.one_line_member, JSONFacts.one_line_bool|].
  constructor; [apply JSONFacts.one_line_member, JSONFacts.one_line_string|].
  constructor.
Qed.

Lemma one_line_entry e : JSONFacts.one_line (write_entry e).
Proof.
  apply JSONFacts.one_line_object.
  constructor; [apply JSONFacts.one_line_member, JSONFacts.one_line_string|].
  constructor; [apply JSONFacts.one_line_member, JSONFacts.one_line_number|].
  constructor; [apply JSONFacts.one_line_member, JSONFacts.one_line_string|].
  constructor; [apply JSONFacts.one_line_member, JSONFacts.one_line_string|].
  apply List.Forall_app. split.
  - destruct (toolCall e) as [tc|]; constructor; [|constructor].
    apply JSONFacts.one_line_member, one_line_toolCall.
  - destruct (toolResult e) as [tr|]; constructor; [|constructor].
    apply JSONFacts.one_line_member, one_line_toolResult.
Qed.

Lemma stringify_entry_one_line e :
  JsStringFacts.has_char "010" (stringify_entry e) = false.
Proof. exact (one_line_entry e ""). Qed.

Lemma stringify_metadata_one_line sessionId createdAt :
  JsStringFacts.has_char "010" (stringify_metadata sessionId createdAt) = false.
Proof.
  unfold stringify_metadata.
  refine (JSONFacts.one_line_object _ _ "").
  constructor; [apply JSONFacts.one_line_member, JSONFacts.one_line_string|].
  constructor; [apply JSONFacts.one_line_member, JSONFacts.one_line_number|].
  constructor; [apply JSONFacts.one_line_member, JSONFacts.one_line_number|].
  constructor.
Qed.

Lemma stringify_entry_head e : exists r, stringify_entry e = String "{" r.
Proof. unfold stringify_entry, write_entry, JSON.write_object. eauto. Qed.

Lemma stringify_metadata_head sessionId createdAt :
  exists r, stringify_metadata sessionId createdAt = String "{" r.
Proof. unfold stringify_metadata, JSON.write_object. eauto. Qed.


(** ** The object of an entry determines the entry *)

Lemma units_inj s1 s2 : JSON.units s1 = JSON.units s2 -> s1 = s2.
Proof.
  revert s2. induction s1 as [|c1 s1 IH]; intros [|c2 s2]; simpl; try done.
  intros [= Hc Hs]. f_equal; [|by apply IH].
  by rewrite <- (ascii_N_embedding c1), Hc, ascii_N_embedding.
Qed.

Lemma role_name_inj r1 r2 : role_name r1 = role_name r2 -> r1 = r2.
Proof. by destruct r1, r2. Qed.

Lemma Str_units_inj s1 s2 :
  JSON.Str (JSON.units s1) = JSON.Str (JSON.units s2) -> s1 = s2.
Proof. intros [= H]. by apply units_inj. Qed.

Lemma Object_inj l1 l2 : JSON.Object l1 = JSON.Object l2 -> l1 = l2.
Proof. by intros [= H]. Qed.

Lemma member_cons_inj (n1 n2 : string) (v1 v2 : JSON.value)
  (l1 l2 : list (list N * JSON.value)) :
  (JSON.units n1, v1) :: l1 = (JSON.units n2, v2) :: l2 ->
  n1 = n2 /\ v1 = v2 /\ l1 = l2.
Proof. intros H. injection H as ?%units_inj ? ?. done. Qed.

Lemma toolCall_value_inj tc1 tc2 :
  toolCall_value tc1 = toolCall_value tc2 -> tc1 = tc2.
Proof.
  destruct tc1, tc2. unfold toolCall_value. cbn [tc_id tc_name tc_arguments].
  intros H0%Object_inj.
  apply member_cons_inj in H0 as (_ & ?%Str_units_inj & H1).
  apply member_cons_inj in H1 as (_ & ?%Str_units_inj & H2).
  apply member_cons_inj in H2 as (_ & ?%Str_units_inj & _). by subst.
Qed.

Lemma toolResult_value_inj tr1 tr2 :
  toolResult_value tr1 = toolResult_value tr2 -> tr1 = tr2.
Proof.
  destruct tr1, tr2. unfold toolResult_value.
  cbn [tr_callId tr_success tr_output].
  intros H0%Object_inj.
  apply member_cons_inj in H0 as (_ & ?%Str_units_inj & H1).
  apply member_cons_inj in H1 as (_ & [= ?] & H2).
  apply member_cons_inj in H2 as (_ & ?%Str_units_inj & _). by subst.
Qed.

Lemma entry_value_inj e1 e2 : entry_value e1 = entry_value e2 -> e1 = e2.
Proof.
  destruct e1 as [i1 r1 c1 t1 tc1 tr1], e2 as [i2 r2 c2 t2 tc2 tr2].
  unfold entry_value. cbn [id role content timestamp toolCall toolResult app].
  intros H0%Object_inj.
  apply member_cons_inj in H0 as (_ & ?%Str_units_inj & H1).
  apply member_cons_inj in H1 as (_ & [= ?] & H2).
  apply member_cons_inj in H2 as (_ & ?%Str_units_inj%role_name_inj & H3).
  apply member_cons_inj in H3 as (_ & ?%Str_units_inj & H4).
  subst.
  destruct tc1 as [tc1|], tc2 as [tc2|], tr1 as [tr1|], tr2 as [tr2|];
    cbn [app] in H4; try discriminate H4; try done.
  - apply member_cons_inj in H4 as (_ & ?%toolCall_value_inj & H5).
    apply member_cons_inj in H5 as (_ & ?%toolResult_value_inj & _). by subst.
  - apply member_cons_inj in H4 as (_ & ?%toolCall_value_inj & _). by subst.
  - apply member_cons_inj in H4 as (_ & ?%toolResult_value_inj & _). by subst.
Qed.

(** ** The history of a list of lines *)

Definition nonblank (line : string) : bool :=
  (0 <? String.length (JsString.trim line))%nat.

Lemma history_of_app l1 l2 :
  history_of (l1 ++ l2) = history_of l1 ++ history_of l2.
Proof.
  induction l1 as [|line l1 IH]; simpl; [done|].
  destruct (JsString.startsWith line "#"); [done|].
  destruct (JSON.parse line); [|done]. by rewrite IH.
Qed.

Lemma nonblank_head c r : JsString.is_space c = false -> nonblank (String c r) = true.
Proof.
  intros Hc. apply Nat.ltb_lt. by apply JsStringFacts.trim_not_blank.
Qed.

Lemma history_of_entries entries :
  history_of (List.filter nonblank (map stringify_entry entries))
  = map entry_value entries.
Proof.
  induction entries as [|e entries IH]; [done|]. cbn [map List.filter].
  destruct (stringify_entry_head e) as [r E].
  rewrite E, nonblank_head by done. cbn [history_of].
  change (JsString.startsWith (String "{" r) "#") with false. cbv iota.
  rewrite <- E, parse_entry. by rewrite IH.
Qed.

Lemma history_of_metadata_line r l :
  history_of (List.filter nonblank (String "#" r :: l))
  = history_of (List.filter nonblank l).
Proof.
  cbn [List.filter]. destruct (nonblank (String "#" r)); [|done].
  by destruct r.
Qed.

Lemma filter_nonblank_end l :
  List.filter nonblank (l ++ [""]) = List.filter nonblank l.
Proof. rewrite List.filter_app. simpl. by rewrite app_nil_r. Qed.

(** ** The lines of a transcript file *)

Lemma split_written_line line :
  JsStringFacts.has_char "010" line = false ->
  JsString.split_char "010" (line +:+ newline) = [line; ""].
Proof. intros H. unfold newline. by rewrite JsStringFacts.split_char_line. Qed.

Lemma create_lines id now files s files1 :
  create id now files = Ok (s, files1) ->
  valid_session_id id = true
  /\ exists f, files1 !! id = Some f
     /\ JsString.split_char "010" (data f)
        = [String "#" (stringify_metadata id now)] ++ [""].
Proof.
  unfold create, sessionPath.
  destruct (valid_session_id id); [|done]. intros [= _ <-]. split; [done|].
  eexists. split; [apply lookup_insert_eq|].
  apply (split_written_line (String "#" (stringify_metadata id now))).
  apply stringify_metadata_one_line.
Qed.

Lemma appendMessage_lines sessionId message uuid now files f lines :
  valid_session_id sessionId = true ->
  files !! sessionId = Some f ->
  JsString.split_char "010" (data f) = lines ++ [""] ->
  exists files' f',
    appendMessage sessionId message uuid now files
    = Ok (new_entry message uuid now, files')
    /\ files' !! sessionId = Some f'
    /\ JsString.split_char "010" (data f')
       = (lines ++ [stringify_entry (new_entry message uuid now)]) ++ [""].
Proof.
  intros Hid Hf Hlines. unfold appendMessage, sessionPath. rewrite Hid, Hf.
  eexists _, _. split; [done|]. split; [apply lookup_insert_eq|].
  cbn [data]. rewrite (JsStringFacts.split_char_after _ _ lines) by done.
  rewrite split_written_line by apply stringify_entry_one_line.
  by rewrite <- app_assoc.
Qed.

(** The entries a sequence of appends makes. *)
Definition appended (appends : list (Message * string * Z))
  : list TranscriptEntry :=
  map (fun a => new_entry a.1.1 a.1.2 a.2) appends.

Lemma append_all_lines sessionId appends :
  forall files f lines,
    valid_session_id sessionId = true ->
    files !! sessionId = Some f ->
    JsString.split_char "010" (data f) = lines ++ [""] ->
    exists files' f',
      append_all sessionId appends files = Ok (appended appends, files')
      /\ files' !! sessionId = Some f'
      /\ JsString.split_char "010" (data f')
         = (lines ++ map stringify_entry (appended appends)) ++ [""].
Proof.
  induction appends as [|[[message uuid] now] appends IH];
    intros files f lines Hid Hf Hlines.
  - exists files, f. by rewrite app_nil_r.
  - destruct (appendMessage_lines sessionId message uuid now files f lines
                Hid Hf Hlines) as (files1 & f1 & Happend & Hf1 & Hlines1).
    destruct (IH files1 f1 _ Hid Hf1 Hlines1)
      as (files2 & f2 & Hall & Hf2 & Hlines2).
    exists files2, f2. cbn [append_all]. rewrite Happend, Hall.
    split; [done|]. split; [done|]. rewrite Hlines2.
    cbn [appended map]. by rewrite <- !app_assoc.
Qed.

(** C3. Transcript round-trip: on the session that [create] made, every
    sequence of appends succeeds and returns the entries it wrote, and
    [getHistory] then returns the objects of exactly these entries, in
    the order of the appends; the object of an entry determines each of
    its fields (id, role, content, timestamp, toolCall, toolResult). *)
Theorem transcript_round_trip (id : string) (now : Z) (files : fs)
  (appends : list (Message * string * Z)) (s : Session) (files1 : fs) :
  create id now files = Ok (s, files1) ->
  exists files2,
    append_all id appends files1 = Ok (appended appends, files2)
    /\ getHistory id files2 = Ok (map entry_value (appended appends))
    /\ (forall e e' : TranscriptEntry, entry_value e = entry_value e' -> e = e').
Proof.
  intros (Hid & f & Hf & Hlines)%create_lines.
  destruct (append_all_lines id appends files1 f _ Hid Hf Hlines)
    as (files2 & f2 & Hall & Hf2 & Hlines2).
  exists files2. split; [done|]. split; [|apply entry_value_inj].
  unfold getHistory, sessionPath, nonblank_lines. rewrite Hid, Hf2, Hlines2.
  f_equal. fold nonblank. rewrite filter_nonblank_end.
  cbn [app]. rewrite history_of_metadata_line. apply history_of_entries.
Qed.


(** A question, and an answer that carries a tool call and its result. *)
Definition two_appends : list (Message * string * Z) :=
  [ ({| msg_role := user; msg_content := "list the files, please";
        msg_toolCall := None; msg_toolResult := None |}, "u-1", 1001%Z);
    ({| msg_role := tool; msg_content := "";
        msg_toolCall :=
          Some {| tc_id := "c-1"; tc_name := "ls"; tc_arguments := "{}" |};
        msg_toolResult :=
          Some {| tr_callId := "c-1"; tr_success := true;
                  tr_output := "a.txt" +:+ newline +:+ "b.txt" |} |},
     "u-2", 1002%Z) ].

(** The session [s-1], created at 1000 in an empty directory. *)
Definition fresh_session : Session * fs :=
  match create "s-1" 1000%Z ∅ with
  | Ok created => created
  | Err _ =>
      ({| session_id := ""; createdAt := 0%Z; updatedAt := 0%Z;
          messageCount := 0; transcriptPath := "" |}, ∅)
  end.

Lemma transcript_round_trip_witness :
  create "s-1" 1000%Z ∅ = Ok fresh_session
  /\ exists files2,
       append_all "s-1" two_appends fresh_session.2
       = Ok (appended two_appends, files2)
       /\ getHistory "s-1" files2
          = Ok (map entry_value (appended two_appends)).
Proof.
  assert (create "s-1" 1000%Z ∅ = Ok (fresh_session.1, fresh_session.2)) as H
    by reflexivity.
  split; [exact H|].
  destruct (transcript_round_trip "s-1" 1000%Z ∅ two_appends _ _ H)
    as (files2 & Happend & Hhistory & _).
  exists files2. split; [exact Happend|exact Hhistory].
Defined.


(** ** The loop of [repair] *)

(** The state of the loop after [lines], from the state [st]. *)
Definition scan_from (st : scan) (lines : list string) : scan :=
  {| validLines := validLines st ++ RepairSpec.kept_lines lines;
     metadata :=
       match RepairSpec.last_metadata lines with
       | Some v => Some v
       | None => metadata st
       end;
     recovered := recovered st + RepairSpec.k lines;
     lost := lost st + RepairSpec.m lines |}.

Lemma scan_from_nil st : scan_from st [] = st.
Proof.
  destruct st. unfold scan_from, RepairSpec.kept_lines, RepairSpec.k,
    RepairSpec.m. simpl. by rewrite app_nil_r, !Nat.add_0_r.
Qed.

Lemma kept_lines_cons line rest :
  RepairSpec.kept_lines (line :: rest)
  = (if RepairSpec.valid_entry line || RepairSpec.valid_metadata line
     then [RepairSpec.text_of line] else [])
    ++ RepairSpec.kept_lines rest.
Proof.
  unfold RepairSpec.kept_lines. cbn [List.filter].
  by destruct (RepairSpec.valid_entry line || RepairSpec.valid_metadata line).
Qed.

Lemma k_cons line rest :
  RepairSpec.k (line :: rest)
  = ((if RepairSpec.valid_entry line then 1 else 0) + RepairSpec.k rest)%nat.
Proof.
  unfold RepairSpec.k. cbn [List.filter].
  by destruct (RepairSpec.valid_entry line).
Qed.

Lemma m_cons line rest :
  RepairSpec.m (line :: rest)
  = ((if RepairSpec.invalid_entry line then 1 else 0) + RepairSpec.m rest)%nat.
Proof.
  unfold RepairSpec.m. cbn [List.filter].
  by destruct (RepairSpec.invalid_entry line).
Qed.

Lemma entries_cons line rest :
  RepairSpec.entries (line :: rest)
  = (if RepairSpec.valid_entry line
     then option_list (JSON.parse (RepairSpec.text_of line)) else [])
    ++ RepairSpec.entries rest.
Proof.
  unfold RepairSpec.entries. cbn [List.filter].
  destruct (RepairSpec.valid_entry line); [|done]. cbn [omap list_omap].
  by destruct (JSON.parse (RepairSpec.text_of line)).
Qed.

Lemma last_metadata_cons line rest :
  RepairSpec.last_metadata (line :: rest)
  = match RepairSpec.last_metadata rest with
    | Some v => Some v
    | None =>
        if RepairSpec.valid_metadata line
        then JSON.parse (JsString.slice_from 1 (RepairSpec.text_of line))
        else None
    end.
Proof.
  cbn [RepairSpec.last_metadata].
  destruct (RepairSpec.last_metadata rest); [done|].
  unfold RepairSpec.valid_metadata, RepairSpec.is_json.
  destruct (RepairSpec.is_metadata_line line); [|done].
  by destruct (JSON.parse _).
Qed.

(** One turn of the loop, by the class of the line. *)
Lemma scan_line_class st line :
  scan_line st line
  = {| validLines :=
         validLines st
         ++ (if RepairSpec.valid_entry line || RepairSpec.valid_metadata line
             then [RepairSpec.text_of line] else []);
       metadata :=
         match
           (if RepairSpec.valid_metadata line
            then JSON.parse (JsString.slice_from 1 (RepairSpec.text_of line))
            else None)
         with
         | Some v => Some v
         | None => metadata st
         end;
       recovered :=
         recovered st + (if RepairSpec.valid_entry line then 1 else 0);
       lost := lost st + (if RepairSpec.invalid_entry line then 1 else 0) |}.
Proof.
  unfold scan_line, RepairSpec.valid_entry, RepairSpec.invalid_entry,
    RepairSpec.valid_metadata, RepairSpec.is_entry_line,
    RepairSpec.is_metadata_line, RepairSpec.is_blank, RepairSpec.is_json,
    RepairSpec.text_of.
  destruct st as [lines0 meta0 k0 m0].
  cbn [validLines metadata recovered lost].
  destruct (String.length (JsString.trim line) =? 0)%nat;
    cbn [negb andb orb].
  { by rewrite app_nil_r, !Nat.add_0_r. }
  destruct (JsString.startsWith (JsString.trim line) "#");
    cbn [negb andb orb].
  - destruct (JSON.parse (JsString.slice_from 1 (JsString.trim line)));
      cbn [negb andb orb]; by rewrite ?app_nil_r, ?Nat.add_0_r.
  - destruct (JSON.parse (JsString.trim line));
      cbn [negb andb orb]; rewrite ?app_nil_r, ?Nat.add_0_r; f_equal; lia.
Qed.

Lemma scan_from_cons st line rest :
  scan_from st (line :: rest) = scan_from (scan_line st line) rest.
Proof.
  rewrite scan_line_class. unfold scan_from.
  cbn [validLines metadata recovered lost].
  rewrite kept_lines_cons, k_cons, m_cons, last_metadata_cons.
  f_equal; [by rewrite app_assoc| |lia|lia].
  by destruct (RepairSpec.last_metadata rest).
Qed.

Lemma scan_lines lines st : fold_left scan_line lines st = scan_from st lines.
Proof.
  revert st. induction lines as [|line lines IH]; intros st; simpl.
  - by rewrite scan_from_nil.
  - by rewrite IH, scan_from_cons.
Qed.

(** ** The classes of lines *)

Lemma text_of_text line :
  RepairSpec.text_of (RepairSpec.text_of line) = RepairSpec.text_of line.
Proof. apply JsStringFacts.trim_idempotent. Qed.

Lemma not_blank_nonblank line :
  RepairSpec.is_blank line = false -> nonblank (RepairSpec.text_of line) = true.
Proof.
  unfold RepairSpec.is_blank, nonblank. fold (RepairSpec.text_of line).
  fold (RepairSpec.text_of (RepairSpec.text_of line)). rewrite text_of_text.
  intros H%Nat.eqb_neq. apply Nat.ltb_lt. lia.
Qed.

Lemma valid_entry_true line :
  RepairSpec.valid_entry line = true ->
  nonblank (RepairSpec.text_of line) = true
  /\ JsString.startsWith (RepairSpec.text_of line) "#" = false
  /\ RepairSpec.valid_metadata line = false
  /\ exists v, JSON.parse (RepairSpec.text_of line) = Some v.
Proof.
  unfold RepairSpec.valid_entry, RepairSpec.valid_metadata,
    RepairSpec.is_entry_line, RepairSpec.is_metadata_line, RepairSpec.is_json.
  intros [[Hb%negb_true_iff Hs%negb_true_iff]%andb_true_iff Hj]%andb_true_iff.
  rewrite Hb, Hs. split; [by apply not_blank_nonblank|].
  split; [done|]. split; [done|].
  destruct (JSON.parse (RepairSpec.text_of line)); [eauto|done].
Qed.

Lemma valid_metadata_true line :
  RepairSpec.valid_metadata line = true ->
  nonblank (RepairSpec.text_of line) = true
  /\ JsString.startsWith (RepairSpec.text_of line) "#" = true
  /\ RepairSpec.valid_entry line = false
  /\ exists v,
       JSON.parse (JsString.slice_from 1 (RepairSpec.text_of line)) = Some v.
Proof.
  unfold RepairSpec.valid_entry, RepairSpec.valid_metadata,
    RepairSpec.is_entry_line, RepairSpec.is_metadata_line, RepairSpec.is_json.
  intros [[Hb%negb_true_iff Hs]%andb_true_iff Hj]%andb_true_iff.
  rewrite Hb, Hs. split; [by apply not_blank_nonblank|].
  split; [done|]. split; [done|].
  destruct (JSON.parse (JsString.slice_from 1 (RepairSpec.text_of line)));
    [eauto|done].
Qed.

(** The lines that [repair] keeps are the lines that [getHistory] reads. *)
Lemma kept_lines_nonblank lines :
  List.filter nonblank (RepairSpec.kept_lines lines)
  = RepairSpec.kept_lines lines.
Proof.
  induction lines as [|line lines IH]; [done|]. rewrite kept_lines_cons.
  rewrite List.filter_app, IH. f_equal.
  destruct (RepairSpec.valid_entry line) eqn:He.
  - apply valid_entry_true in He as (Hn & _). cbn [orb List.filter].
    by rewrite Hn.
  - destruct (RepairSpec.valid_metadata line) eqn:Hm; [|done].
    apply valid_metadata_true in Hm as (Hn & _). cbn [orb List.filter].
    by rewrite Hn.
Qed.

Lemma history_of_kept_lines lines :
  history_of (RepairSpec.kept_lines lines) = RepairSpec.entries lines.
Proof.
  induction lines as [|line lines IH]; [done|].
  rewrite kept_lines_cons, entries_cons, history_of_app, IH. f_equal.
  destruct (RepairSpec.valid_entry line) eqn:He.
  - apply valid_entry_true in He as (_ & Hs & _ & v & Hv).
    cbn [orb history_of]. by rewrite Hs, Hv.
  - destruct (RepairSpec.valid_metadata line) eqn:Hm; [|done].
    apply valid_metadata_true in Hm as (_ & Hs & _).
    cbn [orb history_of]. by rewrite Hs.
Qed.

Lemma length_entries lines :
  length (RepairSpec.entries lines) = RepairSpec.k lines.
Proof.
  induction lines as [|line lines IH]; [done|].
  rewrite entries_cons, k_cons, length_app, IH. f_equal.
  destruct (RepairSpec.valid_entry line) eqn:He; [|done].
  apply valid_entry_true in He as (_ & _ & _ & v & Hv). by rewrite Hv.
Qed.

Lemma kept_lines_one_line lines :
  List.Forall (fun line => JsStringFacts.has_char "010" line = false) lines ->
  List.Forall (fun line => JsStringFacts.has_char "010" line = false)
    (RepairSpec.kept_lines lines).
Proof.
  induction 1 as [|line lines Hline Hall IH]; [constructor|].
  rewrite kept_lines_cons. apply List.Forall_app. split; [|done].
  destruct (_ || _); constructor; [|constructor].
  by apply JsStringFacts.has_char_trim.
Qed.

(** ** The log after repair *)

Lemma header_cases sessionId birth lines :
  RepairSpec.header sessionId birth lines = []
  \/ RepairSpec.header sessionId birth lines
     = [String "#" (stringify_metadata sessionId birth)].
Proof. unfold RepairSpec.header. destruct (no_metadata _); eauto. Qed.

Lemma history_of_joined (lines : list string) :
  List.Forall (fun line => JsStringFacts.has_char "010" line = false) lines ->
  history_of (nonblank_lines (JsString.join newline lines +:+ newline))
  = history_of (List.filter nonblank lines).
Proof.
  intros Hall. destruct lines as [|line lines]; [done|].
  unfold nonblank_lines. fold nonblank. unfold newline.
  rewrite JsStringFacts.split_char_join by done.
  by rewrite filter_nonblank_end.
Qed.

Lemma history_of_repaired sessionId birth text :
  history_of
    (nonblank_lines
       (RepairSpec.repaired_text sessionId birth
          (JsString.split_char "010" text)))
  = RepairSpec.entries (JsString.split_char "010" text).
Proof.
  unfold RepairSpec.repaired_text.
  pose proof (kept_lines_one_line _ (JsStringFacts.split_char_pieces "010" text))
    as Hkept.
  rewrite history_of_joined.
  - destruct (header_cases sessionId birth (JsString.split_char "010" text))
      as [-> | ->]; cbn [app]; rewrite ?history_of_metadata_line;
      by rewrite kept_lines_nonblank, history_of_kept_lines.
  - apply List.Forall_app. split; [|done].
    destruct (header_cases sessionId birth (JsString.split_char "010" text))
      as [-> | ->]; constructor; [|constructor].
    apply stringify_metadata_one_line.
Qed.

(** What [repair] returns and writes. *)
Lemma repair_rewrites (sessionId : string) (files : fs) (f : file) :
  valid_session_id sessionId = true ->
  files !! sessionId = Some f ->
  let lines := JsString.split_char "010" (data f) in
  repair sessionId files
  = Ok ({| repaired := (0 <? RepairSpec.m lines)%nat;
           entriesRecovered := RepairSpec.k lines;
           entriesLost := RepairSpec.m lines |},
        <[sessionId :=
            {| data := RepairSpec.repaired_text sessionId (birthtimeMs f) lines;
               birthtimeMs := birthtimeMs f |}]> files).
Proof.
  intros Hid Hf lines.
  unfold repair, sessionPath. rewrite Hid, Hf. fold lines.
  rewrite scan_lines. unfold scan_from.
  cbn [validLines metadata recovered lost app Nat.add].
  do 5 f_equal.
  unfold RepairSpec.repaired_text, RepairSpec.header.
  replace (match RepairSpec.last_metadata lines with
           | Some v => Some v
           | None => None
           end) with (RepairSpec.last_metadata lines)
    by (by destruct (RepairSpec.last_metadata lines)).
  by destruct (no_metadata (RepairSpec.last_metadata lines)).
Qed.


(** ** Texts that [trim] leaves alone *)

(** A text that is not empty and does not end with white space. *)
Definition solid (k : string) : Prop := k <> "" /\ JsString.trimEnd k = k.

Lemma solid_cons c k : solid k -> solid (String c k).
Proof.
  intros [Hne Hk]. split; [done|]. rewrite JsStringFacts.trimEnd_cons, Hk.
  by destruct k.
Qed.

Lemma solid_app s k : solid k -> solid (s +:+ k).
Proof. intros Hk. induction s as [|c s IH]; [done|]. by apply solid_cons. Qed.

Definition keeps_solid (w : string -> string) : Prop :=
  forall k, solid k -> solid (w k).

Lemma keeps_solid_char c : keeps_solid (JSON.write_char c).
Proof.
  intros k Hk. unfold JSON.write_char.
  repeat (destruct (_ =? _)%N; [by repeat apply solid_cons|]).
  destruct (_ <? _)%N; by repeat apply solid_cons.
Qed.

Lemma keeps_solid_chars s : keeps_solid (JSON.write_chars s).
Proof.
  intros k Hk. induction s as [|c s IH]; [done|]. by apply keeps_solid_char.
Qed.

Lemma keeps_solid_string s : keeps_solid (JSON.write_string s).
Proof.
  intros k Hk. apply solid_cons, keeps_solid_chars. by apply solid_cons.
Qed.

Lemma keeps_solid_number z : keeps_solid (JSON.write_number z).
Proof. intros k Hk. by apply solid_app. Qed.

Lemma keeps_solid_member name w :
  keeps_solid w -> keeps_solid (JSON.write_member name w).
Proof.
  intros Hw k Hk. apply keeps_solid_string, solid_cons. by apply Hw.
Qed.

Lemma keeps_solid_members ms :
  List.Forall keeps_solid ms -> keeps_solid (JSON.write_members ms).
Proof.
  induction 1 as [|m ms Hm Hall IH]; intros k Hk; [done|].
  destruct ms as [|m2 ms]; [by apply Hm|].
  rewrite JSONFacts.write_members_cons. apply Hm, solid_cons. by apply IH.
Qed.

Lemma solid_metadata sessionId createdAt :
  solid (stringify_metadata sessionId createdAt).
Proof.
  unfold stringify_metadata, JSON.write_object.
  apply solid_cons, keeps_solid_members.
  - constructor; [apply keeps_solid_member, keeps_solid_string|].
    constructor; [apply keeps_solid_member, keeps_solid_number|].
    constructor; [apply keeps_solid_member, keeps_solid_number|].
    constructor.
  - by split.
Qed.

Lemma text_of_header sessionId createdAt :
  RepairSpec.text_of (String "#" (stringify_metadata sessionId createdAt))
  = String "#" (stringify_metadata sessionId createdAt).
Proof.
  unfold RepairSpec.text_of, JsString.trim.
  change (JsString.trimStart (String "#" ?r)) with (String "#" r).
  apply solid_cons, solid_metadata.
Qed.


(** ** The classes of the lines of a repaired log *)

(** The class of a line is the class of its text. *)
Lemma class_of_text line :
  RepairSpec.valid_entry (RepairSpec.text_of line) = RepairSpec.valid_entry line
  /\ RepairSpec.invalid_entry (RepairSpec.text_of line)
     = RepairSpec.invalid_entry line
  /\ RepairSpec.valid_metadata (RepairSpec.text_of line)
     = RepairSpec.valid_metadata line
  /\ RepairSpec.is_metadata_line (RepairSpec.text_of line)
     = RepairSpec.is_metadata_line line.
Proof.
  unfold RepairSpec.valid_entry, RepairSpec.invalid_entry,
    RepairSpec.valid_metadata, RepairSpec.is_entry_line,
    RepairSpec.is_metadata_line, RepairSpec.is_blank.
  by rewrite !text_of_text.
Qed.

Lemma kept_lines_app l1 l2 :
  RepairSpec.kept_lines (l1 ++ l2)
  = RepairSpec.kept_lines l1 ++ RepairSpec.kept_lines l2.
Proof. unfold RepairSpec.kept_lines. by rewrite List.filter_app, map_app. Qed.

Lemma k_app l1 l2 :
  RepairSpec.k (l1 ++ l2) = (RepairSpec.k l1 + RepairSpec.k l2)%nat.
Proof. unfold RepairSpec.k. by rewrite List.filter_app, length_app. Qed.

Lemma m_app l1 l2 :
  RepairSpec.m (l1 ++ l2) = (RepairSpec.m l1 + RepairSpec.m l2)%nat.
Proof. unfold RepairSpec.m. by rewrite List.filter_app, length_app. Qed.

Lemma last_metadata_app l1 l2 :
  RepairSpec.last_metadata (l1 ++ l2)
  = match RepairSpec.last_metadata l2 with
    | Some v => Some v
    | None => RepairSpec.last_metadata l1
    end.
Proof.
  induction l1 as [|line l1 IH].
  - cbn [app RepairSpec.last_metadata].
    by destruct (RepairSpec.last_metadata l2).
  - cbn [app]. rewrite !last_metadata_cons, IH.
    by destruct (RepairSpec.last_metadata l2).
Qed.

Lemma invalid_not_valid line :
  RepairSpec.valid_entry line || RepairSpec.valid_metadata line = true ->
  RepairSpec.invalid_entry line = false.
Proof.
  unfold RepairSpec.valid_entry, RepairSpec.invalid_entry,
    RepairSpec.valid_metadata, RepairSpec.is_entry_line,
    RepairSpec.is_metadata_line.
  destruct (RepairSpec.is_blank line); [done|].
  destruct (JsString.startsWith (RepairSpec.text_of line) "#"); [done|].
  by destruct (RepairSpec.is_json (RepairSpec.text_of line)).
Qed.

(** Keeping the kept lines again changes nothing. *)
Lemma kept_lines_kept lines :
  RepairSpec.kept_lines (RepairSpec.kept_lines lines)
  = RepairSpec.kept_lines lines
  /\ RepairSpec.k (RepairSpec.kept_lines lines) = RepairSpec.k lines
  /\ RepairSpec.m (RepairSpec.kept_lines lines) = 0%nat
  /\ RepairSpec.last_metadata (RepairSpec.kept_lines lines)
     = RepairSpec.last_metadata lines.
Proof.
  induction lines as [|line lines (IH1 & IH2 & IH3 & IH4)]; [done|].
  rewrite kept_lines_cons, kept_lines_app, k_app, m_app, last_metadata_app.
  rewrite IH1, IH2, IH3, IH4, k_cons, last_metadata_cons.
  destruct (class_of_text line) as (He & Hi & Hm & _).
  destruct (RepairSpec.valid_entry line || RepairSpec.valid_metadata line)
    eqn:Hkept.
  - rewrite kept_lines_cons, k_cons, m_cons, last_metadata_cons.
    rewrite He, Hi, Hm, Hkept, text_of_text, (invalid_not_valid line Hkept).
    change (RepairSpec.kept_lines []) with (@nil string).
    change (RepairSpec.k []) with 0%nat. change (RepairSpec.m []) with 0%nat.
    cbn [RepairSpec.last_metadata]. split_and!; [done|lia|done|done].
  - apply orb_false_iff in Hkept as [-> ->]. by split_and!.
Qed.

Lemma header_kept sessionId birth :
  let h := String "#" (stringify_metadata sessionId birth) in
  RepairSpec.kept_lines [h] = [h]
  /\ RepairSpec.k [h] = 0%nat
  /\ RepairSpec.m [h] = 0%nat
  /\ RepairSpec.last_metadata [h] = Some (metadata_value sessionId birth).
Proof.
  intros h.
  assert (RepairSpec.text_of h = h) as Ht by apply text_of_header.
  assert (RepairSpec.is_metadata_line h = true) as Hm.
  { unfold RepairSpec.is_metadata_line, RepairSpec.is_blank. rewrite Ht.
    destruct (stringify_metadata sessionId birth); reflexivity. }
  assert (JSON.parse (JsString.slice_from 1 (RepairSpec.text_of h))
          = Some (metadata_value sessionId birth)) as Hp.
  { rewrite Ht. apply parse_metadata. }
  assert (RepairSpec.valid_metadata h = true) as Hv.
  { unfold RepairSpec.valid_metadata, RepairSpec.is_json. by rewrite Hm, Hp. }
  assert (RepairSpec.valid_entry h = false) as He
    by (by apply valid_metadata_true in Hv as (_ & _ & ? & _)).
  assert (RepairSpec.invalid_entry h = false) as Hi
    by (apply invalid_not_valid; by rewrite Hv, orb_true_r).
  rewrite kept_lines_cons, k_cons, m_cons, last_metadata_cons.
  rewrite He, Hi, Hv, Hp, Ht. done.
Qed.


(** The lines of a log that was joined from lines, up to the blank end. *)
Lemma joined_lines (lines : list string) :
  List.Forall (fun line => JsStringFacts.has_char "010" line = false) lines ->
  JsString.split_char "010" (JsString.join newline lines +:+ newline)
  = lines ++ [""]
  \/ lines = []
     /\ JsString.split_char "010" (JsString.join newline lines +:+ newline)
        = [""; ""].
Proof.
  intros Hall. destruct lines as [|line lines]; [by right|]. left.
  unfold newline. by rewrite JsStringFacts.split_char_join.
Qed.

Lemma joined_classes (lines : list string) :
  List.Forall (fun line => JsStringFacts.has_char "010" line = false) lines ->
  let lines' :=
    JsString.split_char "010" (JsString.join newline lines +:+ newline) in
  RepairSpec.kept_lines lines' = RepairSpec.kept_lines lines
  /\ RepairSpec.k lines' = RepairSpec.k lines
  /\ RepairSpec.m lines' = RepairSpec.m lines
  /\ RepairSpec.last_metadata lines' = RepairSpec.last_metadata lines.
Proof.
  intros Hall lines'. subst lines'.
  destruct (joined_lines lines Hall) as [-> | [-> ->]]; [|done].
  rewrite kept_lines_app, k_app, m_app, last_metadata_app.
  change (RepairSpec.kept_lines [""]) with (@nil string).
  change (RepairSpec.k [""]) with 0%nat.
  change (RepairSpec.m [""]) with 0%nat.
  change (RepairSpec.last_metadata [""]) with (@None JSON.value).
  by rewrite app_nil_r, !Nat.add_0_r.
Qed.

(** The lines of the log after repair, in classes. *)
Lemma repaired_classes sessionId birth lines :
  List.Forall (fun line => JsStringFacts.has_char "010" line = false) lines ->
  let kept := RepairSpec.header sessionId birth lines
              ++ RepairSpec.kept_lines lines in
  let lines' :=
    JsString.split_char "010"
      (RepairSpec.repaired_text sessionId birth lines) in
  RepairSpec.kept_lines lines' = kept
  /\ RepairSpec.k lines' = RepairSpec.k lines
  /\ RepairSpec.m lines' = 0%nat
  /\ RepairSpec.last_metadata lines'
     = match RepairSpec.last_metadata lines with
       | Some v => Some v
       | None => Some (metadata_value sessionId birth)
       end.
Proof.
  intros Hall kept lines'. subst lines'. unfold RepairSpec.repaired_text.
  fold kept.
  assert (List.Forall
            (fun line => JsStringFacts.has_char "010" line = false) kept)
    as Hkept.
  { apply List.Forall_app. split; [|by apply kept_lines_one_line].
    destruct (header_cases sessionId birth lines) as [-> | ->];
      constructor; [|constructor].
    apply stringify_metadata_one_line. }
  destruct (joined_classes kept Hkept) as (-> & -> & -> & ->).
  subst kept. rewrite kept_lines_app, k_app, m_app, last_metadata_app.
  destruct (kept_lines_kept lines) as (-> & -> & -> & ->).
  destruct (header_kept sessionId birth) as (Hh1 & Hh2 & Hh3 & Hh4).
  unfold RepairSpec.header.
  destruct (RepairSpec.last_metadata lines) as [v|] eqn:Hv.
  - destruct (no_metadata (Some v)); [by rewrite Hh1, Hh2, Hh3|done].
  - cbn [no_metadata]. by rewrite Hh1, Hh2, Hh3, Hh4.
Qed.

(** Repair is idempotent on the logs that hold no falsy metadata: when
    the last valid metadata line of a log, if it has one, holds a value
    that is truthy, a second repair reports nothing discarded, nothing
    repaired and the entries the first repair recovered, and leaves the
    files as the first repair left them. *)
Theorem repair_idempotent (sessionId : string) (files : fs) (f : file)
  (report : RepairReport) (files1 : fs) :
  files !! sessionId = Some f ->
  (forall v, RepairSpec.last_metadata (JsString.split_char "010" (data f))
             = Some v -> JSON.truthy v = true) ->
  repair sessionId files = Ok (report, files1) ->
  repair sessionId files1
  = Ok ({| repaired := false; entriesRecovered := entriesRecovered report;
           entriesLost := 0 |}, files1).
Proof.
  intros Hf Htruthy Hrepair.
  assert (valid_session_id sessionId = true) as Hid.
  { unfold repair, sessionPath in Hrepair.
    by destruct (valid_session_id sessionId). }
  pose proof (repair_rewrites sessionId files f Hid Hf) as Hfirst.
  cbv zeta in Hfirst.
  rewrite Hfirst in Hrepair. injection Hrepair as <- <-.
  cbn [entriesRecovered].
  set (lines := JsString.split_char "010" (data f)) in *.
  set (f1 := {| data := RepairSpec.repaired_text sessionId (birthtimeMs f) lines;
                birthtimeMs := birthtimeMs f |}).
  assert ((<[sessionId := f1]> files : fs) !! sessionId = Some f1) as Hf1
    by apply lookup_insert_eq.
  pose proof (repair_rewrites sessionId _ f1 Hid Hf1) as Hsecond.
  cbv zeta in Hsecond.
  rewrite Hsecond. subst f1. cbn [data birthtimeMs].
  destruct (repaired_classes sessionId (birthtimeMs f) lines
              (JsStringFacts.split_char_pieces "010" (data f)))
    as (Hkept & Hk & Hm & Hlast).
  fold lines in Hkept, Hk, Hm, Hlast. rewrite Hk, Hm.
  f_equal. f_equal.
  unfold fs. rewrite insert_insert_eq. do 2 f_equal.
  unfold RepairSpec.repaired_text at 1. rewrite Hkept.
  unfold RepairSpec.header at 1. rewrite Hlast.
  unfold RepairSpec.repaired_text.
  destruct (RepairSpec.last_metadata lines) as [v|] eqn:Hv.
  - unfold RepairSpec.header. rewrite Hv. cbn [no_metadata].
    by rewrite (Htruthy v).
  - done.
Qed.


(** On the other logs every repair adds a header: when the last valid
    metadata line of a log holds a falsy value, the first repair puts a
    header in front of the kept lines, and the second repair puts the
    same header in front of the log the first one left. *)
Theorem repair_adds_header_again (sessionId : string) (files : fs) (f : file)
  (report : RepairReport) (files1 : fs) (v : JSON.value) :
  files !! sessionId = Some f ->
  RepairSpec.last_metadata (JsString.split_char "010" (data f)) = Some v ->
  JSON.truthy v = false ->
  repair sessionId files = Ok (report, files1) ->
  exists f1,
    files1 !! sessionId = Some f1
    /\ repair sessionId files1
       = Ok ({| repaired := false; entriesRecovered := entriesRecovered report;
                entriesLost := 0 |},
             <[sessionId :=
                 {| data := String "#"
                              (stringify_metadata sessionId (birthtimeMs f))
                            +:+ newline +:+ data f1;
                    birthtimeMs := birthtimeMs f |}]> files1).
Proof.
  intros Hf Hv Hfalsy Hrepair.
  assert (valid_session_id sessionId = true) as Hid.
  { unfold repair, sessionPath in Hrepair.
    by destruct (valid_session_id sessionId). }
  pose proof (repair_rewrites sessionId files f Hid Hf) as Hfirst.
  cbv zeta in Hfirst.
  rewrite Hfirst in Hrepair. injection Hrepair as <- <-.
  cbn [entriesRecovered].
  set (lines := JsString.split_char "010" (data f)) in *.
  set (f1 := {| data := RepairSpec.repaired_text sessionId (birthtimeMs f) lines;
                birthtimeMs := birthtimeMs f |}).
  assert ((<[sessionId := f1]> files : fs) !! sessionId = Some f1) as Hf1
    by apply lookup_insert_eq.
  exists f1. split; [exact Hf1|].
  pose proof (repair_rewrites sessionId _ f1 Hid Hf1) as Hsecond.
  cbv zeta in Hsecond.
  rewrite Hsecond. subst f1. cbn [data birthtimeMs].
  destruct (repaired_classes sessionId (birthtimeMs f) lines
              (JsStringFacts.split_char_pieces "010" (data f)))
    as (Hkept & Hk & Hm & Hlast).
  fold lines in Hkept, Hk, Hm, Hlast. rewrite Hk, Hm.
  do 4 f_equal.
  unfold RepairSpec.repaired_text at 1. rewrite Hkept.
  unfold RepairSpec.header at 1. rewrite Hlast, Hv.
  unfold RepairSpec.repaired_text, RepairSpec.header. rewrite Hv.
  cbn [no_metadata]. rewrite Hfalsy. cbn [negb app].
  rewrite JsStringFacts.join_cons. by rewrite !JsStringFacts.append_assoc.
Qed.

(** ** Logs *)

Definition entry_a : TranscriptEntry :=
  {| id := "e-1"; role := user; content := "hello"; timestamp := 1001;
     toolCall := None; toolResult := None |}.

Definition entry_b : TranscriptEntry :=
  {| id := "e-2"; role := assistant; content := "hi there"; timestamp := 1002;
     toolCall := None; toolResult := None |}.

(** The header of the session [s-1], created at 1000. *)
Definition header_1 : string := String "#" (stringify_metadata "s-1" 1000).

Definition log_file (text : string) : file :=
  {| data := text; birthtimeMs := 1000 |}.

(** A valid metadata line, two valid entries and the line [{not json]. *)
Definition damaged_log : string :=
  header_1 +:+ newline +:+ stringify_entry entry_a +:+ newline
  +:+ "{not json" +:+ newline +:+ stringify_entry entry_b +:+ newline.


(** A metadata line whose value is falsy. *)
Definition null_header_log : string := "#null" +:+ newline.



(** C10 fails on the log whose only line is the metadata line [#null]:
    the first repair puts a header in front of it, and the second repair
    puts a second header in front of the first, so that the log changes
    again; both report nothing discarded and nothing recovered. *)
Lemma repair_twice_adds_second_header :
  let once := header_1 +:+ newline +:+ "#null" +:+ newline in
  let twice := header_1 +:+ newline +:+ header_1 +:+ newline
               +:+ "#null" +:+ newline in
  repair "s-1" {["s-1" := log_file null_header_log]}
  = Ok ({| repaired := false; entriesRecovered := 0; entriesLost := 0 |},
        {["s-1" := log_file once]})
  /\ repair "s-1" {["s-1" := log_file once]}
     = Ok ({| repaired := false; entriesRecovered := 0; entriesLost := 0 |},
           {["s-1" := log_file twice]})
  /\ once <> twice.
Proof. split_and!; by vm_compute. Qed.

(** The log of the scenario of C4, repaired twice. *)
Lemma repair_idempotent_witness :
  exists report files1,
    repair "s-1" {["s-1" := log_file damaged_log]} = Ok (report, files1)
    /\ repair "s-1" files1
       = Ok ({| repaired := false; entriesRecovered := 2; entriesLost := 0 |},
             files1).
Proof.
  assert (valid_session_id "s-1" = true) as Hid by reflexivity.
  assert (({["s-1" := log_file damaged_log]} : fs) !! "s-1"
          = Some (log_file damaged_log)) as Hf by reflexivity.
  pose proof (repair_rewrites "s-1" _ _ Hid Hf) as Hrepair.
  cbv zeta in Hrepair.
  eexists _, _. split; [exact Hrepair|].
  refine (repair_idempotent "s-1" _ _ _ _ Hf _ Hrepair).
  intros v Hv. vm_compute in Hv. by injection Hv as <-.
Defined.

(** The log with the metadata line [#null], repaired twice. *)
Lemma repair_adds_header_again_witness :
  exists report files1 f1,
    repair "s-1" {["s-1" := log_file null_header_log]} = Ok (report, files1)
    /\ files1 !! "s-1" = Some f1
    /\ repair "s-1" files1
       = Ok ({| repaired := false; entriesRecovered := 0; entriesLost := 0 |},
             <["s-1" := log_file (header_1 +:+ newline +:+ data f1)]> files1).
Proof.
  assert (valid_session_id "s-1" = true) as Hid by reflexivity.
  assert (({["s-1" := log_file null_header_log]} : fs) !! "s-1"
          = Some (log_file null_header_log)) as Hf by reflexivity.
  pose proof (repair_rewrites "s-1" _ _ Hid Hf) as Hrepair.
  cbv zeta in Hrepair.
  assert (RepairSpec.last_metadata
            (JsString.split_char "010" (data (log_file null_header_log)))
          = Some JSON.Null) as Hv by reflexivity.
  destruct (repair_adds_header_again "s-1" _ _ _ _ JSON.Null Hf Hv eq_refl
              Hrepair) as (f1 & Hf1 & Hsecond).
  eexists _, _, f1. split; [exact Hrepair|]. split; [exact Hf1|].
  exact Hsecond.
Defined.

End SessionFacts.

(* ===================================================================== *)
(** * Laws of the index *)
(* ===================================================================== *)

Module IndexLaws.
Import BM25Index BM25IndexFacts.

Lemma wf_clear idx : wf (clear idx).
Proof. split_and!; [split; [constructor|done]|done|constructor]. Qed.

Lemma wf_reachable idx : reachable idx -> wf idx.
Proof.
  induction 1.
  - apply wf_create.
  - by apply wf_addDocument.
  - by apply wf_removeDocument.
  - apply wf_clear.
Qed.

Lemma delete_set_absent {V} id (v : V) (m : list (string * V)) :
  JsMap.get id m = None -> JsMap.delete id (JsMap.set id v m) = m.
Proof.
  induction m as [|[k w] m IH]; simpl.
  - intros _. by rewrite String.eqb_refl.
  - destruct (String.eqb id k) eqn:E; [done|]. intros H. simpl.
    rewrite E. by rewrite IH.
Qed.

(** A term that no stored document contains is in no counter. *)
Lemma increment_decrement (df tf : gmap string nat) :
  (forall term, df !! term <> Some 0%nat) ->
  fold_left df_decrement (term_keys tf)
    (fold_left df_increment (term_keys tf) df) = df.
Proof.
  intros Hpos. apply map_eq. intros term.
  pose proof (NoDup_term_keys tf) as Hnd.
  rewrite fold_df_decrement by done.
  destruct (decide (term ∈ term_keys tf)) as [Hin|Hnin].
  - unfold get0 at 1. rewrite fold_df_increment by done.
    rewrite decide_True by done. simpl.
    replace (get0 df term + 1 - 1)%nat with (get0 df term) by lia.
    unfold get0. specialize (Hpos term).
    destruct (df !! term) as [[|n]|]; done.
  - rewrite fold_df_increment by done. by rewrite decide_False.
Qed.

Lemma consistent_no_zero idx term :
  consistent idx -> documentFrequency idx !! term <> Some 0%nat.
Proof.
  intros [_ H]. rewrite H. by destruct (containing term (documents idx)).
Qed.

(** Adding a document under a new id and removing it again gives the
    index back: the documents in their order, every counter, the mean
    length and the configuration. *)
Theorem add_remove_round_trip (idx : t) (id path content : string)
  (timestamp : R) :
  reachable idx ->
  JsMap.get id (documents idx) = None ->
  removeDocument id (addDocument id path content timestamp idx) = (true, idx).
Proof.
  intros Hreach Hnew. apply wf_reachable in Hreach as (Hc & Havg & _).
  unfold removeDocument, addDocument. cbn [documents documentFrequency config].
  rewrite JsMapFacts.get_set_eq, Hnew. cbn [doc_terms].
  rewrite delete_set_absent by done.
  rewrite increment_decrement by (intros term; by apply consistent_no_zero).
  rewrite <- Havg. by destruct idx.
Qed.


Lemma get_In {V} k (v : V) (m : list (string * V)) :
  List.NoDup (JsMap.keys m) -> In (k, v) m -> JsMap.get k m = Some v.
Proof.
  induction m as [|[k' v'] m IH]; simpl; [done|].
  intros Hnd [H|H]; inversion Hnd as [|? ? Hk Hnd']; subst.
  - injection H as -> ->. by rewrite String.eqb_refl.
  - destruct (String.eqb_spec k k') as [->|Hne]; [|by apply IH].
    exfalso. apply Hk. unfold JsMap.keys. apply in_map_iff. by exists (k', v).
Qed.

(** What the index holds, in every state: a document is stored under
    its own id, with the frequencies and the number of the tokens of its
    content, and [avgDocLength] is the mean of the stored lengths. *)
Theorem stored_documents_invariant (idx : t) :
  reachable idx ->
  (forall doc, In doc (getAllDocuments idx) ->
     JsMap.get (doc_id doc) (documents idx) = Some doc
     /\ (forall term,
           get0 (doc_terms doc) term
           = occurrences term (tokenize (doc_content doc)))
     /\ doc_length doc = length (tokenize (doc_content doc)))
  /\ avgDocLength idx
     = (if (size idx =? 0)%nat then 0
        else INR (total_length (documents idx)) / INR (size idx))%R.
Proof.
  intros ((Hnd & _) & Havg & Hdocs)%wf_reachable. split; [|done].
  intros doc Hin. unfold getAllDocuments, JsMap.values in Hin.
  apply in_map_iff in Hin as ([k d] & <- & Hin).
  rewrite List.Forall_forall in Hdocs.
  destruct (Hdocs _ Hin) as (Hid & Hterms & Hlen). simpl in *.
  split_and!; [|intros term; by rewrite Hterms, get0_count_terms|done].
  rewrite Hid. by apply get_In.
Qed.

Lemma search_In_documents idx query limit r :
  In r (search idx query limit) -> In (fst r) (JsMap.values (documents idx)).
Proof.
  unfold search. destruct (length (tokenize query) =? 0)%nat; [done|].
  intros H%JsArrayFacts.slice0_In.
  assert (forall (l : list (IndexedDocument * R)) x,
            In x (JsArray.sort_by (fun a b => Rgtb (snd a) (snd b)) l)
            -> In x l) as Hsort.
  { intros l x Hx.
    by apply (proj1 (JsArrayFacts.sort_by_In snd l x)) in Hx. }
  apply Hsort in H. apply filter_In in H as [H _].
  apply in_map_iff in H as (d & <- & Hd). done.
Qed.

Lemma In_delete {V} k x (m : list (string * V)) :
  List.NoDup (JsMap.keys m) -> In x (JsMap.delete k m) -> In x m /\ x.1 <> k.
Proof.
  induction m as [|[k' v'] m IH]; simpl; [done|].
  intros Hnd. inversion Hnd as [|? ? Hk Hnd']; subst.
  destruct (String.eqb_spec k k') as [->|Hne].
  - intros Hx. split; [by right|]. intros Heq. apply Hk. rewrite <- Heq.
    unfold JsMap.keys. apply in_map_iff. by exists x.
  - intros [<-|Hx]; [split; [by left|simpl; congruence]|].
    destruct (IH Hnd' Hx). split; [by right|done].
Qed.

(** [removeDocument] tells whether the id was stored; an id that was not
    leaves the index as it is, and a document that was removed is in no
    search result. *)
Theorem removed_document_not_found (idx : t) (id : string) :
  reachable idx ->
  let '(removed, idx') := removeDocument id idx in
  removed = bool_decide (is_Some (JsMap.get id (documents idx)))
  /\ (removed = false -> idx' = idx)
  /\ JsMap.get id (documents idx') = None
  /\ forall query limit r,
       In r (search idx' query limit) -> doc_id (fst r) <> id.
Proof.
  intros Hreach.
  pose proof (wf_reachable _ (reach_remove idx id Hreach)) as Hwf'.
  apply wf_reachable in Hreach as ((Hnd & _) & _ & Hdocs).
  unfold removeDocument in *.
  destruct (JsMap.get id (documents idx)) as [doc|] eqn:Hget.
  - cbn [snd documents] in *.
    assert (forall e, In e (JsMap.delete id (documents idx)) -> e.1 <> id)
      as Hne by (intros e He; by apply (In_delete id e) in He as [_ ?]).
    split_and!; [done|done| |].
    + destruct (JsMap.get id (JsMap.delete id (documents idx))) as [d|] eqn:E;
        [|done].
      exfalso. clear Hwf' Hdocs Hget.
      induction (documents idx) as [|[k v] m IH]; simpl in *; [done|].
      inversion Hnd as [|? ? Hk Hnd']; subst.
      destruct (String.eqb_spec id k) as [->|Hne'].
      * apply Hk. clear -E. induction m as [|[k' v'] m IH]; simpl in *; [done|].
        destruct (String.eqb_spec k k') as [->|]; [by left|]. right. by apply IH.
      * simpl in E. destruct (String.eqb_spec id k); [done|].
        apply IH; [done| |done]. intros e He. apply Hne. by right.
    + intros query limit r Hr%search_In_documents. cbn [documents] in Hr.
      unfold JsMap.values in Hr. apply in_map_iff in Hr as (e & <- & He).
      destruct Hwf' as (_ & _ & Hdocs'). cbn [documents] in Hdocs'.
      rewrite List.Forall_forall in Hdocs'. destruct (Hdocs' e He) as (-> & _).
      by apply Hne.
  - split_and!; try done.
    intros query limit r Hr%search_In_documents.
    unfold JsMap.values in Hr. apply in_map_iff in Hr as (e & <- & He).
    rewrite List.Forall_forall in Hdocs. destruct (Hdocs e He) as (-> & _).
    intros <-. apply JsMapFacts.get_None_not_in in Hget. apply Hget.
    unfold JsMap.keys. apply in_map_iff. by exists e.
Qed.

End IndexLaws.

Module ScoreLaws.
Import BM25Index BM25IndexFacts.
Import IndexLaws.
Local Open Scope R_scope.

(** The counter of a term is at most the number of documents. *)
Lemma df_le_size idx term :
  wf idx ->
  (get0 (documentFrequency idx) term <= JsMap.size (documents idx))%nat.
Proof.
  intros ((_ & Hdf) & _). rewrite (get0_stored _ _ _ (Hdf term)).
  apply containing_le.
Qed.

Lemma idf_value idx term :
  (0 < get0 (documentFrequency idx) term)%nat ->
  (get0 (documentFrequency idx) term <= JsMap.size (documents idx))%nat ->
  idf idx term
  = ln ((INR (JsMap.size (documents idx)) + 1)
        / (INR (get0 (documentFrequency idx) term) + 5 / 10)).
Proof.
  intros Hpos Hle. unfold idf.
  destruct (Nat.eqb_spec (get0 (documentFrequency idx) term) 0%nat); [lia|].
  destruct (Nat.eqb_spec (JsMap.size (documents idx)) 0%nat); [lia|].
  cbn [orb]. f_equal.
  assert (0 < INR (get0 (documentFrequency idx) term)) by (apply lt_0_INR; lia).
  field. lra.
Qed.


(** Rarer terms weigh more: the weight of a term that occurs in some
    document is positive, and of two such terms the one in fewer
    documents has the larger weight. *)
Theorem idf_rarer_term_weighs_more (idx : t) (term1 term2 : string) :
  reachable idx ->
  (0 < get0 (documentFrequency idx) term1
     < get0 (documentFrequency idx) term2)%nat ->
  0 < idf idx term2 < idf idx term1.
Proof.
  intros Hwf%wf_reachable [H1 H2].
  pose proof (df_le_size idx term1 Hwf) as Hle1.
  pose proof (df_le_size idx term2 Hwf) as Hle2.
  rewrite !idf_value by lia.
  set (n := INR (JsMap.size (documents idx))).
  set (d1 := INR (get0 (documentFrequency idx) term1)).
  set (d2 := INR (get0 (documentFrequency idx) term2)).
  assert (0 < d1) as Hd1 by (apply lt_0_INR; lia).
  assert (d1 < d2) as Hd12 by (by apply lt_INR).
  assert (d2 <= n) as Hd2 by (by apply le_INR).
  split.
  - rewrite <- ln_1. apply ln_increasing; [lra|].
    apply Rmult_lt_reg_r with (d2 + 5 / 10); [lra|]. field_simplify; lra.
  - apply ln_increasing.
    + apply Rdiv_lt_0_compat; lra.
    + unfold Rdiv. apply Rmult_lt_compat_l; [lra|].
      apply Rinv_lt_contravar; [|lra].
      apply Rmult_lt_0_compat; lra.
Qed.

Lemma idf_nonneg idx term : wf idx -> 0 <= idf idx term.
Proof.
  intros Hwf. pose proof (df_le_size idx term Hwf) as Hle.
  destruct (Nat.eq_dec (get0 (documentFrequency idx) term) 0%nat) as [Hz|Hnz].
  - unfold idf. rewrite Hz. simpl. lra.
  - rewrite idf_value by lia.
    assert (0 < INR (get0 (documentFrequency idx) term)) by (apply lt_0_INR; lia).
    assert (INR (get0 (documentFrequency idx) term)
            <= INR (JsMap.size (documents idx))) by (by apply le_INR).
    rewrite <- ln_1. left. apply ln_increasing; [lra|].
    apply Rmult_lt_reg_r with (INR (get0 (documentFrequency idx) term) + 5 / 10);
      [lra|].
    field_simplify; lra.
Qed.

Lemma avgDocLength_nonneg idx : wf idx -> 0 <= avgDocLength idx.
Proof.
  intros (_ & -> & _). unfold updateAvgDocLength.
  destruct (Nat.eqb_spec (JsMap.size (documents idx)) 0%nat); [lra|].
  apply Rmult_le_pos; [apply pos_INR|].
  left. apply Rinv_0_lt_compat, lt_0_INR. lia.
Qed.

Lemma or_one_pos x : 0 <= x -> 0 < or_one x.
Proof. intros Hx. unfold or_one. destruct (Req_dec_T x 0); lra. Qed.

(** Term frequency saturates: a query term adds at most [k1 + 1] times
    its weight to the score of a document, however often the document
    repeats it. *)
Theorem score_saturation (idx : t) (doc : IndexedDocument)
  (queryTerms : list string) :
  reachable idx ->
  0 <= k1 (config idx) -> 0 <= b (config idx) <= 1 ->
  0 <= score idx doc queryTerms
    <= (k1 (config idx) + 1)
       * fold_right Rplus 0 (map (idf idx) queryTerms).
Proof.
  intros Hwf%wf_reachable Hk1 Hb. rewrite score_sum.
  assert (forall term,
            0 <= contribution idx doc term
              <= (k1 (config idx) + 1) * idf idx term) as Hterm.
  { intros term. pose proof (idf_nonneg idx term Hwf) as Hidf.
    unfold contribution.
    destruct (Nat.eqb_spec (get0 (doc_terms doc) term) 0%nat) as [Hz|Hnz].
    { split; [lra|]. apply Rmult_le_pos; lra. }
    set (tf := INR (get0 (doc_terms doc) term)).
    assert (1 <= tf) as Htf.
    { change 1 with (INR 1). apply le_INR. lia. }
    set (norm := 1 - b (config idx)
                 + b (config idx)
                   * (INR (doc_length doc) / or_one (avgDocLength idx))).
    assert (0 <= norm) as Hnorm.
    { unfold norm.
      assert (0 <= INR (doc_length doc) / or_one (avgDocLength idx)).
      { apply Rmult_le_pos; [apply pos_INR|]. left.
        apply Rinv_0_lt_compat, or_one_pos, avgDocLength_nonneg, Hwf. }
      assert (0 <= b (config idx)
                   * (INR (doc_length doc) / or_one (avgDocLength idx)))
        by (apply Rmult_le_pos; lra).
      lra. }
    assert (0 <= k1 (config idx) * norm) as Hkn by (by apply Rmult_le_pos).
    assert (0 <= tf * (k1 (config idx) + 1) / (tf + k1 (config idx) * norm)
              <= k1 (config idx) + 1) as [Hlo Hhi].
    { split.
      - apply Rmult_le_pos; [apply Rmult_le_pos; lra|].
        left. apply Rinv_0_lt_compat. lra.
      - apply Rmult_le_reg_r with (tf + k1 (config idx) * norm); [lra|].
        unfold Rdiv. rewrite Rmult_assoc, Rinv_l by lra. nra. }
    split; [by apply Rmult_le_pos|].
    rewrite (Rmult_comm (k1 (config idx) + 1)).
    by apply Rmult_le_compat_l. }
  induction queryTerms as [|term terms [IH0 IH]]; simpl; [lra|].
  destruct (Hterm term). split; [lra|]. rewrite Rmult_plus_distr_l. lra.
Qed.

End ScoreLaws.

(* ===================================================================== *)
(** * Laws of retrieval and compaction *)
(* ===================================================================== *)

Module RetrievalLaws.
Import MemorySystem RetrievalFacts.

(** ** Temporal decay *)


(** The age is not clamped: a document stamped after the present gains
    score. *)
Theorem temporal_decay_future_boost (cfg : MemoryConfig)
  (now score timestamp : R) :
  (0 < temporalDecayHalfLife cfg)%R ->
  (now < timestamp)%R -> (0 < score)%R ->
  (score < applyTemporalDecay cfg now score timestamp)%R.
Proof.
  intros Hpos Hfuture Hscore.
  pose proof (decayFactor_increasing cfg now now timestamp Hpos Hfuture) as H.
  assert (decayFactor cfg now now = 1%R) as Hnow.
  { unfold decayFactor. replace ((now - now) / halfLifeMs cfg)%R with 0%R.
    - apply Rpower_O. lra.
    - unfold Rdiv. lra. }
  rewrite Hnow in H. unfold applyTemporalDecay. nra.
Qed.


(** ** Similarity *)

Lemma split_runs_from_nonempty sep in_run s :
  JsString.split_runs_from sep in_run s <> [].
Proof.
  revert in_run. induction s as [|c s IH]; intros in_run; simpl; [done|].
  destruct (sep c).
  - destruct in_run; [apply IH|done].
  - by destruct (JsString.split_runs_from sep false s).
Qed.

(** A text has a token, if only the empty one. *)
Lemma token_set_nonempty text : (0 < size (token_set text))%nat.
Proof.
  unfold token_set, JsString.split_runs.
  pose proof (split_runs_from_nonempty JsString.is_space false
                (JsString.toLowerCase text)) as Hne.
  destruct (JsString.split_runs_from _ _ _) as [|p ps]; [done|].
  simpl. apply (Nat.lt_le_trans _ (size ({[p]} : gset string))).
  - rewrite size_singleton. lia.
  - apply subseteq_size. set_solver.
Qed.

Lemma jaccardSimilarity_ratio text1 text2 :
  jaccardSimilarity text1 text2
  = (INR (size (token_set text1 ∩ token_set text2))
     / INR (size (token_set text1 ∪ token_set text2)))%R
  /\ (0 < size (token_set text1 ∪ token_set text2))%nat.
Proof.
  assert (0 < size (token_set text1 ∪ token_set text2))%nat as Hu.
  { apply (Nat.lt_le_trans _ (size (token_set text1)));
      [apply token_set_nonempty|].
    apply subseteq_size, union_subseteq_l. }
  split; [|done]. unfold jaccardSimilarity, jaccard_sizes.
  destruct (Nat.eqb_spec (size (token_set text1 ∪ token_set text2)) 0);
    [lia|done].
Qed.

(** The similarity of two texts is symmetric and lies between 0 and 1;
    it is 1 for texts with the same tokens, so of a text with itself;
    and the union of two token sets is never empty, so that the branch
    for an empty union is never taken. *)
Theorem jaccard_similarity_laws (text1 text2 : string) :
  jaccardSimilarity text1 text2 = jaccardSimilarity text2 text1
  /\ (0 <= jaccardSimilarity text1 text2 <= 1)%R
  /\ (token_set text1 = token_set text2 ->
      jaccardSimilarity text1 text2 = 1%R)
  /\ snd (jaccard_sizes text1 text2) <> 0%nat.
Proof.
  destruct (jaccardSimilarity_ratio text1 text2) as [E12 Hu].
  destruct (jaccardSimilarity_ratio text2 text1) as [E21 _].
  split_and!.
  - rewrite E12, E21.
    by rewrite (comm_L (∩) (token_set text2) (token_set text1)),
      (comm_L (∪) (token_set text2) (token_set text1)).
  - rewrite E12. apply lt_0_INR in Hu.
    apply Rmult_le_pos; [apply pos_INR|]. left. by apply Rinv_0_lt_compat.
  - rewrite E12.
    assert (size (token_set text1 ∩ token_set text2)
            <= size (token_set text1 ∪ token_set text2))%nat as Hle.
    { apply subseteq_size. etrans; [apply intersection_subseteq_l|].
      apply union_subseteq_l. }
    apply le_INR in Hle. apply lt_0_INR in Hu.
    apply Rmult_le_reg_r with
      (INR (size (token_set text1 ∪ token_set text2))); [done|].
    unfold Rdiv. rewrite Rmult_assoc, Rinv_l by lra. lra.
  - intros Heq. rewrite E12. rewrite Heq in *.
    rewrite (idemp_L (∩) (token_set text2)) , (idemp_L (∪) (token_set text2))
      in *.
    apply lt_0_INR in Hu. field. lra.
  - unfold jaccard_sizes. cbn [snd]. lia.
Qed.

(** ** Re-ranking *)

(** Re-ranking loses and invents nothing: the results, with the
    candidates that were not selected, are the candidates; and when the
    limit is at least the number of candidates, every candidate is a
    result. *)
Theorem mmrRerank_permutation (results : list SearchResult) (limit : Z)
  (lambda : R) :
  exists dropped,
    Permutation results (mmrRerank results limit lambda ++ dropped)
    /\ ((Z.of_nat (length results) <= limit)%Z -> dropped = []).
Proof.
  unfold mmrRerank. destruct (Nat.leb_spec (length results) 1) as [Hle|Hgt].
  - unfold JsArray.slice0.
    set (n := if (limit <? 0)%Z
              then Z.to_nat (Z.of_nat (length results) + limit)
              else Z.to_nat limit).
    exists (skipn n results).
    replace (if (limit <? 0)%Z then firstn _ results else firstn _ results)
      with (firstn n results) by (unfold n; by destruct (limit <? 0)%Z).
    rewrite firstn_skipn. split; [done|]. intros Hl.
    apply skipn_all2. unfold n.
    destruct (Z.ltb_spec limit 0); lia.
  - destruct results as [|first rest] eqn:E; [simpl in Hgt; lia|].
    destruct (mmr_loop_greedy limit lambda (first :: rest) first rest eq_refl)
      as (remaining' & (Hperm & _ & Hl & _) & Hexit).
    exists remaining'. split; [done|]. intros Hlimit.
    destruct Hexit as [Hexit|Hnil]; [|done].
    apply Permutation_length in Hperm. rewrite length_app in Hperm.
    destruct remaining'; [done|]. simpl in *. lia.
Qed.

End RetrievalLaws.

Module CompactionLaws.
Import Transcript MemorySystem CompactionFacts.
Local Open Scope Z_scope.

(** ** Where facts come from *)

(** A fact of [entries]: the trimmed text, cut to 100 characters, of a
    sentence with a cue in an entry that is not a tool entry. *)
Definition fact_of (entries : list TranscriptEntry) (fact : string) : Prop :=
  exists entry sentence,
    In entry entries
    /\ role entry <> tool
    /\ In sentence (sentences (content entry))
    /\ is_fact_like (JsString.trim sentence) = true
    /\ fact = limit_fact (JsString.trim sentence).

Lemma scan_sentences_from entries entry ss facts :
  In entry entries -> role entry <> tool ->
  (forall s, In s ss -> In s (sentences (content entry))) ->
  List.Forall (fact_of entries) facts ->
  List.Forall (fact_of entries) (scan_sentences ss facts).
Proof.
  intros He Hrole. revert facts.
  induction ss as [|s ss IH]; intros facts Hss Hall; cbn [scan_sentences];
    [done|].
  assert (forall s', In s' ss -> In s' (sentences (content entry))) as Hss'
    by (intros s' Hs'; apply Hss; by right).
  destruct (is_fact_like (JsString.trim s)) eqn:Hcue; [|by apply IH].
  assert (List.Forall (fact_of entries)
            (facts ++ [limit_fact (JsString.trim s)])) as Hall'.
  { apply List.Forall_app. split; [done|]. constructor; [|constructor].
    exists entry, s. split_and!; try done. apply Hss. by left. }
  destruct (10 <=? length (facts ++ [limit_fact (JsString.trim s)]))%nat;
    [done|by apply IH].
Qed.

Lemma scan_entries_from entries rest facts :
  (forall e, In e rest -> In e entries) ->
  List.Forall (fact_of entries) facts ->
  List.Forall (fact_of entries) (scan_entries rest facts).
Proof.
  revert facts. induction rest as [|e rest IH]; intros facts Hrest Hall;
    cbn [scan_entries]; [done|].
  assert (forall e', In e' rest -> In e' entries) as Hrest'
    by (intros e' He'; apply Hrest; by right).
  destruct (is_tool (role e)) eqn:Htool; [by apply IH|].
  assert (List.Forall (fact_of entries)
            (scan_sentences (sentences (content e)) facts)) as Hall'.
  { apply (scan_sentences_from entries e); try done.
    - apply Hrest. by left.
    - intros Hr. by rewrite Hr in Htool. }
  destruct (10 <=? length (scan_sentences (sentences (content e)) facts))%nat;
    [done|by apply IH].
Qed.

(** [extractFacts] returns at most ten facts of at most 103 characters,
    and each of them comes from a sentence that has a cue, in an entry
    that is not a tool entry. *)
Theorem extractFacts_provenance (entries : list TranscriptEntry) :
  (length (extractFacts entries) <= 10)%nat
  /\ forall fact, In fact (extractFacts entries) ->
       (String.length fact <= 103)%nat /\ fact_of entries fact.
Proof.
  destruct (extractFacts_ok entries) as [Hlen Hshort]. split; [done|].
  intros fact Hin. rewrite List.Forall_forall in Hshort.
  split; [by apply Hshort|].
  assert (List.Forall (fact_of entries) (extractFacts entries)) as Hall
    by (by apply scan_entries_from).
  rewrite List.Forall_forall in Hall. by apply Hall.
Qed.


(** ** The recent messages *)

(** The walk stops at the first entry that does not fit. *)
Lemma collect_recent_maximal recentLimit rev_history recentMessages :
  exists kept rest,
    rev_history = kept ++ rest
    /\ collect_recent recentLimit rev_history (total_tokens recentMessages)
         recentMessages
       = rev kept ++ recentMessages
    /\ forall e rest', rest = e :: rest' ->
         recentLimit
         < estimateTokens (content e)
           + total_tokens (rev kept ++ recentMessages).
Proof.
  revert recentMessages.
  induction rev_history as [|e older IH]; intros messages; simpl.
  - exists [], []. by split_and!.
  - destruct (Z.leb_spec (total_tokens messages + estimateTokens (content e))
                recentLimit) as [Hfit|Hover].
    + destruct (IH (e :: messages)) as (kept & rest & -> & Hc & Hmax).
      rewrite total_tokens_cons in Hc.
      rewrite (Z.add_comm (total_tokens messages)), Hc.
      exists (e :: kept), rest. simpl. rewrite <- !app_assoc. simpl.
      split_and!; try done.
    + exists [], (e :: older). split_and!; try done.
      intros e' rest' [= <- <-]. simpl. lia.
Qed.

Section Suffix.
Variable toISOString : Z -> string.
Variables (m : t) (now now' : Z).

(** A compaction that happens keeps the longest suffix of the history
    that fits in [Math.floor(budget * 0.7)]: the history is the older
    entries followed by the recent ones, the recent ones fit, and the
    last of the older ones would not fit with them.  The facts returned
    are those of the older entries, and the retained history is the
    recent entries, after one summary entry when there are facts; the
    summary entry carries the timestamp of the oldest entry. *)
Theorem compaction_keeps_longest_suffix (history : list TranscriptEntry)
  (budget : Z) :
  0 <= budget < total_tokens history ->
  let result := compact toISOString m now now' history (Some budget) in
  exists older recent summary,
    history = older ++ recent
    /\ result.1.1 = summary ++ recent
    /\ result.1.2 = extractFacts older
    /\ total_tokens recent <= JsNumber.floor_mul_0_7 budget
    /\ (forall older' e, older = older' ++ [e] ->
          JsNumber.floor_mul_0_7 budget < total_tokens (e :: recent))
    /\ (extractFacts older = [] -> summary = [])
    /\ (extractFacts older <> [] ->
        exists s oldest rest,
          summary = [s] /\ history = oldest :: rest
          /\ timestamp s = timestamp oldest
          /\ content s = summaryContent (extractFacts older)).
Proof.
  intros [Hbudget Hover] result.
  destruct (collect_recent_maximal (JsNumber.floor_mul_0_7 budget)
              (rev history) []) as (kept & rest & Hrev & Hrecent & Hmax).
  change (total_tokens []) with 0 in Hrecent. rewrite app_nil_r in *.
  assert (history = rev rest ++ rev kept) as Hhistory.
  { rewrite <- rev_app_distr, <- Hrev. by rewrite rev_involutive. }
  assert (firstn (length history - length (rev kept)) history = rev rest)
    as Holder.
  { rewrite Hhistory, length_app.
    replace (length (rev rest) + length (rev kept) - length (rev kept))%nat
      with (length (rev rest) + 0)%nat by lia.
    by rewrite firstn_app_2, firstn_O, app_nil_r. }
  subst result. unfold compact. simpl default.
  destruct (Z.leb_spec (total_tokens history) budget); [lia|].
  rewrite Hrecent, Holder.
  set (facts := extractFacts (rev rest)).
  set (summary :=
         if (0 <? length (rev rest))%nat && (0 <? length facts)%nat
         then [ {| id := "summary-" +:+ JsNumber.toString now;
                   role := assistant;
                   content := summaryContent facts;
                   timestamp :=
                     match rev rest with e :: _ => timestamp e | [] => now end;
                   toolCall := None; toolResult := None |} ]
         else []).
  exists (rev rest), (rev kept), summary. cbn [fst snd].
  assert (rev rest = [] -> facts = []) as Hnone by (by intros E; subst facts; rewrite E).
  split_and!; try done.
  - destruct (rev rest) as [|e0 older0] eqn:E.
    + rewrite Hnone by done. by rewrite andb_false_r.
    + subst facts. by destruct (extractFacts (e0 :: older0)).
  - pose proof (collect_recent_tokens (JsNumber.floor_mul_0_7 budget)
                  (rev history) 0 [] eq_refl) as Hfit.
    rewrite Hrecent in Hfit. apply Hfit.
    by apply JsNumberFacts.floor_mul_0_7_le.
  - intros older' e Hlast. rewrite total_tokens_cons.
    destruct rest as [|e1 rest1]; [by destruct older'|].
    simpl in Hlast. apply app_inj_tail in Hlast as [_ <-].
    by apply (Hmax e1 rest1).
  - intros Hfacts. subst summary. fold facts in Hfacts. rewrite Hfacts.
    by rewrite andb_false_r.
  - intros Hfacts. subst summary. rewrite Hhistory.
    destruct (rev rest) as [|oldest older0] eqn:E; [exfalso; by apply Hfacts|].
    subst facts. destruct (extractFacts (oldest :: older0)) as [|f facts0];
      [done|].
    cbn [length Nat.ltb Nat.leb andb].
    eexists _, oldest, (older0 ++ rev kept). by split_and!.
Qed.

End Suffix.

End CompactionLaws.

(* ===================================================================== *)
(** * Laws of the transcript store *)
(* ===================================================================== *)

Module StoreLaws.
Import Transcript SessionManager SessionFacts.
#[local] Arguments String.append !_ _ / : simpl nomatch.

(** ** Sessions do not touch each other *)

(** What an operation on one session leaves of another: its file, and so
    its history. *)
Theorem sessions_are_isolated (sessionId other : string) (files : fs) :
  sessionId <> other ->
  (forall now s files', create sessionId now files = Ok (s, files') ->
     files' !! other = files !! other)
  /\ (forall message uuid now e files',
        appendMessage sessionId message uuid now files = Ok (e, files') ->
        files' !! other = files !! other)
  /\ (forall report files', repair sessionId files = Ok (report, files') ->
        files' !! other = files !! other)
  /\ (forall files', delete sessionId files = Ok files' ->
        files' !! other = files !! other)
  /\ (forall files', files' !! other = files !! other ->
        getHistory other files' = getHistory other files).
Proof.
  intros Hne. split_and!.
  - intros now s files'. unfold create.
    destruct (sessionPath sessionId); [|done].
    intros [= _ <-]. by apply lookup_insert_ne.
  - intros message uuid now e files'. unfold appendMessage.
    destruct (sessionPath sessionId); [|done].
    destruct (files !! sessionId); [|done].
    intros [= _ <-]. by apply lookup_insert_ne.
  - intros report files'. unfold repair.
    destruct (sessionPath sessionId); [|done].
    destruct (files !! sessionId); [|done].
    intros [= _ <-]. by apply lookup_insert_ne.
  - intros files'. unfold delete.
    destruct (sessionPath sessionId); [|done].
    destruct (files !! sessionId); [|done].
    intros [= <-]. by apply lookup_delete_ne.
  - intros files' H. unfold getHistory. by rewrite H.
Qed.

(** ** Deletion *)

(** [delete] fails on a session that does not exist and otherwise
    removes the log: every later operation on the session, a second
    [delete] too, fails with not-found. *)
Theorem delete_removes_session (greater : jsvalue -> jsvalue -> bool)
  (sessionId : string) (files : fs) :
  valid_session_id sessionId = true ->
  match delete sessionId files with
  | Err e => e = SessionNotFound sessionId /\ files !! sessionId = None
  | Ok files' =>
      is_Some (files !! sessionId)
      /\ getHistory sessionId files' = Err (SessionNotFound sessionId)
      /\ (forall now, load greater sessionId now files'
                      = Err (SessionNotFound sessionId))
      /\ (forall message uuid now,
            appendMessage sessionId message uuid now files'
            = Err (SessionNotFound sessionId))
      /\ repair sessionId files' = Err (SessionNotFound sessionId)
      /\ delete sessionId files' = Err (SessionNotFound sessionId)
  end.
Proof.
  intros Hid. unfold delete, getHistory, load, appendMessage, repair,
    sessionPath. rewrite Hid.
  destruct (files !! sessionId) as [f|] eqn:Hf; [|done].
  unfold fs in *. rewrite lookup_delete_eq. by split_and!.
Qed.


(** ** [load] *)

Section LoadLaws.
Variable greater : jsvalue -> jsvalue -> bool.

Lemma load_lines_count lines st :
  ls_messageCount (fold_left (load_line greater) lines st)
  = (ls_messageCount st + length (history_of lines))%nat.
Proof.
  revert st. induction lines as [|line lines IH]; intros st; simpl; [lia|].
  rewrite IH. unfold load_line.
  destruct (JsString.startsWith line "#"); [|].
  - destruct (JSON.parse (JsString.slice_from 1 line)) as [metadata|]; [|done].
    by destruct (property metadata "createdAt").
  - destruct (JSON.parse line) as [entry|]; [|done].
    destruct (property entry "timestamp"); simpl; lia.
Qed.

(** The message count of [load] is the length of the history of
    [getHistory], on every log: both skip the metadata lines and the
    lines that are not JSON, and both count a line that is. *)
Theorem load_counts_history (sessionId : string) (now : Z) (files : fs) :
  match load greater sessionId now files, getHistory sessionId files with
  | Ok session, Ok history => loaded_messageCount session = length history
  | Err e, Err e' => e = e'
  | _, _ => False
  end.
Proof.
  unfold load, getHistory. destruct (sessionPath sessionId); [|done].
  destruct (files !! sessionId) as [f|]; [|done].
  cbn [loaded_messageCount]. by rewrite load_lines_count.
Qed.


(** [a > b] on two integers that a double holds. *)
Definition compares_integers : Prop :=
  forall a b : Z,
    (Z.abs a <= 2 ^ 53)%Z -> (Z.abs b <= 2 ^ 53)%Z ->
    greater (Some (JSON.Number a 0)) (Some (JSON.Number b 0)) = (b <? a)%Z.

Lemma property_createdAt sessionId createdAt :
  property (metadata_value sessionId createdAt) "createdAt"
  = Some (Some (JSON.Number createdAt 0)).
Proof. reflexivity. Qed.

Lemma property_timestamp e :
  property (entry_value e) "timestamp"
  = Some (Some (JSON.Number (timestamp e) 0)).
Proof.
  unfold entry_value. destruct (toolCall e), (toolResult e); reflexivity.
Qed.

Lemma load_entries (entries : list TranscriptEntry) createdAt updatedAt n :
  compares_integers ->
  (Z.abs updatedAt <= 2 ^ 53)%Z ->
  List.Forall (fun e => Z.abs (timestamp e) <= 2 ^ 53)%Z entries ->
  fold_left (load_line greater)
    (List.filter nonblank (map stringify_entry entries))
    {| ls_createdAt := createdAt;
       ls_updatedAt := Some (JSON.Number updatedAt 0);
       ls_messageCount := n |}
  = {| ls_createdAt := createdAt;
       ls_updatedAt :=
         Some (JSON.Number
                 (fold_left Z.max (map timestamp entries) updatedAt) 0);
       ls_messageCount := n + length entries |}.
Proof.
  intros Hgt. revert updatedAt n.
  induction entries as [|e entries IH]; intros updatedAt n Hu Hall.
  - simpl. by rewrite Nat.add_0_r.
  - inversion Hall as [|? ? He Hall']; subst. cbn [map List.filter].
    destruct (stringify_entry_head e) as [r E].
    rewrite E, nonblank_head by done. cbn [fold_left].
    unfold load_line at 2.
    change (JsString.startsWith (String "{" r) "#") with false. cbv iota.
    rewrite <- E, parse_entry. cbv beta iota zeta.
    rewrite property_timestamp. cbv beta iota zeta.
    cbn [ls_createdAt ls_updatedAt ls_messageCount].
    rewrite Hgt by done.
    cbn [map fold_left length].
    destruct (Z.ltb_spec updatedAt (timestamp e)).
    + rewrite IH by done. rewrite Z.max_r by lia. f_equal. lia.
    + rewrite IH by done. rewrite Z.max_l by lia. f_equal. lia.
Qed.

Lemma load_header sessionId createdAt st :
  load_line greater st (String "#" (stringify_metadata sessionId createdAt))
  = {| ls_createdAt := Some (JSON.Number createdAt 0);
       ls_updatedAt :=
         if is_zero (ls_updatedAt st) then Some (JSON.Number createdAt 0)
         else ls_updatedAt st;
       ls_messageCount := ls_messageCount st |}.
Proof.
  unfold load_line.
  assert (JsString.startsWith
            (String "#" (stringify_metadata sessionId createdAt)) "#" = true)
    as -> by (by destruct (stringify_metadata sessionId createdAt)).
  change (JsString.slice_from 1 (String "#" ?r)) with r.
  by rewrite parse_metadata.
Qed.

(** [load] on the log of a session: [createdAt] is the time of
    [create], the message count is the number of appends, and
    [updatedAt] is the latest of the time of [create] and the timestamps
    of the entries. *)
Theorem load_after_appends (id : string) (now : Z) (files : fs)
  (appends : list (Message * string * Z)) (s : Session) (files1 : fs) :
  compares_integers ->
  (0 < now <= 2 ^ 53)%Z ->
  List.Forall (fun a => 0 <= a.2 <= 2 ^ 53)%Z appends ->
  create id now files = Ok (s, files1) ->
  exists files2,
    append_all id appends files1 = Ok (appended appends, files2)
    /\ forall now',
         load greater id now' files2
         = Ok {| loaded_id := id;
                 loaded_createdAt := Some (JSON.Number now 0);
                 loaded_updatedAt :=
                   Some (JSON.Number
                           (fold_left Z.max (map snd appends) now) 0);
                 loaded_messageCount := length appends;
                 loaded_transcriptPath := transcriptPath s |}.
Proof.
  intros Hgt Hnow Happends Hcreate.
  assert (transcriptPath s = "sessions/" +:+ id +:+ ".jsonl") as Hpath.
  { unfold create, sessionPath in Hcreate.
    destruct (valid_session_id id); [|done]. by injection Hcreate as <- _. }
  apply create_lines in Hcreate as (Hid & f & Hf & Hlines).
  destruct (append_all_lines id appends files1 f _ Hid Hf Hlines)
    as (files2 & f2 & Hall & Hf2 & Hlines2).
  exists files2. split; [done|]. intros now'.
  assert (fold_left (load_line greater) (nonblank_lines (data f2))
            {| ls_createdAt := Some (JSON.Number 0 0);
               ls_updatedAt := Some (JSON.Number 0 0);
               ls_messageCount := 0 |}
          = {| ls_createdAt := Some (JSON.Number now 0);
               ls_updatedAt :=
                 Some (JSON.Number
                         (fold_left Z.max (map snd appends) now) 0);
               ls_messageCount := length appends |}) as Hstate.
  { unfold nonblank_lines. rewrite Hlines2. fold nonblank.
    rewrite filter_nonblank_end. cbn [app List.filter].
    rewrite nonblank_head by done. cbn [fold_left].
    rewrite load_header. cbn [ls_updatedAt ls_messageCount is_zero].
    change (JSON.rounds_to_zero 0 0) with true. cbv iota.
    rewrite load_entries; [|done|lia|].
    - unfold appended. by rewrite map_map, length_map.
    - unfold appended. apply List.Forall_map.
      eapply List.Forall_impl; [|exact Happends]. intros a Ha.
      cbn [timestamp new_entry]. cbv beta in Ha. lia. }
  unfold load, sessionPath. rewrite Hid, Hf2, Hstate, Hpath.
  cbn [ls_createdAt ls_updatedAt ls_messageCount is_zero].
  assert (JSON.rounds_to_zero now 0 = false) as ->; [|done].
  unfold JSON.rounds_to_zero. destruct (Z.eqb_spec now 0); [lia|done].
Qed.

End LoadLaws.

End StoreLaws.

Module BootstrapLaws.
Import MemorySystem.
#[local] Arguments String.append !_ _ / : simpl nomatch.

Lemma trim_solid s :
  JsString.trim s = ""
  \/ (exists c t, JsString.trim s = String c t /\ JsString.is_space c = false)
     /\ SessionFacts.solid (JsString.trim s).
Proof.
  unfold JsString.trim.
  destruct (JsStringFacts.trimStart_head s) as [->|(c & t & -> & Hc)];
    [by left|].
  right. destruct (JsStringFacts.trimEnd_head c t Hc) as [w Hw].
  split; [exists c, w; by rewrite Hw|].
  split; [by rewrite Hw|]. apply JsStringFacts.trimEnd_idempotent.
Qed.

Lemma trim_fixed c t :
  JsString.is_space c = false -> SessionFacts.solid (String c t) ->
  JsString.trim (String c t) = String c t.
Proof.
  intros Hc [_ Hend]. unfold JsString.trim. simpl JsString.trimStart.
  by rewrite Hc.
Qed.

(** The prompt text of the bootstrap files: the trimmed content of
    SOUL.md, a blank line, the trimmed content of USER.md, where a file
    that is missing or blank leaves no part and no blank line; the text
    has no white space at its ends, and it is empty exactly when both
    files are missing or blank.  The cache holds the contents as they
    were read. *)
Theorem loadBootstrap_text (soul user : option string) :
  let soulText := JsString.trim (default "" soul) in
  let userText := JsString.trim (default "" user) in
  let text := (loadBootstrap soul user).1 in
  JsString.trim text = text
  /\ (text = "" <-> soulText = "" /\ userText = "")
  /\ (userText = "" -> text = soulText)
  /\ (soulText = "" -> text = userText)
  /\ (soulText <> "" -> userText <> "" ->
      text = soulText +:+ String "010" (String "010" userText))
  /\ (loadBootstrap soul user).2 = (default "" soul, default "" user).
Proof.
  intros soulText userText text. subst text. unfold loadBootstrap.
  fold soulText. fold userText. cbn [fst snd].
  destruct (trim_solid (default "" soul)) as [Hs|[(cs & ts & Hs & Hcs) Hsolid_s]];
    destruct (trim_solid (default "" user)) as [Hu|[(cu & tu & Hu & Hcu) Hsolid_u]];
    fold soulText in Hs; fold userText in Hu;
    try fold soulText in Hsolid_s; try fold userText in Hsolid_u;
    rewrite Hs, Hu in *; cbn [String.length Nat.eqb app JsString.join].
  - by split_and!.
  - split_and!; try done.
    + by apply trim_fixed.
    + split; [done|by intros [_ ?]].
  - split_and!; try done.
    + by apply trim_fixed.
    + split; [done|by intros [? _]].
  - split_and!; try done.
    + change (String cs ts +:+ String "010" (String "010" "") +:+ String cu tu)
        with (String cs (ts +:+ String "010" (String "010" (String cu tu)))).
      apply trim_fixed; [done|].
      change (String cs (ts +:+ ?k)) with (String cs ts +:+ k).
      apply SessionFacts.solid_app. by do 2 apply SessionFacts.solid_cons.
    + split; [intros H; simpl in H; discriminate H|by intros [? _]].
Qed.

End BootstrapLaws.


(* ===================================================================== *)
(** * Laws of paths and of the workspace *)
(* ===================================================================== *)

Module PathLaws.
Import JsString JsStringFacts JsPath.
#[local] Arguments String.append !_ _ / : simpl nomatch.

(** A file name: a segment that normalisation keeps as it is. *)
Definition is_name (segment : string) : bool :=
  negb (has_char "/" segment) && negb (String.eqb segment "")
  && negb (String.eqb segment ".") && negb (String.eqb segment "..").

Definition names (l : list string) : Prop :=
  List.Forall (fun segment => is_name segment = true) l.

Lemma is_name_spec segment :
  is_name segment = true ->
  has_char "/" segment = false /\ String.eqb segment "" = false
  /\ String.eqb segment "." = false /\ String.eqb segment ".." = false.
Proof.
  unfold is_name. rewrite !andb_true_iff, !negb_true_iff. tauto.
Qed.

Lemma is_name_head segment :
  is_name segment = true ->
  exists c s, segment = String c s /\ Ascii.eqb c "/" = false.
Proof.
  intros (Hs & He & _)%is_name_spec. destruct segment as [|c s]; [done|].
  simpl in Hs. apply orb_false_iff in Hs as [Hc _]. by exists c, s.
Qed.

(** ** Segments *)

Lemma normalize_step_name b stack segment :
  is_name segment = true -> normalize_step b stack segment = segment :: stack.
Proof.
  intros (_ & He & Hd & Hdd)%is_name_spec. unfold normalize_step.
  by rewrite He, Hd, Hdd.
Qed.

Lemma fold_names b l stack :
  names l -> fold_left (normalize_step b) l stack = rev l ++ stack.
Proof.
  intros H. revert stack. induction H as [|x l Hx _ IH]; intros stack; [done|].
  simpl. rewrite normalize_step_name by done. rewrite IH.
  by rewrite <- app_assoc.
Qed.

Lemma normalize_step_names stack segment :
  names stack -> has_char "/" segment = false ->
  names (normalize_step false stack segment).
Proof.
  intros Hs Hc. unfold normalize_step.
  destruct (String.eqb segment "") eqn:E1; [done|].
  destruct (String.eqb segment ".") eqn:E2; [done|]. simpl.
  destruct (String.eqb segment "..") eqn:E3.
  - destruct stack as [|top rest]; [done|].
    destruct (String.eqb top ".."); [done|]. by inversion Hs.
  - constructor; [|done]. unfold is_name. by rewrite Hc, E1, E2, E3.
Qed.

Lemma fold_step_names l stack :
  names stack -> List.Forall (fun piece => has_char "/" piece = false) l ->
  names (fold_left (normalize_step false) l stack).
Proof.
  intros Hs Hl. revert stack Hs.
  induction Hl as [|x l Hx _ IH]; intros stack Hs; [done|].
  simpl. apply IH. by apply normalize_step_names.
Qed.

Lemma names_rev l : names l -> names (rev l).
Proof. unfold names. rewrite !List.Forall_forall. intros H x Hx. apply H. by apply in_rev. Qed.

Lemma names_app l1 l2 : names l1 -> names l2 -> names (l1 ++ l2).
Proof. intros H1 H2. apply List.Forall_app. done. Qed.

(** The segments of a normal form are file names. *)
Lemma segments_names path : names (segments false path).
Proof.
  unfold segments. apply names_rev. apply fold_step_names; [constructor|].
  apply split_char_pieces.
Qed.

(** ** Cutting at slashes *)

Lemma split_char_append c0 s1 s2 :
  split_char c0 (s1 +:+ String c0 s2) = split_char c0 s1 ++ split_char c0 s2.
Proof.
  induction s1 as [|c s1 IH]; simpl.
  - by rewrite Ascii.eqb_refl.
  - destruct (Ascii.eqb c c0); [by rewrite IH|]. rewrite IH.
    pose proof (split_char_nonempty c0 s1) as Hne.
    by destruct (split_char c0 s1).
Qed.

Lemma split_char_piece c0 s :
  has_char c0 s = false -> split_char c0 s = [s].
Proof.
  induction s as [|c s IH]; simpl; [done|].
  intros [Hc Hs]%orb_false_iff. by rewrite Hc, IH.
Qed.

Lemma names_pieces l :
  names l -> List.Forall (fun piece => has_char "/" piece = false) l.
Proof.
  apply List.Forall_impl. intros x Hx. by apply is_name_spec in Hx as [? _].
Qed.

Lemma split_char_join_names l :
  l <> [] -> names l -> split_char "/" (JsString.join "/" l) = l.
Proof.
  intros Hne H. induction H as [|x l Hx Hl IH]; [done|].
  destruct l as [|y l].
  - simpl. apply split_char_piece. by apply is_name_spec in Hx as [? _].
  - rewrite join_cons. change ("/" +:+ ?s) with (String "/" s).
    rewrite split_char_append, IH by done.
    rewrite split_char_piece; [done|]. by apply is_name_spec in Hx as [? _].
Qed.

(** The segments of [a/b] are those of [b] on top of those of [a]. *)
Lemma fold_split_append b s1 s2 stack :
  fold_left (normalize_step b) (split_char "/" (s1 +:+ String "/" s2)) stack
  = fold_left (normalize_step b) (split_char "/" s2)
      (fold_left (normalize_step b) (split_char "/" s1) stack).
Proof. by rewrite split_char_append, fold_left_app. Qed.

Lemma segments_trailing_slash b path :
  segments b (path +:+ "/") = segments b path.
Proof. unfold segments. by rewrite fold_split_append. Qed.

Lemma segments_append_names b dir l :
  names l -> l <> [] ->
  segments b (dir +:+ String "/" (JsString.join "/" l)) = segments b dir ++ l.
Proof.
  intros Hl Hne. unfold segments.
  rewrite fold_split_append, split_char_join_names by done.
  rewrite fold_names by done. by rewrite rev_app_distr, rev_involutive.
Qed.

Lemma segments_root b : segments b "/" = [].
Proof. reflexivity. Qed.

(** A normal absolute path has its names as segments. *)
Lemma segments_normal b l :
  names l -> segments b (String "/" (JsString.join "/" l)) = l.
Proof.
  intros Hl. destruct l as [|x l]; [done|].
  change (String "/" ?s) with ("" +:+ String "/" s).
  by rewrite segments_append_names.
Qed.

(** ** [startsWith] *)

Lemma startsWith_nil s : startsWith s "" = true.
Proof. unfold startsWith. by destruct s. Qed.

Lemma startsWith_cons c d s p :
  startsWith (String c s) (String d p) = Ascii.eqb d c && startsWith s p.
Proof.
  unfold startsWith.
  change (String.prefix (String d p) (String c s))
    with (if Ascii.ascii_dec d c then String.prefix p s else false).
  destruct (Ascii.ascii_dec d c) as [->|Hne].
  - by rewrite Ascii.eqb_refl.
  - by destruct (Ascii.eqb_spec d c).
Qed.

Lemma startsWith_empty d p : startsWith "" (String d p) = false.
Proof. reflexivity. Qed.

(** ** [path.resolve] *)

Lemma isAbsolute_nonempty path :
  isAbsolute path = true -> (String.length path =? 0)%nat = false.
Proof. by destruct path. Qed.

Lemma resolve_loop_relative path rest acc :
  (String.length path =? 0)%nat = false -> isAbsolute path = false ->
  resolve_loop (path :: rest) acc = resolve_loop rest (path +:+ String "/" acc).
Proof. intros H1 H2. simpl. by rewrite H1, H2. Qed.

Lemma resolve_loop_acc l acc :
  resolve_loop l acc
  = (fst (resolve_loop l "") +:+ acc, snd (resolve_loop l "")).
Proof.
  revert acc. induction l as [|path rest IH]; intros acc; simpl; [done|].
  destruct (String.length path =? 0)%nat; [apply IH|].
  destruct (isAbsolute path).
  - simpl. by rewrite !append_assoc.
  - rewrite (IH (path +:+ String "/" acc)), (IH (path +:+ String "/" "")). simpl.
    by rewrite !append_assoc.
Qed.

(** With an absolute working directory the loop ends on an absolute
    argument. *)
Lemma resolve_loop_absolute cwd l :
  isAbsolute cwd = true ->
  exists prefix, resolve_loop (l ++ [cwd]) "" = (prefix +:+ "/", true).
Proof.
  intros Hcwd. induction l as [|path rest [prefix IH]]; simpl.
  - rewrite isAbsolute_nonempty, Hcwd by done. by exists cwd.
  - destruct (String.length path =? 0)%nat; [by exists prefix|].
    destruct (isAbsolute path).
    + by exists path.
    + rewrite resolve_loop_acc, IH. simpl. exists (prefix +:+ "/" +:+ path).
      by rewrite ?append_nil_r, !append_assoc.
Qed.

Lemma resolve_of_loop cwd args prefix :
  resolve_loop (rev args ++ [cwd]) "" = (prefix +:+ "/", true) ->
  resolve cwd args = String "/" (JsString.join "/" (segments false prefix)).
Proof.
  intros H. unfold resolve. rewrite H. unfold normalizeString. simpl negb.
  by rewrite segments_trailing_slash.
Qed.

(** A resolved path is the slash and its segments joined by slashes. *)
Lemma resolve_normal cwd args :
  isAbsolute cwd = true ->
  resolve cwd args
  = String "/" (JsString.join "/" (segments false (resolve cwd args))).
Proof.
  intros Hcwd.
  destruct (resolve_loop_absolute cwd (rev args) Hcwd) as [prefix H].
  rewrite (resolve_of_loop _ _ _ H).
  by rewrite segments_normal by apply segments_names.
Qed.

Lemma isAbsolute_slash path : isAbsolute (String "/" path) = true.
Proof. unfold isAbsolute. by rewrite startsWith_cons, startsWith_nil. Qed.

Lemma resolve_absolute cwd args :
  isAbsolute cwd = true -> isAbsolute (resolve cwd args) = true.
Proof. intros H. rewrite resolve_normal by done. apply isAbsolute_slash. Qed.

Lemma join_names_head l :
  names l -> l <> [] ->
  exists c s, JsString.join "/" l = String c s /\ Ascii.eqb c "/" = false.
Proof.
  intros H Hne. destruct H as [|x l Hx Hl]; [done|].
  destruct (is_name_head _ Hx) as (c & s & -> & Hc).
  destruct l as [|y l]; [by exists c, s|].
  exists c, (s +:+ "/" +:+ JsString.join "/" (y :: l)). done.
Qed.

(** Names resolved against a directory are appended to its segments. *)
Lemma resolve_names cwd dir l :
  isAbsolute cwd = true -> names l -> l <> [] ->
  resolve cwd [dir; JsString.join "/" l]
  = String "/" (JsString.join "/" (segments false (resolve cwd [dir]) ++ l)).
Proof.
  intros Hcwd Hl Hne.
  destruct (resolve_loop_absolute cwd (rev [dir]) Hcwd) as [prefix H].
  rewrite (resolve_of_loop _ _ _ H).
  rewrite segments_normal by apply segments_names.
  destruct (join_names_head l Hl Hne) as (c & s & Hj & Hc).
  rewrite <- (segments_append_names false prefix l) by done.
  apply (resolve_of_loop cwd [dir; JsString.join "/" l]
           (prefix +:+ String "/" (JsString.join "/" l))).
  change (rev [dir; JsString.join "/" l] ++ [cwd])
    with (JsString.join "/" l :: rev [dir] ++ [cwd]).
  rewrite resolve_loop_relative; [| by rewrite Hj | ].
  - rewrite resolve_loop_acc, H. simpl. by rewrite !append_assoc.
  - rewrite Hj. unfold isAbsolute. rewrite startsWith_cons.
    rewrite Ascii.eqb_sym in Hc. by rewrite Hc.
Qed.

(** ** Containment *)

(** The test of [contains] on the two resolved paths. *)
Definition inside (root path : string) : bool :=
  if negb (startsWith path root) then false
  else
    let remainder := slice_from (String.length root) path in
    (String.length remainder =? 0)%nat || startsWith remainder "/".

Definition pieces (l : list string) : Prop :=
  List.Forall (fun piece => has_char "/" piece = false) l.

(** Every segment with a slash before it. *)
Definition slashed (l : list string) : string :=
  fold_right (fun segment acc => String "/" (segment +:+ acc)) "" l.

Lemma slashed_join l :
  l <> [] -> String "/" (JsString.join "/" l) = slashed l.
Proof.
  induction l as [|x l IH]; [done|]. intros _. destruct l as [|y l].
  - simpl. by rewrite append_nil_r.
  - rewrite join_cons. change ("/" +:+ ?s) with (String "/" s).
    rewrite IH by done. done.
Qed.

Lemma slashed_head l : slashed l = "" \/ exists r, slashed l = String "/" r.
Proof. destruct l; [by left|right]. by eexists. Qed.

Lemma inside_cons c root path :
  inside (String c root) (String c path) = inside root path.
Proof.
  unfold inside. rewrite startsWith_cons, Ascii.eqb_refl. done.
Qed.

Lemma inside_nil path :
  inside "" path
  = (String.length path =? 0)%nat || startsWith path "/".
Proof. unfold inside. by rewrite startsWith_nil. Qed.

Lemma inside_differ c d root path :
  Ascii.eqb c d = false -> inside (String c root) (String d path) = false.
Proof. intros H. unfold inside. by rewrite startsWith_cons, H. Qed.

Lemma inside_empty c root : inside (String c root) "" = false.
Proof. reflexivity. Qed.

Lemma inside_segment a b ra rb :
  has_char "/" a = false -> has_char "/" b = false ->
  (ra = "" \/ exists r, ra = String "/" r) ->
  (rb = "" \/ exists r, rb = String "/" r) ->
  inside (a +:+ ra) (b +:+ rb) = String.eqb a b && inside ra rb.
Proof.
  revert b. induction a as [|c a IH]; intros b Ha Hb Hra Hrb.
  - destruct b as [|d b]; [done|]. simpl in Hb.
    apply orb_false_iff in Hb as [Hd _].
    change ("" +:+ ra) with ra.
    change (String d b +:+ rb) with (String d (b +:+ rb)).
    change (String.eqb "" (String d b)) with false. simpl andb.
    destruct Hra as [->|[r ->]].
    + rewrite inside_nil. rewrite startsWith_cons.
      rewrite Ascii.eqb_sym, Hd. done.
    + apply inside_differ. by rewrite Ascii.eqb_sym.
  - simpl in Ha. apply orb_false_iff in Ha as [Hc Ha].
    change (String c a +:+ ra) with (String c (a +:+ ra)).
    destruct b as [|d b].
    + change ("" +:+ rb) with rb.
      change (String.eqb (String c a) "") with false. simpl andb.
      destruct Hrb as [->|[r ->]]; [done|]. by apply inside_differ.
    + simpl in Hb. apply orb_false_iff in Hb as [Hd Hb].
      change (String d b +:+ rb) with (String d (b +:+ rb)).
      change (String.eqb (String c a) (String d b))
        with (if Ascii.eqb c d then String.eqb a b else false).
      destruct (Ascii.eqb_spec c d) as [<-|Hne].
      * rewrite inside_cons. by apply IH.
      * apply inside_differ. by destruct (Ascii.eqb_spec c d).
Qed.

Lemma inside_slashed l1 l2 :
  pieces l1 -> pieces l2 ->
  inside (slashed l1) (slashed l2) = true <-> l1 `prefix_of` l2.
Proof.
  intros H1. revert l2. induction H1 as [|a l1 Ha _ IH]; intros l2 H2.
  - rewrite inside_nil. split; [intros _; apply prefix_nil|intros _].
    destruct l2 as [|b l2]; [done|].
    change (slashed (b :: l2)) with (String "/" (b +:+ slashed l2)).
    by rewrite startsWith_cons, startsWith_nil.
  - destruct H2 as [|b l2 Hb H2].
    + split; [done|]. intros H. by apply prefix_nil_inv in H.
    + change (slashed (a :: l1)) with (String "/" (a +:+ slashed l1)).
      change (slashed (b :: l2)) with (String "/" (b +:+ slashed l2)).
      rewrite inside_cons.
      rewrite inside_segment by (done || apply slashed_head).
      rewrite andb_true_iff, IH by done. split.
      * intros [->%String.eqb_eq H]. by apply prefix_cons.
      * intros H. split.
        -- apply String.eqb_eq. by apply prefix_cons_inv_1 in H.
        -- by apply prefix_cons_inv_2 in H.
Qed.

(** The test on two normal absolute paths, in terms of their segments. *)
Lemma inside_normal l1 l2 :
  names l1 -> names l2 ->
  inside (String "/" (JsString.join "/" l1)) (String "/" (JsString.join "/" l2))
  = true
  <-> l1 `prefix_of` l2 /\ (l1 = [] -> l2 = []).
Proof.
  intros H1 H2. destruct l1 as [|a l1].
  - change (JsString.join "/" []) with "".
    rewrite inside_cons, inside_nil. destruct l2 as [|b l2].
    + split; [by split|done].
    + destruct (join_names_head (b :: l2) H2) as (c & s & -> & Hc); [done|].
      rewrite startsWith_cons, Ascii.eqb_sym, Hc.
      split; [done|]. intros [_ H]. by specialize (H eq_refl).
  - destruct l2 as [|b l2].
    + rewrite slashed_join by done.
      change (JsString.join "/" []) with "".
      change (slashed (a :: l1)) with (String "/" (a +:+ slashed l1)).
      rewrite inside_cons.
      inversion H1 as [|? ? Ha _]; subst.
      destruct (is_name_head _ Ha) as (c & s & -> & _).
      split; [done|]. intros [H _]. by apply prefix_nil_inv in H.
    + rewrite !slashed_join by done.
      rewrite inside_slashed by (by apply names_pieces).
      split; [by split|by intros [? _]].
Qed.

(** ** [path.join] *)

Lemma endsWith_piece s : has_char "/" s = false -> endsWith s "/" = false.
Proof.
  induction s as [|c s IH]; [done|]. simpl has_char.
  intros [Hc Hs]%orb_false_iff.
  change (endsWith (String c s) "/")
    with (String.eqb (String c s) "/" || endsWith s "/").
  rewrite IH by done.
  change (String.eqb (String c s) "/")
    with (if Ascii.eqb c "/" then String.eqb s "" else false).
  by rewrite Hc.
Qed.

Lemma endsWith_append s1 s2 :
  s2 <> "" -> endsWith (s1 +:+ s2) "/" = endsWith s2 "/".
Proof.
  intros Hne. induction s1 as [|c s1 IH]; [done|].
  change (String c s1 +:+ s2) with (String c (s1 +:+ s2)).
  change (endsWith (String c (s1 +:+ s2)) "/")
    with (String.eqb (String c (s1 +:+ s2)) "/" || endsWith (s1 +:+ s2) "/").
  rewrite IH.
  change (String.eqb (String c (s1 +:+ s2)) "/")
    with (if Ascii.eqb c "/" then String.eqb (s1 +:+ s2) "" else false).
  destruct (Ascii.eqb c "/"); [|done].
  destruct s1; [by destruct s2|done].
Qed.

Lemma join_names_nonempty l :
  names l -> l <> [] -> JsString.join "/" l <> "".
Proof.
  intros H Hne. by destruct (join_names_head l H Hne) as (c & s & -> & _).
Qed.

Lemma endsWith_join_names l :
  names l -> l <> [] -> endsWith (JsString.join "/" l) "/" = false.
Proof.
  intros H Hne. induction H as [|x l Hx Hl IH]; [done|].
  destruct l as [|y l].
  - apply endsWith_piece. by apply is_name_spec in Hx as [? _].
  - rewrite join_cons, !endsWith_append.
    + by apply IH.
    + by apply join_names_nonempty.
    + done.
Qed.

Lemma join_app_names l1 l2 :
  l1 <> [] -> l2 <> [] ->
  JsString.join "/" (l1 ++ l2)
  = JsString.join "/" l1 +:+ String "/" (JsString.join "/" l2).
Proof.
  intros H1 H2. induction l1 as [|x l1 IH]; [done|].
  destruct l1 as [|y l1].
  - destruct l2; [done|]. reflexivity.
  - change ((x :: y :: l1) ++ l2) with (x :: (y :: l1) ++ l2).
    change ((y :: l1) ++ l2) with (y :: l1 ++ l2) at 1.
    rewrite join_cons. change (y :: l1 ++ l2) with ((y :: l1) ++ l2).
    rewrite IH by done. rewrite join_cons. by rewrite !append_assoc.
Qed.

Lemma length_nonempty s : s <> "" -> (String.length s =? 0)%nat = false.
Proof. by destruct s. Qed.

(** [path.normalize] of an absolute path without a slash at its end. *)
Lemma normalize_absolute path :
  isAbsolute path = true -> endsWith path "/" = false ->
  segments false path <> [] ->
  normalize path = String "/" (JsString.join "/" (segments false path)).
Proof.
  intros Ha He Hs. unfold normalize, normalizeString.
  rewrite isAbsolute_nonempty, Ha, He by done. simpl negb.
  rewrite length_nonempty.
  - by rewrite append_nil_r.
  - apply join_names_nonempty; [apply segments_names|done].
Qed.

Lemma filter_names l :
  names l -> List.filter (fun arg => (0 <? String.length arg)%nat) l = l.
Proof.
  induction 1 as [|x l Hx _ IH]; [done|]. simpl. rewrite IH.
  by destruct (is_name_head _ Hx) as (c & s & -> & _).
Qed.

Lemma isAbsolute_append dir rest :
  isAbsolute dir = true -> isAbsolute (dir +:+ rest) = true.
Proof.
  intros H. destruct dir as [|c dir]; [done|]. unfold isAbsolute in *.
  change (String c dir +:+ rest) with (String c (dir +:+ rest)).
  rewrite startsWith_cons, startsWith_nil in *. done.
Qed.

(** Names joined to an absolute directory are appended to its
    segments. *)
Lemma join_names dir l :
  isAbsolute dir = true -> names l -> l <> [] ->
  JsPath.join (dir :: l)
  = String "/" (JsString.join "/" (segments false dir ++ l)).
Proof.
  intros Ha Hl Hne. unfold JsPath.join. simpl List.filter.
  rewrite filter_names by done.
  replace (0 <? String.length dir)%nat with true by (by destruct dir).
  destruct l as [|x l]; [done|]. rewrite join_cons.
  change ("/" +:+ ?t) with (String "/" t).
  rewrite normalize_absolute.
  - by rewrite segments_append_names.
  - by apply isAbsolute_append.
  - rewrite endsWith_append by done.
    change (String "/" ?t) with ("/" +:+ t).
    rewrite endsWith_append by (by apply join_names_nonempty).
    by apply endsWith_join_names.
  - rewrite segments_append_names by done. by destruct (segments false dir).
Qed.

(** An absolute path resolves to its normal form. *)
Lemma resolve_absolute_path cwd path :
  isAbsolute path = true ->
  resolve cwd [path] = String "/" (JsString.join "/" (segments false path)).
Proof.
  intros Ha. apply resolve_of_loop. simpl.
  by rewrite isAbsolute_nonempty, Ha by done.
Qed.

(** ** [path.relative] *)

Lemma relative_scan_prefix s rest i lastCommonSep :
  exists sep,
    relative_scan s (s +:+ rest) i lastCommonSep = ((i + String.length s)%nat, sep).
Proof.
  revert i lastCommonSep. induction s as [|c s IH]; intros i l.
  - exists l. simpl. rewrite Nat.add_0_r. by destruct rest.
  - change (String c s +:+ rest) with (String c (s +:+ rest)).
    simpl relative_scan. rewrite Ascii.eqb_refl. simpl negb. cbv iota.
    destruct (IH (S i) (if Ascii.eqb c "/" then Z.of_nat i else l)) as [sep ->].
    exists sep. simpl String.length. f_equal. lia.
Qed.

Lemma slice_from_append s rest :
  slice_from (String.length s) (s +:+ rest) = rest.
Proof. induction s as [|c s IH]; [by destruct rest|]. exact IH. Qed.

Lemma is_sep_at_append s rest :
  is_sep_at (s +:+ String "/" rest) (String.length s) = true.
Proof. unfold is_sep_at. induction s as [|c s IH]; [done|]. exact IH. Qed.

Lemma length_appended s1 s2 :
  String.length (s1 +:+ s2) = (String.length s1 + String.length s2)%nat.
Proof. induction s1 as [|c s1 IH]; [done|]. simpl. by rewrite IH. Qed.

(** The path from a directory to a file below it is made of the
    segments after those of the directory. *)
Lemma relative_below cwd from to below :
  isAbsolute cwd = true ->
  segments false (resolve cwd [from]) <> [] ->
  segments false (resolve cwd [to])
  = segments false (resolve cwd [from]) ++ below ->
  below <> [] ->
  relative cwd from to = JsString.join "/" below.
Proof.
  intros Hcwd Hfrom Hto Hne.
  assert (names below) as Hnames.
  { pose proof (segments_names (resolve cwd [to])) as H. rewrite Hto in H.
    by apply List.Forall_app in H as [_ H]. }
  unfold relative.
  destruct (String.eqb_spec from to) as [->|_].
  { exfalso. apply Hne. apply (app_inv_head (segments false (resolve cwd [to]))).
    by rewrite app_nil_r. }
  assert (resolve cwd [to]
          = String "/" (JsString.join "/"
                          (segments false (resolve cwd [from]) ++ below)))
    as Hpath by (by rewrite <- Hto; apply resolve_normal).
  pose proof (resolve_normal cwd [from] Hcwd) as Hdir.
  remember (segments false (resolve cwd [from])) as above eqn:Habove.
  clear Habove Hto. rewrite Hpath, Hdir. clear Hpath Hdir.
  set (dir := JsString.join "/" above).
  rewrite join_app_names by done. fold dir.
  set (file := JsString.join "/" below).
  assert (file <> "") as Hfile by (by apply join_names_nonempty).
  destruct (String.eqb_spec (String "/" dir) (String "/" (dir +:+ String "/" file)))
    as [Heq|_].
  { exfalso. apply (f_equal String.length) in Heq. simpl in Heq.
    rewrite length_appended in Heq. simpl in Heq. lia. }
  cbv zeta. change (slice_from 1 (String "/" ?t)) with t.
  destruct (relative_scan_prefix dir (String "/" file) 0 (-1)%Z) as [sep ->].
  change (0 + String.length dir)%nat with (String.length dir).
  assert (String.length (String "/" dir) - 1 = String.length dir)%nat
    as -> by (simpl; lia).
  assert (String.length (String "/" (dir +:+ String "/" file)) - 1
          = String.length dir + S (String.length file))%nat
    as -> by (simpl; rewrite length_appended; simpl; lia).
  rewrite Nat.min_l by lia. rewrite Nat.eqb_refl.
  replace (String.length dir <? String.length dir + S (String.length file))%nat
    with true by (symmetry; apply Nat.ltb_lt; lia).
  change (is_sep_at (String "/" ?t) (1 + ?n)) with (is_sep_at t n).
  rewrite is_sep_at_append. simpl andb. cbv iota.
  replace (1 + String.length dir + 1)%nat with (S (S (String.length dir))) by lia.
  change (slice_from (S (S ?n)) (String "/" ?t)) with (slice_from (S n) t).
  replace (S (String.length dir)) with (String.length (dir +:+ "/")).
  - replace (dir +:+ String "/" file) with ((dir +:+ "/") +:+ file).
    + apply slice_from_append.
    + by rewrite append_assoc.
  - rewrite length_appended. simpl. lia.
Qed.

End PathLaws.

Module WorkspaceLaws.
Import JsString JsStringFacts JsPath PathLaws.
#[local] Arguments String.append !_ _ / : simpl nomatch.

(** A normal absolute path resolves to itself. *)
Lemma resolve_normal_path cwd l :
  names l ->
  resolve cwd [String "/" (JsString.join "/" l)]
  = String "/" (JsString.join "/" l).
Proof.
  intros Hl. rewrite resolve_absolute_path by apply isAbsolute_slash.
  by rewrite segments_normal.
Qed.

(** Names below the root of the workspace: the path is contained, and
    its relative path is the names joined. *)
Lemma below_root cwd w l :
  isAbsolute cwd = true ->
  segments false (resolve cwd [Workspace.rootPath w]) <> [] ->
  names l -> l <> [] ->
  Workspace.contains cwd w
    (String "/" (JsString.join "/"
       (segments false (resolve cwd [Workspace.rootPath w]) ++ l))) = true
  /\ relative cwd (Workspace.rootPath w)
       (String "/" (JsString.join "/"
          (segments false (resolve cwd [Workspace.rootPath w]) ++ l)))
     = JsString.join "/" l.
Proof.
  intros Hcwd Hroot Hl Hne.
  assert (names (segments false (resolve cwd [Workspace.rootPath w]) ++ l))
    as Hall by (apply names_app; [apply segments_names|done]).
  split.
  - change (inside (resolve cwd [Workspace.rootPath w])
              (resolve cwd [String "/" (JsString.join "/"
                 (segments false (resolve cwd [Workspace.rootPath w]) ++ l))])
            = true).
    rewrite resolve_normal_path by done.
    rewrite (resolve_normal cwd [Workspace.rootPath w]) at 1 by done.
    apply inside_normal; [apply segments_names|done|].
    split; [by apply prefix_app_r|done].
  - apply relative_below; [done|done| |done].
    rewrite resolve_normal_path by done. by apply segments_normal.
Qed.

Lemma includes_char c s : SessionManager.includes (String c "") s = has_char c s.
Proof.
  induction s as [|d s IH]; [done|].
  change (SessionManager.includes (String c "") (String d s))
    with (startsWith (String d s) (String c "")
          || SessionManager.includes (String c "") s).
  rewrite IH, startsWith_cons, startsWith_nil, andb_true_r.
  by rewrite Ascii.eqb_sym.
Qed.

Lemma traverses_piece name :
  Workspace.traverses name = false ->
  has_char "/" name = false /\ name <> "..".
Proof.
  unfold Workspace.traverses. rewrite !orb_false_iff, includes_char.
  intros [[H _] Hdots]. split; [done|]. by intros ->.
Qed.

Lemma is_name_long name :
  has_char "/" name = false -> (3 <= String.length name)%nat ->
  is_name name = true.
Proof.
  intros Hc Hlen. unfold is_name. rewrite Hc.
  destruct (String.eqb_spec name "") as [->|_]; [simpl in Hlen; lia|].
  destruct (String.eqb_spec name ".") as [->|_]; [simpl in Hlen; lia|].
  destruct (String.eqb_spec name "..") as [->|_]; [simpl in Hlen; lia|].
  done.
Qed.

Lemma is_name_transcript sessionId :
  Workspace.traverses sessionId = false ->
  is_name (sessionId +:+ ".jsonl") = true.
Proof.
  intros [Hc _]%traverses_piece. apply is_name_long.
  - rewrite has_char_append, Hc. done.
  - rewrite length_appended. simpl. lia.
Qed.

(** The directories of the workspace. *)
Lemma directory_path w name :
  isAbsolute (Workspace.rootPath w) = true -> is_name name = true ->
  JsPath.join [Workspace.rootPath w; name]
  = String "/" (JsString.join "/"
      (segments false (Workspace.rootPath w) ++ [name])).
Proof.
  intros Ha Hn. apply join_names; [done| |done]. by constructor.
Qed.

Lemma file_path w dir name :
  isAbsolute (Workspace.rootPath w) = true ->
  is_name dir = true -> is_name name = true ->
  JsPath.join [JsPath.join [Workspace.rootPath w; dir]; name]
  = String "/" (JsString.join "/"
      (segments false (Workspace.rootPath w) ++ [dir; name])).
Proof.
  intros Ha Hd Hn. rewrite directory_path by done.
  rewrite join_names; [|apply isAbsolute_slash|by constructor|done].
  rewrite segments_normal.
  - by rewrite <- app_assoc.
  - apply names_app; [apply segments_names|by constructor].
Qed.

(** X19: [contains] compares whole segments.  A path is in the workspace
    exactly when the segments of the resolved root are the first
    segments of the resolved path; a workspace whose root is the root of
    the file system contains that root only. *)
Theorem contains_segments cwd w path :
  isAbsolute cwd = true ->
  Workspace.contains cwd w path = true
  <-> segments false (resolve cwd [Workspace.rootPath w])
        `prefix_of` segments false (resolve cwd [path])
      /\ (segments false (resolve cwd [Workspace.rootPath w]) = [] ->
          segments false (resolve cwd [path]) = []).
Proof.
  intros Hcwd.
  change (Workspace.contains cwd w path)
    with (inside (resolve cwd [Workspace.rootPath w]) (resolve cwd [path])).
  rewrite (resolve_normal cwd [Workspace.rootPath w]) at 1 by done.
  rewrite (resolve_normal cwd [path]) at 1 by done.
  apply inside_normal; apply segments_names.
Qed.

(** X20: [resolve] and [relative] are inverse on names.  A relative path
    made of file names resolves to the path with these names after the
    segments of the root, and [relative] gives the relative path back. *)
Theorem resolve_relative_round_trip cwd w l :
  isAbsolute cwd = true ->
  segments false (resolve cwd [Workspace.rootPath w]) <> [] ->
  names l -> l <> [] ->
  exists path,
    Workspace.resolve cwd w (JsString.join "/" l) = inr path
    /\ segments false path
       = segments false (resolve cwd [Workspace.rootPath w]) ++ l
    /\ Workspace.relative cwd w path = inr (JsString.join "/" l).
Proof.
  intros Hcwd Hroot Hl Hne.
  destruct (below_root cwd w l Hcwd Hroot Hl Hne) as [Hin Hrel].
  exists (String "/" (JsString.join "/"
            (segments false (resolve cwd [Workspace.rootPath w]) ++ l))).
  unfold Workspace.resolve, Workspace.relative.
  rewrite resolve_names by done. rewrite Hin, Hrel. simpl negb. cbv iota.
  split; [reflexivity|]. split; [|reflexivity].
  apply segments_normal. apply names_app; [apply segments_names|done].
Qed.

(** X21: the transcript of a session is a file of the sessions
    directory.  For an accepted identifier the path has the segments of
    the root, then sessions, then the identifier with .jsonl; it is in
    the workspace, and its path relative to the root is the key under
    which the store keeps the transcript.  The other identifiers are
    rejected, as the store rejects them. *)
Theorem sessionPath_in_workspace cwd w sessionId :
  isAbsolute cwd = true ->
  isAbsolute (Workspace.rootPath w) = true ->
  segments false (Workspace.rootPath w) <> [] ->
  match Workspace.sessionPath w sessionId with
  | inl e =>
      e = Workspace.InvalidSessionId sessionId
      /\ SessionManager.sessionPath sessionId
         = SessionManager.Err (SessionManager.InvalidSessionId sessionId)
  | inr path =>
      segments false path
      = segments false (Workspace.rootPath w)
        ++ ["sessions"; sessionId +:+ ".jsonl"]
      /\ Workspace.contains cwd w path = true
      /\ exists key,
           SessionManager.sessionPath sessionId = SessionManager.Ok key
           /\ Workspace.relative cwd w path = inr key
  end.
Proof.
  intros Hcwd Ha Hroot.
  unfold Workspace.sessionPath, SessionManager.sessionPath,
    SessionManager.valid_session_id.
  change (SessionManager.includes "/" sessionId
          || SessionManager.includes (String JSON.backslash "") sessionId
          || SessionManager.includes ".." sessionId)
    with (Workspace.traverses sessionId).
  destruct (Workspace.traverses sessionId) eqn:Ht; [done|]. simpl negb.
  cbv iota. pose proof (is_name_transcript _ Ht) as Hname.
  assert (names ["sessions"; sessionId +:+ ".jsonl"]) as Hl
    by (by repeat constructor).
  assert (segments false (resolve cwd [Workspace.rootPath w])
          = segments false (Workspace.rootPath w)) as Hsame.
  { rewrite resolve_absolute_path by done.
    apply segments_normal, segments_names. }
  destruct (below_root cwd w ["sessions"; sessionId +:+ ".jsonl"])
    as [Hin Hrel]; [done|by rewrite Hsame|done|done|].
  rewrite Hsame in Hin, Hrel.
  unfold Workspace.sessionsDir. rewrite file_path by done.
  split; [|split; [done|]].
  - apply segments_normal. apply names_app; [apply segments_names|done].
  - eexists. split; [reflexivity|]. unfold Workspace.relative.
    rewrite Hin, Hrel. reflexivity.
Qed.

(** X22: the path of a log file.  An accepted file name other than the
    empty one and the single dot names a file of the logs directory;
    the empty name and the single dot are accepted and give the logs
    directory itself. *)
Theorem logPath_in_logs w filename :
  isAbsolute (Workspace.rootPath w) = true ->
  Workspace.traverses filename = false ->
  Workspace.logsDir w
  = String "/" (JsString.join "/"
      (segments false (Workspace.rootPath w) ++ ["logs"]))
  /\ Workspace.logPath w filename
     = inr (if String.eqb filename "" || String.eqb filename "."
            then Workspace.logsDir w
            else Workspace.logsDir w +:+ "/" +:+ filename).
Proof.
  intros Ha Ht. unfold Workspace.logPath. rewrite Ht.
  unfold Workspace.logsDir. rewrite directory_path by done.
  split; [done|]. f_equal.
  destruct (traverses_piece _ Ht) as [Hc Hdots].
  assert (names (segments false (Workspace.rootPath w) ++ ["logs"])) as Hdir
    by (apply names_app; [apply segments_names|by repeat constructor]).
  set (dir := segments false (Workspace.rootPath w) ++ ["logs"]) in *.
  assert (dir <> []) as Hne by (unfold dir; by destruct (segments false _)).
  destruct (String.eqb_spec filename "") as [->|Hempty].
  - simpl orb. cbv iota. unfold JsPath.join. simpl List.filter.
    cbv iota. change (JsString.join "/" [?s]) with s.
    rewrite normalize_absolute.
    + by rewrite segments_normal.
    + apply isAbsolute_slash.
    + change (String "/" ?t) with ("/" +:+ t).
      rewrite endsWith_append by (by apply join_names_nonempty).
      by apply endsWith_join_names.
    + by rewrite segments_normal.
  - destruct (String.eqb_spec filename ".") as [->|Hdot].
    + simpl orb. cbv iota. unfold JsPath.join. simpl List.filter.
      cbv iota.
      change (JsString.join "/" [String "/" (JsString.join "/" dir); "."])
        with (String "/" (JsString.join "/" dir) +:+ String "/" ".").
      assert (segments false
                (String "/" (JsString.join "/" dir) +:+ String "/" ".")
              = dir) as Hsegments.
      { unfold segments. rewrite fold_split_append.
        change (fold_left (normalize_step false) (split_char "/" ".") ?st)
          with st.
        by apply (segments_normal false). }
      rewrite normalize_absolute.
      * by rewrite Hsegments.
      * apply isAbsolute_append, isAbsolute_slash.
      * by rewrite endsWith_append.
      * by rewrite Hsegments.
    + simpl orb. cbv iota.
      assert (is_name filename = true) as Hname.
      { unfold is_name. rewrite Hc.
        destruct (String.eqb_spec filename ""); [done|].
        destruct (String.eqb_spec filename "."); [done|].
        by destruct (String.eqb_spec filename ".."). }
      rewrite join_names; [|apply isAbsolute_slash|by constructor|done].
      rewrite segments_normal by done.
      rewrite join_app_names by done. reflexivity.
Qed.

(** X23: the root of a workspace is an absolute path, whatever root
    path it is made with, when the working directory and the home
    directory are absolute; without a root path, or with the empty one,
    it is the directory .openclaw of the home directory. *)
Theorem create_root_absolute cwd home root :
  isAbsolute cwd = true -> isAbsolute home = true ->
  isAbsolute (Workspace.rootPath (Workspace.create cwd home root)) = true
  /\ (root = None \/ root = Some "" ->
      Workspace.rootPath (Workspace.create cwd home root)
      = String "/" (JsString.join "/" (segments false home ++ [".openclaw"]))).
Proof.
  intros Hcwd Hhome.
  assert (JsPath.join [home; Workspace.DEFAULT_WORKSPACE_ROOT]
          = String "/" (JsString.join "/" (segments false home ++ [".openclaw"])))
    as Hdefault by (by apply join_names; [|repeat constructor|]).
  split.
  - destruct root as [path|]; simpl.
    + destruct (0 <? String.length path)%nat; simpl.
      * destruct (isAbsolute path) eqn:Hp; [done|].
        by apply resolve_absolute.
      * rewrite Hdefault. apply isAbsolute_slash.
    + rewrite Hdefault. apply isAbsolute_slash.
  - by intros [->| ->].
Qed.

End WorkspaceLaws.


(* ===================================================================== *)
(** * Laws of the reader of JSON *)
(* ===================================================================== *)

(** What the reader takes from a text does not depend on what follows
    the value, and the fuel only has to exceed the length of what is
    read. *)
Module ParseLaws.
Import JsString JsStringFacts JSON JSONFacts.
Import SessionFacts (solid, solid_cons, solid_app).
#[local] Arguments String.append !_ _ / : simpl nomatch.

(** ** Characters *)

(** The text after the character [c0], when [s] starts with it. *)
Definition is_char (c0 : ascii) (s : string) : option string :=
  match s with
  | String c r => if Ascii.eqb c c0 then Some r else None
  | EmptyString => None
  end.

Lemma is_char_Some c0 s r : is_char c0 s = Some r -> s = String c0 r.
Proof.
  destruct s as [|c s]; [done|]. simpl.
  destruct (Ascii.eqb_spec c c0) as [->|]; [|done]. by intros [= ->].
Qed.

Lemma case_brace {A} (s : string) (a : string -> A) (b : A) :
  match s with String "}" r' => a r' | _ => b end
  = match is_char "}" s with Some r' => a r' | None => b end.
Proof.
  destruct s as [|c r]; [done|].
  destruct c as [[] [] [] [] [] [] [] []]; reflexivity.
Qed.

Lemma case_bracket {A} (s : string) (a : string -> A) (b : A) :
  match s with String "]" r' => a r' | _ => b end
  = match is_char "]" s with Some r' => a r' | None => b end.
Proof.
  destruct s as [|c r]; [done|].
  destruct c as [[] [] [] [] [] [] [] []]; reflexivity.
Qed.

Lemma case_colon {A} (s : string) (a : string -> A) (b : A) :
  match s with String ":" r' => a r' | _ => b end
  = match is_char ":" s with Some r' => a r' | None => b end.
Proof.
  destruct s as [|c r]; [done|].
  destruct c as [[] [] [] [] [] [] [] []]; reflexivity.
Qed.

Lemma case_comma_brace {A} (s : string) (a b : string -> A) (c : A) :
  match s with String "," r' => a r' | String "}" r' => b r' | _ => c end
  = match is_char "," s with
    | Some r' => a r'
    | None => match is_char "}" s with Some r' => b r' | None => c end
    end.
Proof.
  destruct s as [|d r]; [done|].
  destruct d as [[] [] [] [] [] [] [] []]; reflexivity.
Qed.

Lemma case_comma_bracket {A} (s : string) (a b : string -> A) (c : A) :
  match s with String "," r' => a r' | String "]" r' => b r' | _ => c end
  = match is_char "," s with
    | Some r' => a r'
    | None => match is_char "]" s with Some r' => b r' | None => c end
    end.
Proof.
  destruct s as [|d r]; [done|].
  destruct d as [[] [] [] [] [] [] [] []]; reflexivity.
Qed.

(** ** The equations of the reader *)

Definition value_at (fuel : nat) (c : ascii) (r : string)
  : option (value * string) :=
  let n := N_of_ascii c in
  if (n =? 123)%N then
    match is_char "}" (skip_ws r) with
    | Some r' => Some (Object [], r')
    | None =>
        match read_members fuel r with
        | Some (ms, r') => Some (Object ms, r')
        | None => None
        end
    end
  else if (n =? 91)%N then
    match is_char "]" (skip_ws r) with
    | Some r' => Some (Array [], r')
    | None =>
        match read_elements fuel r with
        | Some (vs, r') => Some (Array vs, r')
        | None => None
        end
    end
  else if (n =? 34)%N then
    match read_string r with
    | Some (us, r') => Some (Str us, r')
    | None => None
    end
  else if (n =? 116)%N then read_literal "true" (Bool true) (String c r)
  else if (n =? 102)%N then read_literal "false" (Bool false) (String c r)
  else if (n =? 110)%N then read_literal "null" Null (String c r)
  else read_number (String c r).

Lemma read_value_S fuel s :
  read_value (S fuel) s
  = match skip_ws s with
    | EmptyString => None
    | String c r => value_at fuel c r
    end.
Proof.
  cbn [read_value]. destruct (skip_ws s) as [|c r]; [done|].
  unfold value_at. cbv zeta. by rewrite case_brace, case_bracket.
Qed.

Definition member_end (fuel : nat) (key : list N) (v : value) (r3 : string)
  : option (list (list N * value) * string) :=
  match is_char "," (skip_ws r3) with
  | Some r4 =>
      match read_members fuel r4 with
      | Some (ms, r5) => Some ((key, v) :: ms, r5)
      | None => None
      end
  | None =>
      match is_char "}" (skip_ws r3) with
      | Some r4 => Some ([(key, v)], r4)
      | None => None
      end
  end.

Lemma read_members_S fuel s :
  read_members (S fuel) s
  = match skip_ws s with
    | String c r =>
        if Ascii.eqb c dquote then
          match read_string r with
          | Some (key, r1) =>
              match is_char ":" (skip_ws r1) with
              | Some r2 =>
                  match read_value fuel r2 with
                  | Some (v, r3) => member_end fuel key v r3
                  | None => None
                  end
              | None => None
              end
          | None => None
          end
        else None
    | EmptyString => None
    end.
Proof.
  cbn [read_members]. destruct (skip_ws s) as [|c r]; [done|].
  destruct (Ascii.eqb c dquote); [|done].
  destruct (read_string r) as [[key r1]|]; [|done].
  rewrite case_colon. destruct (is_char ":" (skip_ws r1)) as [r2|]; [|done].
  destruct (read_value fuel r2) as [[v r3]|]; [|done].
  unfold member_end. by rewrite case_comma_brace.
Qed.

Definition element_end (fuel : nat) (v : value) (r1 : string)
  : option (list value * string) :=
  match is_char "," (skip_ws r1) with
  | Some r2 =>
      match read_elements fuel r2 with
      | Some (vs, r3) => Some (v :: vs, r3)
      | None => None
      end
  | None =>
      match is_char "]" (skip_ws r1) with
      | Some r2 => Some ([v], r2)
      | None => None
      end
  end.

Lemma read_elements_S fuel s :
  read_elements (S fuel) s
  = match read_value fuel s with
    | Some (v, r1) => element_end fuel v r1
    | None => None
    end.
Proof.
  cbn [read_elements]. destruct (read_value fuel s) as [[v r1]|]; [|done].
  unfold element_end. by rewrite case_comma_bracket.
Qed.

(** ** White space *)

Fixpoint all_ws (s : string) : bool :=
  match s with
  | EmptyString => true
  | String c s' => is_ws c && all_ws s'
  end.

Fixpoint no_spaces (s : string) : bool :=
  match s with
  | EmptyString => true
  | String c s' => negb (is_space c) && no_spaces s'
  end.

Definition head_is (p : ascii -> bool) (s : string) : bool :=
  match s with
  | String c _ => p c
  | EmptyString => false
  end.

Lemma is_ws_space c : is_ws c = true -> is_space c = true.
Proof. destruct c as [[] [] [] [] [] [] [] []]; by vm_compute. Qed.

Lemma is_digit_space c : is_digit c = true -> is_space c = false.
Proof. destruct c as [[] [] [] [] [] [] [] []]; by vm_compute. Qed.

Lemma skip_ws_inv s c r :
  skip_ws s = String c r ->
  exists ws, s = ws +:+ String c r /\ all_ws ws = true /\ is_ws c = false.
Proof.
  induction s as [|d s IH]; [done|]. simpl.
  destruct (is_ws d) eqn:Hd.
  - intros (ws & -> & Hws & Hc)%IH. exists (String d ws). simpl.
    by rewrite Hd, Hws.
  - intros [= -> ->]. by exists "".
Qed.

Lemma skip_ws_nil_inv s : skip_ws s = "" -> all_ws s = true.
Proof.
  induction s as [|d s IH]; [done|]. simpl.
  destruct (is_ws d); [|done]. exact IH.
Qed.

Lemma skip_ws_app ws t : all_ws ws = true -> skip_ws (ws +:+ t) = skip_ws t.
Proof.
  induction ws as [|d ws IH]; [done|]. simpl.
  intros [Hd Hws]%andb_true_iff. rewrite Hd. by apply IH.
Qed.

Lemma skip_ws_head c t : is_ws c = false -> skip_ws (String c t) = String c t.
Proof. intros H. simpl. by rewrite H. Qed.

Lemma skip_ws_to ws c t :
  all_ws ws = true -> is_ws c = false ->
  skip_ws (ws +:+ String c t) = String c t.
Proof. intros Hws Hc. by rewrite skip_ws_app, skip_ws_head. Qed.

Lemma trimEnd_ws s : all_ws s = true -> trimEnd s = "".
Proof.
  induction s as [|d s IH]; [done|]. simpl all_ws.
  intros [Hd Hs]%andb_true_iff. rewrite trimEnd_cons, IH by done.
  by rewrite is_ws_space.
Qed.

Lemma trimEnd_app_ws s r : all_ws r = true -> trimEnd (s +:+ r) = trimEnd s.
Proof.
  intros Hr. induction s as [|d s IH].
  - by rewrite trimEnd_ws.
  - change (String d s +:+ r) with (String d (s +:+ r)).
    by rewrite !trimEnd_cons, IH.
Qed.

Lemma trimStart_ws ws c t :
  all_ws ws = true -> is_space c = false ->
  trimStart (ws +:+ String c t) = String c t.
Proof.
  intros Hws Hc. induction ws as [|d ws IH].
  - simpl. by rewrite Hc.
  - simpl in Hws. apply andb_true_iff in Hws as [Hd Hws]. simpl.
    rewrite (is_ws_space d Hd). by apply IH.
Qed.

Lemma no_spaces_app s1 s2 :
  no_spaces (s1 +:+ s2) = no_spaces s1 && no_spaces s2.
Proof.
  induction s1 as [|c s1 IH]; [done|]. simpl. by rewrite IH, andb_assoc.
Qed.

Lemma no_spaces_digits s : all_digits s = true -> no_spaces s = true.
Proof.
  induction s as [|c s IH]; [done|]. simpl.
  intros [Hc Hs]%andb_true_iff. by rewrite (is_digit_space c Hc), IH.
Qed.

Lemma no_spaces_solid s : s <> "" -> no_spaces s = true -> solid s.
Proof.
  intros Hne H. split; [done|]. clear Hne.
  induction s as [|c s IH]; [done|]. simpl in H.
  apply andb_true_iff in H as [Hc Hs]. apply negb_true_iff in Hc.
  rewrite trimEnd_cons, IH by done. destruct s; [by rewrite Hc|done].
Qed.

Lemma solid_char c : is_space c = false -> solid (String c "").
Proof. intros H. apply no_spaces_solid; [done|]. simpl. by rewrite H. Qed.

(** ** Numbers *)

Lemma read_digits_stop tail acc n :
  head_is is_digit tail = false -> read_digits tail acc n = (acc, n, tail).
Proof. destruct tail as [|c t]; [done|]. simpl. by intros ->. Qed.

Lemma read_digits_inv s acc n a m r :
  read_digits s acc n = (a, m, r) ->
  exists text,
    s = text +:+ r /\ all_digits text = true
    /\ m = (n + String.length text)%nat
    /\ head_is is_digit r = false
    /\ forall tail,
         head_is is_digit tail = false ->
         read_digits (text +:+ tail) acc n = (a, m, tail).
Proof.
  revert acc n. induction s as [|c s IH]; intros acc n H.
  - injection H as <- <- <-. exists "".
    split_and!; try done; try (simpl; lia).
    intros tail Ht. by apply read_digits_stop.
  - simpl in H. destruct (is_digit c) eqn:Hc.
    + apply IH in H as (text & -> & Hd & -> & Hr & Hnew).
      exists (String c text). simpl. rewrite Hc, Hd.
      split_and!; try done; lia.
    + injection H as <- <- <-. exists "".
      split_and!; try done; try (simpl; lia).
      intros tail Ht. by apply read_digits_stop.
Qed.

(** A character that can continue a number. *)
Definition number_char (c : ascii) : bool :=
  is_digit c || (N_of_ascii c =? 46)%N || (N_of_ascii c =? 101)%N
  || (N_of_ascii c =? 69)%N.

(** Two texts after a value look the same to the reader of a number:
    they start with the same character, or neither can continue a
    number. *)
Definition agree (r tail : string) : Prop :=
  (exists c r1 t1, r = String c r1 /\ tail = String c t1)
  \/ (head_is number_char r = false /\ head_is number_char tail = false).

Lemma agree_head (p : ascii -> bool) r tail :
  (forall c, p c = true -> number_char c = true) ->
  head_is p r = false -> agree r tail -> head_is p tail = false.
Proof.
  intros Hp Hr [(c & r1 & t1 & -> & ->)|[_ Ht]]; [done|].
  destruct tail as [|c t]; [done|]. simpl in *.
  destruct (p c) eqn:E; [|done]. by rewrite (Hp c E) in Ht.
Qed.

Lemma agree_cons c r tail : agree (String c r) (String c tail).
Proof. left. by exists c, r, tail. Qed.

Lemma agree_app x r tail : agree r tail -> agree (x +:+ r) (x +:+ tail).
Proof. intros H. destruct x as [|c x]; [done|]. apply agree_cons. Qed.

Lemma agree_digit r tail :
  head_is is_digit r = false -> agree r tail -> head_is is_digit tail = false.
Proof.
  apply agree_head. intros c Hc. unfold number_char. by rewrite Hc.
Qed.

Lemma read_int_inv s int r :
  read_int s = Some (int, r) ->
  exists c text,
    s = String c text +:+ r /\ is_digit c = true /\ all_digits text = true
    /\ forall tail,
         agree r tail -> read_int (String c text +:+ tail) = Some (int, tail).
Proof.
  destruct s as [|c s]; [done|]. unfold read_int.
  destruct (is_digit c) eqn:Hc; [|done].
  destruct (N_of_ascii c =? 48)%N eqn:Hz.
  - intros [= <- <-]. exists c, "". split_and!; try done.
    intros tail _. simpl. by rewrite Hc, Hz.
  - destruct (read_digits (String c s) 0 0) as [[i cnt] rest] eqn:E.
    intros [= <- <-].
    apply read_digits_inv in E as (text & Hs & Hd & _ & Hr & Hnew).
    destruct text as [|d text].
    { simpl in Hs. subst rest. simpl in Hr. congruence. }
    simpl in Hs. injection Hs as <- ->. simpl in Hd.
    apply andb_true_iff in Hd as [_ Hd].
    exists c, text. split_and!; try done.
    intros tail Ht. change (String c text +:+ tail) with (String c (text +:+ tail)).
    cbv beta iota. rewrite Hc, Hz.
    change (String c (text +:+ tail)) with (String c text +:+ tail).
    rewrite Hnew; [done|]. by apply (agree_digit rest).
Qed.

Definition is_point (c : ascii) : bool := (N_of_ascii c =? 46)%N.
Definition is_e (c : ascii) : bool :=
  ((N_of_ascii c =? 101) || (N_of_ascii c =? 69))%N.

Lemma agree_point r tail :
  head_is is_point r = false -> agree r tail -> head_is is_point tail = false.
Proof.
  apply agree_head. intros c Hc. unfold number_char, is_point in *.
  rewrite Hc. by rewrite !orb_true_r.
Qed.

Lemma agree_e r tail :
  head_is is_e r = false -> agree r tail -> head_is is_e tail = false.
Proof.
  apply agree_head. intros c Hc. unfold number_char, is_e in *.
  apply orb_true_iff in Hc as [-> | ->]; by rewrite ?orb_true_r.
Qed.

Lemma read_frac_stop m tail :
  head_is is_point tail = false -> read_frac m tail = Some (m, 0%nat, tail).
Proof.
  destruct tail as [|c t]; [done|]. unfold head_is, is_point, read_frac.
  by intros ->.
Qed.

Lemma read_frac_inv m s m' cnt r :
  read_frac m s = Some (m', cnt, r) ->
  exists text,
    s = text +:+ r /\ no_spaces text = true
    /\ forall tail,
         agree r tail -> read_frac m (text +:+ tail) = Some (m', cnt, tail).
Proof.
  destruct s as [|c s].
  - intros [= <- <- <-]. exists "". split_and!; try done.
    intros tail Ht. apply read_frac_stop. by apply (agree_point "").
  - unfold read_frac. destruct (N_of_ascii c =? 46)%N eqn:Hc.
    + destruct (read_digits s m 0) as [[i n] rest] eqn:E.
      destruct (n =? 0)%nat eqn:Hn; [done|]. intros [= <- <- <-].
      apply read_digits_inv in E as (text & -> & Hd & _ & Hr & Hnew).
      exists (String c text). split_and!; try done.
      * simpl. rewrite (no_spaces_digits text Hd), andb_true_r.
        apply negb_true_iff.
        destruct c as [[] [] [] [] [] [] [] []]; by vm_compute in Hc |- *.
      * intros tail Ht.
        change (String c text +:+ tail) with (String c (text +:+ tail)).
        cbv beta iota. rewrite Hc, Hnew by (by apply (agree_digit rest)).
        by rewrite Hn.
    + intros [= <- <- <-]. exists "". split_and!; try done.
      intros tail Ht. apply read_frac_stop.
      apply (agree_point (String c s)); [|done]. exact Hc.
Qed.

(** The sign of an exponent. *)
Definition exp_sign (r : string) : Z * string :=
  match r with
  | String c' r' =>
      if (N_of_ascii c' =? 43)%N then (1%Z, r')
      else if (N_of_ascii c' =? 45)%N then ((-1)%Z, r')
      else (1%Z, r)
  | EmptyString => (1%Z, r)
  end.

Lemma read_exp_eq s :
  read_exp s
  = match s with
    | String c r =>
        if is_e c then
          let '(e, count, rest) := read_digits (exp_sign r).2 0%Z 0%nat in
          if (count =? 0)%nat then None
          else Some (((exp_sign r).1 * e)%Z, rest)
        else Some (0%Z, s)
    | EmptyString => Some (0%Z, s)
    end.
Proof.
  destruct s as [|c r]; [done|]. unfold read_exp, is_e, exp_sign.
  destruct (_ || _)%N; [|done].
  destruct r as [|c' r']; [done|].
  destruct (N_of_ascii c' =? 43)%N; [done|].
  by destruct (N_of_ascii c' =? 45)%N.
Qed.

Lemma exp_sign_inv r d text :
  (exp_sign r).2 = String d text -> is_digit d = true ->
  exists sign,
    r = sign +:+ String d text /\ no_spaces sign = true
    /\ forall z t,
         z = (exp_sign r).1 -> exp_sign (sign +:+ String d t) = (z, String d t).
Proof.
  destruct r as [|c' r']; [done|]. unfold exp_sign.
  destruct (N_of_ascii c' =? 43)%N eqn:Hp.
  - simpl. intros -> Hd. exists (String c' ""). split_and!; try done.
    + simpl. rewrite andb_true_r. apply negb_true_iff.
      destruct c' as [[] [] [] [] [] [] [] []]; by vm_compute in Hp |- *.
    + intros z t ->. simpl. by rewrite Hp.
  - destruct (N_of_ascii c' =? 45)%N eqn:Hm.
    + simpl. intros -> Hd. exists (String c' ""). split_and!; try done.
      * simpl. rewrite andb_true_r. apply negb_true_iff.
        destruct c' as [[] [] [] [] [] [] [] []]; by vm_compute in Hm |- *.
      * intros z t ->. simpl. by rewrite Hp, Hm.
    + simpl. intros [= -> ->] Hd. exists "". split_and!; try done.
      intros z t ->. simpl. by rewrite Hp, Hm.
Qed.

Lemma read_exp_stop tail :
  head_is is_e tail = false -> read_exp tail = Some (0%Z, tail).
Proof.
  intros H. rewrite read_exp_eq. destruct tail as [|c t]; [done|].
  simpl in H. by rewrite H.
Qed.

Lemma read_exp_inv s e r :
  read_exp s = Some (e, r) ->
  exists text,
    s = text +:+ r /\ no_spaces text = true
    /\ forall tail, agree r tail -> read_exp (text +:+ tail) = Some (e, tail).
Proof.
  destruct s as [|c s].
  - intros [= <- <-]. exists "". split_and!; try done.
    intros tail Ht. apply read_exp_stop. by apply (agree_e "").
  - rewrite read_exp_eq. destruct (is_e c) eqn:Hc.
    + destruct (read_digits (exp_sign s).2 0 0) as [[i n] rest] eqn:E.
      destruct (n =? 0)%nat eqn:Hn; [done|].
      remember (exp_sign s).1 as z eqn:Hz. intros [= <- <-].
      apply read_digits_inv in E as (text & Hs & Hd & Hcount & Hr & Hnew).
      destruct text as [|d text].
      { simpl in Hcount. subst n. done. }
      simpl in Hd. apply andb_true_iff in Hd as [Hd Hds].
      destruct (exp_sign_inv s d (text +:+ rest) Hs Hd)
        as (sign & Hsign_eq & Hsign & Hsame).
      specialize (Hsame z). clear Hs. subst s.
      exists (String c (sign +:+ String d text)). split_and!.
      * simpl. by rewrite append_assoc.
      * simpl. rewrite no_spaces_app, Hsign. simpl.
        rewrite (is_digit_space d Hd), (no_spaces_digits text Hds).
        simpl. rewrite andb_true_r. apply negb_true_iff.
        destruct c as [[] [] [] [] [] [] [] []]; by vm_compute in Hc |- *.
      * intros tail Ht. rewrite read_exp_eq.
        change (String c (sign +:+ String d text) +:+ tail)
          with (String c ((sign +:+ String d text) +:+ tail)).
        cbv beta iota. rewrite Hc, append_assoc.
        change (String d text +:+ tail) with (String d (text +:+ tail)).
        rewrite (Hsame (text +:+ tail) Hz). cbn [fst snd].
        change (String d (text +:+ tail)) with (String d text +:+ tail).
        rewrite Hnew by (by apply (agree_digit rest)). by rewrite Hn.
    + intros [= <- <-]. exists "". split_and!; try done.
      intros tail Ht. apply read_exp_stop.
      by apply (agree_e (String c s)).
Qed.

(** The sign of a number. *)
Definition number_sign (s : string) : bool * string :=
  match s with
  | String c r => if (N_of_ascii c =? 45)%N then (true, r) else (false, s)
  | EmptyString => (false, s)
  end.

Lemma read_number_eq s :
  read_number s
  = match read_int (number_sign s).2 with
    | None => None
    | Some (int, s2) =>
        match read_frac int s2 with
        | None => None
        | Some (m, count, s3) =>
            match read_exp s3 with
            | None => None
            | Some (e, s4) =>
                Some (Number (if (number_sign s).1 then - m else m)%Z
                        (e - Z.of_nat count)%Z, s4)
            end
        end
    end.
Proof.
  unfold read_number, number_sign. destruct s as [|c r]; [done|].
  by destruct (N_of_ascii c =? 45)%N.
Qed.

(** The first character of a number. *)
Definition number_start (c : ascii) : bool :=
  (N_of_ascii c =? 45)%N || is_digit c.

Lemma no_spaces_cons c s :
  no_spaces (String c s) = negb (is_space c) && no_spaces s.
Proof. reflexivity. Qed.

Lemma number_start_space c : number_start c = true -> is_space c = false.
Proof. destruct c as [[] [] [] [] [] [] [] []]; by vm_compute. Qed.

Lemma read_number_inv s v r :
  read_number s = Some (v, r) ->
  exists c text,
    s = String c text +:+ r /\ number_start c = true
    /\ no_spaces (String c text) = true
    /\ (exists m e, v = Number m e)
    /\ forall tail,
         agree r tail -> read_number (String c text +:+ tail) = Some (v, tail).
Proof.
  rewrite read_number_eq.
  destruct (read_int (number_sign s).2) as [[int s2]|] eqn:Ei; [|done].
  destruct (read_frac int s2) as [[[m cnt] s3]|] eqn:Ef; [|done].
  destruct (read_exp s3) as [[e s4]|] eqn:Ee; [|done].
  intros [= <- <-].
  apply read_int_inv in Ei as (c & ti & Hi & Hc & Hti & Hnew_i).
  apply read_frac_inv in Ef as (tf & -> & Htf & Hnew_f).
  apply read_exp_inv in Ee as (te & -> & Hte & Hnew_e).
  assert (forall tail, agree s4 tail ->
            match read_int (String c ti +:+ tf +:+ te +:+ tail) with
            | None => None
            | Some (int, s2) =>
                match read_frac int s2 with
                | None => None
                | Some (m, count, s3) =>
                    match read_exp s3 with
                    | None => None
                    | Some (e, s4) => Some (m, count, e, s4)
                    end
                end
            end = Some (m, cnt, e, tail)) as Hnew.
  { intros tail Ht.
    rewrite Hnew_i by (by do 2 apply agree_app).
    rewrite Hnew_f by (by apply agree_app).
    by rewrite Hnew_e. }
  assert (no_spaces (String c ti +:+ tf +:+ te) = true) as Hsp.
  { rewrite !no_spaces_app, Htf, Hte. simpl.
    rewrite (is_digit_space c Hc), (no_spaces_digits ti Hti). done. }
  destruct s as [|c0 s0]; [done|]. unfold number_sign in *.
  destruct (N_of_ascii c0 =? 45)%N eqn:Hm; cbn [fst snd] in *.
  - subst s0. exists c0, (String c ti +:+ tf +:+ te). split_and!.
    + simpl. by rewrite !append_assoc.
    + unfold number_start. by rewrite Hm.
    + rewrite no_spaces_cons, Hsp, andb_true_r. apply negb_true_iff.
      apply number_start_space. unfold number_start. by rewrite Hm.
    + by eexists _, _.
    + intros tail Ht. rewrite read_number_eq.
      change (String c0 (String c ti +:+ tf +:+ te) +:+ tail)
        with (String c0 ((String c ti +:+ tf +:+ te) +:+ tail)).
      unfold number_sign. rewrite Hm. cbn [fst snd].
      rewrite !append_assoc. specialize (Hnew tail Ht).
      destruct (read_int _) as [[int' s2']|]; [|done].
      destruct (read_frac int' s2') as [[[m' cnt'] s3']|]; [|done].
      destruct (read_exp s3') as [[e' s4']|]; [|done].
      by injection Hnew as -> -> -> ->.
  - injection Hi as -> ->. exists c, (ti +:+ tf +:+ te). split_and!.
    + simpl. by rewrite !append_assoc.
    + unfold number_start. by rewrite Hc, orb_true_r.
    + exact Hsp.
    + by eexists _, _.
    + intros tail Ht. rewrite read_number_eq.
      change (String c (ti +:+ tf +:+ te) +:+ tail)
        with (String c ((ti +:+ tf +:+ te) +:+ tail)).
      unfold number_sign. rewrite Hm. cbn [fst snd].
      change (String c ((ti +:+ tf +:+ te) +:+ tail))
        with (String c (ti +:+ tf +:+ te) +:+ tail).
      change (String c (ti +:+ tf +:+ te)) with (String c ti +:+ tf +:+ te).
      rewrite !append_assoc. specialize (Hnew tail Ht).
      destruct (read_int _) as [[int' s2']|]; [|done].
      destruct (read_frac int' s2') as [[[m' cnt'] s3']|]; [|done].
      destruct (read_exp s3') as [[e' s4']|]; [|done].
      by injection Hnew as -> -> -> ->.
Qed.

(** ** Strings and literals *)

Lemma read_string_inv_n n :
  forall s us r,
    (String.length s <= n)%nat ->
    read_string s = Some (us, r) ->
    exists text,
      s = text +:+ r /\ solid text
      /\ forall tail, read_string (text +:+ tail) = Some (us, tail).
Proof.
  induction n as [|n IH]; intros s us r Hlen H.
  - destruct s; [done|]. simpl in Hlen. lia.
  - destruct s as [|c s]; [done|]. simpl in Hlen. cbn [read_string] in H.
    destruct (Ascii.eqb c dquote) eqn:Hq.
    { injection H as <- <-. exists (String c ""). split_and!; [done| |].
      + apply solid_char. apply Ascii.eqb_eq in Hq. by subst c.
      + intros tail. cbn [String.append read_string]. by rewrite Hq. }
    destruct (Ascii.eqb c backslash) eqn:Hb.
    + destruct s as [|e s]; [done|].
      destruct (N_of_ascii e =? 117)%N eqn:Hu.
      * destruct s as [|h1 [|h2 [|h3 [|h4 rest]]]]; try done.
        destruct (hex_value h1) as [a1|] eqn:H1; [|done].
        destruct (hex_value h2) as [a2|] eqn:H2; [|done].
        destruct (hex_value h3) as [a3|] eqn:H3; [|done].
        destruct (hex_value h4) as [a4|] eqn:H4; [|done].
        destruct (read_string rest) as [[us' r']|] eqn:Er; [|done].
        injection H as <- <-.
        apply IH in Er as (text & -> & Hsolid & Hnew);
          [|simpl in Hlen; lia].
        exists (String c (String e (String h1 (String h2 (String h3
                  (String h4 text)))))).
        split_and!; [done|by repeat apply solid_cons|].
        intros tail. cbn [String.append read_string].
        by rewrite Hq, Hb, Hu, H1, H2, H3, H4, Hnew.
      * destruct (escape_unit e) as [u|] eqn:He; [|done].
        destruct (read_string s) as [[us' r']|] eqn:Er; [|done].
        injection H as <- <-.
        apply IH in Er as (text & -> & Hsolid & Hnew);
          [|simpl in Hlen; lia].
        exists (String c (String e text)).
        split_and!; [done|by repeat apply solid_cons|].
        intros tail. cbn [String.append read_string].
        by rewrite Hq, Hb, Hu, He, Hnew.
    + destruct (N_of_ascii c <? 32)%N eqn:Hlt; [done|].
      destruct (read_string s) as [[us' r']|] eqn:Er; [|done].
      injection H as <- <-.
      apply IH in Er as (text & -> & Hsolid & Hnew); [|lia].
      exists (String c text). split_and!; [done|by apply solid_cons|].
      intros tail. cbn [String.append read_string].
      by rewrite Hq, Hb, Hlt, Hnew.
Qed.

Lemma read_string_inv s us r :
  read_string s = Some (us, r) ->
  exists text,
    s = text +:+ r /\ solid text
    /\ forall tail, read_string (text +:+ tail) = Some (us, tail).
Proof. by apply (read_string_inv_n (String.length s)). Qed.

Lemma strip_prefix_inv p s r : strip_prefix p s = Some r -> s = p +:+ r.
Proof.
  revert s. induction p as [|a p IH]; intros s; simpl.
  - by intros [= ->].
  - destruct s as [|c s]; [done|].
    destruct (Ascii.eqb_spec a c) as [->|]; [|done].
    intros H. by rewrite (IH s H).
Qed.

Lemma strip_prefix_app p t : strip_prefix p (p +:+ t) = Some t.
Proof.
  induction p as [|a p IH]; [done|]. simpl. by rewrite Ascii.eqb_refl.
Qed.

Lemma read_literal_inv name v0 s v r :
  read_literal name v0 s = Some (v, r) ->
  s = name +:+ r /\ v = v0
  /\ forall tail, read_literal name v0 (name +:+ tail) = Some (v, tail).
Proof.
  unfold read_literal. destruct (strip_prefix name s) as [rest|] eqn:E; [|done].
  intros [= <- <-]. apply strip_prefix_inv in E as ->. split_and!; [done..|].
  intros tail. by rewrite strip_prefix_app.
Qed.

(** ** Values *)

(** The first character of a value. *)
Definition value_start (c : ascii) : bool :=
  let n := N_of_ascii c in
  (n =? 123)%N || (n =? 91)%N || (n =? 34)%N || (n =? 116)%N
  || (n =? 102)%N || (n =? 110)%N || number_start c.

Lemma value_start_spec c :
  value_start c = true ->
  is_space c = false /\ is_ws c = false /\ c <> "#"%char
  /\ c <> "]"%char /\ c <> "}"%char.
Proof.
  destruct c as [[] [] [] [] [] [] [] []]; vm_compute; intros H;
    try discriminate H; by split_and!.
Qed.

Lemma read_value_head fuel s v r :
  read_value fuel s = Some (v, r) ->
  exists c r0, skip_ws s = String c r0 /\ value_start c = true.
Proof.
  destruct fuel as [|fuel]; [done|]. rewrite read_value_S.
  destruct (skip_ws s) as [|c r0]; [done|]. intros H. exists c, r0.
  split; [done|]. unfold value_at in H. unfold value_start. cbv zeta in *.
  destruct (N_of_ascii c =? 123)%N; [done|].
  destruct (N_of_ascii c =? 91)%N; [done|].
  destruct (N_of_ascii c =? 34)%N; [done|].
  destruct (N_of_ascii c =? 116)%N; [done|].
  destruct (N_of_ascii c =? 102)%N; [done|].
  destruct (N_of_ascii c =? 110)%N; [done|].
  apply read_number_inv in H as (c' & text & Hs & Hc & _).
  simpl in Hs. by injection Hs as -> _.
Qed.

Lemma read_members_head fuel s ms r :
  read_members fuel s = Some (ms, r) ->
  exists r0, skip_ws s = String dquote r0.
Proof.
  destruct fuel as [|fuel]; [done|]. rewrite read_members_S.
  destruct (skip_ws s) as [|c r0]; [done|].
  destruct (Ascii.eqb_spec c dquote) as [->|]; [|done]. by exists r0.
Qed.

Lemma length_app s1 s2 :
  String.length (s1 +:+ s2) = (String.length s1 + String.length s2)%nat.
Proof. induction s1 as [|c s1 IH]; [done|]. simpl. by rewrite IH. Qed.

Definition is_number (v : value) : bool :=
  match v with Number _ _ => true | _ => false end.

(** What a reader took is a text that does not end with white space,
    and it reads that text the same way before another rest, with any
    fuel above its length. *)
Definition local_value (fuel : nat) : Prop :=
  forall s v r,
    read_value fuel s = Some (v, r) ->
    exists text,
      s = text +:+ r /\ solid text
      /\ forall fuel' tail,
           (String.length text < fuel')%nat ->
           is_number v = false \/ agree r tail ->
           read_value fuel' (text +:+ tail) = Some (v, tail).

Definition local_members (fuel : nat) : Prop :=
  forall s ms r,
    read_members fuel s = Some (ms, r) ->
    exists text,
      s = text +:+ r /\ solid text
      /\ forall fuel' tail,
           (String.length text < fuel')%nat ->
           read_members fuel' (text +:+ tail) = Some (ms, tail).

Definition local_elements (fuel : nat) : Prop :=
  forall s vs r,
    read_elements fuel s = Some (vs, r) ->
    exists text,
      s = text +:+ r /\ solid text
      /\ forall fuel' tail,
           (String.length text < fuel')%nat ->
           read_elements fuel' (text +:+ tail) = Some (vs, tail).

Ltac norm :=
  repeat (first [ rewrite append_assoc | progress (cbn [String.append]) ]).

Ltac len :=
  repeat (first [ progress (rewrite length_app in * )
                | progress (cbn [String.length] in * ) ]);
  lia.

Lemma local_value_S fuel :
  local_members fuel -> local_elements fuel -> local_value (S fuel).
Proof.
  intros IHm IHe s v r H. rewrite read_value_S in H.
  destruct (skip_ws s) as [|c r0] eqn:E; [done|].
  apply skip_ws_inv in E as (ws & -> & Hws & Hc).
  unfold value_at in H. cbv zeta in H.
  destruct (N_of_ascii c =? 123)%N eqn:T1.
  { destruct (is_char "}" (skip_ws r0)) as [r'|] eqn:E1.
    - injection H as <- <-. apply is_char_Some in E1.
      apply skip_ws_inv in E1 as (ws1 & -> & Hws1 & Hb).
      exists (ws +:+ String c (ws1 +:+ "}")). split_and!.
      + by norm.
      + apply solid_app, solid_cons, solid_app. by apply solid_char.
      + intros [|fuel'] tail Hlen _; [lia|]. rewrite read_value_S. norm.
        rewrite skip_ws_to by done. unfold value_at. cbv zeta. rewrite T1.
        by rewrite skip_ws_to.
    - destruct (read_members fuel r0) as [[ms r']|] eqn:Em; [|done].
      injection H as <- <-.
      apply IHm in Em as (tm & -> & Hsolid & Hnew).
      exists (ws +:+ String c tm). split_and!.
      + by norm.
      + by apply solid_app, solid_cons.
      + intros [|fuel'] tail Hlen _; [lia|]. rewrite read_value_S. norm.
        rewrite skip_ws_to by done. unfold value_at. cbv zeta. rewrite T1.
        assert (read_members fuel' (tm +:+ tail) = Some (ms, tail)) as Hm
          by (apply Hnew; len).
        destruct (read_members_head _ _ _ _ Hm) as (r1 & ->).
        change (is_char "}" (String dquote r1)) with (@None string).
        by rewrite Hm. }
  destruct (N_of_ascii c =? 91)%N eqn:T2.
  { destruct (is_char "]" (skip_ws r0)) as [r'|] eqn:E1.
    - injection H as <- <-. apply is_char_Some in E1.
      apply skip_ws_inv in E1 as (ws1 & -> & Hws1 & Hb).
      exists (ws +:+ String c (ws1 +:+ "]")). split_and!.
      + by norm.
      + apply solid_app, solid_cons, solid_app. by apply solid_char.
      + intros [|fuel'] tail Hlen _; [lia|]. rewrite read_value_S. norm.
        rewrite skip_ws_to by done. unfold value_at. cbv zeta.
        rewrite T1, T2. by rewrite skip_ws_to.
    - destruct (read_elements fuel r0) as [[vs r']|] eqn:Em; [|done].
      injection H as <- <-.
      apply IHe in Em as (te & -> & Hsolid & Hnew).
      exists (ws +:+ String c te). split_and!.
      + by norm.
      + by apply solid_app, solid_cons.
      + intros [|fuel'] tail Hlen _; [lia|]. rewrite read_value_S. norm.
        rewrite skip_ws_to by done. unfold value_at. cbv zeta.
        rewrite T1, T2.
        assert (read_elements fuel' (te +:+ tail) = Some (vs, tail)) as He
          by (apply Hnew; len).
        assert (is_char "]" (skip_ws (te +:+ tail)) = None) as ->.
        { destruct fuel' as [|fuel']; [done|].
          rewrite read_elements_S in He.
          destruct (read_value fuel' (te +:+ tail)) as [[v1 r1]|] eqn:Ev;
            [|done].
          apply read_value_head in Ev as (c1 & r2 & -> & Hstart).
          apply value_start_spec in Hstart as (_ & _ & _ & Hne & _).
          simpl. by destruct (Ascii.eqb_spec c1 "]"). }
        by rewrite He. }
  destruct (N_of_ascii c =? 34)%N eqn:T3.
  { destruct (read_string r0) as [[us r']|] eqn:Es; [|done].
    injection H as <- <-.
    apply read_string_inv in Es as (ts & -> & Hsolid & Hnew).
    exists (ws +:+ String c ts). split_and!.
    - by norm.
    - by apply solid_app, solid_cons.
    - intros [|fuel'] tail Hlen _; [lia|]. rewrite read_value_S. norm.
      rewrite skip_ws_to by done. unfold value_at. cbv zeta.
      by rewrite T1, T2, T3, Hnew. }
  assert (forall name v0 r1,
            String.length name = 4%nat \/ String.length name = 5%nat ->
            no_spaces name = true ->
            String c r0 = name +:+ r1 -> v = v0 -> r = r1 ->
            is_number v0 = false ->
            (forall fuel' tail,
               value_at fuel' c (slice_from 1 name +:+ tail)
               = read_literal name v0 (name +:+ tail)) ->
            (forall tail, read_literal name v0 (name +:+ tail) = Some (v, tail)) ->
            exists text,
              ws +:+ String c r0 = text +:+ r /\ solid text
              /\ forall fuel' tail,
                   (String.length text < fuel')%nat ->
                   is_number v = false \/ agree r tail ->
                   read_value fuel' (text +:+ tail) = Some (v, tail))
    as Hliteral.
  { intros name v0 r1 Hlen Hsp Hs -> -> Hv0 Hat Hnew.
    destruct name as [|c' name]; [simpl in Hlen; lia|].
    simpl in Hs. injection Hs as <- ->.
    exists (ws +:+ String c name). split_and!.
    - by norm.
    - apply solid_app, no_spaces_solid; done.
    - intros [|fuel'] tail Hl _; [lia|]. rewrite read_value_S. norm.
      rewrite skip_ws_to by done.
      change name with (slice_from 1 (String c name)) at 1.
      by rewrite Hat, Hnew. }
  destruct (N_of_ascii c =? 116)%N eqn:T4.
  { apply read_literal_inv in H as (Hs & Hv & Hnew).
    pose proof Hs as Hhead. simpl in Hhead. injection Hhead as -> _.
    apply (Hliteral "true" (Bool true) r); try done. by left. }
  destruct (N_of_ascii c =? 102)%N eqn:T5.
  { apply read_literal_inv in H as (Hs & Hv & Hnew).
    pose proof Hs as Hhead. simpl in Hhead. injection Hhead as -> _.
    apply (Hliteral "false" (Bool false) r); try done. by right. }
  destruct (N_of_ascii c =? 110)%N eqn:T6.
  { apply read_literal_inv in H as (Hs & Hv & Hnew).
    pose proof Hs as Hhead. simpl in Hhead. injection Hhead as -> _.
    apply (Hliteral "null" (Null) r); try done. by left. }
  clear Hliteral.
  apply read_number_inv in H as (c' & tn & Hs & Hstart & Hsp & [m [e ->]] & Hnew).
  simpl in Hs. injection Hs as <- ->.
  exists (ws +:+ String c tn). split_and!.
  - by norm.
  - apply solid_app, no_spaces_solid; done.
  - intros [|fuel'] tail Hlen [Hn|Hag]; [lia|lia|done|].
    rewrite read_value_S. norm. rewrite skip_ws_to by done.
    unfold value_at. cbv zeta. rewrite T1, T2, T3, T4, T5, T6.
    by apply Hnew.
Qed.

Lemma local_members_S fuel :
  local_value fuel -> local_members fuel -> local_members (S fuel).
Proof.
  intros IHv IHm s ms r H. rewrite read_members_S in H.
  destruct (skip_ws s) as [|c r0] eqn:E; [done|].
  apply skip_ws_inv in E as (ws & -> & Hws & Hc).
  destruct (Ascii.eqb_spec c dquote) as [->|]; [|done].
  destruct (read_string r0) as [[key r1]|] eqn:Es; [|done].
  apply read_string_inv in Es as (ts & -> & _ & Hnew_s).
  destruct (is_char ":" (skip_ws r1)) as [r2|] eqn:E1; [|done].
  apply is_char_Some in E1. apply skip_ws_inv in E1 as (ws1 & -> & Hws1 & Hc1).
  destruct (read_value fuel r2) as [[v r3]|] eqn:Ev; [|done].
  apply IHv in Ev as (tv & -> & _ & Hnew_v).
  unfold member_end in H.
  destruct (is_char "," (skip_ws r3)) as [r4|] eqn:E3.
  - apply is_char_Some in E3.
    apply skip_ws_inv in E3 as (ws3 & -> & Hws3 & Hc3).
    destruct (read_members fuel r4) as [[ms' r5]|] eqn:Em; [|done].
    injection H as <- <-.
    apply IHm in Em as (tm & -> & Hsolid & Hnew_m).
    exists (ws +:+ String dquote
              (ts +:+ ws1 +:+ String ":" (tv +:+ ws3 +:+ String "," tm))).
    split_and!.
    + by norm.
    + apply solid_app, solid_cons, solid_app, solid_app, solid_cons.
      by apply solid_app, solid_app, solid_cons.
    + intros [|fuel'] tail Hlen; [lia|]. rewrite read_members_S. norm.
      rewrite skip_ws_to by done. rewrite Ascii.eqb_refl, Hnew_s.
      rewrite skip_ws_to by done.
      change (is_char ":" (String ":" ?x)) with (Some x). cbv iota beta.
      rewrite Hnew_v; [|len|right; apply agree_app, agree_cons].
      unfold member_end. rewrite skip_ws_to by done.
      change (is_char "," (String "," ?x)) with (Some x). cbv iota beta.
      rewrite Hnew_m by len. done.
  - destruct (is_char "}" (skip_ws r3)) as [r4|] eqn:E4; [|done].
    injection H as <- <-. apply is_char_Some in E4.
    apply skip_ws_inv in E4 as (ws3 & -> & Hws3 & Hc3).
    exists (ws +:+ String dquote
              (ts +:+ ws1 +:+ String ":" (tv +:+ ws3 +:+ "}"))).
    split_and!.
    + by norm.
    + apply solid_app, solid_cons, solid_app, solid_app, solid_cons.
      apply solid_app, solid_app. by apply solid_char.
    + intros [|fuel'] tail Hlen; [lia|]. rewrite read_members_S. norm.
      rewrite skip_ws_to by done. rewrite Ascii.eqb_refl, Hnew_s.
      rewrite skip_ws_to by done.
      change (is_char ":" (String ":" ?x)) with (Some x). cbv iota beta.
      rewrite Hnew_v; [|len|right; apply agree_app, agree_cons].
      unfold member_end. rewrite skip_ws_to by done.
      change (is_char "," (String "}" ?x)) with (@None string).
      change (is_char "}" (String "}" ?x)) with (Some x). done.
Qed.

Lemma local_elements_S fuel :
  local_value fuel -> local_elements fuel -> local_elements (S fuel).
Proof.
  intros IHv IHe s vs r H. rewrite read_elements_S in H.
  destruct (read_value fuel s) as [[v r1]|] eqn:Ev; [|done].
  apply IHv in Ev as (tv & -> & _ & Hnew_v).
  unfold element_end in H.
  destruct (is_char "," (skip_ws r1)) as [r2|] eqn:E1.
  - apply is_char_Some in E1.
    apply skip_ws_inv in E1 as (ws1 & -> & Hws1 & Hc1).
    destruct (read_elements fuel r2) as [[vs' r3]|] eqn:Ee; [|done].
    injection H as <- <-.
    apply IHe in Ee as (te & -> & Hsolid & Hnew_e).
    exists (tv +:+ ws1 +:+ String "," te). split_and!.
    + by norm.
    + by apply solid_app, solid_app, solid_cons.
    + intros [|fuel'] tail Hlen; [lia|]. rewrite read_elements_S. norm.
      rewrite Hnew_v; [|len|right; apply agree_app, agree_cons].
      unfold element_end. rewrite skip_ws_to by done.
      change (is_char "," (String "," ?x)) with (Some x). cbv iota beta.
      rewrite Hnew_e by len. done.
  - destruct (is_char "]" (skip_ws r1)) as [r2|] eqn:E2; [|done].
    injection H as <- <-. apply is_char_Some in E2.
    apply skip_ws_inv in E2 as (ws1 & -> & Hws1 & Hc1).
    exists (tv +:+ ws1 +:+ "]"). split_and!.
    + by norm.
    + apply solid_app, solid_app. by apply solid_char.
    + intros [|fuel'] tail Hlen; [lia|]. rewrite read_elements_S. norm.
      rewrite Hnew_v; [|len|right; apply agree_app, agree_cons].
      unfold element_end. rewrite skip_ws_to by done.
      change (is_char "," (String "]" ?x)) with (@None string).
      change (is_char "]" (String "]" ?x)) with (Some x). done.
Qed.

Lemma reader_local fuel :
  local_value fuel /\ local_members fuel /\ local_elements fuel.
Proof.
  induction fuel as [|fuel (IHv & IHm & IHe)]; [by split_and!|].
  split_and!.
  - by apply local_value_S.
  - by apply local_members_S.
  - by apply local_elements_S.
Qed.

End ParseLaws.

Module TrimLaws.
Import JsString JsStringFacts JSON JSONFacts ParseLaws.
Import SessionFacts (solid, solid_cons, solid_app).
#[local] Arguments String.append !_ _ / : simpl nomatch.

Lemma skip_ws_idempotent s : skip_ws (skip_ws s) = skip_ws s.
Proof.
  induction s as [|c s IH]; [done|]. simpl.
  destruct (is_ws c) eqn:Hc; [done|]. simpl. by rewrite Hc.
Qed.

Lemma read_value_skip fuel s : read_value fuel (skip_ws s) = read_value fuel s.
Proof.
  destruct fuel as [|fuel]; [done|].
  by rewrite !read_value_S, skip_ws_idempotent.
Qed.

Lemma is_ws_number_char c : is_ws c = true -> number_char c = false.
Proof. destruct c as [[] [] [] [] [] [] [] []]; by vm_compute. Qed.

Lemma all_ws_agree r : all_ws r = true -> agree r "".
Proof.
  intros H. right. split; [|done]. destruct r as [|c r]; [done|].
  simpl in *. apply andb_true_iff in H as [Hc _].
  by apply is_ws_number_char.
Qed.

Lemma length_trimEnd s : (String.length (trimEnd s) <= String.length s)%nat.
Proof.
  induction s as [|c s IH]; [done|]. rewrite trimEnd_cons.
  destruct (trimEnd s) as [|d t].
  - destruct (is_space c); simpl; lia.
  - simpl in *. lia.
Qed.

(** What [JSON.parse] accepts: white space, the text of one value that
    reads alone, white space. *)
Lemma parse_inv s v :
  parse s = Some v ->
  exists ws text rest c t,
    s = ws +:+ text +:+ rest /\ all_ws ws = true /\ all_ws rest = true
    /\ text = String c t /\ value_start c = true /\ solid text
    /\ forall fuel' tail,
         (String.length text < fuel')%nat ->
         is_number v = false \/ agree rest tail ->
         read_value fuel' (text +:+ tail) = Some (v, tail).
Proof.
  unfold parse.
  destruct (read_value (S (String.length s)) s) as [[v' rest]|] eqn:E; [|done].
  destruct (skip_ws rest) eqn:Er; [|done]. intros [= ->].
  apply skip_ws_nil_inv in Er.
  destruct (read_value_head _ _ _ _ E) as (c & r0 & Hhead & Hstart).
  rewrite <- read_value_skip, Hhead in E.
  apply skip_ws_inv in Hhead as (ws & -> & Hws & _).
  destruct (reader_local (S (String.length (ws +:+ String c r0))))
    as (Hlocal & _ & _).
  apply Hlocal in E as (text & Hs & Hsolid & Hnew).
  destruct text as [|c' t]; [by destruct Hsolid|].
  simpl in Hs. injection Hs as <- ->.
  by exists ws, (String c t), rest, c, t.
Qed.

(** [JSON.parse] accepts the trimmed text of a text it accepts, with
    the same value. *)
Lemma parse_trim s v :
  parse s = Some v ->
  parse (trim s) = Some v
  /\ exists c t, trim s = String c t /\ value_start c = true.
Proof.
  intros (ws & text & rest & c & t & -> & Hws & Hrest & -> & Hstart
          & Hsolid & Hnew)%parse_inv.
  assert (trim (ws +:+ String c t +:+ rest) = String c t) as ->.
  { unfold trim.
    change (String c t +:+ rest) with (String c (t +:+ rest)).
    rewrite trimStart_ws; [|done|by apply value_start_spec in Hstart as [? _]].
    change (String c (t +:+ rest)) with (String c t +:+ rest).
    rewrite trimEnd_app_ws by done. by destruct Hsolid. }
  split; [|by exists c, t]. unfold parse.
  rewrite <- (append_nil_r (String c t)) at 2.
  rewrite Hnew; [done|lia|right; by apply all_ws_agree].
Qed.

(** A text that [JSON.parse] accepts and that does not end with white
    space has no shorter start that is accepted as an object, an
    array, a string or a literal. *)
Lemma parse_prefix_free s v p q v' :
  parse s = Some v -> solid s -> s = p +:+ q -> q <> "" ->
  parse p = Some v' -> is_number v' = false -> False.
Proof.
  intros Hs Hsolid -> Hq Hp Hv'.
  apply parse_inv in Hp as (ws & text & rest & c & t & -> & Hws & Hrest & Htext
                            & Hstart & _ & Hnew).
  unfold parse in Hs.
  destruct (read_value _ _) as [[v0 rest0]|] eqn:E; [|done].
  destruct (skip_ws rest0) eqn:Er; [|done]. apply skip_ws_nil_inv in Er.
  rewrite <- read_value_skip in E. rewrite !append_assoc in E.
  rewrite skip_ws_app in E by done. rewrite Htext in E.
  change (String c t +:+ ?x) with (String c (t +:+ x)) in E.
  rewrite skip_ws_head in E by (by apply value_start_spec in Hstart as (_ & ? & _)).
  change (String c (t +:+ ?x)) with (String c t +:+ x) in E.
  rewrite <- Htext in E. rewrite Hnew in E; [| |by left].
  - injection E as <- <-.
    destruct Hsolid as [_ Hsolid].
    assert ((ws +:+ text +:+ rest) +:+ q = (ws +:+ text) +:+ (rest +:+ q))
      as Heq by (by rewrite !append_assoc).
    rewrite Heq in Hsolid. rewrite trimEnd_app_ws in Hsolid by done.
    apply (f_equal String.length) in Hsolid.
    pose proof (length_trimEnd (ws +:+ text)) as Hle.
    rewrite !length_app in Hsolid. rewrite length_app in Hle.
    destruct q; [done|]. simpl in Hsolid. lia.
  - rewrite !length_app. simpl. lia.
Qed.

End TrimLaws.

(* ===================================================================== *)
(** * Laws of damaged transcripts *)
(* ===================================================================== *)

Module HistoryLaws.
Import Transcript SessionManager SessionFacts.
Import JsString JsStringFacts ParseLaws TrimLaws.
#[local] Arguments String.append !_ _ / : simpl nomatch.

(** ** What [getHistory] reads, [repair] keeps *)

Lemma read_line_kept line v :
  JSON.parse line = Some v ->
  RepairSpec.valid_entry line = true
  /\ JSON.parse (RepairSpec.text_of line) = Some v.
Proof.
  intros [Hparse (c & t & Htrim & Hstart)]%parse_trim.
  unfold RepairSpec.valid_entry, RepairSpec.is_entry_line, RepairSpec.is_blank,
    RepairSpec.is_json, RepairSpec.text_of.
  rewrite Hparse, Htrim. split; [|done].
  apply value_start_spec in Hstart as (_ & _ & Hmark & _).
  rewrite PathLaws.startsWith_cons, PathLaws.startsWith_nil.
  by destruct (Ascii.eqb_spec "#" c) as [<-|].
Qed.

Lemma history_sublist lines :
  history_of (List.filter nonblank lines) `sublist_of` RepairSpec.entries lines.
Proof.
  induction lines as [|line lines IH]; [constructor|].
  rewrite entries_cons. cbn [List.filter].
  destruct (nonblank line); [|by apply sublist_inserts_l].
  cbn [history_of].
  destruct (startsWith line "#"); [by apply sublist_inserts_l|].
  destruct (JSON.parse line) as [v|] eqn:Hv; [|by apply sublist_inserts_l].
  apply read_line_kept in Hv as [-> ->]. by apply sublist_skip.
Qed.

(** X24: [repair] loses nothing that [getHistory] read.  The entries
    that [getHistory] returns before a repair are returned after it, in
    their order; the repaired log can hold more, and their number is
    the number that [repair] reports as recovered. *)
Theorem repair_keeps_history (sessionId : string) (files : fs) (f : file) :
  valid_session_id sessionId = true ->
  files !! sessionId = Some f ->
  exists report files' before after,
    repair sessionId files = Ok (report, files')
    /\ getHistory sessionId files = Ok before
    /\ getHistory sessionId files' = Ok after
    /\ before `sublist_of` after
    /\ length after = entriesRecovered report.
Proof.
  intros Hid Hf. pose proof (repair_rewrites sessionId files f Hid Hf) as Hr.
  cbv zeta in Hr.
  eexists _, _, (history_of (nonblank_lines (data f))),
    (RepairSpec.entries (split_char "010" (data f))).
  split; [exact Hr|]. split; [|split; [|split]].
  - unfold getHistory, sessionPath. by rewrite Hid, Hf.
  - unfold getHistory, sessionPath. rewrite Hid. unfold fs in *.
    rewrite lookup_insert_eq. cbn [data]. f_equal. apply history_of_repaired.
  - unfold nonblank_lines. fold nonblank. apply history_sublist.
  - apply length_entries.
Qed.

(** ** A line that was cut *)

Lemma keeps_solid_bool b : keeps_solid (JSON.write_bool b).
Proof. intros k Hk. by apply solid_app. Qed.

Lemma keeps_solid_object ms :
  List.Forall keeps_solid ms -> keeps_solid (JSON.write_object ms).
Proof.
  intros Hms k Hk. unfold JSON.write_object.
  apply solid_cons, keeps_solid_members; [done|]. by apply solid_cons.
Qed.

Lemma solid_entry e : solid (stringify_entry e).
Proof.
  unfold stringify_entry, write_entry, JSON.write_object.
  apply solid_cons, keeps_solid_members; [|by split].
  repeat (constructor;
          [first [ apply keeps_solid_member, keeps_solid_string
                 | apply keeps_solid_member, keeps_solid_number ]|]).
  apply List.Forall_app. split.
  - destruct (toolCall e) as [tc|]; constructor; [|constructor].
    apply keeps_solid_member, keeps_solid_object.
    repeat (constructor; [apply keeps_solid_member, keeps_solid_string|]).
    constructor.
  - destruct (toolResult e) as [tr|]; constructor; [|constructor].
    apply keeps_solid_member, keeps_solid_object.
    constructor; [apply keeps_solid_member, keeps_solid_string|].
    constructor; [apply keeps_solid_member, keeps_solid_bool|].
    constructor; [apply keeps_solid_member, keeps_solid_string|].
    constructor.
Qed.

Lemma trimEnd_prefix s : exists spaces, s = trimEnd s +:+ spaces.
Proof.
  induction s as [|c s [spaces IH]]; [by exists ""|].
  rewrite trimEnd_cons. destruct (trimEnd s) as [|d t].
  - destruct (is_space c); [by exists (String c s)|].
    exists s. done.
  - exists spaces. by rewrite IH at 1.
Qed.

Lemma parse_brace x v :
  JSON.parse (String "{" x) = Some v -> is_number v = false.
Proof.
  unfold JSON.parse. rewrite read_value_S.
  change (JSON.skip_ws (String "{" x)) with (String "{" x).
  unfold value_at. cbv zeta.
  change (N_of_ascii "{" =? 123)%N with true. cbv iota.
  destruct (is_char "}" (JSON.skip_ws x)) as [r'|].
  - destruct (JSON.skip_ws r'); [|done]. by intros [= <-].
  - destruct (JSON.read_members _ x) as [[ms r']|]; [|done].
    destruct (JSON.skip_ws r'); [|done]. by intros [= <-].
Qed.

Lemma cut_not_json entry p q :
  stringify_entry entry = p +:+ q -> q <> "" -> JSON.parse p = None.
Proof.
  intros Hline Hq. destruct (JSON.parse p) as [v'|] eqn:Hp; [|done].
  exfalso.
  destruct (stringify_entry_head entry) as [r Hhead].
  destruct p as [|c p]; [done|].
  rewrite Hline in Hhead. simpl in Hhead. injection Hhead as -> _.
  apply (parse_prefix_free (stringify_entry entry) (entry_value entry)
           (String "{" p) q v'); try done.
  - apply parse_entry.
  - apply solid_entry.
  - by apply parse_brace in Hp.
Qed.

Lemma cut_classes entry p q :
  stringify_entry entry = p +:+ q -> q <> "" ->
  has_char "010" p = false
  /\ RepairSpec.valid_entry p = false
  /\ RepairSpec.valid_metadata p = false
  /\ RepairSpec.is_metadata_line p = false
  /\ RepairSpec.invalid_entry p = negb (String.eqb p "")
  /\ history_of (List.filter nonblank [p]) = [].
Proof.
  intros Hline Hq.
  assert (has_char "010" p = false) as Hnl.
  { pose proof (stringify_entry_one_line entry) as H.
    rewrite Hline, has_char_append in H. by apply orb_false_iff in H as [? _]. }
  split; [done|].
  destruct (stringify_entry_head entry) as [r Hhead].
  destruct p as [|c p]; [by vm_compute|].
  rewrite Hline in Hhead. simpl in Hhead. injection Hhead as -> _.
  destruct (trimEnd_prefix (String "{" p)) as [spaces Hsp].
  assert (trim (String "{" p) = trimEnd (String "{" p)) as Htrim by done.
  assert (exists t, trimEnd (String "{" p) = String "{" t) as [t Ht].
  { rewrite trimEnd_cons. destruct (trimEnd p); by eexists. }
  assert (JSON.parse (String "{" t) = None) as Hnone.
  { apply (cut_not_json entry _ (spaces +:+ q)).
    - rewrite <- Ht, <- append_assoc, <- Hsp. done.
    - destruct spaces; [done|done]. }
  assert (JSON.parse (String "{" p) = None) as Hnone'
    by (by apply (cut_not_json entry _ q)).
  unfold RepairSpec.valid_entry, RepairSpec.valid_metadata,
    RepairSpec.invalid_entry, RepairSpec.is_entry_line,
    RepairSpec.is_metadata_line, RepairSpec.is_blank, RepairSpec.is_json,
    RepairSpec.text_of.
  rewrite Htrim, Ht, Hnone. split_and!; try done.
  cbn [List.filter]. destruct (nonblank (String "{" p)); [|done].
  cbn [history_of].
  change (startsWith (String "{" p) "#") with false. cbv iota.
  by rewrite Hnone'.
Qed.

(** X25: an append that was cut costs at most its own entry.  When the
    log ends with a line break and the start of the line of an entry is
    written after it, [getHistory] returns what it returned before, and
    [repair] writes the log that it writes without the cut line; it
    reports the cut line, when something of it was written, as one more
    discarded entry. *)
Theorem torn_append_loses_only_its_entry (sessionId : string) (files : fs)
  (f : file) (text : string) (entry : TranscriptEntry) (p q : string) :
  valid_session_id sessionId = true ->
  files !! sessionId = Some f ->
  data f = text +:+ newline ->
  stringify_entry entry = p +:+ q ->
  q <> "" ->
  getHistory sessionId
    (<[sessionId := {| data := data f +:+ p; birthtimeMs := birthtimeMs f |}]>
       files)
  = getHistory sessionId files
  /\ exists report files',
       repair sessionId files = Ok (report, files')
       /\ repair sessionId
            (<[sessionId := {| data := data f +:+ p;
                               birthtimeMs := birthtimeMs f |}]> files)
          = Ok ({| repaired :=
                     (0 <? entriesLost report
                           + (if String.eqb p "" then 0 else 1))%nat;
                   entriesRecovered := entriesRecovered report;
                   entriesLost :=
                     (entriesLost report
                      + (if String.eqb p "" then 0 else 1))%nat |},
                files').
Proof.
  intros Hid Hf Hdata Hline Hq.
  destruct (cut_classes entry p q Hline Hq)
    as (Hnl & Hvalid & Hmeta & Hmark & Hinvalid & Hhistory).
  set (lines := split_char "010" text).
  assert (split_char "010" (data f) = lines ++ [""]) as Hlines.
  { rewrite Hdata. unfold newline. by rewrite PathLaws.split_char_append. }
  assert (split_char "010" (data f +:+ p) = lines ++ [p]) as Hlines'.
  { rewrite Hdata, append_assoc. unfold newline.
    change (String "010" "" +:+ p) with (String "010" p).
    rewrite PathLaws.split_char_append.
    by rewrite (PathLaws.split_char_piece _ p). }
  split.
  - unfold getHistory, sessionPath. rewrite Hid, Hf. unfold fs in *.
    rewrite lookup_insert_eq. cbn [data]. f_equal.
    unfold nonblank_lines. fold nonblank. rewrite Hlines, Hlines'.
    rewrite !List.filter_app, !history_of_app, Hhistory. done.
  - pose proof (repair_rewrites sessionId files f Hid Hf) as Hr.
    cbv zeta in Hr. eexists _, _. split; [exact Hr|].
    cbn [repaired entriesRecovered entriesLost].
    rewrite (repair_rewrites sessionId _
               {| data := data f +:+ p; birthtimeMs := birthtimeMs f |} Hid)
      by (unfold fs in *; by rewrite lookup_insert_eq).
    cbv zeta. cbn [data birthtimeMs]. unfold fs in *.
    rewrite insert_insert_eq. rewrite Hlines, Hlines'.
    assert (RepairSpec.m [p] = if String.eqb p "" then 0 else 1)%nat as Hm.
    { unfold RepairSpec.m. cbn [List.filter]. rewrite Hinvalid.
      by destruct (String.eqb p ""). }
    assert (RepairSpec.kept_lines [p] = []) as Hkept.
    { unfold RepairSpec.kept_lines. cbn [List.filter]. by rewrite Hvalid, Hmeta. }
    assert (RepairSpec.k [p] = 0%nat) as Hk.
    { unfold RepairSpec.k. cbn [List.filter]. by rewrite Hvalid. }
    assert (RepairSpec.last_metadata [p] = None) as Hlast.
    { cbn [RepairSpec.last_metadata]. by rewrite Hmark. }
    unfold RepairSpec.repaired_text, RepairSpec.header.
    rewrite !kept_lines_app, !k_app, !m_app, !last_metadata_app.
    rewrite Hm, Hkept, Hk, Hlast.
    change (RepairSpec.m [""]) with 0%nat.
    change (RepairSpec.k [""]) with 0%nat.
    change (RepairSpec.kept_lines [""]) with (@nil string).
    change (RepairSpec.last_metadata [""]) with (@None JSON.value).
    rewrite !Nat.add_0_r. done.
Qed.

End HistoryLaws.


(* ===================================================================== *)
(** * Laws of indexing the workspace *)
(* ===================================================================== *)

Module IndexingLaws.
Import JsString JsStringFacts JsPath PathLaws WorkspaceLaws.
Import MemorySystem MemoryIndexing.
#[local] Arguments String.append !_ _ / : simpl nomatch.

(** Induction on what a directory holds. *)
Section NodeInduction.
Variable P : node -> Prop.
Hypothesis HFile : forall read, P (File read).
Hypothesis HOther : P Other.
Hypothesis HUnreadable : P (Directory None).
Hypothesis HDirectory :
  forall entries,
    List.Forall (fun entry => P entry.2) entries ->
    P (Directory (Some entries)).

Fixpoint node_induction (d : node) : P d :=
  match d with
  | File read => HFile read
  | Other => HOther
  | Directory None => HUnreadable
  | Directory (Some entries) =>
      HDirectory entries
        ((fix all (entries : list (string * node))
            : List.Forall (fun entry => P entry.2) entries :=
            match entries with
            | [] => @List.Forall_nil _ _
            | (name, child) :: rest =>
                @List.Forall_cons _ (fun entry => P entry.2) (name, child)
                  rest (node_induction child) (all rest)
            end) entries)
  end.

End NodeInduction.

(** Every name in the tree is a file name. *)
Fixpoint well_named (d : node) : Prop :=
  match d with
  | Directory (Some entries) =>
      (fix all (entries : list (string * node)) : Prop :=
         match entries with
         | [] => True
         | (name, child) :: rest =>
             is_name name = true /\ well_named child /\ all rest
         end) entries
  | _ => True
  end.

(** The readable files with the extension .md below a directory: the
    names that lead to each from the directory, its content and its
    modification time. *)
Fixpoint md_files (above : list string) (d : node)
  : list (list string * string * R) :=
  match d with
  | Directory (Some entries) =>
      (fix files (entries : list (string * node))
         : list (list string * string * R) :=
         match entries with
         | [] => []
         | (name, child) :: rest =>
             match child with
             | Directory _ => md_files (above ++ [name]) child
             | File (Some (content, mtimeMs)) =>
                 if endsWith name ".md"
                 then [(above ++ [name], content, mtimeMs)] else []
             | _ => []
             end ++ files rest
         end) entries
  | _ => []
  end.

(** The document that [indexWorkspace] makes of such a file. *)
Definition index_md (idx : BM25Index.t) (file : list string * string * R)
  : BM25Index.t :=
  let id := JsString.join "/" ("workspace" :: "memory" :: file.1.1) in
  BM25Index.addDocument id id file.1.2 file.2 idx.

Section Workspace.
Variable cwd : string.
Variable w : Workspace.t.
Hypothesis Hcwd : isAbsolute cwd = true.
Hypothesis Habsolute : isAbsolute (Workspace.rootPath w) = true.
Hypothesis Hroot : segments false (Workspace.rootPath w) <> [].

Let root := segments false (Workspace.rootPath w).

Lemma resolved_root : segments false (resolve cwd [Workspace.rootPath w]) = root.
Proof.
  rewrite resolve_absolute_path by done. apply segments_normal, segments_names.
Qed.

Lemma memoryDir_path :
  Workspace.memoryDir w
  = String "/" (JsString.join "/" (root ++ ["workspace"; "memory"])).
Proof. apply join_names; [done|by repeat constructor|done]. Qed.

(** A file below the memory directory: its path and its id. *)
Lemma relative_memory above :
  names above ->
  relative cwd (Workspace.rootPath w)
    (String "/" (JsString.join "/"
       (root ++ "workspace" :: "memory" :: above)))
  = JsString.join "/" ("workspace" :: "memory" :: above).
Proof.
  intros Hn.
  destruct (below_root cwd w ("workspace" :: "memory" :: above)) as [_ H];
    try done.
  - by rewrite resolved_root.
  - by repeat constructor.
  - by rewrite resolved_root in H.
Qed.

Lemma join_child above name :
  names above -> is_name name = true ->
  JsPath.join
    [String "/" (JsString.join "/" (root ++ "workspace" :: "memory" :: above));
     name]
  = String "/" (JsString.join "/"
      (root ++ "workspace" :: "memory" :: above ++ [name])).
Proof.
  intros Hn Hname.
  rewrite join_names; [|apply isAbsolute_slash|by constructor|done].
  rewrite segments_normal.
  - by rewrite <- app_assoc.
  - apply names_app; [apply segments_names|by repeat constructor].
Qed.

Lemma index_walk d :
  forall above st,
    well_named d -> names above ->
    fold_left (index_file cwd w)
      (walkDirectory
         (String "/" (JsString.join "/"
            (root ++ "workspace" :: "memory" :: above))) d ".md") st
    = ((st.1 + length (md_files above d))%nat,
       fold_left index_md (md_files above d) st.2).
Proof.
  induction d as [read| | |entries IH] using node_induction;
    intros above st Hwell Hn;
    try (cbn [walkDirectory md_files fold_left length];
         rewrite Nat.add_0_r; by destruct st).
  cbn [walkDirectory md_files]. cbn [well_named] in Hwell.
  revert st. induction IH as [|[name child] rest Hchild _ IHrest]; intros st.
  - cbn [fold_left length]. rewrite Nat.add_0_r. by destruct st.
  - destruct Hwell as (Hname & Hwchild & Hwrest).
    rewrite !fold_left_app, length_app. rewrite join_child by done.
    specialize (IHrest Hwrest).
    assert (names (above ++ [name])) as Hn'
      by (apply names_app; [done|by constructor]).
    destruct child as [[[content mtimeMs]|]|entries|].
    + destruct (endsWith name ".md").
      * cbn [fold_left index_file snd fst]. rewrite relative_memory by done.
        rewrite IHrest. cbn [fst snd length]. f_equal. lia.
      * cbn [fold_left]. rewrite IHrest. cbn [length]. f_equal.
    + destruct (endsWith name ".md").
      * cbn [fold_left index_file snd fst]. rewrite IHrest. done.
      * cbn [fold_left]. rewrite IHrest. done.
    + cbn [snd] in Hchild. rewrite (Hchild (above ++ [name]) st) by done.
      rewrite IHrest. cbn [fst snd]. f_equal. lia.
    + cbn [fold_left]. rewrite IHrest. done.
Qed.

(** X28: what [indexWorkspace] indexes.  In a memory directory whose
    names are file names, it indexes the readable files with the
    extension .md of the directory and of the readable directories
    below it, in the order of the walk, each under its path from the
    root of the workspace (workspace/memory/ and the names that lead
    to it), with its content and its modification time; it returns
    their number.  Without a memory directory it indexes nothing. *)
Theorem indexWorkspace_indexes_md_files (memory : option node) (m : t) :
  match memory with Some d => well_named d | None => True end ->
  let files :=
    match memory with Some d => md_files [] d | None => [] end in
  indexWorkspace cwd w memory m
  = (length files,
     {| config := config m;
        bm25Index := fold_left index_md files (bm25Index m);
        notes := notes m |}).
Proof.
  intros Hwell files. unfold indexWorkspace.
  destruct memory as [d|]; [|by destruct m].
  rewrite memoryDir_path.
  change (root ++ ["workspace"; "memory"])
    with (root ++ "workspace" :: "memory" :: []).
  rewrite index_walk by (done || constructor). done.
Qed.

End Workspace.

End IndexingLaws.

Module DocumentLaws.
Import JsString JsStringFacts JsPath PathLaws WorkspaceLaws.
Import MemorySystem MemoryIndexing.
#[local] Arguments String.append !_ _ / : simpl nomatch.

(** ** The id of the note of the facts *)

Lemma digits_no_slash s :
  JSONFacts.all_digits s = true -> has_char "/" s = false.
Proof.
  induction s as [|c s IH]; [done|]. simpl.
  intros [Hc Hs]%andb_true_iff. rewrite IH by done.
  destruct c as [[] [] [] [] [] [] [] []]; by vm_compute in Hc |- *.
Qed.

Lemma toString_no_slash z : has_char "/" (JsNumber.toString z) = false.
Proof.
  assert (forall n, has_char "/" (JsNumber.N_toString n) = false) as Hn.
  { intros n. destruct (JSONFacts.N_toString_spec n) as (d & s & -> & Hd & _).
    by apply digits_no_slash. }
  destruct z as [|p|p]; [done|apply Hn|]. simpl. apply Hn.
Qed.

Lemma is_name_note timestamp :
  is_name ("facts-" +:+ JsNumber.toString timestamp +:+ ".md") = true.
Proof.
  apply is_name_long.
  - rewrite !has_char_append, toString_no_slash. done.
  - rewrite !length_appended. simpl. lia.
Qed.

(** X30: the id of a note of facts.  The file that [flushFactsToDisk]
    writes is the file facts-<timestamp>.md of the memory directory,
    and the path from the root of the workspace to it, under which the
    note is indexed, is workspace/memory/facts-<timestamp>.md whatever
    the root is. *)
Theorem note_path_from_root (cwd : string) (w : Workspace.t) (timestamp : Z) :
  isAbsolute cwd = true ->
  isAbsolute (Workspace.rootPath w) = true ->
  segments false (Workspace.rootPath w) <> [] ->
  let filename := "facts-" +:+ JsNumber.toString timestamp +:+ ".md" in
  let filePath := JsPath.join [Workspace.memoryDir w; filename] in
  relative cwd (Workspace.rootPath w) filePath = note_path timestamp
  /\ Workspace.contains cwd w filePath = true
  /\ segments false filePath
     = segments false (Workspace.rootPath w)
       ++ ["workspace"; "memory"; filename].
Proof.
  intros Hcwd Ha Hroot filename filePath.
  pose proof (is_name_note timestamp) as Hname. fold filename in Hname.
  assert (segments false (resolve cwd [Workspace.rootPath w])
          = segments false (Workspace.rootPath w)) as Hsame.
  { rewrite resolve_absolute_path by done.
    apply segments_normal, segments_names. }
  assert (names ["workspace"; "memory"; filename]) as Hl
    by (by repeat constructor).
  assert (filePath
          = String "/" (JsString.join "/"
              (segments false (Workspace.rootPath w)
               ++ ["workspace"; "memory"; filename]))) as Hpath.
  { unfold filePath, Workspace.memoryDir.
    rewrite (join_names (Workspace.rootPath w) ["workspace"; "memory"]);
      [|done|by repeat constructor|done].
    rewrite join_names; [|apply isAbsolute_slash|by constructor|done].
    rewrite segments_normal.
    - by rewrite <- app_assoc.
    - apply names_app; [apply segments_names|by repeat constructor]. }
  destruct (below_root cwd w ["workspace"; "memory"; filename])
    as [Hin Hrel]; [done|by rewrite Hsame|done|done|].
  rewrite Hsame in Hin, Hrel. rewrite Hpath. split_and!; [|done|].
  - rewrite Hrel. unfold note_path, filename. reflexivity.
  - apply segments_normal. apply names_app; [apply segments_names|done].
Qed.

(** ** [addDocument] *)

(** A relative path resolved against a directory: its segments are
    worked off on top of those of the directory. *)
Lemma resolve_relative cwd dir rel :
  isAbsolute cwd = true ->
  (String.length rel =? 0)%nat = false -> isAbsolute rel = false ->
  resolve cwd [dir; rel]
  = String "/" (JsString.join "/"
      (rev (fold_left (normalize_step false) (split_char "/" rel)
              (rev (segments false (resolve cwd [dir])))))).
Proof.
  intros Hcwd Hlen Hrel.
  destruct (resolve_loop_absolute cwd (rev [dir]) Hcwd) as [prefix H].
  rewrite (resolve_of_loop _ _ _ H).
  rewrite segments_normal by apply segments_names.
  unfold segments. rewrite rev_involutive.
  rewrite <- fold_split_append.
  apply (resolve_of_loop cwd [dir; rel] (prefix +:+ String "/" rel)).
  change (rev [dir; rel] ++ [cwd]) with (rel :: rev [dir] ++ [cwd]).
  rewrite resolve_loop_relative by done.
  rewrite resolve_loop_acc, H. simpl. by rewrite !append_assoc.
Qed.

Lemma size_set_absent {V} k (v : V) (m : list (string * V)) :
  JsMap.get k m = None -> JsMap.size (JsMap.set k v m) = S (JsMap.size m).
Proof.
  unfold JsMap.size. induction m as [|[k' v'] m IH]; simpl; [done|].
  destruct (String.eqb k k'); [done|]. intros H. simpl. by rewrite IH.
Qed.

(** X29: [addDocument] takes the path as it is given for the id.  A
    path of file names and the same path after ./ lead to the same file
    of the workspace, and both are accepted; adding a document under the
    one and then under the other stores two documents, when neither id
    was stored before. *)
Theorem addDocument_does_not_normalize (cwd : string) (w : Workspace.t)
  (mtimeMs : string -> option R) (now : R) (l : list string)
  (content : string) (m : t) :
  isAbsolute cwd = true ->
  segments false (resolve cwd [Workspace.rootPath w]) <> [] ->
  names l -> l <> [] ->
  let path := JsString.join "/" l in
  let dotted := "./" +:+ path in
  JsMap.get path (BM25Index.documents (bm25Index m)) = None ->
  JsMap.get dotted (BM25Index.documents (bm25Index m)) = None ->
  exists fullPath m1 m2,
    Workspace.resolve cwd w path = inr fullPath
    /\ Workspace.resolve cwd w dotted = inr fullPath
    /\ addDocument cwd w mtimeMs now path content m = inr m1
    /\ addDocument cwd w mtimeMs now dotted content m1 = inr m2
    /\ BM25Index.size (bm25Index m2) = S (S (BM25Index.size (bm25Index m))).
Proof.
  intros Hcwd Hroot Hl Hne path dotted Hpath Hdotted.
  destruct (below_root cwd w l Hcwd Hroot Hl Hne) as [Hin _].
  set (fullPath := String "/" (JsString.join "/"
         (segments false (resolve cwd [Workspace.rootPath w]) ++ l))) in *.
  assert (Workspace.resolve cwd w path = inr fullPath) as Hr1.
  { unfold Workspace.resolve, path. rewrite resolve_names by done.
    fold fullPath. by rewrite Hin. }
  assert (Workspace.resolve cwd w dotted = inr fullPath) as Hr2.
  { unfold Workspace.resolve. rewrite resolve_relative; [|done|done|done].
    unfold dotted.
    change ("./" +:+ path) with ("." +:+ String "/" path).
    rewrite split_char_append. unfold path.
    rewrite split_char_join_names by done.
    change (split_char "/" ".") with ["."]. cbn [app fold_left].
    change (normalize_step false ?st ".") with st.
    rewrite fold_names by done. rewrite rev_app_distr, !rev_involutive.
    fold fullPath. by rewrite Hin. }
  assert (path <> dotted) as Hdiff.
  { intros Heq. apply (f_equal String.length) in Heq. unfold dotted in Heq.
    simpl in Heq. lia. }
  eexists fullPath, _, _. unfold addDocument. rewrite Hr1, Hr2.
  split_and!; try done.
  cbn [bm25Index]. unfold BM25Index.size, BM25Index.addDocument.
  cbn [BM25Index.documents].
  rewrite size_set_absent.
  - by rewrite size_set_absent.
  - rewrite JsMapFacts.get_set_ne by congruence. done.
Qed.

End DocumentLaws.


(* ===================================================================== *)
(** * Laws of search *)
(* ===================================================================== *)

Module SearchLaws.
Import BM25Index BM25IndexFacts MemorySystem RetrievalFacts.

(** The result that [search] makes of a stored document. *)
Definition result_of (cfg : MemoryConfig) (now : R) (idx : BM25Index.t)
  (terms : list string) (doc : IndexedDocument) : SearchResult :=
  {| sr_path := doc_path doc;
     sr_content := doc_content doc;
     sr_score := score idx doc terms * decayFactor cfg now (doc_timestamp doc);
     sr_timestamp := doc_timestamp doc |}.

(** The results of the re-ranking, with the candidates it dropped, are
    the candidates. *)
Lemma mmrRerank_kept (results : list SearchResult) (limit : Z) (lambda : R) :
  exists dropped,
    Permutation results (mmrRerank results limit lambda ++ dropped)
    /\ ((Z.of_nat (length results) <= limit)%Z -> dropped = []).
Proof.
  unfold mmrRerank. destruct (Nat.leb_spec (length results) 1) as [Hle|Hgt].
  - unfold JsArray.slice0.
    set (n := if (limit <? 0)%Z
              then Z.to_nat (Z.of_nat (length results) + limit)
              else Z.to_nat limit).
    exists (skipn n results).
    replace (if (limit <? 0)%Z then firstn _ results else firstn _ results)
      with (firstn n results) by (unfold n; by destruct (limit <? 0)%Z).
    rewrite firstn_skipn. split; [done|]. intros Hl.
    apply skipn_all2. unfold n.
    destruct (Z.ltb_spec limit 0); lia.
  - destruct results as [|first rest] eqn:E; [simpl in Hgt; lia|].
    destruct (mmr_loop_greedy limit lambda (first :: rest) first rest eq_refl)
      as (remaining' & (Hperm & _ & Hl & _) & Hexit).
    exists remaining'. split; [done|]. intros Hlimit.
    destruct Hexit as [Hexit|Hnil]; [|done].
    apply Permutation_length in Hperm. rewrite length_app in Hperm.
    destruct remaining'; [done|]. simpl in *. lia.
Qed.

Lemma filter_submseteq {A} (p : A -> bool) (l : list A) : List.filter p l ⊆+ l.
Proof.
  induction l as [|x l IH]; simpl; [done|].
  destruct (p x); [by apply submseteq_skip|by apply submseteq_cons].
Qed.

Lemma slice0_submseteq {A} (l : list A) (limit : Z) : JsArray.slice0 l limit ⊆+ l.
Proof.
  unfold JsArray.slice0.
  destruct (limit <? 0)%Z; apply sublist_submseteq, sublist_take.
Qed.

Lemma slice0_map {A B} (f : A -> B) (l : list A) (limit : Z) :
  JsArray.slice0 (map f l) limit = map f (JsArray.slice0 l limit).
Proof.
  unfold JsArray.slice0. rewrite length_map.
  by destruct (limit <? 0)%Z; rewrite firstn_map.
Qed.

Lemma sort_by_map {A B} (key : B -> R) (f : A -> B) (l : list A) :
  exists l',
    JsArray.sort_by (JsArrayFacts.desc key) (map f l) = map f l'
    /\ Permutation l l'.
Proof.
  apply Permutation_map_inv. apply JsArrayFacts.sort_by_perm.
Qed.

Lemma stored_ids_NoDup idx :
  wf idx -> List.NoDup (map doc_id (JsMap.values (documents idx))).
Proof.
  intros ((Hnd & _) & _ & Hdocs).
  replace (map doc_id (JsMap.values (documents idx)))
    with (JsMap.keys (documents idx)); [done|].
  unfold JsMap.keys, JsMap.values. rewrite map_map.
  apply map_ext_in. intros entry Hin.
  rewrite List.Forall_forall in Hdocs. by destruct (Hdocs entry Hin) as [-> _].
Qed.

(** The candidates of a query, through the ranking, the decay, the sort
    and the re-ranking. *)
Lemma search_hits (m : t) (now : R) (query : string) (limit : Z) :
  wf (bm25Index m) ->
  (0 <= k1 (BM25Index.config (bm25Index m)))%R ->
  (0 <= b (BM25Index.config (bm25Index m)) <= 1)%R ->
  exists hits,
    search m now query limit
    = map (result_of (config m) now (bm25Index m) (tokenize query)) hits
    /\ hits ⊆+ List.filter (BM25Formula.mentions (tokenize query))
                 (JsMap.values (documents (bm25Index m))).
Proof.
  intros Hwf Hk1 Hb. unfold search. rewrite search_ranking by done.
  set (terms := tokenize query).
  set (found := List.filter (BM25Formula.mentions terms)
                  (JsMap.values (documents (bm25Index m)))).
  unfold candidates. fold terms. fold found.
  destruct (sort_by_map snd (fun doc => (doc, score (bm25Index m) doc terms))
              found) as (ranked & -> & Hranked).
  rewrite slice0_map.
  set (top := JsArray.slice0 ranked (limit * 2)).
  assert (top ⊆+ found) as Htop.
  { etrans; [apply slice0_submseteq|]. apply Permutation_submseteq.
    by symmetry. }
  destruct (length (map _ top) =? 0)%nat; [by exists []; split; [|apply submseteq_nil_l]|].
  unfold decayedResults. rewrite map_map.
  change (map (fun x : IndexedDocument => _) top)
    with (map (result_of (config m) now (bm25Index m) terms) top).
  destruct (sort_by_map sr_score (result_of (config m) now (bm25Index m) terms)
              top) as (sorted & Hsorted & Hperm).
  change (JsArray.sort_by (fun a b => Rgtb (sr_score a) (sr_score b)))
    with (JsArray.sort_by (JsArrayFacts.desc sr_score)).
  rewrite Hsorted.
  destruct (mmrRerank_kept
              (map (result_of (config m) now (bm25Index m) terms) sorted)
              limit DEFAULT_LAMBDA) as (dropped & Hkept & _).
  symmetry in Hkept. apply Permutation_map_inv in Hkept as (all & Hall & Hp).
  symmetry in Hall.
  apply map_eq_app in Hall as (hits & rest & -> & Hhits & _).
  exists hits. split; [done|].
  etrans; [|exact Htop]. etrans; [apply (submseteq_inserts_r rest); reflexivity|].
  apply Permutation_submseteq. etrans; [symmetry; exact Hp|]. by symmetry.
Qed.

(** X26: what [search] returns.  Every result is made of a stored
    document that contains a term of the query: its path, content and
    timestamp are those of the document, and its score is the BM25
    score, which is positive, times the decay factor of its age.  No stored document
    gives two results. *)
Theorem search_provenance (m : t) (now : R) (query : string) (limit : Z) :
  reachable (bm25Index m) ->
  (0 <= k1 (BM25Index.config (bm25Index m)))%R ->
  (0 <= b (BM25Index.config (bm25Index m)) <= 1)%R ->
  exists hits,
    search m now query limit
    = map (result_of (config m) now (bm25Index m) (tokenize query)) hits
    /\ List.NoDup (map doc_id hits)
    /\ forall doc,
         In doc hits ->
         In doc (getAllDocuments (bm25Index m))
         /\ BM25Formula.mentions (tokenize query) doc = true
         /\ (0 < score (bm25Index m) doc (tokenize query))%R.
Proof.
  intros Hwf%IndexLaws.wf_reachable Hk1 Hb.
  destruct (search_hits m now query limit Hwf Hk1 Hb) as (hits & Hsearch & Hsub).
  exists hits. split; [done|].
  assert (hits ⊆+ JsMap.values (documents (bm25Index m))) as Hstored
    by (etrans; [exact Hsub|apply filter_submseteq]).
  split.
  - apply (fmap_submseteq doc_id) in Hstored.
    apply submseteq_Permutation in Hstored as [others Hperm].
    pose proof (stored_ids_NoDup _ Hwf) as Hnd.
    change (doc_id <$> ?l) with (map doc_id l) in Hperm.
    apply (Permutation_NoDup Hperm) in Hnd.
    by apply NoDup_app_remove_r in Hnd.
  - intros doc Hin.
    assert (In doc (List.filter (BM25Formula.mentions (tokenize query))
                      (JsMap.values (documents (bm25Index m))))) as Hfound.
    { apply list_elem_of_In. eapply elem_of_submseteq; [|exact Hsub].
      by apply list_elem_of_In. }
    apply filter_In in Hfound as [Hdoc Hmentions].
    split; [done|]. split; [done|].
    pose proof (positive_iff_mentions _ Hwf Hk1 Hb doc (tokenize query) Hdoc)
      as Hpos.
    rewrite Hmentions in Hpos. unfold Rgtb in Hpos.
    by destruct (Rlt_dec 0 (score (bm25Index m) doc (tokenize query))).
Qed.

End SearchLaws.

Module RecallLaws.
Import JsString JsStringFacts BM25Index BM25IndexFacts MemorySystem SearchLaws.
#[local] Arguments String.append !_ _ / : simpl nomatch.

(** ** The pieces of a text inside a longer text *)

Section Pieces.
Variable sep : ascii -> bool.

Lemma split_from_nonempty b s : split_runs_from sep b s <> [].
Proof.
  revert b. induction s as [|c s IH]; intros b; simpl; [done|].
  destruct (sep c).
  - destruct b; [apply IH|done].
  - by destruct (split_runs_from sep false s).
Qed.





End Pieces.



(** ** The note of the facts *)


Section Note.
Variable toISOString : Z -> string.


End Note.

(** ** From the index to the results *)





Section Recall.
Variable toISOString : Z -> string.


End Recall.

End RecallLaws.

(* ===================================================================== *)
(** * Instances *)
(* ===================================================================== *)

Module IndexWitnesses.
Import BM25Index BM25IndexFacts IndexLaws ScoreLaws.

(** Two notes that share a term. *)
Definition two_notes : t :=
  addDocument "b.md" "b.md" "alpha gamma gamma" 2
    (addDocument "a.md" "a.md" "alpha beta" 1 empty).

Lemma two_notes_reachable : reachable two_notes.
Proof. apply reach_add, reach_add, reach_create. Qed.

Lemma add_remove_round_trip_witness :
  JsMap.get "c.md" (documents two_notes) = None
  /\ removeDocument "c.md" (addDocument "c.md" "c.md" "delta" 3 two_notes)
     = (true, two_notes).
Proof.
  assert (JsMap.get "c.md" (documents two_notes) = None) as H by reflexivity.
  split; [exact H|].
  exact (add_remove_round_trip two_notes "c.md" "c.md" "delta" 3
           two_notes_reachable H).
Defined.

Lemma stored_documents_invariant_witness :
  reachable two_notes
  /\ avgDocLength two_notes
     = (if (size two_notes =? 0)%nat then 0
        else INR (total_length (documents two_notes))
             / INR (size two_notes))%R.
Proof.
  split; [exact two_notes_reachable|].
  exact (proj2 (stored_documents_invariant two_notes two_notes_reachable)).
Defined.

Lemma removed_document_not_found_witness :
  reachable two_notes
  /\ forall query limit r,
       In r (search (removeDocument "a.md" two_notes).2 query limit) ->
       doc_id (fst r) <> "a.md".
Proof.
  split; [exact two_notes_reachable|].
  pose proof (removed_document_not_found two_notes "a.md" two_notes_reachable)
    as H.
  destruct (removeDocument "a.md" two_notes) as [removed idx'].
  by destruct H as (_ & _ & _ & H).
Defined.

Lemma idf_rarer_term_weighs_more_witness :
  (0 < get0 (documentFrequency two_notes) "beta"
     < get0 (documentFrequency two_notes) "alpha")%nat
  /\ (0 < idf two_notes "alpha" < idf two_notes "beta")%R.
Proof.
  assert (0 < get0 (documentFrequency two_notes) "beta"
            < get0 (documentFrequency two_notes) "alpha")%nat as H
    by (vm_compute; lia).
  split; [exact H|].
  exact (idf_rarer_term_weighs_more two_notes "beta" "alpha"
           two_notes_reachable H).
Defined.

Lemma score_saturation_witness :
  (0 <= k1 (config two_notes))%R /\ (0 <= b (config two_notes) <= 1)%R
  /\ forall doc,
       (score two_notes doc ["gamma"]
        <= (k1 (config two_notes) + 1)
           * fold_right Rplus 0 (map (idf two_notes) ["gamma"]))%R.
Proof.
  assert (0 <= k1 (config two_notes))%R as Hk1 by (simpl; lra).
  assert (0 <= b (config two_notes) <= 1)%R as Hb by (simpl; lra).
  split; [exact Hk1|]. split; [exact Hb|]. intros doc.
  exact (proj2 (score_saturation two_notes doc ["gamma"] two_notes_reachable
                  Hk1 Hb)).
Defined.

End IndexWitnesses.

Module LawWitnesses.
Import Transcript MemorySystem SessionManager.
Import RetrievalLaws CompactionLaws StoreLaws.


Lemma temporal_decay_future_boost_witness :
  (0 < temporalDecayHalfLife DEFAULT_MEMORY_CONFIG)%R
  /\ (1000 < 2000)%R /\ (0 < 5)%R
  /\ (5 < applyTemporalDecay DEFAULT_MEMORY_CONFIG 1000 5 2000)%R.
Proof.
  assert (0 < temporalDecayHalfLife DEFAULT_MEMORY_CONFIG)%R as H
    by (simpl; lra).
  assert (1000 < 2000)%R as Ht by lra.
  assert (0 < 5)%R as Hs by lra.
  split; [exact H|]. split; [exact Ht|]. split; [exact Hs|].
  exact (temporal_decay_future_boost DEFAULT_MEMORY_CONFIG 1000 5 2000 H Ht Hs).
Defined.

(** The history of two entries under a budget of ten tokens: the
    recent entry is kept and the old one gives the facts. *)
Lemma compaction_keeps_longest_suffix_witness :
  (0 <= 10 < total_tokens CompactionFacts.long_history)%Z
  /\ exists older recent summary,
       CompactionFacts.long_history = older ++ recent
       /\ (compact (fun _ => "") CompactionFacts.empty_memory 3000 3000
             CompactionFacts.long_history (Some 10%Z)).1.1
          = summary ++ recent
       /\ (total_tokens recent <= JsNumber.floor_mul_0_7 10)%Z.
Proof.
  assert (0 <= 10 < total_tokens CompactionFacts.long_history)%Z as H
    by (by vm_compute).
  split; [exact H|].
  destruct (compaction_keeps_longest_suffix (fun _ => "")
              CompactionFacts.empty_memory 3000 3000
              CompactionFacts.long_history 10 H)
    as (older & recent & summary & H1 & H2 & _ & H3 & _).
  exists older, recent, summary. split; [exact H1|]. split; [exact H2|].
  exact H3.
Defined.

Lemma sessions_are_isolated_witness :
  "s-1" <> "s-2"
  /\ forall (files files' : fs),
       delete "s-1" files = Ok files' -> files' !! "s-2" = files !! "s-2".
Proof.
  assert ("s-1" <> "s-2") as H by done.
  split; [exact H|]. intros files files'.
  destruct (sessions_are_isolated "s-1" "s-2" files H)
    as (_ & _ & _ & Hdelete & _).
  exact (Hdelete files').
Defined.

(** [a > b] where both are integers, and false elsewhere. *)
Definition greater_integers (a b : jsvalue) : bool :=
  match a, b with
  | Some (JSON.Number x 0), Some (JSON.Number y 0) => (y <? x)%Z
  | _, _ => false
  end.

Lemma delete_removes_session_witness :
  valid_session_id "s-1" = true
  /\ match delete "s-1" (SessionFacts.fresh_session.2) with
     | Err _ => False
     | Ok files' => getHistory "s-1" files' = Err (SessionNotFound "s-1")
     end.
Proof.
  assert (valid_session_id "s-1" = true) as H by reflexivity.
  split; [exact H|].
  pose proof (delete_removes_session greater_integers "s-1"
                SessionFacts.fresh_session.2 H) as Hd.
  destruct (delete "s-1" SessionFacts.fresh_session.2) as [files'|e] eqn:E.
  - by destruct Hd as (_ & Hh & _).
  - destruct Hd as [_ Hnone]. by vm_compute in Hnone.
Defined.

Lemma load_after_appends_witness :
  compares_integers greater_integers
  /\ (0 < 1000 <= 2 ^ 53)%Z
  /\ List.Forall (fun a => 0 <= a.2 <= 2 ^ 53)%Z SessionFacts.two_appends
  /\ create "s-1" 1000 ∅ = Ok SessionFacts.fresh_session
  /\ exists files2,
       append_all "s-1" SessionFacts.two_appends SessionFacts.fresh_session.2
       = Ok (SessionFacts.appended SessionFacts.two_appends, files2)
       /\ forall now',
            loaded_messageCount
              <$> (match load greater_integers "s-1" now' files2 with
                   | Ok session => Some session
                   | Err _ => None
                   end)
            = Some 2%nat.
Proof.
  assert (compares_integers greater_integers) as Hgt by (by intros a b _ _).
  assert (0 < 1000 <= 2 ^ 53)%Z as Hnow by (by vm_compute).
  assert (List.Forall (fun a => 0 <= a.2 <= 2 ^ 53)%Z SessionFacts.two_appends)
    as Happends by (repeat constructor; by vm_compute).
  assert (create "s-1" 1000 ∅
          = Ok (SessionFacts.fresh_session.1, SessionFacts.fresh_session.2))
    as Hcreate by reflexivity.
  split; [exact Hgt|]. split; [exact Hnow|]. split; [exact Happends|].
  split; [exact Hcreate|].
  destruct (load_after_appends greater_integers "s-1" 1000 ∅
              SessionFacts.two_appends _ _ Hgt Hnow Happends Hcreate)
    as (files2 & Happend & Hload).
  exists files2. split; [exact Happend|]. intros now'.
  by rewrite Hload.
Defined.

End LawWitnesses.


Module PathWitnesses.
Import JsString JsPath PathLaws WorkspaceLaws.

(** The default workspace of a user. *)
Definition home_workspace : Workspace.t :=
  Workspace.create "/srv/app" "/home/u" None.

(** A sibling directory whose name starts with the name of the root is
    outside. *)
Lemma contains_segments_witness :
  isAbsolute "/srv/app" = true
  /\ (Workspace.contains "/srv/app" home_workspace "/home/u/.openclaw2/x" = true
      <-> ["home"; "u"; ".openclaw"] `prefix_of` ["home"; "u"; ".openclaw2"; "x"]
          /\ (["home"; "u"; ".openclaw"] = [] ->
              ["home"; "u"; ".openclaw2"; "x"] = [])).
Proof.
  assert (isAbsolute "/srv/app" = true) as H by reflexivity.
  split; [exact H|].
  exact (contains_segments "/srv/app" home_workspace "/home/u/.openclaw2/x" H).
Defined.

Lemma resolve_relative_round_trip_witness :
  isAbsolute "/srv/app" = true
  /\ segments false (resolve "/srv/app" [Workspace.rootPath home_workspace])
     <> []
  /\ names ["workspace"; "memory"; "notes.md"]
  /\ ["workspace"; "memory"; "notes.md"] <> []
  /\ exists path,
       Workspace.resolve "/srv/app" home_workspace "workspace/memory/notes.md"
       = inr path
       /\ segments false path
          = ["home"; "u"; ".openclaw"; "workspace"; "memory"; "notes.md"]
       /\ Workspace.relative "/srv/app" home_workspace path
          = inr "workspace/memory/notes.md".
Proof.
  assert (isAbsolute "/srv/app" = true) as H by reflexivity.
  assert (segments false (resolve "/srv/app" [Workspace.rootPath home_workspace])
          <> []) as Hroot by (by vm_compute).
  assert (names ["workspace"; "memory"; "notes.md"]) as Hl
    by (by repeat constructor).
  assert (["workspace"; "memory"; "notes.md"] <> []) as Hne by done.
  split; [exact H|]. split; [exact Hroot|]. split; [exact Hl|].
  split; [exact Hne|].
  exact (resolve_relative_round_trip "/srv/app" home_workspace
           ["workspace"; "memory"; "notes.md"] H Hroot Hl Hne).
Defined.

Lemma sessionPath_in_workspace_witness :
  isAbsolute "/srv/app" = true
  /\ isAbsolute (Workspace.rootPath home_workspace) = true
  /\ segments false (Workspace.rootPath home_workspace) <> []
  /\ Workspace.sessionPath home_workspace "s-1"
     = inr "/home/u/.openclaw/sessions/s-1.jsonl"
  /\ Workspace.contains "/srv/app" home_workspace
       "/home/u/.openclaw/sessions/s-1.jsonl" = true
  /\ exists key,
       SessionManager.sessionPath "s-1" = SessionManager.Ok key
       /\ Workspace.relative "/srv/app" home_workspace
            "/home/u/.openclaw/sessions/s-1.jsonl" = inr key.
Proof.
  assert (isAbsolute "/srv/app" = true) as H by reflexivity.
  assert (isAbsolute (Workspace.rootPath home_workspace) = true) as Ha
    by reflexivity.
  assert (segments false (Workspace.rootPath home_workspace) <> []) as Hroot
    by (by vm_compute).
  split; [exact H|]. split; [exact Ha|]. split; [exact Hroot|].
  split; [reflexivity|].
  pose proof (sessionPath_in_workspace "/srv/app" home_workspace "s-1"
                H Ha Hroot) as Hs.
  change (Workspace.sessionPath home_workspace "s-1")
    with (@inr Workspace.error string "/home/u/.openclaw/sessions/s-1.jsonl")
    in Hs.
  destruct Hs as (_ & Hin & Hkey). split; [exact Hin|exact Hkey].
Defined.

Lemma logPath_in_logs_witness :
  isAbsolute (Workspace.rootPath home_workspace) = true
  /\ Workspace.traverses "gateway.log" = false
  /\ Workspace.logsDir home_workspace = "/home/u/.openclaw/logs"
  /\ Workspace.logPath home_workspace "gateway.log"
     = inr "/home/u/.openclaw/logs/gateway.log".
Proof.
  assert (isAbsolute (Workspace.rootPath home_workspace) = true) as Ha
    by reflexivity.
  assert (Workspace.traverses "gateway.log" = false) as Ht by reflexivity.
  split; [exact Ha|]. split; [exact Ht|].
  exact (logPath_in_logs home_workspace "gateway.log" Ha Ht).
Defined.

Lemma create_root_absolute_witness :
  isAbsolute "/srv/app" = true /\ isAbsolute "/home/u" = true
  /\ isAbsolute
       (Workspace.rootPath (Workspace.create "/srv/app" "/home/u" (Some "")))
     = true
  /\ (Some "" = None \/ Some "" = Some "" ->
      Workspace.rootPath (Workspace.create "/srv/app" "/home/u" (Some ""))
      = "/home/u/.openclaw").
Proof.
  assert (isAbsolute "/srv/app" = true) as H by reflexivity.
  assert (isAbsolute "/home/u" = true) as Hh by reflexivity.
  split; [exact H|]. split; [exact Hh|].
  exact (create_root_absolute "/srv/app" "/home/u" (Some "") H Hh).
Defined.

End PathWitnesses.


Module HistoryWitnesses.
Import Transcript SessionManager HistoryLaws.

Definition greeting : TranscriptEntry :=
  {| id := "e-7"; role := user; content := "good morning"; timestamp := 2001;
     toolCall := None; toolResult := None |}.

(** A log whose only line starts with a form feed: [trim] drops it,
    [JSON.parse] does not. *)
Definition padded_log : fs :=
  {[ "s-7" := {| data := String "012" (stringify_entry greeting) +:+ newline;
                 birthtimeMs := 2000 |} ]}.

Lemma repair_keeps_history_witness :
  valid_session_id "s-7" = true
  /\ padded_log !! "s-7"
     = Some {| data := String "012" (stringify_entry greeting) +:+ newline;
               birthtimeMs := 2000 |}
  /\ exists report files' before after,
       repair "s-7" padded_log = Ok (report, files')
       /\ getHistory "s-7" padded_log = Ok before
       /\ getHistory "s-7" files' = Ok after
       /\ before `sublist_of` after
       /\ length after = entriesRecovered report.
Proof.
  assert (valid_session_id "s-7" = true) as Hid by reflexivity.
  assert (padded_log !! "s-7"
          = Some {| data := String "012" (stringify_entry greeting) +:+ newline;
                    birthtimeMs := 2000 |}) as Hf
    by (unfold padded_log; apply lookup_singleton_eq).
  split; [exact Hid|]. split; [exact Hf|].
  exact (repair_keeps_history "s-7" padded_log _ Hid Hf).
Defined.

(** A log of one header line. *)
Definition header_log : file :=
  {| data := String "#" (stringify_metadata "s-7" 2000) +:+ newline;
     birthtimeMs := 2000 |}.

Definition header_only : fs := {[ "s-7" := header_log ]}.

(** The first twelve characters of the line of the entry, and the
    rest. *)
Definition cut_start : string := JsString.slice_to 12 (stringify_entry greeting).
Definition cut_rest : string := JsString.slice_from 12 (stringify_entry greeting).

Lemma torn_append_loses_only_its_entry_witness :
  valid_session_id "s-7" = true
  /\ header_only !! "s-7" = Some header_log
  /\ data header_log = String "#" (stringify_metadata "s-7" 2000) +:+ newline
  /\ stringify_entry greeting = cut_start +:+ cut_rest
  /\ cut_rest <> ""
  /\ getHistory "s-7"
       (<["s-7" := {| data := data header_log +:+ cut_start;
                      birthtimeMs := birthtimeMs header_log |}]> header_only)
     = getHistory "s-7" header_only
  /\ exists report files',
       repair "s-7" header_only = Ok (report, files')
       /\ repair "s-7"
            (<["s-7" := {| data := data header_log +:+ cut_start;
                           birthtimeMs := birthtimeMs header_log |}]>
               header_only)
          = Ok ({| repaired :=
                     (0 <? entriesLost report
                           + (if String.eqb cut_start "" then 0 else 1))%nat;
                   entriesRecovered := entriesRecovered report;
                   entriesLost :=
                     (entriesLost report
                      + (if String.eqb cut_start "" then 0 else 1))%nat |},
                files').
Proof.
  assert (valid_session_id "s-7" = true) as Hid by reflexivity.
  assert (header_only !! "s-7" = Some header_log) as Hf
    by (unfold header_only; apply lookup_singleton_eq).
  assert (data header_log
          = String "#" (stringify_metadata "s-7" 2000) +:+ newline) as Hdata
    by reflexivity.
  assert (stringify_entry greeting = cut_start +:+ cut_rest) as Hline
    by (by vm_compute).
  assert (cut_rest <> "") as Hrest by (by vm_compute).
  split; [exact Hid|]. split; [exact Hf|]. split; [exact Hdata|].
  split; [exact Hline|]. split; [exact Hrest|].
  exact (torn_append_loses_only_its_entry "s-7" header_only header_log _
           greeting cut_start cut_rest Hid Hf Hdata Hline Hrest).
Defined.

End HistoryWitnesses.

Module MemoryWitnesses.
Import JsString JsPath PathLaws.
Import BM25Index MemorySystem MemoryIndexing.
Import SearchLaws RecallLaws IndexingLaws DocumentLaws.

(** A memory without documents. *)
Definition blank_memory : MemorySystem.t :=
  {| config := DEFAULT_MEMORY_CONFIG; bm25Index := BM25Index.empty;
     notes := ∅ |}.

(** A memory with one note. *)
Definition one_note : MemorySystem.t :=
  {| config := DEFAULT_MEMORY_CONFIG;
     bm25Index :=
       BM25Index.addDocument "workspace/memory/ui.md" "workspace/memory/ui.md"
         "dark mode is preferred" 0 BM25Index.empty;
     notes := ∅ |}.

Lemma search_provenance_witness :
  reachable (bm25Index one_note)
  /\ (0 <= k1 (BM25Index.config (bm25Index one_note)))%R
  /\ (0 <= b (BM25Index.config (bm25Index one_note)) <= 1)%R
  /\ exists hits,
       search one_note 1000 "dark theme" 10
       = map (result_of (config one_note) 1000 (bm25Index one_note)
                (tokenize "dark theme")) hits
       /\ List.NoDup (map doc_id hits)
       /\ forall doc,
            In doc hits ->
            In doc (getAllDocuments (bm25Index one_note))
            /\ BM25Formula.mentions (tokenize "dark theme") doc = true
            /\ (0 < score (bm25Index one_note) doc (tokenize "dark theme"))%R.
Proof.
  assert (reachable (bm25Index one_note)) as Hreach
    by (apply reach_add, reach_create).
  assert (0 <= k1 (BM25Index.config (bm25Index one_note)))%R as Hk1
    by (simpl; lra).
  assert (0 <= b (BM25Index.config (bm25Index one_note)) <= 1)%R as Hb
    by (simpl; lra).
  split; [exact Hreach|]. split; [exact Hk1|]. split; [exact Hb|].
  exact (search_provenance one_note 1000 "dark theme" 10 Hreach Hk1 Hb).
Defined.



(** A workspace in the home directory of a user. *)
Definition user_workspace : Workspace.t :=
  {| Workspace.rootPath := "/home/u/.openclaw" |}.

(** A memory directory: a note, a directory with a note and a text
    file, and a note that cannot be read. *)
Definition memory_tree : node :=
  Directory (Some
    [ ("ui.md", File (Some ("dark mode is preferred", 1%R)));
      ("projects",
       Directory (Some
         [ ("rocq.md", File (Some ("proofs are checked", 2%R)));
           ("todo.txt", File (Some ("buy milk", 3%R))) ]));
      ("locked.md", File None) ]).

Lemma indexWorkspace_indexes_md_files_witness :
  isAbsolute "/srv/app" = true
  /\ isAbsolute (Workspace.rootPath user_workspace) = true
  /\ segments false (Workspace.rootPath user_workspace) <> []
  /\ well_named memory_tree
  /\ indexWorkspace "/srv/app" user_workspace (Some memory_tree) blank_memory
     = (length (md_files [] memory_tree),
        {| config := config blank_memory;
           bm25Index :=
             fold_left index_md (md_files [] memory_tree)
               (bm25Index blank_memory);
           notes := notes blank_memory |}).
Proof.
  assert (isAbsolute "/srv/app" = true) as Hcwd by reflexivity.
  assert (isAbsolute (Workspace.rootPath user_workspace) = true) as Ha
    by reflexivity.
  assert (segments false (Workspace.rootPath user_workspace) <> []) as Hroot
    by (by vm_compute).
  assert (well_named memory_tree) as Hwell by (by vm_compute).
  split; [exact Hcwd|]. split; [exact Ha|]. split; [exact Hroot|].
  split; [exact Hwell|].
  exact (indexWorkspace_indexes_md_files "/srv/app" user_workspace Hcwd Ha Hroot
           (Some memory_tree) blank_memory Hwell).
Defined.

Lemma addDocument_does_not_normalize_witness :
  isAbsolute "/srv/app" = true
  /\ segments false (resolve "/srv/app" [Workspace.rootPath user_workspace])
     <> []
  /\ names ["workspace"; "ui.md"]
  /\ ["workspace"; "ui.md"] <> []
  /\ JsMap.get "workspace/ui.md" (documents (bm25Index blank_memory)) = None
  /\ JsMap.get "./workspace/ui.md" (documents (bm25Index blank_memory)) = None
  /\ exists fullPath m1 m2,
       Workspace.resolve "/srv/app" user_workspace "workspace/ui.md"
       = inr fullPath
       /\ Workspace.resolve "/srv/app" user_workspace "./workspace/ui.md"
          = inr fullPath
       /\ addDocument "/srv/app" user_workspace (fun _ => None) 1000
            "workspace/ui.md" "dark mode" blank_memory = inr m1
       /\ addDocument "/srv/app" user_workspace (fun _ => None) 1000
            "./workspace/ui.md" "dark mode" m1 = inr m2
       /\ BM25Index.size (bm25Index m2)
          = S (S (BM25Index.size (bm25Index blank_memory))).
Proof.
  assert (isAbsolute "/srv/app" = true) as Hcwd by reflexivity.
  assert (segments false (resolve "/srv/app" [Workspace.rootPath user_workspace])
          <> []) as Hroot by (by vm_compute).
  assert (names ["workspace"; "ui.md"]) as Hl by (by repeat constructor).
  assert (["workspace"; "ui.md"] <> []) as Hne by done.
  assert (JsMap.get "workspace/ui.md" (documents (bm25Index blank_memory))
          = None) as H1 by reflexivity.
  assert (JsMap.get "./workspace/ui.md" (documents (bm25Index blank_memory))
          = None) as H2 by reflexivity.
  split; [exact Hcwd|]. split; [exact Hroot|]. split; [exact Hl|].
  split; [exact Hne|]. split; [exact H1|]. split; [exact H2|].
  exact (addDocument_does_not_normalize "/srv/app" user_workspace
           (fun _ => None) 1000 ["workspace"; "ui.md"] "dark mode" blank_memory
           Hcwd Hroot Hl Hne H1 H2).
Defined.

Lemma note_path_from_root_witness :
  isAbsolute "/srv/app" = true
  /\ isAbsolute (Workspace.rootPath user_workspace) = true
  /\ segments false (Workspace.rootPath user_workspace) <> []
  /\ relative "/srv/app" (Workspace.rootPath user_workspace)
       (JsPath.join [Workspace.memoryDir user_workspace; "facts-5000.md"])
     = note_path 5000
  /\ Workspace.contains "/srv/app" user_workspace
       (JsPath.join [Workspace.memoryDir user_workspace; "facts-5000.md"])
     = true
  /\ segments false
       (JsPath.join [Workspace.memoryDir user_workspace; "facts-5000.md"])
     = ["home"; "u"; ".openclaw"; "workspace"; "memory"; "facts-5000.md"].
Proof.
  assert (isAbsolute "/srv/app" = true) as Hcwd by reflexivity.
  assert (isAbsolute (Workspace.rootPath user_workspace) = true) as Ha
    by reflexivity.
  assert (segments false (Workspace.rootPath user_workspace) <> []) as Hroot
    by (by vm_compute).
  split; [exact Hcwd|]. split; [exact Ha|]. split; [exact Hroot|].
  exact (note_path_from_root "/srv/app" user_workspace 5000 Hcwd Ha Hroot).
Defined.

End MemoryWitnesses.
